(* ===== verification/_CoqProject ===== *)
-Q . S2P
Prelude.v
CMonad.v
Keeps.v
Simul.v
Checksum.v
TextUtil.v
DlList.v
HostEnv.v
FlashChip.v
FlsHw.v
FlsStatus.v
FlsDriver.v
FlsRead.v
FlsWrite.v
FlsAppend.v
FlsFast.v
FlsMisc.v
CrcHard.v
Storage.v
FlsStore.v
FlsBurst.v
FlsBoot.v
ParamData.v
Param.v
ParamImage.v
ParamSpec.v
ParamInit.v
ParamAccess.v
ParamProps.v
ParamUser.v
Efuse.v
EfuseSpec.v
EfuseProps.v
EfuseWitness.v
Fwup.v
FwupHeader.v
FwupSpec.v
FwupTask.v
FwupTaskSpec.v
FwupUpgrade.v
FwupProps.v
FwupWait.v
FwupRace.v
FwupWitness.v
SockFwup.v
SockStream.v
SockProps.v
SockWitness.v
WmMem.v
WmMemSpec.v
WmMemProps.v
WmMemHost.v
WlMbox.v
WlTimers.v
WlSched.v
WlTimersSpec.v
WlRefine.v
WlTiming.v
WlProps.v
WlLive.v
WlWorld.v
WlRequests.v
WlWitness.v
Uart.v
UartRing.v
UartTx.v
UartRx.v
UartIrq.v
UartRead.v
UartProps.v
UartRecv.v
UartInit.v
UartBoard.v
UartWitness.v
Dma.v
DmaProps.v
UartDma.v
UartMore.v
DmaWitness.v
