(* ===== verification/Prelude.v ===== *)
(** * Verification of the W800 SDK's persistence and upgrade core

    The WinnerMicro W800 is a Wi-Fi microcontroller; its SDK is
    [src/cores/w800/sdk].  This library models the part of the SDK that the
    board depends on to keep its settings and to replace its own program:
    the driver of the flash, the parameter manager and the factory records on
    top of it, the firmware updater with its network client, and what they
    use - the memory manager, the CRC unit, checksums, text conversions and
    the linked list; and the two drivers through which a board talks, the
    UART driver with the DMA driver under it, and the work-queue tasks with
    their timers.  Everything is a
    shallow embedding of the C code: a function of the program is a
    definition of the same name, executable, over an explicit state.

    ** The parts and how they call each other

<<
        wm_socket_fwup.c  (Sock..)   packs from the network
          |
        wm_fwup.c  (Fwup..)          image header, update task and its clients
          |     \        \
          |      \        list.h (DlList)     waiting line of the requests
          |   wm_param.c (Param..)             settings, two copies in flash
          |      |   wm_efuse.c (Efuse..)           factory records
          |      |     \
          |      |      wm_crypto_hard.c (CrcHard)    CRC unit
        wm_internal_fls.c (Fls..)              sector cache, protection, OTP
          |            \
        flash controller  wm_mem.c (WmMem..)   block headers, two heaps
          and chip              \
        (FlashChip)             malloc, pvPortMalloc (RawHeap)

        wm_uart.c  (Uart..)          ports, rings, messages, interrupts
          |      \        \
          |       \        list.h (DlList)     messages to send, and sent
          |     wm_dma.c (Dma..)               channels and their interrupt
        registers (UartRegs, DmaRegs)
>>

    - [Prelude] has the machine integers ([wrap], [u8], [u16], [u32], [s32]),
      bytes, lists as buffers ([slice], [memcpy_at], [byte_at]), arrays as
      functions up to [arr_eq], the tactics and the hint databases.
    - [CMonad] is the monad of C code.  A computation that blocks for ever,
      exhausts the fuel of a loop or touches memory it has no right to has no
      result; [wp m s Q] says that there is a result and that it satisfies
      [Q], so every theorem about [wp] is one of total correctness.
      [Keeps] is the corresponding partial judgement for framing.
    - [Checksum], [TextUtil]: [platform/common/utils/platform_utils.c].
    - [DlList]: [include/list.h], nodes in a store of [next] / [prev] pairs.
    - [FlashChip], [FlsHw], [FlsStatus], [FlsDriver], [FlsRead], [FlsWrite],
      [FlsAppend], [FlsFast], [FlsMisc]:
      [platform/drivers/internalflash/wm_internal_fls.c].  [FlsHw] holds the
      definitions of the command layer, [FlsDriver] those of the entry
      points; the other files prove what they do.  The state [fls E D] is the
      driver's statics ([inside_fls], [gsflscache], [gsSector], ...), the
      controller's registers with the chip [D], and the host [E].
    - [CrcHard]: the CRC operations of
      [platform/common/crypto/wm_crypto_hard.c].
    - [ParamData], [Param], [ParamImage], [ParamSpec], [ParamInit],
      [ParamAccess], [ParamProps], [ParamUser]:
      [platform/common/params/wm_param.c] and its headers.  [ParamData]
      computes sizes and offsets of the C structures from their declarations;
      [Param] has the operations; the state [par F] is [flash_param] as the
      bytes it is in memory, the partition numbers, the lock, and the storage
      [F].
    - [Efuse], [EfuseSpec], [EfuseProps], [EfuseWitness]:
      [platform/drivers/efuse/wm_efuse.c], the record of factory parameters
      that is kept twice in the boot sectors.  [Efuse] has the operations,
      [EfuseSpec] what a flash holds of a record ([ft_decode], [ft_boot]); the
      state [ft F] is the record in memory as the bytes it is, the CRC unit's
      driver, and the storage.
    - [Fwup], [FwupTask]: [platform/common/fwup/wm_fwup.c].  [Fwup] is what
      the task does with one request ([booter], the session's variables, the
      power-saving flag); [FwupTask] adds the addressed objects: the
      descriptor behind the pointer [fwup], the requests on the clients'
      stacks, the waiting list, the queue and the semaphores.  [FwupHeader],
      [FwupSpec], [FwupTaskSpec], [FwupUpgrade] and [FwupProps] are about one
      client at a time; [FwupWait] and [FwupRace] about any number of them;
      [FwupWitness] evaluates the theorems on a concrete board.
    - [SockFwup], [SockStream], [SockProps], [SockWitness]:
      [src/app/ota/wm_socket_fwup.c] and lwIP's [pbuf_copy_partial].  The
      state [sock F W] is the client's variables above the updater's state.
      [SockStream] has an ideal receiver that reads the stream byte by byte
      ([feed]) and what is to be done with the packs it sees ([serve]).
    - [WmMem], [WmMemSpec], [WmMemProps], [WmMemHost]:
      [platform/common/mem/wm_mem.c] as the release build compiles it.
    - [WlMbox], [WlTimers]: [platform/common/task/wm_wl_mbox.c],
      [wm_wl_task.c] and [wm_wl_timers.c], the work-queue tasks on which the
      host interface runs.  The state [wl E W] is the kernel's part
      [kst E W] - heap, world, mailboxes, messages - and the linked lists of
      timeouts.  [WlSched] is what the lists mean, [WlTimersSpec] and
      [WlRefine] prove that the code does that, [WlTiming], [WlProps] and
      [WlLive] are about when handlers and messages come, [WlRequests] about
      what becomes of a request; [WlWorld] and [WlWitness] evaluate them.
    - [Uart]: [platform/drivers/uart/wm_uart.c] but for DMA.  The state
      [uart E D W] is what the functions on one port see: the heap, the
      clients, the registers, the port, and the nodes and messages of its
      lists.  [UartRing] is what a ring of received bytes holds, [UartTx] what
      the lists of messages are, [UartRx] and [UartIrq] what the interrupt
      handlers do, [UartRead] and [UartRecv] the reader and the interrupt,
      [UartProps] the history of a port, [UartInit] its configuration and
      initialisation; [UartBoard] has the six ports and the interrupt that four
      of them share, [UartDma] sending by DMA, [UartMore] the remaining
      operations; [UartWitness] evaluates them.
    - [Dma], [DmaProps], [DmaWitness]: [platform/drivers/dma/wm_dma.c].  The
      state [dma D F W] has the functions of the clients as values [F] that a
      parameter interprets, since they call the driver back.
    - [Simul] is stepwise refinement of one computation by another, the tool
      of [WlRefine].

    ** Interfaces

    A part is verified against what it is promised, and the promise is proved
    of the part below: [FlashChip] / [FlashChipLaws] (the chip; [NorChip.chip]
    is a concrete one), [Host] / [HostLaws] (allocation and semaphores;
    [WmMemHost] proves them of the memory manager), [FlashStore] /
    [FlashStoreLaws] and [FlashBurst] / [FlashBurstLaws] (what the parameter
    manager and the updater ask of the flash; [FlsStore] and [FlsBurst] prove
    them of the driver), [FlashBoot] / [FlashBootLaws] (unlocking the boot
    sectors, for the factory records; [FlsBoot] proves them of the driver),
    [CrcEngine] / [CrcEngineLaws] (the CRC unit;
    [SoftCrc.engine] is the software CRC), [RawHeap] / [RawHeapLaws] (the two
    heaps under the memory manager), [Board] (tasks, queues, random numbers,
    and the Wi-Fi library, whose sources are not in the repository),
    [HostBlocks] (which blocks of the heap are in use; proved of the memory
    manager), [World] / [WorldLaws] / [WorldLive] (queues, the clock, the code
    behind the function pointers given to a work-queue task),
    [UartRegs] / [UartRegsLaws] (the registers of a port, with ghost histories
    of the bytes received and sent), [UartClient] (the functions that clients
    of a port register), [UartMem] / [UartMemLaws] (where list heads are, and
    what is in front of a block), [DmaRegs] / [DmaLaws] (the DMA controller),
    [Statics] and [FwupLocals] (addresses of static objects, the contents of
    uninitialised locals).  A word read from uninitialised memory is thus
    always some word the theorem quantifies over.

    ** What the theorems show

    - Flash: a write replaces the addressed bytes and nothing else, whatever
      the alignment ([tls_fls_write_splices]); a read delivers exactly the
      bytes ([tls_fls_read_exact]); a power cut at any command of a write
      leaves the sectors not concerned alone ([tls_fls_write_power_cut],
      through the ghost [history] of the chip); programming without erasing
      ands ([tls_fls_write_without_erase_ands]); a streaming session writes
      the concatenation of its chunks ([fast_write_session]) but a second
      session flushes what the first left over ([fast_write_stale_sector]).
      When memory is short the driver says [OK] and does nothing: the
      theorems state both outcomes.
    - Parameters: from two partitions that are as the firmware writes them or
      recognisably damaged, start-up ends, loads the newest intact one or the
      defaults and repairs the others ([param_init_recovers]; a partition with
      the magic number and a length or partition number that this firmware
      does not write is left out).  A set to the flash survives reboots except
      when the count of updates, 16 bits wide, wraps
      ([param_set_survives_reboot] states both), and leaves the old parameters
      when the power is cut during it ([param_set_power_cut]).  In memory what
      was set is read back and members do not interfere ([param_set_get]),
      but for strings longer than their member ([param_name_copy]).  These
      theorems are about the normal mode ([updp_mode] 0); in the other one
      sets go to the user's defaults and nothing is written.
    - Factory records: start-up loads the run-time copy, else the backup,
      else blanks ([efuse_init_loads]); a set on a module whose memory and
      flash agree puts the edited record into both copies, from where it is
      loaded and delivered after a restart ([efuse_set_survives_restart]; an
      unusable address is replaced when it is read); a power cut leaves the old
      record or the new one ([efuse_set_power_cut]); every set keeps the
      record well formed ([efuse_set_typed]); a record without extension
      loses its frequency error ([efuse_old_record_loses_freq_err]); what is
      read is usable ([efuse_mac_usable], [efuse_freq_err_clamped]).
    - Update: an acceptable image, cut into requests in any way, ends up in
      the flash byte for byte and the boot flag is written exactly if its CRC
      is right ([fwup_image_installed]); a bad header leaves the flash alone
      ([fwup_bad_header_harmless]); what the header check accepts, and the
      holes in it ([header_check_exact], [header_check_holes]).  Interleaved
      clients: the code moves like the abstract waiting line
      ([fwup_line_refines]), keeps its ring of requests
      ([fwup_race_invariant]), serves everybody who comes alone
      ([fwup_serial_served]) and can lose a wake-up otherwise
      ([fwup_lost_wakeup]).
    - Update over the network: on packet buffers that do not end in the head
      of a pack and bring no bad pack, [socket_fwup_recv] refines the ideal
      receiver ([socket_recv_refines]), so that an image sent in any packs and
      such buffers is installed ([socket_image_installed], which composes the
      client with the updater).  A buffer that ends in the head of a pack is
      misread ([socket_cut_head_misread]); a pack that is too long hangs the
      caller ([socket_long_pack_hangs]).
    - Memory: the manager refines an abstract allocator for every client
      ([mem_refines]); reallocation, overflow of lengths and the first call
      are characterised separately.
    - Work-queue tasks: the code is its schedule ([wl_tasks_refine]); a
      waiting task gets its message ([wl_fetch_returns]) if handlers start no
      timer of delay 0 - one that starts itself again so keeps the task from
      its mailbox - and none beyond the limit; handlers are not
      early but for rounding ([timers_never_early]) unless a delay overflows
      ([long_delay_fires_early]: the first timer of a list is then called
      after 4294967 ticks at most); a request starts its timer
      ([timer_message_served]) or is lost without a report
      ([add_timeout_lost], [static_message_lost]).
    - UART: what is written is sent in order and once, and its memory comes
      back ([uart_sends_in_order], [uart_drains]); what the interrupts make of
      the queue of received bytes ([uart0_appends],
      [uart1_packet_and_escape]); without hardware flow control the reader and
      the interrupt of port 0 are a queue without a lock
      ([uart0_read_is_a_queue]), those of the other
      ports are not ([uart1_read_race]); the shared interrupt finds its port
      ([uart24_serves_first_pending]); an initialised port works
      ([uart_init_works]) at its rate ([baud_divisor_exact]).
    - DMA: channels are a pool ([dma_channels_are_a_pool]) but for tasks that
      ask at the same time ([dma_request_race]); a release and the shared
      interrupt harm other channels ([dma_free_clears_all],
      [dma_shared_starves]); a transfer on port 1, the UART that the source
      says supports it, ends as it should ([uart_dma_transfer], which composes
      the two drivers) whatever else is pending, but for the channels that the
      shared handler looks at before.
    - Checksums: the table-driven CRC-8, the 32-equation CRC-32 and the
      complement of the peripheral's CRC over blocks of at most 0xFFFF bytes
      agree with bit-serial registers
      ([crc8_protects], [get_crc32_ieee], [crc_blocks_get_crc32]); of a longer
      block the peripheral sees a part ([crc_update_truncates]).
    - Text and lists: round trips and errors of the address parser, the
      linked list against sequences ([strtoip_iptostr], [dl_list_refines]).

    ** Fuel

    Loops of the program that are bounded by their own counters get as fuel
    a count computed from their arguments ([len / 4096 + 2] sectors,
    [len / 256 + 2] pages, the length of a list): the specification of each
    loop proves it enough, [CMonad.wp_loop] by a measure.  Four other loops depend
    on the environment and take their fuel as an argument: waiting for the
    scheduler in [tls_fwup_request_sync] (two rounds are enough when nobody
    else interferes; the theorems hold for every larger number), drawing a
    session number other than 0 (hypothesis [rand_live]: the generator
    yields one within the fuel), counting a list ([dl_list_len]), and the
    rounds of a task that waits for a message ([wl_fetch_returns] proves that
    some number is enough).  The loop of [socket_fwup_recv] needs as many
    rounds as the packet has bytes, which is proved; where it does not end,
    that is proved for every fuel.  The loops over a UART's lists of
    messages get as many rounds as there are nodes, heads included; waiting
    for a DMA channel to stop takes its fuel as an argument, and [off_wait]
    looks are enough; waiting for a transfer is given up after 501 ticks
    ([dma_wait_returns]).

    ** Not modelled

    - [raw_malloc_some], the law of the two heaps under the memory manager,
      does not hold of the kernel's [heap_2.c] for sizes within 16 bytes of
      4 gigabytes, where its own arithmetic wraps.
    - The key and the result of the CRC unit are two fields of the model;
      the unit has one register for both, and the driver writes the key
      before every computation and reads the result right after it.
    - Timing: registers that the driver polls are ready when it looks; delays
      do nothing.  Tasks interleave at the points where they block or where
      [FwupRace.step] and the comment there say so; the functions of the work
      queue run undisturbed, and what happens while a task waits is part of
      its world.
    - Of the UART and DMA drivers: the critical sections are taken to exclude
      the interrupts (sending is not interleaved with its handler; reading,
      which has no critical section, is); the statistics but for the count of
      bytes sent; the priority of the DMA interrupts.
    - The power-cut theorems cut between two commands of the controller, not
      inside one.
    - The interrupt enabling in [tls_crypto_init], which [wm_efuse.c] calls.
    - Of the network stack only the copying out of packet buffers; that it
      delivers the bytes of a connection in order is assumed in [deliver].
    - The two-copy configuration of the parameters
      ([USE_TWO_RAM_FOR_PARAMETER]) and the debug build of the memory manager
      ([WM_MEM_DEBUG]), both compiled out.
    - Of [platform_utils.c] the debug dumps and the front ends of [sscanf] and
      [atoi]; of [wm_crypto_hard.c] everything but the CRC unit, since ciphers
      and digests are computed by the peripheral.
    - The peripheral drivers (register programming), the kernel, the
      network and Bluetooth stacks and the applications, which are third
      party or glue; the Wi-Fi library, which is binary. *)
From Stdlib Require Export ZArith Lia Bool List.
From stdpp Require Export base list numbers option tactics.
From stdpp Require Export gmap.

#[global] Open Scope Z_scope.
#[global] Set Default Proof Using "Type*".

(** Linear arithmetic with division and remainder by constants. *)
Ltac dlia := Z.div_mod_to_equations; lia.

(** ** Machine integers *)

(** [wrap w z] is the value a [w]-bit unsigned C object holds after being
    assigned [z]. *)
Definition wrap (w z : Z) : Z := z mod 2 ^ w.

Declare Scope cint_scope.
Delimit Scope cint_scope with cint.
Abbreviation u8 := (wrap 8).
Abbreviation u16 := (wrap 16).
Abbreviation u32 := (wrap 32).

(** The value a signed 32-bit [int] holds after being assigned [z]. *)
Definition s32 (z : Z) : Z := (z + 2 ^ 31) mod 2 ^ 32 - 2 ^ 31.

(** C truth value of a boolean test. *)
Definition b2z (b : bool) : Z := if b then 1 else 0.

Infix "&&&" := Z.land (at level 40, left associativity) : cint_scope.
Infix "|||" := Z.lor (at level 50, left associativity) : cint_scope.
Infix "^^^" := Z.lxor (at level 45, left associativity) : cint_scope.
#[global] Open Scope cint_scope.

Lemma wrap_bounds w z : 0 <= w -> 0 <= wrap w z < 2 ^ w.
Proof. intros Hw. apply Z.mod_pos_bound, Z.pow_pos_nonneg; lia. Qed.

Lemma wrap_id w z : 0 <= z < 2 ^ w -> wrap w z = z.
Proof. apply Z.mod_small. Qed.

Lemma wrap_wrap w z : wrap w (wrap w z) = wrap w z.
Proof. apply Zmod_mod. Qed.

Lemma wrap_add_l w a b : wrap w (wrap w a + b) = wrap w (a + b).
Proof. unfold wrap. by rewrite Zplus_mod_idemp_l. Qed.

Lemma wrap_add_r w a b : wrap w (a + wrap w b) = wrap w (a + b).
Proof. unfold wrap. by rewrite Zplus_mod_idemp_r. Qed.

Lemma wrap_sub_l w a b : wrap w (wrap w a - b) = wrap w (a - b).
Proof. unfold wrap. by rewrite Zminus_mod_idemp_l. Qed.

Lemma wrap_sub_r w a b : wrap w (a - wrap w b) = wrap w (a - b).
Proof. unfold wrap. by rewrite Zminus_mod_idemp_r. Qed.

Lemma wrap_land_ones w z : 0 <= w -> wrap w z = Z.land z (Z.ones w).
Proof. intros Hw. unfold wrap. by rewrite Z.land_ones. Qed.

Create Rewrite HintDb wrap.
#[export] Hint Rewrite wrap_wrap wrap_add_l wrap_add_r wrap_sub_l wrap_sub_r : wrap.

Lemma s32_id z : - 2 ^ 31 <= z < 2 ^ 31 -> s32 z = z.
Proof. intros H. unfold s32. rewrite Z.mod_small; lia. Qed.

(** Bitwise operations stay within the width of their operands. *)
Lemma bits_bound n z :
  0 <= n -> 0 <= z -> (forall i, n <= i -> Z.testbit z i = false) -> z < 2 ^ n.
Proof.
  intros Hn Hz Hbits. destruct (Z.eq_dec z 0) as [->|Hz0]; [apply Z.pow_pos_nonneg; lia|].
  apply Z.log2_lt_pow2; [lia|]. destruct (Z.lt_ge_cases (Z.log2 z) n) as [|Hge]; [done|].
  specialize (Hbits (Z.log2 z) Hge). rewrite Z.bit_log2 in Hbits by lia. done.
Qed.

Lemma testbit_high n z i : 0 <= z < 2 ^ n -> n <= i -> Z.testbit z i = false.
Proof.
  intros Hz Hi. destruct (Z.eq_dec z 0) as [->|Hz0]; [apply Z.testbit_0_l|].
  apply Z.bits_above_log2; [lia|].
  apply Z.lt_le_trans with n; [|done]. apply Z.log2_lt_pow2; lia.
Qed.

Lemma lxor_bounds n a b : 0 <= n -> 0 <= a < 2 ^ n -> 0 <= b < 2 ^ n -> 0 <= Z.lxor a b < 2 ^ n.
Proof.
  intros Hn Ha Hb. assert (0 <= Z.lxor a b) by (apply Z.lxor_nonneg; lia). split; [done|].
  apply bits_bound; [done..|]. intros i Hi. by rewrite Z.lxor_spec, !(testbit_high n) by done.
Qed.

Lemma lor_bounds n a b : 0 <= n -> 0 <= a < 2 ^ n -> 0 <= b < 2 ^ n -> 0 <= Z.lor a b < 2 ^ n.
Proof.
  intros Hn Ha Hb. assert (0 <= Z.lor a b) by (apply Z.lor_nonneg; lia). split; [done|].
  apply bits_bound; [done..|]. intros i Hi. by rewrite Z.lor_spec, !(testbit_high n) by done.
Qed.

Lemma land_bounds_l n a b : 0 <= n -> 0 <= a < 2 ^ n -> 0 <= Z.land a b < 2 ^ n.
Proof.
  intros Hn Ha. assert (0 <= Z.land a b) by (apply Z.land_nonneg; lia). split; [done|].
  apply bits_bound; [done..|]. intros i Hi. by rewrite Z.land_spec, (testbit_high n a) by done.
Qed.

Lemma bits_eq_bounded n a b :
  0 <= a < 2 ^ n -> 0 <= b < 2 ^ n ->
  (forall i, 0 <= i < n -> Z.testbit a i = Z.testbit b i) -> a = b.
Proof.
  intros Ha Hb Heq. apply Z.bits_inj'. intros i Hi.
  destruct (Z.lt_ge_cases i n); [apply Heq; lia|]. by rewrite !(testbit_high n) by done.
Qed.

(** ** Bytes and little-endian words *)

Definition byte_ok (b : Z) : Prop := 0 <= b < 256.
Abbreviation bytes_ok := (Forall byte_ok).

#[global] Instance byte_ok_dec b : Decision (byte_ok b).
Proof. unfold byte_ok. apply _. Defined.

(** The bytes of a value in memory order, and the value of bytes read back. *)
Fixpoint le_bytes (n : nat) (z : Z) : list Z :=
  match n with
  | O => []
  | S n => z mod 256 :: le_bytes n (z / 256)
  end.

Fixpoint le_val (l : list Z) : Z :=
  match l with
  | [] => 0
  | b :: l => b + 256 * le_val l
  end.

Lemma length_le_bytes n z : length (le_bytes n z) = n.
Proof. revert z. induction n as [|n IH]; intros z; simpl; [done|by rewrite IH]. Qed.

Lemma le_bytes_ok n z : bytes_ok (le_bytes n z).
Proof.
  revert z. induction n as [|n IH]; intros z; simpl; constructor; [|done].
  unfold byte_ok. pose proof (Z.mod_pos_bound z 256); lia.
Qed.

Lemma le_val_bytes n z : le_val (le_bytes n z) = z mod 2 ^ (8 * Z.of_nat n).
Proof.
  revert z. induction n as [|n IH]; intros z; [by rewrite Z.mod_1_r|].
  cbn [le_bytes le_val]. rewrite IH.
  replace (2 ^ (8 * Z.of_nat (S n))) with (256 * 2 ^ (8 * Z.of_nat n))
    by (rewrite <- (Z.pow_add_r 2 8); [f_equal; lia|lia|lia]).
  rewrite Z.rem_mul_r; [lia|lia|]. apply Z.pow_pos_nonneg; lia.
Qed.

Lemma le_bytes_val l : bytes_ok l -> le_bytes (length l) (le_val l) = l.
Proof.
  induction 1 as [|b l Hb _ IH]; [done|]. unfold byte_ok in Hb.
  cbn [le_val le_bytes length].
  replace ((b + 256 * le_val l) mod 256) with b
    by (rewrite (Z.mul_comm 256), Z.mod_add, Z.mod_small; lia).
  replace ((b + 256 * le_val l) / 256) with (le_val l)
    by (rewrite (Z.mul_comm 256), Z.div_add, Z.div_small; lia).
  by rewrite IH.
Qed.

Lemma le_val_bounds l : bytes_ok l -> 0 <= le_val l < 2 ^ (8 * Z.of_nat (length l)).
Proof.
  intros Hl. rewrite <- (le_bytes_val l Hl) at 1 2. rewrite le_val_bytes.
  apply Z.mod_pos_bound, Z.pow_pos_nonneg; lia.
Qed.

Lemma le_val_inj l1 l2 :
  bytes_ok l1 -> bytes_ok l2 -> length l1 = length l2 -> le_val l1 = le_val l2 -> l1 = l2.
Proof.
  intros H1 H2 Hlen Heq. rewrite <- (le_bytes_val l1), <- (le_bytes_val l2) by done.
  by rewrite Hlen, Heq.
Qed.

(** ** Lists as C buffers *)

(** The byte at a C index (0 outside the buffer). *)
Definition byte_at (l : list Z) (i : Z) : Z := nth (Z.to_nat i) l 0.

(** [slice off n l]: the [n] bytes at [off]; [memcpy_at off src dst]: [dst]
    after [memcpy(dst + off, src, length src)], for a copy that fits. *)
Definition slice (off n : Z) (l : list Z) : list Z := take (Z.to_nat n) (drop (Z.to_nat off) l).

Definition memcpy_at (off : Z) (src dst : list Z) : list Z := list_inserts (Z.to_nat off) src dst.

Abbreviation zlen l := (Z.of_nat (length l)) (only parsing).

Lemma byte_at_lookup (l : list Z) i x : 0 <= i -> l !! Z.to_nat i = Some x -> byte_at l i = x.
Proof. intros Hi Hl. unfold byte_at. by rewrite nth_lookup, Hl. Qed.

Lemma lookup_byte_at (l : list Z) i : 0 <= i < zlen l -> l !! Z.to_nat i = Some (byte_at l i).
Proof.
  intros Hi. destruct (lookup_lt_is_Some_2 l (Z.to_nat i)) as [x Hx]; [lia|].
  by rewrite (byte_at_lookup l i x) by (done || lia).
Qed.

Lemma byte_at_out (l : list Z) i : zlen l <= i -> byte_at l i = 0.
Proof. intros Hi. unfold byte_at. apply nth_overflow. lia. Qed.

Lemma byte_at_ok l i : bytes_ok l -> byte_ok (byte_at l i).
Proof.
  intros Hl. unfold byte_at. destruct (decide (Z.to_nat i < length l)%nat) as [Hi|Hi].
  - by apply Forall_nth.
  - rewrite nth_overflow by lia. unfold byte_ok; lia.
Qed.

Lemma byte_list_eq (l1 l2 : list Z) :
  length l1 = length l2 -> (forall i, 0 <= i < zlen l1 -> byte_at l1 i = byte_at l2 i) -> l1 = l2.
Proof.
  intros Hlen Heq. apply (nth_ext _ _ 0 0); [done|]. intros n Hn.
  specialize (Heq (Z.of_nat n)). unfold byte_at in Heq. rewrite Nat2Z.id in Heq. apply Heq. lia.
Qed.

Lemma length_slice off n (l : list Z) :
  0 <= off -> 0 <= n -> off + n <= zlen l -> length (slice off n l) = Z.to_nat n.
Proof. intros. unfold slice. rewrite length_take, length_drop. lia. Qed.

Lemma byte_at_slice off n (l : list Z) i :
  0 <= off -> 0 <= i < n -> byte_at (slice off n l) i = byte_at l (off + i).
Proof.
  intros Hoff Hi. unfold slice, byte_at. rewrite !nth_lookup.
  rewrite lookup_take_lt, lookup_drop by lia. do 2 f_equal. lia.
Qed.

Lemma slice_all n (l : list Z) : n = zlen l -> slice 0 n l = l.
Proof. intros ->. unfold slice. rewrite Nat2Z.id. simpl. by rewrite firstn_all. Qed.

Lemma slice_bytes_ok off n l : bytes_ok l -> bytes_ok (slice off n l).
Proof. intros Hl. apply Forall_take, Forall_drop, Hl. Qed.

Lemma length_memcpy_at off src dst : length (memcpy_at off src dst) = length dst.
Proof. apply length_inserts. Qed.

Lemma byte_at_memcpy off src dst i :
  0 <= off -> off + zlen src <= zlen dst -> 0 <= i ->
  byte_at (memcpy_at off src dst) i =
  if (off <=? i) && (i <? off + zlen src) then byte_at src (i - off) else byte_at dst i.
Proof.
  intros Hoff Hfit Hi. unfold memcpy_at, byte_at. rewrite !nth_lookup.
  destruct (Z.leb_spec off i); simpl; [destruct (Z.ltb_spec i (off + zlen src)); simpl|].
  - rewrite list_lookup_inserts by lia. do 2 f_equal. lia.
  - rewrite list_lookup_inserts_ge by lia. done.
  - rewrite list_lookup_inserts_lt by lia. done.
Qed.

(** Two copies, one behind the other, are one copy. *)
Lemma memcpy_at_app off l1 l2 dst :
  0 <= off -> off + zlen l1 + zlen l2 <= zlen dst ->
  memcpy_at (off + zlen l1) l2 (memcpy_at off l1 dst) = memcpy_at off (l1 ++ l2) dst.
Proof.
  intros Hoff Hfit. apply byte_list_eq; [by rewrite !length_memcpy_at|].
  rewrite !length_memcpy_at. intros i Hi.
  rewrite !byte_at_memcpy by (rewrite ?length_memcpy_at, ?length_app; lia).
  rewrite length_app. destruct (Z.leb_spec off i), (Z.leb_spec (off + zlen l1) i),
    (Z.ltb_spec i (off + zlen l1)), (Z.ltb_spec i (off + zlen l1 + zlen l2)),
    (Z.ltb_spec i (off + Z.of_nat (length l1 + length l2))); simpl; try lia; try done.
  - unfold byte_at. rewrite app_nth2 by lia. f_equal. lia.
  - unfold byte_at. by rewrite app_nth1 by lia.
Qed.

(** A copy hides what a copy of the same length put there before. *)
Lemma memcpy_at_hide off l1 l2 dst :
  0 <= off -> length l1 = length l2 -> off + zlen l1 <= zlen dst ->
  memcpy_at off l2 (memcpy_at off l1 dst) = memcpy_at off l2 dst.
Proof.
  intros Hoff Hlen Hfit. apply byte_list_eq; [by rewrite !length_memcpy_at|].
  rewrite !length_memcpy_at. intros i Hi.
  rewrite !byte_at_memcpy by (rewrite ?length_memcpy_at; lia).
  rewrite Hlen. by case_match.
Qed.

Lemma memcpy_at_all l dst : length l = length dst -> memcpy_at 0 l dst = l.
Proof.
  intros Hlen. apply byte_list_eq; [by rewrite length_memcpy_at|]. rewrite length_memcpy_at. intros i Hi.
  rewrite byte_at_memcpy by lia. rewrite (proj2 (Z.leb_le _ _)), (proj2 (Z.ltb_lt _ _)) by lia.
  simpl. by rewrite Z.sub_0_r.
Qed.

Lemma take_memcpy_at n l dst : n = length l -> (n <= length dst)%nat -> take n (memcpy_at 0 l dst) = l.
Proof.
  intros -> Hfit. apply byte_list_eq; [rewrite length_take, length_memcpy_at; lia|].
  rewrite length_take, length_memcpy_at. intros i Hi.
  replace (byte_at (take (length l) (memcpy_at 0 l dst)) i) with (byte_at (memcpy_at 0 l dst) i).
  - rewrite byte_at_memcpy by lia. rewrite (proj2 (Z.leb_le _ _)), (proj2 (Z.ltb_lt _ _)) by lia.
    simpl. by rewrite Z.sub_0_r.
  - unfold byte_at. rewrite !nth_lookup, lookup_take_lt by lia. done.
Qed.

Lemma slice_app off n m (l : list Z) :
  0 <= off -> 0 <= n -> 0 <= m -> slice off (n + m) l = slice off n l ++ slice (off + n) m l.
Proof.
  intros. unfold slice. rewrite !Z2Nat.inj_add by lia. rewrite <- drop_drop. apply eq_sym, take_take_drop.
Qed.

Lemma memcpy_at_nil off dst : memcpy_at off [] dst = dst.
Proof. done. Qed.

Lemma memcpy_bytes_ok off src dst : bytes_ok src -> bytes_ok dst -> bytes_ok (memcpy_at off src dst).
Proof.
  intros Hs Hd. rewrite Forall_lookup in *. intros i x Hx. unfold memcpy_at in Hx.
  apply list_lookup_inserts_Some in Hx as [[_ Hx]|(_ & _ & Hx)]; eauto.
Qed.

#[export] Hint Resolve byte_at_ok slice_bytes_ok memcpy_bytes_ok le_bytes_ok : core.

(** ** Byte arrays addressed by an integer *)

(** Contents of a memory seen through a total read function, and the
    equivalence that compares them address by address. *)
Definition arr_eq (f g : Z -> Z) : Prop := forall a, f a = g a.
Infix "≡ₐ" := arr_eq (at level 70).

#[global] Instance arr_eq_equiv : Equivalence arr_eq.
Proof.
  split; [by intros f a|by intros f g H a|].
  intros f g h H1 H2 a. by rewrite H1.
Qed.

(** Bytes [off, off + n) and the memory with [l] stored at [off]. *)
Definition range (f : Z -> Z) (off n : Z) : list Z := f <$> seqZ off n.

Definition overlay (f : Z -> Z) (off : Z) (l : list Z) : Z -> Z := fun a =>
  if (off <=? a) && (a <? off + zlen l) then byte_at l (a - off) else f a.

#[global] Instance range_proper : Proper (arr_eq ==> eq ==> eq ==> eq) range.
Proof. intros f g H o ? <- n ? <-. unfold range. apply list_fmap_ext. intros. apply H. Qed.

#[global] Instance overlay_proper : Proper (arr_eq ==> eq ==> eq ==> arr_eq) overlay.
Proof. intros f g H o ? <- n ? <- a. unfold overlay. by rewrite H. Qed.

Lemma length_range f off n : length (range f off n) = Z.to_nat n.
Proof. unfold range. by rewrite length_fmap, length_seqZ. Qed.

Lemma byte_at_range f off n i : 0 <= i < n -> byte_at (range f off n) i = f (off + i).
Proof.
  intros Hi. apply byte_at_lookup; [lia|]. unfold range.
  rewrite list_lookup_fmap, lookup_seqZ_lt by lia. simpl. do 2 f_equal. lia.
Qed.

Lemma range_app f off n m : 0 <= n -> 0 <= m -> range f off (n + m) = range f off n ++ range f (off + n) m.
Proof. intros. unfold range. rewrite seqZ_app by lia. apply fmap_app. Qed.

Lemma range_ext f g off n :
  (forall a, off <= a < off + n -> f a = g a) -> range f off n = range g off n.
Proof.
  intros H. apply byte_list_eq; [by rewrite !length_range|].
  rewrite length_range. intros i Hi. rewrite !byte_at_range by lia. apply H. lia.
Qed.

Lemma slice_range f off n o m :
  0 <= o -> 0 <= m -> o + m <= n -> slice o m (range f off n) = range f (off + o) m.
Proof.
  intros Ho Hm Hn. apply byte_list_eq.
  - rewrite length_slice, length_range; rewrite ?length_range; lia.
  - intros i Hi. rewrite length_slice in Hi by (rewrite ?length_range; lia).
    rewrite byte_at_slice, !byte_at_range by lia. f_equal. lia.
Qed.

Lemma take_range f off n m : 0 <= m <= n -> take (Z.to_nat m) (range f off n) = range f off m.
Proof.
  intros Hm. pose proof (slice_range f off n 0 m ltac:(lia) ltac:(lia) ltac:(lia)) as E.
  unfold slice in E. simpl in E. by rewrite Z.add_0_r in E.
Qed.

Lemma overlay_in f off l a : off <= a < off + zlen l -> overlay f off l a = byte_at l (a - off).
Proof. intros H. unfold overlay. by rewrite (proj2 (Z.leb_le _ _)), (proj2 (Z.ltb_lt _ _)) by lia. Qed.

Lemma overlay_out f off l a : a < off \/ off + zlen l <= a -> overlay f off l a = f a.
Proof.
  intros H. unfold overlay.
  destruct (Z.leb_spec off a), (Z.ltb_spec a (off + zlen l)); simpl; (done || lia).
Qed.

Lemma range_overlay f off l : range (overlay f off l) off (zlen l) = l.
Proof.
  apply byte_list_eq; [rewrite length_range; lia|]. rewrite length_range. intros i Hi.
  rewrite byte_at_range, overlay_in by lia. f_equal. lia.
Qed.

Lemma range_overlay_out f off l o n :
  o + n <= off \/ off + zlen l <= o -> range (overlay f off l) o n = range f o n.
Proof. intros H. apply range_ext. intros a Ha. apply overlay_out. lia. Qed.

Lemma overlay_app f off l1 l2 :
  overlay (overlay f off l1) (off + zlen l1) l2 ≡ₐ overlay f off (l1 ++ l2).
Proof.
  intros a. destruct (decide (off + zlen l1 <= a < off + zlen l1 + zlen l2)) as [H2|H2].
  - rewrite overlay_in, overlay_in by (rewrite ?length_app; lia).
    unfold byte_at. rewrite app_nth2 by lia. f_equal. lia.
  - rewrite overlay_out by lia.
    destruct (decide (off <= a < off + zlen l1)) as [H1|H1].
    + rewrite !overlay_in by (rewrite ?length_app; lia).
      unfold byte_at. rewrite app_nth1 by lia. done.
    + by rewrite !overlay_out by (rewrite ?length_app; lia).
Qed.

Lemma overlay_nil f off : overlay f off [] ≡ₐ f.
Proof. intros a. apply overlay_out. simpl. lia. Qed.
