(* ===== verification/CMonad.v ===== *)
(** * Stateful C code as a state monad with total-correctness reasoning

    [M S A] is code over a state [S] that returns an [A].  A computation that
    blocks for ever on a semaphore, runs out of loop fuel, or leaves the
    memory it may touch has no result ([None]).  [wp m s Q] says that [m]
    started in [s] returns, and that [Q] holds of what it returns: a proved
    [wp] is never vacuous on a body that does not return. *)
From S2P Require Import Prelude.

Definition M (S A : Type) : Type := S -> option (A * S).

#[global] Instance M_ret {S} : MRet (M S) := fun A a s => Some (a, s).
#[global] Instance M_bind {S} : MBind (M S) := fun A B k m s =>
  match m s with
  | Some (a, s') => k a s'
  | None => None
  end.

Definition gets {S A} (f : S -> A) : M S A := fun s => Some (f s, s).
Definition modify {S} (f : S -> S) : M S unit := fun s => Some (tt, f s).
Definition stuck {S A} : M S A := fun _ => None.

(** An access that must hit something. *)
Definition must {S A} (o : option A) : M S A := match o with Some a => mret a | None => stuck end.

(** Code on a part [T] of a larger state [S]. *)
Definition zoom {S T A} (sel : S -> T) (upd : T -> S -> S) (m : M T A) : M S A := fun s =>
  match m (sel s) with
  | Some (a, t) => Some (a, upd t s)
  | None => None
  end.

(** [for (i = from; i < from + n; i++) body(i)] *)
Fixpoint mfor {S} (n : nat) (i : Z) (body : Z -> M S unit) : M S unit :=
  match n with
  | O => mret tt
  | Datatypes.S n => body i ;; mfor n (i + 1) body
  end.

(** A loop whose body says whether to go round again ([inl], with the new
    loop variables) or to leave ([inr]); no result when the fuel runs out. *)
Fixpoint mloop {S X A} (fuel : nat) (body : X -> M S (X + A)) (x : X) : M S A :=
  match fuel with
  | O => stuck
  | Datatypes.S fuel =>
      r ← body x;
      match r with
      | inl x => mloop fuel body x
      | inr a => mret a
      end
  end.

Section wp.
Context {S : Type}.
Implicit Types s : S.

Definition wp {A} (m : M S A) (s : S) (Q : A -> S -> Prop) : Prop :=
  match m s with
  | Some (a, s') => Q a s'
  | None => False
  end.

Lemma wp_run {A} (m : M S A) s Q :
  wp m s Q <-> exists a s', m s = Some (a, s') /\ Q a s'.
Proof.
  unfold wp. destruct (m s) as [[a s']|]; split.
  - intros H. by exists a, s'.
  - intros (? & ? & [= <- <-] & H). done.
  - done.
  - by intros (? & ? & ? & _).
Qed.

Lemma wp_eq {A} (m : M S A) s a s' Q : m s = Some (a, s') -> Q a s' -> wp m s Q.
Proof. intros H HQ. unfold wp. by rewrite H. Qed.

Lemma wp_same {A} (m m' : M S A) s Q : m s = m' s -> wp m' s Q -> wp m s Q.
Proof. unfold wp. by intros ->. Qed.

Lemma wp_mono {A} (m : M S A) s (Q R : A -> S -> Prop) :
  wp m s Q -> (forall a s', Q a s' -> R a s') -> wp m s R.
Proof. unfold wp. destruct (m s) as [[a s']|]; [|done]. auto. Qed.

Lemma wp_and {A} (m : M S A) s (Q R : A -> S -> Prop) :
  wp m s Q -> wp m s R -> wp m s (fun a s' => Q a s' /\ R a s').
Proof. unfold wp. destruct (m s) as [[a s']|]; [|done]. auto. Qed.

Lemma wp_ret {A} (a : A) s (Q : A -> S -> Prop) : Q a s -> wp (mret a) s Q.
Proof. done. Qed.

Lemma wp_bind {A B} (m : M S A) (k : A -> M S B) s Q :
  wp m s (fun a s' => wp (k a) s' Q) -> wp (mbind k m) s Q.
Proof. unfold wp, mbind, M_bind. by destruct (m s) as [[a s']|]. Qed.

Lemma wp_bind_inv {A B} (m : M S A) (k : A -> M S B) s Q :
  wp (mbind k m) s Q -> wp m s (fun a s' => wp (k a) s' Q).
Proof. unfold wp, mbind, M_bind. by destruct (m s) as [[a s']|]. Qed.

Lemma wp_gets {A} (f : S -> A) s (Q : A -> S -> Prop) : Q (f s) s -> wp (gets f) s Q.
Proof. done. Qed.

Lemma wp_modify (f : S -> S) s (Q : unit -> S -> Prop) : Q tt (f s) -> wp (modify f) s Q.
Proof. done. Qed.

Lemma wp_must {A} (o : option A) a s (Q : A -> S -> Prop) : o = Some a -> Q a s -> wp (must o) s Q.
Proof. by intros ->. Qed.

Lemma wp_zoom {T A} (sel : S -> T) (upd : T -> S -> S) (m : M T A) s Q :
  match m (sel s) with
  | Some (a, t) => Q a (upd t s)
  | None => False
  end -> wp (zoom sel upd m) s Q.
Proof. unfold wp, zoom. by destruct (m (sel s)) as [[a t]|]. Qed.

(** Rule for [mfor], with an invariant indexed by the counter. *)
Lemma wp_for (I : Z -> S -> Prop) n i (body : Z -> M S unit) s Q :
  I i s ->
  (forall k s, i <= k < i + Z.of_nat n -> I k s -> wp (body k) s (fun _ => I (k + 1))) ->
  (forall s, I (i + Z.of_nat n) s -> Q tt s) ->
  wp (mfor n i body) s Q.
Proof.
  revert i s. induction n as [|n IH]; intros i s H0 Hstep Hend; cbn [mfor].
  - apply wp_ret, Hend. by replace (i + Z.of_nat 0) with i by lia.
  - apply wp_bind. eapply wp_mono; [apply Hstep; [lia|done]|].
    intros [] s1 H1. apply IH; [done| |].
    + intros k s2 Hk. apply Hstep. lia.
    + intros s2. replace (i + 1 + Z.of_nat n) with (i + Z.of_nat (Datatypes.S n)) by lia. apply Hend.
Qed.

(** Rule for [mloop], with an invariant on the loop variables and a
    measure that every further round decreases. *)
Lemma wp_loop {X A} (I : X -> S -> Prop) (mu : X -> nat) (body : X -> M S (X + A)) fuel x s Q :
  (mu x < fuel)%nat -> I x s ->
  (forall x s, I x s ->
     wp (body x) s (fun r s' =>
       match r with
       | inl x' => (mu x' < mu x)%nat /\ I x' s'
       | inr a => Q a s'
       end)) ->
  wp (mloop fuel body x) s Q.
Proof.
  intros Hfuel HI Hbody. revert x s Hfuel HI.
  induction fuel as [|fuel IH]; intros x s Hfuel HI; [lia|]. cbn [mloop].
  apply wp_bind. eapply wp_mono; [by apply Hbody|].
  intros [x'|a] s'; [intros [Hmu HI']; apply IH; [lia|done]|apply wp_ret].
Qed.
End wp.

Arguments wp : simpl never.

(** One step of symbolic execution on the head of the program. *)
Ltac wp_step :=
  lazymatch goal with
  | |- wp (mbind _ _) _ _ => apply wp_bind
  | |- wp (mret _) _ _ => apply wp_ret
  | |- wp (gets _) _ _ => apply wp_gets
  | |- wp (modify _) _ _ => apply wp_modify
  | |- wp (zoom _ _ _) _ _ => apply wp_zoom
  end.
Ltac wp_steps := repeat (wp_step; cbv beta iota).

(** Use a proved [wp] for the head of the program. *)
Tactic Notation "wp_use" uconstr(H) := eapply wp_mono; [eapply H|cbv beta; simpl].
