(* ===== verification/Keeps.v ===== *)
(** * What a computation leaves alone

    [keeps R m]: whenever [m] returns, its start and its end are related by
    [R].  Unlike [wp] it promises no result; with a preorder [R] it follows
    from the parts of the program, which the hint database [keeps] puts
    together.  It frames the state that a piece of code never assigns. *)
From S2P Require Import Prelude CMonad.

Definition keeps {S A} (R : S -> S -> Prop) (m : M S A) : Prop :=
  forall s a s', m s = Some (a, s') -> R s s'.

Section keeps.
Context {S : Type} (R : S -> S -> Prop) `{!PreOrder R}.

Lemma keeps_ret {A} (a : A) : keeps R (mret a).
Proof. intros s b s' [= _ <-]. reflexivity. Qed.

Lemma keeps_stuck {A} : keeps R (@stuck S A).
Proof using. intros s b s' [=]. Qed.

Lemma keeps_gets {A} (f : S -> A) : keeps R (gets f).
Proof. intros s b s' [= _ <-]. reflexivity. Qed.

Lemma keeps_modify (f : S -> S) : (forall s, R s (f s)) -> keeps R (modify f).
Proof using. intros Hf s b s' [= _ <-]. apply Hf. Qed.

Lemma keeps_bind {A B} (m : M S A) (k : A -> M S B) :
  keeps R m -> (forall a, keeps R (k a)) -> keeps R (mbind k m).
Proof.
  intros Hm Hk s b s'. unfold mbind, M_bind. destruct (m s) as [[a s1]|] eqn:E; [|done].
  intros Hk'. transitivity s1; [by eapply Hm|by eapply Hk].
Qed.

Lemma keeps_zoom {T A} (sel : S -> T) (upd : T -> S -> S) (m : M T A) :
  (forall s t, R s (upd t s)) -> keeps R (zoom sel upd m).
Proof using. intros Hu s a s'. unfold zoom. destruct (m (sel s)) as [[b t]|]; [|done]. intros [= _ <-]. apply Hu. Qed.

Lemma keeps_loop {X A} fuel (body : X -> M S (X + A)) x :
  (forall x, keeps R (body x)) -> keeps R (mloop fuel body x).
Proof.
  intros Hb. revert x. induction fuel as [|fuel IH]; intros x; [apply keeps_stuck|]. cbn [mloop].
  apply keeps_bind; [done|]. intros [x'|a]; [apply IH|apply keeps_ret].
Qed.

Lemma keeps_if {A} (b : bool) (m1 m2 : M S A) : keeps R m1 -> keeps R m2 -> keeps R (if b then m1 else m2).
Proof using. by destruct b. Qed.

Lemma keeps_option {A X} (o : option X) (f : X -> M S A) (m : M S A) :
  (forall x, keeps R (f x)) -> keeps R m -> keeps R (match o with Some x => f x | None => m end).
Proof using. intros Hf Hm. by destruct o. Qed.

Lemma keeps_sum {A X Y} (o : X + Y) (f : X -> M S A) (g : Y -> M S A) :
  (forall x, keeps R (f x)) -> (forall y, keeps R (g y)) ->
  keeps R (match o with inl x => f x | inr y => g y end).
Proof using. intros Hf Hg. by destruct o. Qed.

(** Together with a proved [wp]. *)
Lemma wp_keeps {A} (m : M S A) s (Q : A -> S -> Prop) :
  keeps R m -> wp m s Q -> wp m s (fun a s' => Q a s' /\ R s s').
Proof using. intros Hk (a & s' & E & HQ)%wp_run. eapply wp_eq; [exact E|]. split; [done|]. by eapply Hk. Qed.
End keeps.

Create HintDb keeps.
#[export] Hint Resolve keeps_ret keeps_stuck keeps_gets keeps_bind keeps_if keeps_option keeps_sum keeps_loop : keeps.

#[export] Hint Extern 0 (PreOrder _) => exact _ : keeps.

(** Follow the structure of the program; what remains are its assignments. *)
Ltac keep_step :=
  match goal with
  | |- PreOrder _ => exact _
  | |- forall _, _ => intros ?
  | |- keeps _ (let '_ := ?x in _) => destruct x
  | |- keeps _ (mbind _ _) => apply keeps_bind
  | |- keeps _ (if _ then _ else _) => apply keeps_if
  | |- keeps _ (mloop _ _ _) => apply keeps_loop
  | |- keeps _ (match ?x with _ => _ end) => destruct x
  | |- keeps _ _ => solve [auto with keeps]
  end.
Ltac keep := repeat keep_step.
