(* ===== verification/Simul.v ===== *)
(** * Stepwise refinement of code by code

    [sim R m a]: from states related by [R], the computation [m] returns
    exactly if [a] does, with the same result and related states.  The
    relation follows the structure of programs, loops included, so that a
    component is replaced by its abstract version inside a larger program by
    proving it about the component's operations only. *)
From S2P Require Import Prelude CMonad.

Definition sim {S T A} (R : S -> T -> Prop) (m : M S A) (a : M T A) : Prop := forall s t, R s t ->
  match m s, a t with
  | Some (x, s'), Some (y, t') => x = y /\ R s' t'
  | None, None => True
  | _, _ => False
  end.

Section sim.
Context {S T : Type} (R : S -> T -> Prop).

Lemma sim_ret {A} (x : A) : sim R (mret x) (mret x).
Proof. by intros s t HR. Qed.

Lemma sim_stuck {A} : sim R (@stuck S A) stuck.
Proof. by intros s t HR. Qed.

Lemma sim_gets {A} (f : S -> A) (g : T -> A) : (forall s t, R s t -> f s = g t) -> sim R (gets f) (gets g).
Proof. intros Hf s t HR. split; [by apply Hf|done]. Qed.

Lemma sim_modify (f : S -> S) (g : T -> T) : (forall s t, R s t -> R (f s) (g t)) -> sim R (modify f) (modify g).
Proof. intros Hf s t HR. split; [done|by apply Hf]. Qed.

Lemma sim_bind {A B} (m : M S A) (a : M T A) (k : A -> M S B) (l : A -> M T B) :
  sim R m a -> (forall x, sim R (k x) (l x)) -> sim R (mbind k m) (mbind l a).
Proof.
  intros Hm Hk s t HR. specialize (Hm s t HR). unfold mbind, M_bind.
  destruct (m s) as [[x s']|], (a t) as [[y t']|]; try done. destruct Hm as [<- HR']. by apply Hk.
Qed.

Lemma sim_loop {X A} fuel (b : X -> M S (X + A)) (c : X -> M T (X + A)) x :
  (forall x, sim R (b x) (c x)) -> sim R (mloop fuel b x) (mloop fuel c x).
Proof.
  intros Hb. revert x. induction fuel as [|fuel IH]; intros x; [apply sim_stuck|]. cbn [mloop].
  apply sim_bind; [done|]. intros [x'|y]; [apply IH|apply sim_ret].
Qed.

(** From a specification of the code that always returns. *)
Lemma sim_wp {A} (m : M S A) (a : M T A) :
  (forall s t, R s t -> wp m s (fun x s' => exists t', a t = Some (x, t') /\ R s' t')) -> sim R m a.
Proof.
  intros Hw s t HR. destruct (proj1 (wp_run _ _ _) (Hw s t HR)) as (x & s' & -> & t' & -> & HR'). done.
Qed.

(** At one pair of states: both return, or neither does. *)
Definition sim_at {A} (m : M S A) (a : M T A) (s : S) (t : T) : Prop :=
  match m s, a t with
  | Some (x, s'), Some (y, t') => x = y /\ R s' t'
  | None, None => True
  | _, _ => False
  end.

Lemma sim_at_returns {A} (m : M S A) (a : M T A) s t x t' :
  a t = Some (x, t') -> wp m s (fun y s' => y = x /\ R s' t') -> sim_at m a s t.
Proof. intros Ha (y & s' & Hm & -> & HR)%wp_run. unfold sim_at. by rewrite Hm, Ha. Qed.

Lemma sim_at_stuck {A} (m : M S A) (a : M T A) s t : m s = None -> a t = None -> sim_at m a s t.
Proof. intros Hm Ha. unfold sim_at. by rewrite Hm, Ha. Qed.

Lemma sim_at_steps {A} (m : M S A) (m' : M S A) (a a' : M T A) s s1 t t1 :
  m s = m' s1 -> a t = a' t1 -> sim_at m' a' s1 t1 -> sim_at m a s t.
Proof. unfold sim_at. by intros -> ->. Qed.

(** The same code on a part of both states. *)
Lemma sim_zoom {P A} (m : M P A) sel1 upd1 sel2 upd2 (Q : P -> P -> Prop) :
  (forall s t, R s t -> sel1 s = sel2 t) -> (forall p x p', m p = Some (x, p') -> Q p p') ->
  (forall s t p, R s t -> Q (sel1 s) p -> R (upd1 p s) (upd2 p t)) ->
  sim R (zoom sel1 upd1 m) (zoom sel2 upd2 m).
Proof.
  intros Hsel HQ Hupd s t HR. unfold zoom. rewrite <- (Hsel s t HR). destruct (m (sel1 s)) as [[x p]|] eqn:E; [|done].
  split; [done|]. apply Hupd; [done|]. by eapply HQ.
Qed.

(** What is proved of the abstract program holds of the code. *)
Lemma sim_transfer {A} (m : M S A) (a : M T A) s t (Q : A -> T -> Prop) :
  sim R m a -> R s t -> wp a t Q -> wp m s (fun x s' => exists t', R s' t' /\ Q x t').
Proof.
  intros Hm HR Ha. specialize (Hm s t HR). unfold wp in *.
  destruct (m s) as [[x s']|], (a t) as [[y t']|]; try done. destruct Hm as [<- HR']. eauto.
Qed.
End sim.

Create HintDb sim.
#[export] Hint Resolve sim_ret sim_stuck : sim.

(** Follow the structure of both programs. *)
Ltac sim_step :=
  match goal with
  | |- forall _, _ => intros ?
  | |- sim _ (mbind _ _) (mbind _ _) => apply sim_bind
  | |- sim _ (if ?b then _ else _) (if ?b then _ else _) => destruct b
  | |- sim _ (match ?x with _ => _ end) (match ?x with _ => _ end) => destruct x
  | |- sim _ _ _ => solve [auto with sim]
  end.
Ltac simulate := repeat sim_step.
