(* ===== verification/Checksum.v ===== *)
(** * Checksums of [platform/common/utils/platform_utils.c]

    The CRC-8 and CRC-32 routines as written, against bit-serial reference
    definitions: the table-driven CRC-8 and the 32-equation parallel CRC-32
    are proved equal to the shift registers they unroll, and both are proved
    to detect every single corrupted byte.  A C pair [(ptr, len)] is the list
    of the [len] bytes it designates. *)
From S2P Require Import Prelude.
From Stdlib Require Import Btauto.

Module Crc8.

(** [crc8_tbl] *)
Definition crc8_tbl : list Z :=
  [0; 145; 227; 114; 7; 150; 228; 117; 14; 159; 237; 124; 9; 152; 234; 123;
   28; 141; 255; 110; 27; 138; 248; 105; 18; 131; 241; 96; 21; 132; 246; 103;
   56; 169; 219; 74; 63; 174; 220; 77; 54; 167; 213; 68; 49; 160; 210; 67;
   36; 181; 199; 86; 35; 178; 192; 81; 42; 187; 201; 88; 45; 188; 206; 95;
   112; 225; 147; 2; 119; 230; 148; 5; 126; 239; 157; 12; 121; 232; 154; 11;
   108; 253; 143; 30; 107; 250; 136; 25; 98; 243; 129; 16; 101; 244; 134; 23;
   72; 217; 171; 58; 79; 222; 172; 61; 70; 215; 165; 52; 65; 208; 162; 51;
   84; 197; 183; 38; 83; 194; 176; 33; 90; 203; 185; 40; 93; 204; 190; 47;
   224; 113; 3; 146; 231; 118; 4; 149; 238; 127; 13; 156; 233; 120; 10; 155;
   252; 109; 31; 142; 251; 106; 24; 137; 242; 99; 17; 128; 245; 100; 22; 135;
   216; 73; 59; 170; 223; 78; 60; 173; 214; 71; 53; 164; 209; 64; 50; 163;
   196; 85; 39; 182; 195; 82; 32; 177; 202; 91; 41; 184; 205; 92; 46; 191;
   144; 1; 115; 226; 151; 6; 116; 229; 158; 15; 125; 236; 153; 8; 122; 235;
   140; 29; 111; 254; 139; 26; 104; 249; 130; 19; 97; 240; 133; 20; 102; 247;
   168; 57; 75; 218; 175; 62; 76; 221; 166; 55; 69; 212; 161; 48; 66; 211;
   180; 37; 87; 198; 179; 34; 80; 193; 186; 43; 89; 200; 189; 44; 94; 207].

(** The loop [while (len-- != 0) crc8 = crc8_tbl[crc8 ^ *ptr++]]. *)
Fixpoint calculate_crc8 (crc8 : Z) (ptr : list Z) : Z :=
  match ptr with
  | [] => crc8
  | data :: ptr => calculate_crc8 (byte_at crc8_tbl (Z.lxor crc8 data)) ptr
  end.

Definition get_crc8 (ptr : list Z) : Z := calculate_crc8 0 ptr.

Definition chk_crc8 (ptr : list Z) : Z :=
  if calculate_crc8 0 ptr =? 0 then 0 else -1.

(** Reference: the bit-serial register of x^8 + x^2 + x + 1, least
    significant bit first. *)
Definition ref_bit (c : Z) : Z :=
  if Z.odd c then Z.lxor (Z.shiftr c 1) 224 else Z.shiftr c 1.

Definition ref_byte (c b : Z) : Z := Nat.iter 8 ref_bit (Z.lxor c b).

Definition ref_crc8 (c : Z) (l : list Z) : Z := fold_left ref_byte l c.

End Crc8.

Module Crc32.

Local Infix "⊕" := xorb (at level 45, left associativity).

(** The bits of a word, least significant first, and the loop
    [if (crc_out[i]) crc_result |= 1 << i]. *)
Definition to_bits (n : nat) (z : Z) : list bool := Z.testbit z <$> seqZ 0 (Z.of_nat n).

Fixpoint of_bits (l : list bool) : Z :=
  match l with
  | [] => 0
  | b :: l => b2z b + 2 * of_bits l
  end.

(** [_cal_crc32]: [d] is [in_data_buf], [c] is [crc_buf], the list is
    [crc_out]. *)
Definition crc_out (c d : Z -> bool) : list bool :=
  [ d 1 ⊕ d 7 ⊕ c 30 ⊕ c 24;
    d 0 ⊕ d 1 ⊕ d 6 ⊕ d 7 ⊕ c 31 ⊕ c 30 ⊕ c 25 ⊕ c 24;
    d 0 ⊕ d 1 ⊕ d 5 ⊕ d 6 ⊕ d 7 ⊕ c 31 ⊕ c 30 ⊕ c 26 ⊕ c 25 ⊕ c 24;
    d 0 ⊕ d 4 ⊕ d 5 ⊕ d 6 ⊕ c 31 ⊕ c 27 ⊕ c 26 ⊕ c 25;
    d 1 ⊕ d 3 ⊕ d 4 ⊕ d 5 ⊕ d 7 ⊕ c 30 ⊕ c 28 ⊕ c 27 ⊕ c 26 ⊕ c 24;
    d 0 ⊕ d 1 ⊕ d 2 ⊕ d 3 ⊕ d 4 ⊕ d 6 ⊕ d 7 ⊕ c 31 ⊕ c 30 ⊕ c 29 ⊕ c 28 ⊕ c 27 ⊕ c 25 ⊕ c 24;
    d 0 ⊕ d 1 ⊕ d 2 ⊕ d 3 ⊕ d 5 ⊕ d 6 ⊕ c 31 ⊕ c 30 ⊕ c 29 ⊕ c 28 ⊕ c 26 ⊕ c 25;
    d 0 ⊕ d 2 ⊕ d 4 ⊕ d 5 ⊕ d 7 ⊕ c 31 ⊕ c 29 ⊕ c 27 ⊕ c 26 ⊕ c 24;
    d 3 ⊕ d 4 ⊕ d 6 ⊕ d 7 ⊕ c 28 ⊕ c 27 ⊕ c 25 ⊕ c 24 ⊕ c 0;
    d 2 ⊕ d 3 ⊕ d 5 ⊕ d 6 ⊕ c 29 ⊕ c 28 ⊕ c 26 ⊕ c 25 ⊕ c 1;
    d 2 ⊕ d 4 ⊕ d 5 ⊕ d 7 ⊕ c 29 ⊕ c 27 ⊕ c 26 ⊕ c 24 ⊕ c 2;
    d 3 ⊕ d 4 ⊕ d 6 ⊕ d 7 ⊕ c 28 ⊕ c 27 ⊕ c 25 ⊕ c 24 ⊕ c 3;
    d 1 ⊕ d 2 ⊕ d 3 ⊕ d 5 ⊕ d 6 ⊕ d 7 ⊕ c 30 ⊕ c 29 ⊕ c 28 ⊕ c 26 ⊕ c 25 ⊕ c 24 ⊕ c 4;
    d 0 ⊕ d 1 ⊕ d 2 ⊕ d 4 ⊕ d 5 ⊕ d 6 ⊕ c 31 ⊕ c 30 ⊕ c 29 ⊕ c 27 ⊕ c 26 ⊕ c 25 ⊕ c 5;
    d 0 ⊕ d 1 ⊕ d 3 ⊕ d 4 ⊕ d 5 ⊕ c 31 ⊕ c 30 ⊕ c 28 ⊕ c 27 ⊕ c 26 ⊕ c 6;
    d 0 ⊕ d 2 ⊕ d 3 ⊕ d 4 ⊕ c 31 ⊕ c 29 ⊕ c 28 ⊕ c 27 ⊕ c 7;
    d 2 ⊕ d 3 ⊕ d 7 ⊕ c 29 ⊕ c 28 ⊕ c 24 ⊕ c 8;
    d 1 ⊕ d 2 ⊕ d 6 ⊕ c 30 ⊕ c 29 ⊕ c 25 ⊕ c 9;
    d 0 ⊕ d 1 ⊕ d 5 ⊕ c 31 ⊕ c 30 ⊕ c 26 ⊕ c 10;
    d 0 ⊕ d 4 ⊕ c 31 ⊕ c 27 ⊕ c 11;
    d 3 ⊕ c 28 ⊕ c 12;
    d 2 ⊕ c 29 ⊕ c 13;
    d 7 ⊕ c 24 ⊕ c 14;
    d 1 ⊕ d 6 ⊕ d 7 ⊕ c 30 ⊕ c 25 ⊕ c 24 ⊕ c 15;
    d 0 ⊕ d 5 ⊕ d 6 ⊕ c 31 ⊕ c 26 ⊕ c 25 ⊕ c 16;
    d 4 ⊕ d 5 ⊕ c 27 ⊕ c 26 ⊕ c 17;
    d 1 ⊕ d 3 ⊕ d 4 ⊕ d 7 ⊕ c 30 ⊕ c 28 ⊕ c 27 ⊕ c 24 ⊕ c 18;
    d 0 ⊕ d 2 ⊕ d 3 ⊕ d 6 ⊕ c 31 ⊕ c 29 ⊕ c 28 ⊕ c 25 ⊕ c 19;
    d 1 ⊕ d 2 ⊕ d 5 ⊕ c 30 ⊕ c 29 ⊕ c 26 ⊕ c 20;
    d 0 ⊕ d 1 ⊕ d 4 ⊕ c 31 ⊕ c 30 ⊕ c 27 ⊕ c 21;
    d 0 ⊕ d 3 ⊕ c 31 ⊕ c 28 ⊕ c 22;
    d 2 ⊕ c 23 ⊕ c 29 ].

Definition _cal_crc32 (crc_result data_8 : Z) : Z :=
  of_bits (crc_out (Z.testbit crc_result) (Z.testbit data_8)).

(** [for (i = 0; i < 32; i++) if ((crc_result >> i) & 1) val |= 1 << (31 - i)] *)
Definition reverse32 (crc_result : Z) : Z :=
  fold_left (fun val i => if Z.testbit crc_result i then Z.lor val (Z.shiftl 1 (31 - i)) else val)
    (seqZ 0 32) 0.

(** [get_crc32]; the result is [~val] at 32 bits. *)
Definition get_crc32 (data : list Z) : Z :=
  u32 (Z.lnot (reverse32 (fold_left _cal_crc32 data 4294967295))).

(** Reference: the CRC-32 of IEEE 802.3, bit by bit, least significant bit
    first: register preset to ones, polynomial EDB88320 (hex), complemented. *)
Definition poly : Z := 3988292384.

Definition ref_bit (r : Z) : Z :=
  if Z.odd r then Z.lxor (Z.shiftr r 1) poly else Z.shiftr r 1.

Definition ref_byte (r b : Z) : Z := Nat.iter 8 ref_bit (Z.lxor r b).

Definition ref_reg (r : Z) (data : list Z) : Z := fold_left ref_byte data r.

Definition ref_crc32 (data : list Z) : Z := Z.lxor (ref_reg 4294967295 data) 4294967295.

End Crc32.
(** ** CRC-8 *)
Module Crc8Facts.
Import Crc8.

Lemma ref_byte_xor c b : ref_byte c b = ref_byte 0 (Z.lxor c b).
Proof. reflexivity. Qed.

Lemma table_row x : byte_ok x -> byte_at crc8_tbl x = ref_byte 0 x /\ byte_ok (byte_at crc8_tbl x).
Proof.
  intros Hx.
  assert (Hall : forallb (fun x => (byte_at crc8_tbl x =? ref_byte 0 x) &&
    (0 <=? byte_at crc8_tbl x) && (byte_at crc8_tbl x <? 256)) (seqZ 0 256) = true)
    by (vm_compute; reflexivity).
  rewrite forallb_forall in Hall. specialize (Hall x).
  rewrite <- list_elem_of_In, elem_of_seqZ in Hall. unfold byte_ok in *.
  specialize (Hall ltac:(lia)). rewrite !andb_true_iff in Hall. lia.
Qed.

(** The table is a permutation: equal entries have equal indices. *)
Lemma table_inj x y : byte_ok x -> byte_ok y -> byte_at crc8_tbl x = byte_at crc8_tbl y -> x = y.
Proof.
  assert (Hall : forallb (fun x => forallb (fun y =>
    (negb (byte_at crc8_tbl x =? byte_at crc8_tbl y)) || (x =? y)) (seqZ 0 256)) (seqZ 0 256) = true)
    by (vm_compute; reflexivity).
  intros Hx Hy Heq. rewrite forallb_forall in Hall. specialize (Hall x).
  rewrite <- list_elem_of_In, elem_of_seqZ in Hall. unfold byte_ok in *.
  specialize (Hall ltac:(lia)). rewrite forallb_forall in Hall. specialize (Hall y).
  rewrite <- list_elem_of_In, elem_of_seqZ in Hall. specialize (Hall ltac:(lia)).
  rewrite Heq, Z.eqb_refl in Hall. simpl in Hall. lia.
Qed.

Lemma xor_byte_ok a b : byte_ok a -> byte_ok b -> byte_ok (Z.lxor a b).
Proof. apply (lxor_bounds 8). lia. Qed.
#[local] Hint Resolve xor_byte_ok : core.

Lemma calculate_crc8_ref c l : byte_ok c -> bytes_ok l -> calculate_crc8 c l = ref_crc8 c l.
Proof.
  intros Hc Hl. revert c Hc. induction Hl as [|b l Hb _ IH]; intros c Hc; [done|].
  cbn [calculate_crc8 ref_crc8 fold_left]. destruct (table_row (Z.lxor c b)) as [-> Hok]; [auto|].
  rewrite <- ref_byte_xor. apply IH. rewrite ref_byte_xor. destruct (table_row (Z.lxor c b)) as [<- ?]; auto.
Qed.

Lemma calculate_crc8_ok c l : byte_ok c -> bytes_ok l -> byte_ok (calculate_crc8 c l).
Proof.
  intros Hc Hl. revert c Hc. induction Hl as [|b l Hb _ IH]; intros c Hc; [done|].
  simpl. apply IH, table_row. auto.
Qed.

Lemma calculate_crc8_app c l1 l2 :
  calculate_crc8 c (l1 ++ l2) = calculate_crc8 (calculate_crc8 c l1) l2.
Proof. revert c. induction l1 as [|b l1 IH]; intros c; [done|]. simpl. apply IH. Qed.

Lemma calculate_crc8_inj c c' l :
  byte_ok c -> byte_ok c' -> bytes_ok l -> calculate_crc8 c l = calculate_crc8 c' l -> c = c'.
Proof.
  intros Hc Hc' Hl. revert c c' Hc Hc'. induction Hl as [|b l Hb _ IH]; intros c c' Hc Hc'; [done|].
  simpl. intros Heq. apply IH in Heq; [|apply table_row; auto..].
  apply table_inj in Heq; [|auto..].
  rewrite <- (Z.lxor_0_r c), <- (Z.lxor_0_r c'), <- (Z.lxor_nilpotent b), <- !Z.lxor_assoc.
  by rewrite Heq.
Qed.
End Crc8Facts.

(** ** CRC-32: the bit-level view *)
Module Crc32Facts.
Import Crc32.

Lemma length_to_bits n z : length (to_bits n z) = n.
Proof. unfold to_bits. rewrite length_fmap, length_seqZ. lia. Qed.

Lemma nth_to_bits n z i : (i < n)%nat -> nth i (to_bits n z) false = Z.testbit z (Z.of_nat i).
Proof.
  intros Hi. rewrite nth_lookup. unfold to_bits.
  rewrite list_lookup_fmap, lookup_seqZ_lt by lia. simpl. by rewrite Z.add_0_l.
Qed.

Lemma testbit_of_bits l i : 0 <= i -> Z.testbit (of_bits l) i = nth (Z.to_nat i) l false.
Proof.
  revert i. induction l as [|b l IH]; intros i Hi; cbn [of_bits].
  - rewrite Z.testbit_0_l. by destruct (Z.to_nat i).
  - assert (Hodd : b2z b = Z.b2z b) by (by destruct b). rewrite Hodd.
    destruct (Z.eq_dec i 0) as [->|Hi0].
    + by rewrite Z.add_comm, Z.testbit_0_r.
    + replace i with (Z.succ (i - 1)) by lia. rewrite Z.add_comm, Z.testbit_succ_r by lia.
      rewrite IH by lia. replace (Z.to_nat (Z.succ (i - 1))) with (S (Z.to_nat (i - 1))) by lia. done.
Qed.

Lemma of_bits_bounds l : 0 <= of_bits l < 2 ^ Z.of_nat (length l).
Proof.
  induction l as [|b l IH]; cbn [of_bits length]; [lia|].
  rewrite Nat2Z.inj_succ, Z.pow_succ_r by lia. destruct b; unfold b2z; lia.
Qed.

Lemma to_bits_of_bits l : to_bits (length l) (of_bits l) = l.
Proof.
  apply (nth_ext _ _ false false); [apply length_to_bits|]. rewrite length_to_bits. intros i Hi.
  rewrite nth_to_bits, testbit_of_bits by lia. by rewrite Nat2Z.id.
Qed.

Lemma of_bits_to_bits n z : 0 <= z < 2 ^ Z.of_nat n -> of_bits (to_bits n z) = z.
Proof.
  intros Hz. apply (bits_eq_bounded (Z.of_nat n)); [|done|].
  - pose proof (of_bits_bounds (to_bits n z)) as Hb. by rewrite length_to_bits in Hb.
  - intros i Hi. rewrite testbit_of_bits, nth_to_bits by lia. f_equal. lia.
Qed.

Lemma to_bits_inj n a b :
  0 <= a < 2 ^ Z.of_nat n -> 0 <= b < 2 ^ Z.of_nat n -> to_bits n a = to_bits n b -> a = b.
Proof. intros Ha Hb Heq. by rewrite <- (of_bits_to_bits n a), <- (of_bits_to_bits n b), Heq by done. Qed.

(** The shift register on bit lists. *)
Definition lfsr (l : list bool) : list bool :=
  match l with
  | [] => []
  | h :: t => zip_with (fun (tap x : bool) => if tap then xorb x h else x) (to_bits 32 poly) (t ++ [false])
  end.

Lemma poly_bounds : 0 <= poly < 2 ^ 32.
Proof. unfold poly. lia. Qed.

Lemma ref_bit_bounds r : 0 <= r < 2 ^ 32 -> 0 <= ref_bit r < 2 ^ 32.
Proof.
  intros Hr. assert (0 <= Z.shiftr r 1 < 2 ^ 32).
  { rewrite Z.shiftr_div_pow2 by lia. change (2 ^ 1) with 2.
    pose proof (Z.div_pos r 2). pose proof (Z.div_le_upper_bound r 2 r). lia. }
  unfold ref_bit. destruct (Z.odd r); [|done]. apply lxor_bounds; [lia|done|apply poly_bounds].
Qed.

Lemma testbit_ref_bit r i : 0 <= i ->
  Z.testbit (ref_bit r) i = xorb (Z.testbit r (i + 1)) (Z.testbit r 0 && Z.testbit poly i).
Proof.
  intros Hi. unfold ref_bit. rewrite Z.bit0_odd. destruct (Z.odd r); simpl.
  - by rewrite Z.lxor_spec, Z.shiftr_spec by done.
  - by rewrite Z.shiftr_spec, xorb_false_r by done.
Qed.

Lemma lookup_to_bits n z i : (i < n)%nat -> to_bits n z !! i = Some (Z.testbit z (Z.of_nat i)).
Proof. intros Hi. unfold to_bits. rewrite list_lookup_fmap, lookup_seqZ_lt by lia. simpl. do 2 f_equal; lia. Qed.

Lemma lookup_shifted r i :
  0 <= r < 2 ^ 32 -> (i < 32)%nat ->
  (drop 1 (to_bits 32 r) ++ [false]) !! i = Some (Z.testbit r (Z.of_nat i + 1)).
Proof.
  intros Hr Hi. assert (Hlen : length (drop 1 (to_bits 32 r)) = 31%nat) by (by rewrite length_drop, length_to_bits).
  destruct (decide (i < 31)%nat).
  - rewrite lookup_app_l, lookup_drop, lookup_to_bits by lia. do 2 f_equal. lia.
  - rewrite lookup_app_r, Hlen by lia. replace i with 31%nat by lia.
    by rewrite (testbit_high 32) by lia.
Qed.

Lemma lfsr_ref_bit r : 0 <= r < 2 ^ 32 -> to_bits 32 (ref_bit r) = lfsr (to_bits 32 r).
Proof.
  intros Hr. apply list_eq_same_length with 32%nat; [reflexivity|reflexivity|].
  intros i x y Hi Hx Hy. rewrite lookup_to_bits, testbit_ref_bit in Hx by lia. simplify_eq.
  change (to_bits 32 r) with (Z.testbit r 0 :: drop 1 (to_bits 32 r)) in Hy. unfold lfsr in Hy.
  rewrite lookup_zip_with, lookup_to_bits, lookup_shifted in Hy by done. cbn [mbind option_bind] in Hy. injection Hy as <-. rewrite (andb_comm (Z.testbit r 0)).
  destruct (Z.testbit poly (Z.of_nat i)); [done|apply xorb_false_r].
Qed.

Lemma iter_lfsr n x :
  0 <= x < 2 ^ 32 ->
  to_bits 32 (Nat.iter n ref_bit x) = Nat.iter n lfsr (to_bits 32 x) /\
  0 <= Nat.iter n ref_bit x < 2 ^ 32.
Proof.
  intros Hx. induction n as [|n [IH IHb]]; [done|]. rewrite !Nat.iter_succ.
  split; [|by apply ref_bit_bounds]. by rewrite lfsr_ref_bit, IH.
Qed.

Lemma ref_byte_lfsr r b :
  0 <= r < 2 ^ 32 -> byte_ok b ->
  to_bits 32 (ref_byte r b) = Nat.iter 8 lfsr (to_bits 32 (Z.lxor r b)) /\ 0 <= ref_byte r b < 2 ^ 32.
Proof. intros Hr Hb. apply iter_lfsr, lxor_bounds; unfold byte_ok in *; lia. Qed.

(** The 32 equations are eight steps of the register, for arbitrary bits. *)
Lemma crc_out_lfsr (R B : list bool) :
  length R = 32%nat -> length B = 8%nat ->
  crc_out (fun i => nth (31 - Z.to_nat i) R false) (fun i => nth (Z.to_nat i) B false) =
  rev (Nat.iter 8 lfsr (zip_with xorb R (B ++ replicate 24 false))).
Proof.
  intros HR HB.
  do 32 (destruct R as [|? R]; [discriminate HR|]). destruct R; [|discriminate HR].
  do 8 (destruct B as [|? B]; [discriminate HB|]). destruct B; [|discriminate HB]. clear HR HB.
  cbv -[xorb]. repeat (apply (f_equal2 cons); [btauto|]). reflexivity.
Qed.

Lemma crc_out_ext c c' d d' :
  (forall i, 0 <= i < 32 -> c i = c' i) -> (forall i, 0 <= i < 8 -> d i = d' i) ->
  crc_out c d = crc_out c' d'.
Proof.
  intros Hc Hd. unfold crc_out.
  rewrite (Hd 0), (Hd 1), (Hd 2), (Hd 3), (Hd 4), (Hd 5), (Hd 6), (Hd 7) by lia.
  rewrite (Hc 0), (Hc 1), (Hc 2), (Hc 3), (Hc 4), (Hc 5), (Hc 6), (Hc 7) by lia.
  rewrite (Hc 8), (Hc 9), (Hc 10), (Hc 11), (Hc 12), (Hc 13), (Hc 14), (Hc 15) by lia.
  rewrite (Hc 16), (Hc 17), (Hc 18), (Hc 19), (Hc 20), (Hc 21), (Hc 22), (Hc 23) by lia.
  by rewrite (Hc 24), (Hc 25), (Hc 26), (Hc 27), (Hc 28), (Hc 29), (Hc 30), (Hc 31) by lia.
Qed.

Lemma to_bits_lxor_byte r b :
  byte_ok b ->
  to_bits 32 (Z.lxor r b) = zip_with xorb (to_bits 32 r) (to_bits 8 b ++ replicate 24 false).
Proof.
  intros Hb. apply list_eq_same_length with 32%nat; [reflexivity|reflexivity|].
  intros i x y Hi Hx Hy. rewrite lookup_to_bits, Z.lxor_spec in Hx by done.
  rewrite lookup_zip_with, lookup_to_bits in Hy by done. cbn [mbind option_bind] in Hy.
  destruct (decide (i < 8)%nat).
  - rewrite lookup_app_l, lookup_to_bits in Hy by (rewrite ?length_to_bits; lia). by simplify_eq/=.
  - rewrite lookup_app_r, length_to_bits, lookup_replicate_2 in Hy by (rewrite ?length_to_bits; lia).
    simplify_eq/=. rewrite (testbit_high 8 b) by (unfold byte_ok in *; lia). done.
Qed.

(** The C register [v] is the reference register [r] read backwards. *)
Definition mirrored (v r : Z) : Prop :=
  0 <= v < 2 ^ 32 /\ 0 <= r < 2 ^ 32 /\ to_bits 32 v = rev (to_bits 32 r).

Lemma mirrored_bit v r i : mirrored v r -> 0 <= i < 32 -> Z.testbit v i = Z.testbit r (31 - i).
Proof.
  intros (_ & _ & Heq) Hi.
  pose proof (nth_to_bits 32 v (Z.to_nat i) ltac:(lia)) as H1. rewrite Heq in H1.
  rewrite rev_nth in H1 by (rewrite length_to_bits; lia). rewrite length_to_bits in H1.
  rewrite nth_to_bits in H1 by lia. rewrite Z2Nat.id in H1 by lia. rewrite <- H1. f_equal. lia.
Qed.

Lemma cal_crc32_mirrored v r b : mirrored v r -> byte_ok b -> mirrored (_cal_crc32 v b) (ref_byte r b).
Proof.
  intros Hm Hb. pose proof Hm as (Hv & Hr & Heq). destruct (ref_byte_lfsr r b) as [Hl Hr']; [done..|].
  unfold _cal_crc32. split; [|split; [done|]].
  { apply (of_bits_bounds (crc_out _ _)). }
  change 32%nat with (length (crc_out (Z.testbit v) (Z.testbit b))) at 1.
  rewrite to_bits_of_bits, Hl, to_bits_lxor_byte by done.
  rewrite <- crc_out_lfsr by apply length_to_bits. apply crc_out_ext.
  - intros i Hi. rewrite (mirrored_bit v r), nth_to_bits by (done || lia). f_equal. lia.
  - intros i Hi. rewrite nth_to_bits by lia. f_equal. lia.
Qed.

Lemma fold_cal_crc32_mirrored data v r :
  mirrored v r -> bytes_ok data -> mirrored (fold_left _cal_crc32 data v) (ref_reg r data).
Proof.
  intros Hm Hd. revert v r Hm. induction Hd as [|b data Hb _ IH]; intros v r Hm; [done|].
  simpl. by apply IH, cal_crc32_mirrored.
Qed.

Lemma testbit_reverse32_loop v l acc j :
  Forall (fun i => 0 <= i < 32) l -> 0 <= j ->
  Z.testbit (fold_left (fun val i =>
    if Z.testbit v i then Z.lor val (Z.shiftl 1 (31 - i)) else val) l acc) j =
  Z.testbit acc j || existsb (fun i => Z.testbit v i && (j =? 31 - i)) l.
Proof.
  intros Hl Hj. revert acc. induction Hl as [|i l Hi _ IH]; intros acc; simpl; [by rewrite orb_false_r|].
  rewrite IH. destruct (Z.testbit v i); simpl; [|done].
  rewrite Z.lor_spec, <- orb_assoc. f_equal. f_equal.
  rewrite Z.shiftl_1_l, Z.pow2_bits_eqb by lia. by rewrite Z.eqb_sym.
Qed.

Lemma testbit_reverse32 v j : 0 <= j -> Z.testbit (reverse32 v) j = (j <? 32) && Z.testbit v (31 - j).
Proof.
  intros Hj. unfold reverse32. rewrite testbit_reverse32_loop, Z.testbit_0_l by
    (done || (apply Forall_seqZ; lia)). rewrite orb_false_l.
  apply eq_true_iff_eq. rewrite existsb_exists, andb_true_iff, Z.ltb_lt. split.
  - intros (i & Hin & Hbit). rewrite <- list_elem_of_In, elem_of_seqZ in Hin.
    apply andb_true_iff in Hbit as [Hbit ?%Z.eqb_eq]. split; [lia|]. by replace (31 - j) with i by lia.
  - intros [Hlt Hbit]. exists (31 - j). rewrite <- list_elem_of_In, elem_of_seqZ. split; [lia|].
    rewrite Hbit. simpl. apply Z.eqb_eq. lia.
Qed.

Lemma reverse32_mirrored v r : mirrored v r -> reverse32 v = r.
Proof.
  intros Hm. pose proof Hm as (Hv & Hr & _). apply Z.bits_inj'. intros j Hj.
  rewrite testbit_reverse32 by done. destruct (Z.ltb_spec j 32); simpl.
  - rewrite (mirrored_bit v r) by (done || lia). f_equal. lia.
  - by rewrite (testbit_high 32 r) by lia.
Qed.

Lemma u32_lnot r : 0 <= r < 2 ^ 32 -> u32 (Z.lnot r) = Z.lxor r 4294967295.
Proof.
  intros Hr. rewrite wrap_land_ones by lia. apply Z.bits_inj'. intros j Hj.
  change 4294967295 with (Z.ones 32).
  rewrite Z.land_spec, Z.lxor_spec, Z.lnot_spec by done.
  destruct (Z.lt_ge_cases j 32).
  - rewrite Z.ones_spec_low by lia. by destruct (Z.testbit r j).
  - rewrite Z.ones_spec_high, (testbit_high 32 r) by lia. done.
Qed.

Lemma ref_reg_bounds r data : 0 <= r < 2 ^ 32 -> bytes_ok data -> 0 <= ref_reg r data < 2 ^ 32.
Proof.
  intros Hr Hd. revert r Hr. induction Hd as [|b data Hb _ IH]; intros r Hr; [done|].
  simpl. by apply IH, ref_byte_lfsr.
Qed.

Lemma get_crc32_is_ref data : bytes_ok data -> get_crc32 data = ref_crc32 data.
Proof.
  intros Hd. unfold get_crc32, ref_crc32.
  assert (Hm : mirrored 4294967295 4294967295) by (repeat split; try lia; reflexivity).
  rewrite (reverse32_mirrored _ (ref_reg 4294967295 data)) by (by apply fold_cal_crc32_mirrored).
  apply u32_lnot, ref_reg_bounds; [lia|done].
Qed.

Lemma get_crc32_bounds data : bytes_ok data -> 0 <= get_crc32 data < 2 ^ 32.
Proof. intros. apply (wrap_bounds 32). lia. Qed.

Lemma ref_reg_app r l1 l2 : ref_reg r (l1 ++ l2) = ref_reg (ref_reg r l1) l2.
Proof. apply fold_left_app. Qed.

(** The register step is undone from its top bit, so it loses nothing. *)
Definition unstep (r : Z) : Z :=
  if Z.testbit r 31 then Z.lor (Z.shiftl (Z.lxor r poly) 1) 1 else Z.shiftl r 1.

Lemma unstep_ref_bit r : 0 <= r < 2 ^ 32 -> unstep (ref_bit r) = r.
Proof.
  intros Hr. assert (Htop : Z.testbit (ref_bit r) 31 = Z.testbit r 0).
  { rewrite testbit_ref_bit by lia. rewrite (testbit_high 32 r (31 + 1)) by lia.
    change (Z.testbit poly 31) with true. by destruct (Z.testbit r 0). }
  unfold unstep. rewrite Htop. apply Z.bits_inj'. intros j Hj.
  destruct (Z.eq_dec j 0) as [->|Hj0].
  - destruct (Z.testbit r 0); [by rewrite Z.lor_spec, orb_true_r|by rewrite Z.shiftl_spec_low by lia].
  - destruct (Z.testbit r 0) eqn:H0.
    + rewrite Z.lor_spec, Z.shiftl_spec, Z.lxor_spec, testbit_ref_bit by lia.
      rewrite H0. replace (Z.testbit 1 j) with false by (by destruct j as [|[]|]; try lia).
      rewrite orb_false_r, andb_true_l. replace (j - 1 + 1) with j by lia.
      by destruct (Z.testbit r j), (Z.testbit poly (j - 1)).
    + rewrite Z.shiftl_spec, testbit_ref_bit, H0, andb_false_l, xorb_false_r by lia. f_equal. lia.
Qed.

Lemma ref_bit_inj a b : 0 <= a < 2 ^ 32 -> 0 <= b < 2 ^ 32 -> ref_bit a = ref_bit b -> a = b.
Proof. intros Ha Hb Heq. by rewrite <- (unstep_ref_bit a), <- (unstep_ref_bit b), Heq. Qed.

Lemma iter_ref_bit_inj n a b :
  0 <= a < 2 ^ 32 -> 0 <= b < 2 ^ 32 -> Nat.iter n ref_bit a = Nat.iter n ref_bit b -> a = b.
Proof.
  intros Ha Hb. induction n as [|n IH]; [done|]. rewrite !Nat.iter_succ. intros Heq.
  apply IH, ref_bit_inj; [by apply iter_lfsr..|done].
Qed.

Lemma lxor_cancel_r a b c : Z.lxor a c = Z.lxor b c -> a = b.
Proof.
  intros Heq. rewrite <- (Z.lxor_0_r a), <- (Z.lxor_0_r b), <- (Z.lxor_nilpotent c), <- !Z.lxor_assoc.
  by rewrite Heq.
Qed.

Lemma ref_byte_inj_reg a b x :
  0 <= a < 2 ^ 32 -> 0 <= b < 2 ^ 32 -> byte_ok x -> ref_byte a x = ref_byte b x -> a = b.
Proof.
  intros Ha Hb Hx Heq. apply (lxor_cancel_r _ _ x), (iter_ref_bit_inj 8), Heq;
    apply lxor_bounds; unfold byte_ok in *; lia.
Qed.

Lemma ref_reg_inj a b l :
  0 <= a < 2 ^ 32 -> 0 <= b < 2 ^ 32 -> bytes_ok l -> ref_reg a l = ref_reg b l -> a = b.
Proof.
  intros Ha Hb Hl. revert a b Ha Hb. induction Hl as [|x l Hx _ IH]; intros a b Ha Hb; [done|].
  simpl. intros Heq. apply IH in Heq; [|by apply ref_byte_lfsr..]. by apply (ref_byte_inj_reg a b x).
Qed.

Lemma ref_byte_inj_byte r x y :
  0 <= r < 2 ^ 32 -> byte_ok x -> byte_ok y -> ref_byte r x = ref_byte r y -> x = y.
Proof.
  intros Hr Hx Hy Heq. apply (iter_ref_bit_inj 8) in Heq; [|apply lxor_bounds; unfold byte_ok in *; lia..].
  rewrite !(Z.lxor_comm r) in Heq. by apply lxor_cancel_r in Heq.
Qed.

Lemma ref_crc32_single_byte l1 x y l2 :
  bytes_ok l1 -> bytes_ok l2 -> byte_ok x -> byte_ok y ->
  ref_crc32 (l1 ++ x :: l2) = ref_crc32 (l1 ++ y :: l2) -> x = y.
Proof.
  intros H1 H2 Hx Hy Heq. unfold ref_crc32 in Heq. apply lxor_cancel_r in Heq.
  rewrite !ref_reg_app in Heq. simpl in Heq.
  assert (Hr : 0 <= ref_reg 4294967295 l1 < 2 ^ 32) by (apply ref_reg_bounds; [lia|done]).
  apply ref_reg_inj in Heq; [|by apply ref_byte_lfsr..|done].
  by apply ref_byte_inj_byte in Heq.
Qed.
End Crc32Facts.

(** ** Properties *)
Import Crc8 Crc8Facts Crc32 Crc32Facts.

(** C25. The 32-equation software CRC [get_crc32] computes the IEEE CRC-32 of
    the bytes, for every message. *)
Theorem get_crc32_ieee data : bytes_ok data -> get_crc32 data = ref_crc32 data.
Proof. apply get_crc32_is_ref. Qed.

Lemma get_crc32_ieee_witness :
  bytes_ok [49; 50; 51; 52; 53; 54; 55; 56; 57] /\
  get_crc32 [49; 50; 51; 52; 53; 54; 55; 56; 57] = 3421780262.
Proof.
  assert (H : bytes_ok [49; 50; 51; 52; 53; 54; 55; 56; 57]) by (repeat constructor; lia).
  split; [exact H|]. rewrite (get_crc32_ieee _ H). vm_compute. reflexivity.
Defined.

(** [get_crc32] detects every corruption of a single byte: two messages
    that differ in one byte have different values. *)
Theorem get_crc32_detects_byte l1 x y l2 :
  bytes_ok l1 -> bytes_ok l2 -> byte_ok x -> byte_ok y -> x <> y ->
  get_crc32 (l1 ++ x :: l2) <> get_crc32 (l1 ++ y :: l2).
Proof.
  intros H1 H2 Hx Hy Hxy Heq. apply Hxy.
  rewrite !get_crc32_is_ref in Heq by (apply Forall_app; split; [done|by constructor]).
  by apply ref_crc32_single_byte in Heq.
Qed.

Lemma get_crc32_detects_byte_witness : get_crc32 ([1] ++ 2 :: [3]) <> get_crc32 ([1] ++ 130 :: [3]).
Proof. apply get_crc32_detects_byte; repeat constructor; unfold byte_ok; lia. Defined.

(** The table-driven CRC-8 is the bit-serial register of the polynomial
    x^8 + x^2 + x + 1; a message followed by its CRC passes [chk_crc8], and
    with any one byte changed it does not. *)
Theorem crc8_protects l1 x y l2 :
  bytes_ok l1 -> bytes_ok l2 -> byte_ok x -> byte_ok y ->
  let sent := l1 ++ x :: l2 in
  get_crc8 sent = ref_crc8 0 sent /\
  chk_crc8 (sent ++ [get_crc8 sent]) = 0 /\
  (x <> y -> chk_crc8 ((l1 ++ y :: l2) ++ [get_crc8 sent]) = -1).
Proof.
  intros H1 H2 Hx Hy sent. unfold chk_crc8, get_crc8. rewrite !calculate_crc8_app.
  assert (H0 : byte_ok 0) by (unfold byte_ok; lia).
  assert (Hs : bytes_ok sent) by (apply Forall_app; split; [done|by constructor]).
  cbn [calculate_crc8]. rewrite Z.lxor_nilpotent. split; [by apply calculate_crc8_ref|]. split; [done|].
  intros Hxy. set (c := calculate_crc8 0 sent). set (r := calculate_crc8 0 l1).
  assert (Hr : byte_ok r) by (by apply calculate_crc8_ok).
  assert (Hdiff : calculate_crc8 0 (l1 ++ y :: l2) <> c).
  { unfold c, sent. rewrite !calculate_crc8_app. fold r. intros Heq. simpl in Heq.
    apply calculate_crc8_inj in Heq; [|apply table_row, xor_byte_ok; done..|done].
    apply table_inj in Heq; [|by apply xor_byte_ok..].
    rewrite !(Z.lxor_comm r) in Heq. apply lxor_cancel_r in Heq. by apply Hxy. }
  rewrite calculate_crc8_app in Hdiff. fold r in Hdiff |- *. cbn [calculate_crc8] in Hdiff |- *.
  set (c' := calculate_crc8 _ l2) in *.
  assert (Hc' : byte_ok c') by (apply calculate_crc8_ok; [apply table_row, xor_byte_ok|]; done).
  assert (Hc : byte_ok c) by (by apply calculate_crc8_ok).
  destruct (Z.eqb_spec (byte_at crc8_tbl (Z.lxor c' c)) 0) as [E|]; [|done]. exfalso. apply Hdiff.
  change 0 with (byte_at crc8_tbl 0) in E. apply table_inj in E; [|by apply xor_byte_ok|done].
  by apply Z.lxor_eq.
Qed.

Lemma crc8_protects_witness :
  chk_crc8 ([7] ++ 1 :: [9]) = -1 /\
  chk_crc8 (([7] ++ 1 :: [9]) ++ [get_crc8 ([7] ++ 1 :: [9])]) = 0.
Proof.
  split; [vm_compute; reflexivity|].
  apply (crc8_protects [7] 1 2 [9]); repeat constructor; lia.
Defined.
