(* ===== verification/TextUtil.v ===== *)
(** * Text conversions of [platform/common/utils/platform_utils.c]

    Number, address and string parsing.  A C string is the list of its
    characters before the terminating NUL; a read past the terminator has no
    result ([None]).  An [int*] or [u32*] output is [Some] of the value stored
    through it, [None] when the function leaves it alone. *)
From S2P Require Import Prelude.

Module Text.

(** The character [*str], 0 at the terminator. *)
Definition head_char (str : list Z) : Z := match str with [] => 0 | ch :: _ => ch end.

Definition in_range (c lo up : Z) : bool := (lo <=? c) && (c <=? up).

Definition atodec (ch : Z) : Z := if in_range ch 48 57 then ch - 48 else -1.

(** [while ( *str ) i = atodec( *str++ ) ...] *)
Fixpoint strtodec_loop (i dd : Z) (str : list Z) : option (Z * Z) :=
  match str with
  | [] => Some (i, dd)
  | ch :: str =>
      let i := atodec ch in
      if i <? 0 then None else strtodec_loop i (s32 (dd * 10 + i)) str
  end.

Definition strtodec (str : list Z) : Z * option Z :=
  let '(str, sign) :=
    if head_char str =? 45 then (tail str, -1) else (str, 1) in
  match strtodec_loop (-1) 0 str with
  | None => (-1, None)
  | Some (i, dd) => (if i <? 0 then -1 else 0, Some (s32 (dd * sign)))
  end.

Definition atohex (ch : Z) : Z :=
  if in_range ch 48 57 then ch - 48
  else if in_range ch 97 102 then ch - 97 + 10
  else if in_range ch 65 70 then ch - 65 + 10
  else -1.

Fixpoint strtohex_loop (n i dd : Z) (str : list Z) : option (Z * Z) :=
  match str with
  | [] => Some (n, dd)
  | ch :: str =>
      let n := atohex ch in
      if n <? 0 then None
      else
        let dd := u32 (u32 (dd ≪ 4) + n) in
        if 8 <? i + 1 then None else strtohex_loop n (i + 1) dd str
  end.

Definition strtohex (str : list Z) : Z * option Z :=
  match strtohex_loop (-1) 0 0 str with
  | None => (-1, None)
  | Some (n, dd) => (if n <? 0 then -1 else 0, Some dd)
  end.

(** The bytes stored in [array], and the return value. *)
Fixpoint strtohexarray (cnt : nat) (str : list Z) : list Z * Z :=
  match cnt with
  | O => ([], if head_char str =? 0 then 0 else -1)
  | S cnt =>
      let hex := atohex (head_char str) in
      if hex <? 0 then ([], -1)
      else
        let tmp := (hex ≪ 4) &&& 240 in
        let str := tail str in
        let hex := atohex (head_char str) in
        if hex <? 0 then ([], -1)
        else
          let '(des, ret) := strtohexarray cnt (tail str) in
          ((tmp ||| (hex &&& 15)) :: des, ret)
  end.

(** The scan for three dots: [seg] is the text from [head] to [tail], [rest]
    the text from [tail] on.  The loop does not look for the terminator. *)
Inductive strtoip_result :=
| Scanned (ip : Z) (head : list Z)
| Refused.

Fixpoint strtoip_loop (i ip : Z) (seg rest : list Z) : option strtoip_result :=
  if 3 <=? i then Some (Scanned ip rest)
  else
    match rest with
    | [] => None
    | c :: rest =>
        if c =? 46 then
          let ip := u32 (ip ≪ 8) in
          match strtodec seg with
          | (ret, Some n) =>
              if (ret <? 0) || (n <? 0) || (255 <? n) then Some Refused
              else strtoip_loop (i + 1) (u32 (ip + n)) [] rest
          | (_, None) => Some Refused
          end
        else strtoip_loop i ip (seg ++ [c]) rest
    end.

Definition strtoip (str : list Z) : option (Z * option Z) :=
  match strtoip_loop 0 0 [] str with
  | None => None
  | Some Refused => Some (-1, None)
  | Some (Scanned ip head) =>
      let ip := u32 (ip ≪ 8) in
      match strtodec head with
      | (ret, Some n) =>
          if (ret <? 0) || (n <? 0) || (255 <? n) then Some (-1, None)
          else
            let ip := u32 (ip + n) in
            Some (if ip =? 0 then -1 else 0, Some ip)
      | (_, None) => Some (-1, None)
      end
  end.

(** [sprintf]'s %d for a value of at most three digits, and %02x for a byte. *)
Definition print_d3 (n : Z) : list Z :=
  if n <? 10 then [48 + n]
  else if n <? 100 then [48 + n / 10; 48 + n mod 10]
  else [48 + n / 100; 48 + n / 10 mod 10; 48 + n mod 10].

Definition hex_digit (n : Z) : Z := if n <? 10 then 48 + n else 97 + (n - 10).
Definition print_02x (n : Z) : list Z := [hex_digit (n / 16); hex_digit (n mod 16)].

Definition iptostr (ip : Z) : list Z :=
  print_d3 ((ip ≫ 24) &&& 255) ++ 46 :: print_d3 ((ip ≫ 16) &&& 255) ++ 46 ::
  print_d3 ((ip ≫ 8) &&& 255) ++ 46 :: print_d3 ((ip ≫ 0) &&& 255).

Definition mactostr (mac : list Z) : list Z :=
  print_02x (byte_at mac 0) ++ print_02x (byte_at mac 1) ++ print_02x (byte_at mac 2) ++
  print_02x (byte_at mac 3) ++ print_02x (byte_at mac 4) ++ print_02x (byte_at mac 5).

Definition hex_to_digit (c : Z) : Z :=
  if in_range c 48 57 then c - 48
  else if in_range c 65 70 then c - (65 - 10)
  else if in_range c 97 102 then c - (97 - 10)
  else -1.

Definition digit_to_hex (c : Z) : Z :=
  if in_range c 0 9 then c + 48
  else if in_range c 10 15 then c - 10 + 65
  else -1.

(** [*d] is cleared first and updated digit by digit, so it is written even
    when the string is refused. *)
Fixpoint hexstr_loop (d : Z) (buf : list Z) : Z * Z :=
  match buf with
  | [] => (0, d)
  | ch :: buf =>
      let c := hex_to_digit ch in
      if c <? 0 then (-1, d) else hexstr_loop (u8 c ||| u32 (d ≪ 4)) buf
  end.

Definition hexstr_to_unit (buf : list Z) : Z * Z :=
  if 8 <? zlen buf then (-1, 0) else hexstr_loop 0 buf.

(** [a >= 'a' && a <= 'z' ? a - ('a' - 'A') : a] *)
Definition upper (a : Z) : Z := if in_range a 97 122 then a - 32 else a.

Fixpoint strcasecmp (s1 s2 : list Z) : Z :=
  match s1, s2 with
  | a :: s1, b :: s2 =>
      if a =? b then strcasecmp s1 s2
      else if negb (upper a =? upper b) then 1 else strcasecmp s1 s2
  | _, _ => 0
  end.

(** [tls_mem_alloc] may fail ([false]); then the result is [NULL]. *)
Definition strdup (mem_ok : bool) (s : list Z) : option (list Z) :=
  let len := zlen s + 1 in
  if mem_ok then Some (memcpy_at 0 (slice 0 (len - 1) s) (replicate (Z.to_nat len) 0)) else None.

(** [strndup] copies [len] bytes of [s] without looking for its terminator:
    [s] is the memory at the pointer, terminator and beyond included. *)
Definition strndup (mem_ok : bool) (s : list Z) (len : Z) : option (list Z) :=
  if mem_ok then Some (memcpy_at 0 (slice 0 len s) (replicate (Z.to_nat (len + 1)) 0)) else None.

(** [tls_os_get_time] counts hundredths of a second. *)
Definition gettimeofday (current_tick : Z) : Z * Z :=
  (current_tick / 100, 10000 * (current_tick mod 100)).

(** [checksum]: [sum] is the static accumulator, kept between calls unless
    [init] is 0. *)
Definition checksum (sum : Z) (data : list Z) (init : Z) : Z * Z :=
  let sum := if init =? 0 then 0 else sum in
  let sum := fold_left Z.add data sum in
  (u32 (Z.lnot (u32 (u32 (sum ≫ 32) + u32 sum))), sum).

End Text.

(** ** Facts about the digits *)
Module TextFacts.
Import Text.

(** Boolean checks over all byte values. *)
Lemma forall_byte (P : Z -> bool) : forallb P (seqZ 0 256) = true -> forall x, byte_ok x -> P x = true.
Proof.
  intros Hall x Hx. rewrite forallb_forall in Hall. apply Hall.
  rewrite <- list_elem_of_In, elem_of_seqZ. unfold byte_ok in Hx. lia.
Qed.

Definition reads_back (n : Z) : bool :=
  match strtodec (print_d3 n) with
  | (r, Some m) => (r =? 0) && (m =? n) && forallb (fun c => negb (c =? 46)) (print_d3 n)
  | _ => false
  end.

Lemma print_d3_reads n :
  byte_ok n -> strtodec (print_d3 n) = (0, Some n) /\ Forall (fun c => c <> 46) (print_d3 n).
Proof.
  intros Hn. pose proof (forall_byte reads_back ltac:(vm_compute; reflexivity) n Hn) as H.
  unfold reads_back in H. destruct (strtodec (print_d3 n)) as [r [m|]]; [|done].
  rewrite !andb_true_iff, !Z.eqb_eq, forallb_forall in H. destruct H as [[-> ->] H]. split; [done|].
  apply Forall_forall. intros c Hc%list_elem_of_In. specialize (H c Hc). lia.
Qed.

(** The scan over text without dots only extends the segment. *)
Lemma strtoip_loop_text i ip seg text rest :
  i < 3 -> Forall (fun c => c <> 46) text ->
  strtoip_loop i ip seg (text ++ rest) = strtoip_loop i ip (seg ++ text) rest.
Proof.
  intros Hi Ht. revert seg. induction Ht as [|c text Hc _ IH]; intros seg.
  - by rewrite app_nil_r.
  - simpl. rewrite (proj2 (Z.leb_gt 3 i)), (proj2 (Z.eqb_neq c 46)) by lia.
    rewrite IH. by rewrite <- app_assoc.
Qed.

Lemma strtoip_loop_segment i ip n rest :
  i < 3 -> byte_ok n -> 0 <= ip < 2 ^ 24 ->
  strtoip_loop i ip [] (print_d3 n ++ 46 :: rest) = strtoip_loop (i + 1) (256 * ip + n) [] rest.
Proof.
  intros Hi Hn Hip. destruct (print_d3_reads n Hn) as [Hread Hdots].
  rewrite strtoip_loop_text by done. cbn [app strtoip_loop].
  rewrite (proj2 (Z.leb_gt 3 i)) by lia. rewrite Z.eqb_refl. cbv zeta. rewrite Hread.
  unfold byte_ok in Hn.
  replace ((0 <? 0) || (n <? 0) || (255 <? n)) with false by lia.
  f_equal. rewrite Z.shiftl_mul_pow2 by lia. change (2 ^ 8) with 256.
  rewrite (wrap_id 32 (ip * 256)), wrap_id by lia. lia.
Qed.

(** The four bytes of an address. *)
Lemma ip_bytes ip :
  0 <= ip < 2 ^ 32 ->
  exists a b c d, byte_ok a /\ byte_ok b /\ byte_ok c /\ byte_ok d /\
    ip = 256 * (256 * (256 * a + b) + c) + d /\
    (ip ≫ 24) &&& 255 = a /\ (ip ≫ 16) &&& 255 = b /\ (ip ≫ 8) &&& 255 = c /\ (ip ≫ 0) &&& 255 = d.
Proof.
  intros Hip. exists (ip / 16777216), (ip / 65536 mod 256), (ip / 256 mod 256), (ip mod 256).
  change 255 with (Z.ones 8). rewrite !Z.land_ones, !Z.shiftr_div_pow2 by lia.
  change (2 ^ 24) with 16777216. change (2 ^ 16) with 65536. change (2 ^ 8) with 256. change (2 ^ 0) with 1.
  unfold byte_ok. change (2 ^ 32) with 4294967296 in Hip.
  assert (ip / 65536 / 256 = ip / 16777216) by (rewrite Z.div_div by lia; reflexivity).
  assert (ip / 256 / 256 = ip / 65536) by (rewrite Z.div_div by lia; reflexivity).
  rewrite Z.div_1_r.
  repeat split; dlia.
Qed.

Lemma atohex_digit n : 0 <= n < 16 -> atohex (hex_digit n) = n.
Proof.
  intros Hn. assert (Hall : forallb (fun n => atohex (hex_digit n) =? n) (seqZ 0 16) = true) by reflexivity.
  rewrite forallb_forall in Hall. apply Z.eqb_eq, Hall. rewrite <- list_elem_of_In, elem_of_seqZ. lia.
Qed.

Lemma nibbles_join b : byte_ok b -> ((b / 16) ≪ 4 &&& 240) ||| (b mod 16 &&& 15) = b.
Proof.
  intros Hb. apply Z.eqb_eq.
  apply (forall_byte (fun b => ((b / 16) ≪ 4 &&& 240) ||| (b mod 16 &&& 15) =? b)); [reflexivity|done].
Qed.

Lemma strtohexarray_print l rest :
  bytes_ok l ->
  strtohexarray (length l) (concat (map print_02x l) ++ rest) =
  (l, if head_char rest =? 0 then 0 else -1).
Proof.
  induction 1 as [|b l Hb _ IH]; [done|]. unfold byte_ok in Hb.
  cbn [length map concat print_02x app strtohexarray head_char tail].
  pose proof (nibbles_join b Hb) as Hj.
  rewrite !atohex_digit by dlia. cbv zeta.
  rewrite (proj2 (Z.ltb_ge (b / 16) 0)), (proj2 (Z.ltb_ge (b mod 16) 0)) by dlia.
  rewrite IH. by rewrite Hj.
Qed.

Lemma mactostr_concat m : length m = 6%nat -> mactostr m = concat (map print_02x m).
Proof. intros Hm. do 6 (destruct m as [|? m]; [done|]). destruct m; [reflexivity|done]. Qed.

(** The two hex parsers agree digit by digit. *)
Lemma hex_to_digit_atohex ch : hex_to_digit ch = atohex ch.
Proof. unfold hex_to_digit, atohex, in_range. repeat case_match; lia. Qed.

Lemma atohex_bounds ch : atohex ch = -1 \/ 0 <= atohex ch < 16.
Proof. unfold atohex, in_range. repeat case_match; lia. Qed.

Lemma hex_step d n : 0 <= d -> d * 16 < 2 ^ 32 -> 0 <= n < 16 ->
  u32 (u32 (d ≪ 4) + n) = d * 16 + n /\ u8 n ||| u32 (d ≪ 4) = d * 16 + n.
Proof.
  intros Hd Hd' Hn. rewrite Z.shiftl_mul_pow2 by lia. change (2 ^ 4) with 16.
  rewrite (wrap_id 32 (d * 16)), (wrap_id 8) by lia. split; [apply wrap_id; lia|].
  assert (Hl : n &&& (d * 16) = 0).
  { apply Z.bits_inj'. intros i Hi. rewrite Z.land_spec, Z.testbit_0_l. destruct (Z.lt_ge_cases i 4).
    - change 16 with (2 ^ 4). rewrite Z.mul_pow2_bits_low by lia. apply andb_false_r.
    - by rewrite (testbit_high 4 n) by lia. }
  rewrite <- Z.lxor_lor, <- Z.add_nocarry_lxor by done. lia.
Qed.

Lemma hex_loops_agree str n i d :
  0 <= i -> i + zlen str <= 8 -> 0 <= d < 16 ^ i ->
  match strtohex_loop n i d str with
  | None => exists d', hexstr_loop d str = (-1, d')
  | Some (_, v) => hexstr_loop d str = (0, v)
  end.
Proof.
  revert n i d. induction str as [|ch str IH]; intros n i d Hi Hlen Hd; [done|].
  cbn [strtohex_loop hexstr_loop length] in *. rewrite hex_to_digit_atohex.
  destruct (atohex_bounds ch) as [->|Hb]; [simpl; eauto|].
  rewrite (proj2 (Z.ltb_ge (atohex ch) 0)) by lia.
  assert (Hpow : 16 ^ i * 16 = 16 ^ (i + 1)) by (rewrite Z.pow_add_r; lia).
  assert (16 ^ (i + 1) <= 2 ^ 32).
  { change (2 ^ 32) with (16 ^ 8). apply Z.pow_le_mono_r; lia. }
  destruct (hex_step d (atohex ch)) as [-> ->]; [lia..|]. cbv zeta.
  rewrite (proj2 (Z.ltb_ge 8 (i + 1))) by lia. apply IH; lia.
Qed.

Lemma strtohex_loop_sign str n i d n' v :
  strtohex_loop n i d str = Some (n', v) -> str <> [] \/ 0 <= n -> 0 <= n'.
Proof.
  revert n i d. induction str as [|ch str IH]; intros n i d; simpl; [intros [= <- <-] [|]; done|].
  destruct (Z.ltb_spec (atohex ch) 0); [done|]. destruct (8 <? i + 1); [done|].
  intros Hl _. eapply IH; [exact Hl|]. by right.
Qed.

(** The alphabetic case folded away. *)
Fixpoint common_prefix_eq (s1 s2 : list Z) : Prop :=
  match s1, s2 with
  | a :: s1, b :: s2 => upper a = upper b /\ common_prefix_eq s1 s2
  | _, _ => True
  end.

Lemma strcasecmp_cases s1 s2 :
  (strcasecmp s1 s2 = 0 /\ common_prefix_eq s1 s2) \/ (strcasecmp s1 s2 = 1 /\ ~ common_prefix_eq s1 s2).
Proof.
  revert s2. induction s1 as [|a s1 IH]; intros [|b s2]; simpl; [by left..|].
  destruct (Z.eqb_spec a b) as [->|Hab]; [destruct (IH s2) as [[? ?]|[? ?]]; [left|right]; subst; tauto|].
  destruct (Z.eqb_spec (upper a) (upper b)) as [Hu|Hu]; simpl; [destruct (IH s2) as [[? ?]|[? ?]]; [left|right]; subst; tauto|].
  right. tauto.
Qed.

Lemma strtoip_loop_done ip seg rest : strtoip_loop 3 ip seg rest = Some (Scanned ip rest).
Proof. by destruct rest. Qed.

Definition count_dots (s : list Z) : Z := zlen (filter (fun c => c = 46) s).

Lemma strtoip_loop_few i ip seg rest :
  0 <= i -> i + count_dots rest < 3 ->
  strtoip_loop i ip seg rest = None \/ strtoip_loop i ip seg rest = Some Refused.
Proof.
  unfold count_dots. revert i ip seg. induction rest as [|c rest IH]; intros i ip seg Hi Hfew;
    cbn [strtoip_loop]; rewrite (proj2 (Z.leb_gt 3 i)) by lia; [by left|].
  rewrite filter_cons in Hfew. destruct (Z.eqb_spec c 46) as [->|Hc].
  - rewrite decide_True in Hfew by done. cbn [length] in Hfew. cbv zeta.
    destruct (strtodec seg) as [ret [n|]]; [|by right]. case_match; [by right|]. apply IH; lia.
  - rewrite decide_False in Hfew by done. by apply IH.
Qed.
End TextFacts.

(** ** Properties *)
Import Text TextFacts.

(** C27. [strtoip] reads back what [iptostr] prints, for every 32-bit address;
    only 0.0.0.0 is reported as a failure, although its value is stored. *)
Theorem strtoip_iptostr ip :
  0 <= ip < 2 ^ 32 -> strtoip (iptostr ip) = Some (if ip =? 0 then -1 else 0, Some ip).
Proof.
  intros Hip. destruct (ip_bytes ip Hip) as (a & b & c & d & Ha & Hb & Hc & Hd & -> & Ea & Eb & Ec & Ed).
  unfold iptostr, strtoip. rewrite Ea, Eb, Ec, Ed. clear Ea Eb Ec Ed. unfold byte_ok in *.
  rewrite !strtoip_loop_segment by (unfold byte_ok; lia). cbn [Z.add Pos.add].
  rewrite strtoip_loop_done, (proj1 (print_d3_reads d Hd)).
  replace ((0 <? 0) || (d <? 0) || (255 <? d)) with false by lia.
  rewrite Z.shiftl_mul_pow2 by lia. cbv zeta. rewrite wrap_add_l, wrap_id by lia.
  by replace ((256 * (256 * (256 * 0 + a) + b) + c) * 2 ^ 8 + d)
    with (256 * (256 * (256 * a + b) + c) + d) by lia.
Qed.

Lemma strtoip_iptostr_witness :
  0 <= 3232235777 < 2 ^ 32 /\ strtoip (iptostr 3232235777) = Some (0, Some 3232235777).
Proof. split; [lia|]. apply (strtoip_iptostr 3232235777). lia. Defined.

(** A string with fewer than three dots is never accepted by [strtoip];
    without any dot the scan never stops at the terminator: it reads past the
    end of the string, whatever the text is. *)
Theorem strtoip_few_dots str :
  (count_dots str < 3 -> strtoip str = None \/ strtoip str = Some (-1, None)) /\
  (Forall (fun c => c <> 46) str -> strtoip str = None).
Proof.
  unfold strtoip. split; intros H.
  - destruct (strtoip_loop_few 0 0 [] str) as [->| ->]; (lia || auto).
  - pose proof (strtoip_loop_text 0 0 [] str [] ltac:(lia) H) as E. rewrite app_nil_r in E. by rewrite E.
Qed.

Lemma strtoip_few_dots_witness : strtoip [49; 46; 50; 46; 51] = Some (-1, None) \/ strtoip [49; 46; 50; 46; 51] = None.
Proof. destruct (proj1 (strtoip_few_dots [49; 46; 50; 46; 51])) as [H|H]; [vm_compute; reflexivity|right; exact H|left; exact H]. Defined.

(** [strtohexarray] reads back the six bytes [mactostr] prints. *)
Theorem strtohexarray_mactostr mac :
  length mac = 6%nat -> bytes_ok mac -> strtohexarray 6 (mactostr mac) = (mac, 0).
Proof.
  intros Hlen Hok. rewrite mactostr_concat, <- Hlen, <- (app_nil_r (concat _)) by done.
  by rewrite strtohexarray_print.
Qed.

Lemma strtohexarray_mactostr_witness :
  strtohexarray 6 (mactostr [0; 37; 8; 9; 171; 255]) = ([0; 37; 8; 9; 171; 255], 0).
Proof. apply (strtohexarray_mactostr [0; 37; 8; 9; 171; 255]); [reflexivity|]. repeat constructor; lia. Defined.

(** On a non-empty string of at most eight characters the two hexadecimal
    parsers [hexstr_to_unit] and [strtohex] accept the same strings and
    produce the same value; neither overflows. *)
Theorem hex_parsers_agree str :
  str <> [] -> zlen str <= 8 ->
  match strtohex str with
  | (0, Some v) => hexstr_to_unit str = (0, v)
  | (ret, out) => ret = -1 /\ out = None /\ fst (hexstr_to_unit str) = -1
  end.
Proof.
  intros Hne Hlen. unfold strtohex, hexstr_to_unit. rewrite (proj2 (Z.ltb_ge 8 (zlen str))) by lia.
  pose proof (hex_loops_agree str (-1) 0 0 ltac:(lia) ltac:(lia) ltac:(lia)) as H.
  destruct (strtohex_loop (-1) 0 0 str) as [[n v]|] eqn:E.
  - rewrite (proj2 (Z.ltb_ge n 0)); [done|]. eapply strtohex_loop_sign; [exact E|by left].
  - destruct H as [d' ->]. done.
Qed.

Lemma hex_parsers_agree_witness :
  [49; 98; 70] <> [] /\ strtohex [49; 98; 70] = (0, Some 447) /\ hexstr_to_unit [49; 98; 70] = (0, 447).
Proof.
  split; [done|]. split; [reflexivity|].
  exact (hex_parsers_agree [49; 98; 70] ltac:(done) ltac:(simpl; lia)).
Defined.

(** [strcasecmp] returns 0 exactly when the shorter string matches the
    start of the longer one, case ignored: a proper prefix compares equal. *)
Theorem strcasecmp_prefix s1 s2 :
  (strcasecmp s1 s2 = 0 <-> common_prefix_eq s1 s2) /\ (strcasecmp s1 s2 = 0 \/ strcasecmp s1 s2 = 1).
Proof. destruct (strcasecmp_cases s1 s2) as [[-> ?]|[-> ?]]; split; auto; split; (done || tauto). Qed.
