(* ===== verification/DlList.v ===== *)
(** * The intrusive doubly linked list of [include/list.h]

    Nodes live in a memory of [next]/[prev] pairs indexed by address; an
    access to an address that holds no node has no result.  The operations
    are the pointer manipulations of the header; the abstract view of a list
    head is the Rocq list of the addresses linked behind it.  The clients
    (the memory tracker and the upgrade queue) work with that view. *)
From S2P Require Import Prelude CMonad.

Module DlList.

Record node := Node { next : Z; prev : Z }.
Abbreviation mem := (gmap Z node).

Definition NULL : Z := 0.

Definition load (p : Z) : M mem node := fun m => n ← m !! p; Some (n, m).
Definition set_next (p q : Z) : M mem unit := fun m => n ← m !! p; Some (tt, <[p := Node q (prev n)]> m).
Definition set_prev (p q : Z) : M mem unit := fun m => n ← m !! p; Some (tt, <[p := Node (next n) q]> m).

Definition dl_list_init (list : Z) : M mem unit :=
  set_next list list ;;
  set_prev list list.

Definition dl_list_add (list item : Z) : M mem unit :=
  n ← load list;
  set_next item (next n) ;;
  set_prev item list ;;
  n ← load list;
  set_prev (next n) item ;;
  set_next list item.

Definition dl_list_add_tail (list item : Z) : M mem unit :=
  n ← load list;
  dl_list_add (prev n) item.

Definition dl_list_del (item : Z) : M mem unit :=
  n ← load item;
  set_prev (next n) (prev n) ;;
  n ← load item;
  set_next (prev n) (next n) ;;
  set_next item NULL ;;
  set_prev item NULL.

Definition dl_list_empty (list : Z) : M mem Z :=
  n ← load list;
  mret (b2z (next n =? list)).

(** [for (item = list->next; item != list; item = item->next) count++] *)
Definition dl_list_len (fuel : nat) (list : Z) : M mem Z :=
  n ← load list;
  mloop fuel (fun '(item, count) =>
    if item =? list then mret (inr count)
    else n ← load item; mret (inl (next n, count + 1))) (next n, 0).

(** ** The abstract view *)

Definition nxt (m : mem) (x : Z) : option Z := next <$> m !! x.
Definition prv (m : mem) (x : Z) : option Z := prev <$> m !! x.

Definition linked (m : mem) (a b : Z) : Prop := nxt m a = Some b /\ prv m b = Some a.

Fixpoint path (m : mem) (c : list Z) : Prop :=
  match c with
  | a :: ((b :: _) as c') => linked m a b /\ path m c'
  | _ => True
  end.

(** [dll m h l]: the ring of [h] is [h], then [l], then back to [h]. *)
Definition dll (m : mem) (h : Z) (l : list Z) : Prop :=
  NoDup (h :: l) /\ path m (h :: l ++ [h]).

Lemma path_app m c1 a c2 : path m (c1 ++ a :: c2) <-> path m (c1 ++ [a]) /\ path m (a :: c2).
Proof.
  induction c1 as [|x c1 IH]; [simpl; tauto|].
  destruct c1 as [|y c1]; simpl in *; [destruct c2; tauto|]. rewrite IH. tauto.
Qed.

(** A path survives changes that leave alone the [next] of its nodes but the
    last and the [prev] of its nodes but the first. *)
Lemma path_frame m m' c :
  (forall x, x ∈ removelast c -> nxt m' x = nxt m x) ->
  (forall x, x ∈ tail c -> prv m' x = prv m x) ->
  path m c -> path m' c.
Proof.
  induction c as [|a [|b c] IH]; intros Hn Hp; [done|done|]. intros [[Ha Hb] Hpath]. split.
  - split; [rewrite Hn|rewrite Hp]; (done || (simpl; left)).
  - apply IH; [intros x Hx; apply Hn; by right|intros x Hx; apply Hp; by right|done].
Qed.

Lemma removelast_snoc {A} (l : list A) x : removelast (l ++ [x]) = l.
Proof. rewrite removelast_app by done. simpl. apply app_nil_r. Qed.

(** What the two stores change, as seen through [next] and [prev]. *)
Lemma set_next_view m p q n :
  m !! p = Some n ->
  exists m', set_next p q m = Some (tt, m') /\
    (forall x, nxt m' x = if decide (x = p) then Some q else nxt m x) /\
    (forall x, prv m' x = prv m x) /\ (forall x, x <> p -> m' !! x = m !! x).
Proof.
  intros Hp. eexists. unfold set_next, nxt, prv. rewrite Hp. split; [done|].
  split; [|split]; intros x; rewrite ?(lookup_insert m); repeat case_decide; subst; rewrite ?Hp; done.
Qed.

Lemma set_prev_view m p q n :
  m !! p = Some n ->
  exists m', set_prev p q m = Some (tt, m') /\
    (forall x, prv m' x = if decide (x = p) then Some q else prv m x) /\
    (forall x, nxt m' x = nxt m x) /\ (forall x, x <> p -> m' !! x = m !! x).
Proof.
  intros Hp. eexists. unfold set_prev, nxt, prv. rewrite Hp. split; [done|].
  split; [|split]; intros x; rewrite ?(lookup_insert m); repeat case_decide; subst; rewrite ?Hp; done.
Qed.

Lemma nxt_Some m x y : nxt m x = Some y -> exists n, m !! x = Some n /\ next n = y.
Proof. unfold nxt. destruct (m !! x) as [n|]; [|done]. intros [= <-]. eauto. Qed.
Lemma prv_Some m x y : prv m x = Some y -> exists n, m !! x = Some n /\ prev n = y.
Proof. unfold prv. destruct (m !! x) as [n|]; [|done]. intros [= <-]. eauto. Qed.
Lemma nxt_prv_some m x : is_Some (nxt m x) <-> is_Some (m !! x).
Proof. unfold nxt. by rewrite fmap_is_Some. Qed.

(** [dl_list_add a item] puts [item] between [a] and its successor [b]. *)
Lemma dl_list_add_view m a b item :
  linked m a b -> is_Some (m !! item) -> item <> a -> item <> b ->
  exists m', dl_list_add a item m = Some (tt, m') /\
    (forall x, nxt m' x =
       if decide (x = a) then Some item else if decide (x = item) then Some b else nxt m x) /\
    (forall x, prv m' x =
       if decide (x = b) then Some item else if decide (x = item) then Some a else prv m x) /\
    (forall x, x <> a -> x <> b -> x <> item -> m' !! x = m !! x).
Proof.
  intros [Ha Hb] [ni Hi] Hia Hib.
  destruct (nxt_Some _ _ _ Ha) as (na & Hna & <-). destruct (prv_Some _ _ _ Hb) as (nb & Hnb & _).
  unfold dl_list_add, mbind, M_bind, load. rewrite Hna. simpl.
  destruct (set_next_view m item (next na) ni Hi) as (m1 & -> & N1 & P1 & O1).
  destruct (nxt_Some m1 item (next na)) as (n1 & Hn1 & _); [by rewrite N1, decide_True|].
  destruct (set_prev_view m1 item a n1 Hn1) as (m2 & -> & P2 & N2 & O2).
  rewrite (O2 a), (O1 a), Hna by done. simpl.
  assert (Hb2 : m2 !! next na = Some nb) by (by rewrite O2, O1).
  destruct (set_prev_view m2 (next na) item nb Hb2) as (m3 & -> & P3 & N3 & O3).
  destruct (nxt_Some m3 a (next na)) as (n3 & Hn3 & _).
  { by rewrite N3, N2, N1, decide_False by done. }
  destruct (set_next_view m3 a item n3 Hn3) as (m4 & -> & N4 & P4 & O4).
  exists m4. split; [done|]. split; [|split]; intros x.
  - by rewrite N4, N3, N2, N1.
  - by rewrite P4, P3, P2, P1.
  - intros. by rewrite O4, O3, O2, O1.
Qed.

(** [dl_list_del x] joins the neighbours of [x] and clears its links. *)
Lemma dl_list_del_view m a x b :
  linked m a x -> linked m x b -> a <> x -> b <> x ->
  exists m', dl_list_del x m = Some (tt, m') /\
    (forall y, nxt m' y = if decide (y = x) then Some NULL else if decide (y = a) then Some b else nxt m y) /\
    (forall y, prv m' y = if decide (y = x) then Some NULL else if decide (y = b) then Some a else prv m y) /\
    (forall y, y <> a -> y <> b -> y <> x -> m' !! y = m !! y).
Proof.
  intros [Ha Hx] [Hx' Hb] Hax Hbx.
  destruct (nxt_Some _ _ _ Hx') as (nx & Hnx & <-).
  assert (prev nx = a) as <- by (unfold prv in Hx; rewrite Hnx in Hx; by injection Hx).
  destruct (nxt_Some _ _ _ Ha) as (na & Hna & _). destruct (prv_Some _ _ _ Hb) as (nb & Hnb & _).
  unfold dl_list_del, mbind, M_bind, load. rewrite Hnx. simpl.
  destruct (set_prev_view m (next nx) (prev nx) nb Hnb) as (m1 & -> & P1 & N1 & O1).
  rewrite (O1 x), Hnx by done. simpl.
  destruct (nxt_Some m1 (prev nx) x) as (n1 & Hn1 & _); [by rewrite N1|].
  destruct (set_next_view m1 (prev nx) (next nx) n1 Hn1) as (m2 & -> & N2 & P2 & O2).
  assert (H2 : m2 !! x = Some nx) by (by rewrite O2, O1).
  destruct (set_next_view m2 x NULL nx H2) as (m3 & -> & N3 & P3 & O3).
  destruct (nxt_Some m3 x NULL) as (n3 & Hn3 & _); [by rewrite N3, decide_True|].
  destruct (set_prev_view m3 x NULL n3 Hn3) as (m4 & -> & P4 & N4 & O4).
  exists m4. split; [done|]. split; [|split]; intros y.
  - by rewrite N4, N3, N2, N1.
  - by rewrite P4, P3, P2, P1.
  - intros. by rewrite O4, O3, O2, O1.
Qed.

(** A ring can be cut open at any of its nodes. *)
Lemma dll_rotate m h l1 x l2 : dll m h (l1 ++ x :: l2) <-> dll m x (l2 ++ h :: l1).
Proof.
  unfold dll. rewrite !app_comm_cons, <- !app_assoc, <- !app_comm_cons.
  rewrite !(app_comm_cons l1 _ h), !(app_comm_cons l2 _ x).
  rewrite (path_app m (h :: l1) x (l2 ++ [h])), (path_app m (x :: l2) h (l1 ++ [x])).
  rewrite <- !app_comm_cons.
  assert (h :: l1 ++ x :: l2 ≡ₚ x :: l2 ++ h :: l1) as HP.
  { change (h :: l1 ++ x :: l2) with ((h :: l1) ++ x :: l2).
    change (x :: l2 ++ h :: l1) with ((x :: l2) ++ h :: l1). apply Permutation_app_comm. }
  rewrite HP. tauto.
Qed.

Lemma dll_nodes m h l x : dll m h l -> x ∈ h :: l -> is_Some (m !! x).
Proof.
  intros [_ Hp] Hx. apply nxt_prv_some.
  revert Hp. change (h :: l ++ [h]) with ((h :: l) ++ [h]). generalize (h :: l) Hx.
  clear. intros c. induction c as [|a c IH]; intros Hx Hp; [by apply not_elem_of_nil in Hx|].
  assert (Ha : is_Some (nxt m a) /\ path m (c ++ [h])).
  { destruct c as [|b c]; simpl in Hp; destruct Hp as [[Ha _] Hp]; rewrite Ha; by split. }
  apply elem_of_cons in Hx as [->|Hx]; [apply Ha|]. apply IH; [done|apply Ha].
Qed.

Lemma dll_first m h l : dll m h l -> linked m h (hd h l).
Proof. intros [_ Hp]. destruct l; simpl in Hp; apply Hp. Qed.

Lemma dll_last m h l a : dll m h (l ++ [a]) -> linked m a h.
Proof. rewrite dll_rotate. apply dll_first. Qed.

(** Inserting behind the head of the ring. *)
Lemma dll_insert m m' h l item :
  let b := hd h l in
  dll m h l -> item ∉ h :: l ->
  (forall x, nxt m' x =
     if decide (x = h) then Some item else if decide (x = item) then Some b else nxt m x) ->
  (forall x, prv m' x =
     if decide (x = b) then Some item else if decide (x = item) then Some h else prv m x) ->
  dll m' h (item :: l).
Proof.
  cbv zeta. intros [Hnd Hp] [Hih Hil]%not_elem_of_cons HN HP.
  apply NoDup_cons in Hnd as [Hh Hnd].
  assert (Hb : item <> hd h l) by (destruct l; simpl; [done|by apply not_elem_of_cons in Hil as [? _]]).
  split; [rewrite !NoDup_cons, elem_of_cons; intuition congruence|].
  assert (Htail : path m' (l ++ [h])).
  { assert (Hp' : path m (l ++ [h])) by (destruct l; apply Hp).
    revert Hp'. apply path_frame; intros x Hx.
    - rewrite removelast_snoc in Hx. rewrite HN, !decide_False; congruence.
    - assert (Hx' : x ∈ l \/ x = h).
      { destruct l; simpl in Hx; [by apply elem_of_nil in Hx|].
        rewrite elem_of_app, list_elem_of_singleton in Hx. rewrite elem_of_cons. tauto. }
      rewrite HP, !decide_False; [done|by destruct Hx' as [? | ->]; congruence|].
      intros ->. destruct l as [|b l]; simpl in Hx; [by apply elem_of_nil in Hx|].
      apply NoDup_cons in Hnd as [Hb' _]. rewrite elem_of_app, list_elem_of_singleton in Hx.
      destruct Hx as [|Hx]; [done|]. simpl in Hx. subst. apply Hh. left. }
  assert (Hl1 : linked m' h item) by (split; [by rewrite HN, decide_True|by rewrite HP, decide_False, decide_True]).
  assert (Hl2 : linked m' item (hd h l)) by (split; [by rewrite HN, decide_False, decide_True|by rewrite HP, decide_True]).
  destruct l as [|b l]; split; (done || split; done).
Qed.

(** Removing the node at which the ring is cut open. *)
Lemma dll_remove m m' x h l a :
  dll m x (h :: l) -> linked m a x ->
  (forall y, nxt m' y = if decide (y = x) then Some NULL else if decide (y = a) then Some h else nxt m y) ->
  (forall y, prv m' y = if decide (y = x) then Some NULL else if decide (y = h) then Some a else prv m y) ->
  dll m' h l.
Proof.
  intros Hd Ha HN HP. pose proof Hd as [[Hx Hnd]%NoDup_cons Hp].
  destruct (exists_last (l := h :: l)) as (q & a' & Hq); [done|].
  assert (a' = a) as ->.
  { rewrite Hq in Hd. pose proof (dll_last _ _ _ _ Hd) as [_ H1]. destruct Ha as [_ H2].
    rewrite H1 in H2. by injection H2. }
  split; [done|]. destruct Hp as [_ Hp].
  change (h :: l ++ [h]) with ((h :: l) ++ [h]). change (path m ((h :: l) ++ [x])) in Hp.
  rewrite Hq in *. rewrite <- app_assoc in *. simpl in *.
  apply path_app in Hp as [Hp _]. apply path_app. split.
  - revert Hp. apply path_frame; intros y Hy.
    + rewrite removelast_snoc in Hy. apply NoDup_app in Hnd as (_ & Hqa & _).
      rewrite HN, !decide_False; [done| |].
      * intros ->. apply (Hqa a Hy). left.
      * intros ->. apply Hx. apply elem_of_app. by left.
    + assert (Hh : y <> h /\ y <> x).
      { rewrite <- Hq in Hy, Hx, Hnd. simpl in Hy. apply NoDup_cons in Hnd as [Hh _].
        split; [congruence|]. intros ->. apply Hx. by right. }
      rewrite HP, !decide_False by apply Hh. done.
  - assert (Hax : a <> x) by (intros ->; apply Hx, elem_of_app; right; left).
    assert (Hhx : h <> x) by (intros ->; apply Hx; rewrite <- Hq; left).
    split; [|done]. split; [by rewrite HN, decide_False, decide_True|].
    by rewrite HP, decide_False, decide_True.
Qed.

(** ** What each operation does to the abstract list *)

(** Nodes outside the ring are left alone. *)
Definition others (m m' : mem) (c : list Z) : Prop := forall x, x ∉ c -> m' !! x = m !! x.

Lemma dll_frame m m' h l c : dll m h l -> others m m' c -> (h :: l) ## c -> dll m' h l.
Proof.
  intros [Hnd Hp] Ho Hdisj. split; [done|]. revert Hp.
  assert (Heq : forall x, x ∈ h :: l -> m' !! x = m !! x) by (intros x Hx; apply Ho; clear -Hx Hdisj; set_solver).
  apply path_frame; intros x Hx; unfold nxt, prv; rewrite Heq; try done.
  - change (h :: l ++ [h]) with ((h :: l) ++ [h]) in Hx. by rewrite removelast_snoc in Hx.
  - simpl in Hx. clear -Hx. set_solver.
Qed.

Lemma dl_list_init_spec m h :
  is_Some (m !! h) ->
  wp (dl_list_init h) m (fun _ m' => dll m' h [] /\ others m m' [h]).
Proof.
  intros [n Hn]. unfold dl_list_init. apply wp_bind.
  destruct (set_next_view m h h n Hn) as (m1 & E1 & N1 & P1 & O1). apply (wp_eq _ _ _ _ _ E1).
  destruct (nxt_Some m1 h h) as (n1 & Hn1 & _); [by rewrite N1, decide_True|].
  destruct (set_prev_view m1 h h n1 Hn1) as (m2 & E2 & P2 & N2 & O2). apply (wp_eq _ _ _ _ _ E2).
  split.
  - split; [apply NoDup_singleton|]. simpl. split; [|done].
    split; [by rewrite N2, N1, decide_True|by rewrite P2, decide_True].
  - intros x Hx%not_elem_of_cons. rewrite O2, O1 by apply Hx. done.
Qed.

Lemma dl_list_add_spec m h l item :
  dll m h l -> is_Some (m !! item) -> item ∉ h :: l ->
  wp (dl_list_add h item) m (fun _ m' => dll m' h (item :: l) /\ others m m' (h :: item :: l)).
Proof.
  intros Hd Hi Hin. pose proof (dll_first _ _ _ Hd) as Hl.
  assert (Hb : hd h l ∈ h :: l) by (destruct l; [left|right; left]).
  destruct (dl_list_add_view m h (hd h l) item Hl Hi) as (m' & E & HN & HP & HO).
  { intros ->. apply Hin. left. }
  { intros ->. by apply Hin. }
  apply (wp_eq _ _ _ _ _ E). split.
  - by apply (dll_insert m m' h l item).
  - intros x Hx. rewrite !not_elem_of_cons in Hx. destruct Hx as (Hx1 & Hx2 & Hx3).
    apply HO; [done| |done]. intros ->. apply elem_of_cons in Hb as [|]; done.
Qed.

Lemma dl_list_add_tail_spec m h l item :
  dll m h l -> is_Some (m !! item) -> item ∉ h :: l ->
  wp (dl_list_add_tail h item) m
     (fun _ m' => dll m' h (l ++ [item]) /\ others m m' (h :: item :: l)).
Proof.
  intros Hd Hi Hin. destruct (dll_nodes _ _ _ h Hd) as [n Hn]; [left|].
  unfold dl_list_add_tail, load. apply wp_bind, (wp_eq _ _ n m); [by rewrite Hn|].
  assert (Hprev : forall a, linked m a h -> prev n = a).
  { intros a [_ Hp]. unfold prv in Hp. rewrite Hn in Hp. by injection Hp. }
  destruct (decide (l = [])) as [->|Hne].
  - rewrite (Hprev h); [by apply dl_list_add_spec|]. by apply (dll_first _ _ _ Hd).
  - destruct (exists_last Hne) as (q & a & ->). rewrite (Hprev a) by by apply (dll_last _ _ q).
    eapply wp_mono; [apply dl_list_add_spec; [by apply dll_rotate|done|]|].
    + rewrite app_nil_l. rewrite !not_elem_of_cons, not_elem_of_app, list_elem_of_singleton in *. tauto.
    + intros _ m' [Hd' Ho]. split.
      * change (item :: [] ++ h :: q) with ([item] ++ h :: q) in Hd'.
        apply dll_rotate in Hd'. by rewrite <- app_assoc.
      * intros x Hx. apply Ho. simpl.
        rewrite !not_elem_of_cons, not_elem_of_app, list_elem_of_singleton in *. tauto.
Qed.

Lemma dl_list_del_spec m h l1 x l2 :
  dll m h (l1 ++ x :: l2) ->
  wp (dl_list_del x) m (fun _ m' =>
    dll m' h (l1 ++ l2) /\ m' !! x = Some (Node NULL NULL) /\ others m m' (h :: l1 ++ x :: l2)).
Proof.
  intros Hd. pose proof Hd as Hr%dll_rotate.
  assert (exists y r, l2 ++ h :: l1 = y :: r) as (y & r & Hy) by (destruct l2; eauto).
  assert (exists a q, l2 ++ h :: l1 = q ++ [a]) as (a & q & Hq).
  { destruct (exists_last (l := l2 ++ h :: l1)) as (q & a & ?); [by destruct l2|]. by exists a, q. }
  assert (Hax : linked m a x) by (apply (dll_last m x q); by rewrite <- Hq).
  pose proof (dll_first _ _ _ Hr) as Hxy.
  assert (Hnd : x ∉ l2 ++ h :: l1) by (by destruct Hr as [[? _]%NoDup_cons _]).
  assert (Ha : a ∈ l2 ++ h :: l1) by (rewrite Hq; apply elem_of_app; right; left).
  assert (Hyin : y ∈ l2 ++ h :: l1) by (rewrite Hy; left).
  rewrite Hy in Hxy. simpl in Hxy.
  destruct (dl_list_del_view m a x y Hax Hxy) as (m' & E & HN & HP & HO); [congruence..|].
  apply (wp_eq _ _ _ _ _ E). split; [|split].
  - rewrite Hy in Hr. pose proof (dll_remove m m' x y r a Hr Hax HN HP) as Hd'.
    destruct l2 as [|z l2]; simpl in Hy; injection Hy as <- <-; rewrite ?app_nil_r; [done|].
    by apply dll_rotate.
  - specialize (HN x). specialize (HP x). rewrite decide_True in HN, HP by done.
    unfold nxt, prv in HN, HP. destruct (m' !! x) as [[nx px]|]; [|done]. simpl in *. congruence.
  - intros z Hz. rewrite not_elem_of_cons, not_elem_of_app, not_elem_of_cons in Hz.
    rewrite elem_of_app, elem_of_cons in Ha, Hyin.
    apply HO; intros ->; tauto.
Qed.

Lemma dl_list_empty_spec m h l :
  dll m h l -> wp (dl_list_empty h) m (fun r m' => r = b2z (bool_decide (l = [])) /\ m' = m).
Proof.
  intros Hd. destruct (dll_first _ _ _ Hd) as [Hn _].
  destruct (nxt_Some _ _ _ Hn) as (n & Hn' & Hnext).
  unfold dl_list_empty, load. apply wp_bind, (wp_eq _ _ n m); [by rewrite Hn'|]. apply wp_ret.
  split; [|done]. f_equal. rewrite Hnext. destruct l as [|a l]; simpl; [by rewrite Z.eqb_refl|].
  destruct Hd as [[Hh _]%NoDup_cons _]. apply Z.eqb_neq. intros ->. apply Hh. left.
Qed.

Lemma dl_list_len_spec m h l fuel :
  dll m h l -> (length l < fuel)%nat ->
  wp (dl_list_len fuel h) m (fun r m' => r = zlen l /\ m' = m).
Proof.
  intros Hd Hfuel. destruct (dll_first _ _ _ Hd) as [Hn _].
  destruct (nxt_Some _ _ _ Hn) as (n & Hn' & Hnext).
  unfold dl_list_len, load. apply wp_bind, (wp_eq _ _ n m); [by rewrite Hn'|]. rewrite Hnext.
  apply (wp_loop (fun '(item, count) m' => m' = m /\
      exists l1 l2, l = l1 ++ l2 /\ item = hd h l2 /\ count = zlen l1)
    (fun '(_, count) => Z.to_nat (zlen l - count))).
  - lia.
  - split; [done|]. exists [], l. done.
  - intros [item count] s (-> & l1 & l2 & -> & -> & ->). cbv beta iota.
    destruct l2 as [|a l2]; simpl.
    + rewrite Z.eqb_refl. apply wp_ret. by rewrite app_nil_r.
    + assert (Hah : a <> h).
      { intros ->. destruct Hd as [[Hh _]%NoDup_cons _]. apply Hh, elem_of_app. right. left. }
      rewrite (proj2 (Z.eqb_neq a h)) by done.
      pose proof Hd as Hr%dll_rotate. destruct (dll_first _ _ _ Hr) as [Hna _].
      destruct (nxt_Some _ _ _ Hna) as (na & Hna' & Hnexta).
      apply wp_bind, (wp_eq _ _ na m); [by rewrite Hna'|]. apply wp_ret.
      rewrite !length_app. simpl. split; [lia|]. split; [done|].
      exists (l1 ++ [a]), l2. rewrite <- app_assoc, length_app. simpl. split; [done|]. split; [|lia].
      rewrite Hnexta. by destruct l2.
Qed.

(** ** The list as an abstract data type *)

(** The operations of the header on one ring, and what each of them means
    for the sequence of addresses behind the head. *)
Inductive op := Add (item : Z) | AddTail (item : Z) | Del (item : Z).

Definition exec (h : Z) (o : op) : M mem unit :=
  match o with
  | Add item => dl_list_add h item
  | AddTail item => dl_list_add_tail h item
  | Del item => dl_list_del item
  end.

Definition allowed (h : Z) (l : list Z) (m : mem) (o : op) : Prop :=
  match o with
  | Add item | AddTail item => is_Some (m !! item) /\ item ∉ h :: l
  | Del item => item ∈ l
  end.

Definition abstract (o : op) (l : list Z) : list Z :=
  match o with
  | Add item => item :: l
  | AddTail item => l ++ [item]
  | Del item => filter (.≠ item) l
  end.

Definition item_of (o : op) : Z :=
  match o with Add item | AddTail item | Del item => item end.

Lemma filter_notin (l : list Z) x : x ∉ l -> filter (.≠ x) l = l.
Proof.
  induction l as [|y l IH]; [done|]. intros [Hy Hl]%not_elem_of_cons.
  by rewrite filter_cons_True, IH by auto.
Qed.

Lemma filter_del (l1 l2 : list Z) x :
  NoDup (l1 ++ x :: l2) -> filter (.≠ x) (l1 ++ x :: l2) = l1 ++ l2.
Proof.
  intros (_ & Hdisj & [Hx _]%NoDup_cons)%NoDup_app. rewrite filter_app, filter_cons_False by auto.
  f_equal; apply filter_notin; [|done]. intros Hin. apply (Hdisj x Hin). left.
Qed.

(** C9. The pointer surgery of [dl_list_add], [dl_list_add_tail] and
    [dl_list_del] implements the sequence operations: after any allowed
    operation the memory holds a well-formed ring whose forward links read
    the new sequence and whose backward links agree with it, nodes that are
    neither in the ring nor the item are untouched, the emptiness test and
    the length computed on the result are those of the new sequence, and a
    removed node has both links cleared. *)
Theorem dl_list_refines m h l o fuel :
  dll m h l -> allowed h l m o -> (S (length l) < fuel)%nat ->
  wp (exec h o ;; e ← dl_list_empty h; n ← dl_list_len fuel h; mret (e, n)) m (fun r m' =>
    dll m' h (abstract o l) /\
    r = (b2z (bool_decide (abstract o l = [])), zlen (abstract o l)) /\
    others m m' (h :: item_of o :: l) /\
    (forall x, o = Del x -> m' !! x = Some (Node NULL NULL))).
Proof.
  intros Hd Hok Hfuel. apply wp_bind.
  apply wp_mono with (Q := fun _ m' => dll m' h (abstract o l) /\
    others m m' (h :: item_of o :: l) /\ (forall x, o = Del x -> m' !! x = Some (Node NULL NULL))).
  - destruct o as [item|item|item]; simpl in *.
    + destruct Hok. eapply wp_mono; [by apply dl_list_add_spec|]. intros _ m' [? ?]. split; [done|]. by split.
    + destruct Hok. eapply wp_mono; [by apply dl_list_add_tail_spec|]. intros _ m' [? ?]. split; [done|]. by split.
    + apply list_elem_of_split in Hok as (l1 & l2 & ->).
      rewrite filter_del by (by destruct Hd as [[_ ?]%NoDup_cons _]).
      eapply wp_mono; [exact (dl_list_del_spec _ _ _ _ _ Hd)|]. intros _ m' (? & Hx & Ho).
      split; [done|]. split; [|by intros x [= <-]].
      intros y Hy. apply Ho. rewrite !not_elem_of_cons, not_elem_of_app in *.
      rewrite not_elem_of_cons in *. tauto.
  - intros _ m' (Hd' & Ho & Hdel).
    assert (Hlen : (length (abstract o l) < fuel)%nat).
    { destruct o; simpl; rewrite ?length_app; simpl; try lia.
      pose proof (length_filter (.≠ item) l). lia. }
    apply wp_bind. eapply wp_mono; [by apply dl_list_empty_spec|]. intros e m1 [-> ->].
    apply wp_bind. eapply wp_mono; [by apply dl_list_len_spec|]. intros n m2 [-> ->].
    by apply wp_ret.
Qed.

(** Memory of four unlinked nodes after the head has been initialised. *)
Definition sample : mem :=
  <[1 := Node 1 1]> (<[2 := Node 0 0]> (<[3 := Node 0 0]> (<[4 := Node 0 0]> ∅))).

Lemma dl_list_refines_witness :
  dll sample 1 [] /\
  wp (exec 1 (AddTail 3) ;; e ← dl_list_empty 1; n ← dl_list_len 5 1; mret (e, n)) sample
     (fun r m' => r = (0, 1) /\ dll m' 1 [3]).
Proof.
  assert (Hd : dll sample 1 []).
  { split; [apply NoDup_singleton|]. split; [split; reflexivity|done]. }
  split; [exact Hd|].
  refine (wp_mono _ _ _ _ (dl_list_refines sample 1 [] (AddTail 3) 5 Hd _ _) _).
  - split; [by eexists|]. rewrite list_elem_of_singleton. lia.
  - simpl. lia.
  - intros r m' (H1 & H2 & _). split; [exact H2|exact H1].
Defined.

End DlList.
