(* ===== verification/HostEnv.v ===== *)
(** * What the drivers ask of the heap and the operating system

    [tls_mem_alloc] / [tls_mem_free] and the semaphore creation of the RTOS
    are an interface: a state [E] with its operations, and the laws the
    drivers rely on.  [WmMem] implements the allocator part.  A block comes
    with the bytes it happens to contain, so that code which uses
    uninitialised memory is modelled as such. *)
From S2P Require Import Prelude CMonad.

Class Host (E : Type) := {
  (** [tls_mem_alloc(size)]: the address and the contents of the block, or
      nothing for a NULL result. *)
  h_alloc : Z -> E -> option (Z * list Z) * E;
  h_free : Z -> E -> E;
  (** [tls_os_sem_create]: whether it succeeds. *)
  h_sem_create : E -> bool * E;
}.

(** Blocks are word aligned, not at NULL, and of the size asked for. *)
Class HostLaws (E : Type) `{Host E} := {
  h_alloc_spec size e p l e' :
    0 <= size -> h_alloc size e = (Some (p, l), e') ->
    p mod 4 = 0 /\ p <> 0 /\ length l = Z.to_nat size /\ bytes_ok l;
}.

(** The blocks in use, for clients that keep linked structures in them: in a
    state in which they are [B], a new block is none of them, and freeing one
    takes it back. *)
Class HostBlocks (E : Type) `{Host E} := {
  h_blocks : E -> gset Z -> Prop;
  h_alloc_some e B size p l e' :
    0 < size < 2 ^ 31 -> h_blocks e B -> h_alloc size e = (Some (p, l), e') -> (p ∉ B) /\ h_blocks e' ({[p]} ∪ B);
  h_alloc_none e B size e' :
    0 < size < 2 ^ 31 -> h_blocks e B -> h_alloc size e = (None, e') -> h_blocks e' B;
  h_free_blocks e B p : h_blocks e B -> p ∈ B -> h_blocks (h_free p e) (B ∖ {[p]})
}.

(** ** A concrete host for evaluating the model: a bump allocator with a
    limit, whose blocks hold 0xAA bytes. *)
Module BumpHost.

Record bump := Bump { brk : Z; limit : Z; sems : bool }.

Definition alloc (size : Z) (e : bump) : option (Z * list Z) * bump :=
  if brk e + size <=? limit e
  then (Some (brk e, replicate (Z.to_nat size) 170), Bump (brk e + (size + 3) / 4 * 4) (limit e) (sems e))
  else (None, e).

#[global] Instance host : Host bump := {
  h_alloc := fun size e => if (brk e mod 4 =? 0) && (0 <? brk e) then alloc size e else (None, e);
  h_free := fun _ e => e;
  h_sem_create := fun e => (sems e, e);
}.

#[global] Instance host_laws : HostLaws bump.
Proof.
  split. intros size e p l e' Hsize. simpl. unfold alloc.
  destruct (Z.eqb_spec (brk e mod 4) 0); simpl; [|done].
  destruct (Z.ltb_spec 0 (brk e)); simpl; [|done]. case_match; [|done]. intros [= <- <- _].
  rewrite length_replicate. repeat split; try lia.
  apply Forall_replicate. unfold byte_ok. lia.
Qed.

#[global] Program Instance host_blocks : HostBlocks bump := {|
  h_blocks e B := forall p, p ∈ B -> p < brk e
|}.
Next Obligation.
  intros e B size p l e' Hsize HB. simpl. unfold alloc.
  destruct ((brk e mod 4 =? 0) && (0 <? brk e)); [|done]. case_match; [|done]. intros [= <- _ <-]. simpl.
  assert (Hup : size <= (size + 3) / 4 * 4) by dlia. split; [intros Hp%HB; lia|].
  intros q [->%elem_of_singleton|Hq%HB]%elem_of_union; simpl; lia.
Qed.
Next Obligation.
  intros e B size e' Hsize HB. simpl. unfold alloc.
  destruct ((brk e mod 4 =? 0) && (0 <? brk e)); [|by intros [= <-]]. case_match; [done|]. by intros [= <-].
Qed.
Next Obligation. intros e B p HB _ q [Hq _]%elem_of_difference. by apply HB. Qed.

(** A host with plenty of memory, and one with none. *)
Definition roomy : bump := Bump 536870912 553648128 true.
Definition full : bump := Bump 536870912 536870912 true.

End BumpHost.
