(* ===== verification/FlashChip.v ===== *)
(** * The SPI flash chip behind the controller

    The chip and its controller are hardware: the driver writes a command
    word, an address and a 1024-byte buffer, sets the start bit and finds the
    result in the buffer.  [FlashChip] is that interface, [flash_cmd] names
    the commands the driver issues with their command words, and
    [FlashChipLaws] is the documented behaviour of each of them.  [NorChip]
    is a concrete chip that satisfies the laws, on which the model can be
    evaluated. *)
From S2P Require Import Prelude.

(** The commands the driver issues. *)
Inductive flash_cmd :=
  | WREN | RDID | RDSR1 | RDSR2 | RDSR3
  | WRSR12 | WRSR1 | WRSR2 | WRSR3
  | RUID (n : Z)
  | READ (op : Z) (n : Z)
  | PP (n : Z) | SE
  | OTPR (n : Z) | OTPP (n : Z) | OTPE.

Definition len_field (n : Z) : Z := (n - 1) ≪ 16.

(** Their command words; [READ op] has the five encodings of [__readByCMD]. *)
Definition cmd_word (c : flash_cmd) : Z :=
  match c with
  | WREN => 0x6
  | RDID => 0x2c09F
  | RDSR1 => 0x0C005
  | RDSR2 => 0x0C035
  | RDSR3 => 0x0C085
  | WRSR12 => 0x1A001
  | WRSR1 => 0x0A001
  | WRSR2 => 0x0A031
  | WRSR3 => 0x0A0C1
  | RUID n => 0xC04B ||| len_field n
  | READ op n => op ||| len_field n
  | PP n => 0x80009002 ||| len_field n
  | SE => 0x80000820
  | OTPR n => 0xBC00C048 ||| len_field n
  | OTPP n => 0x80009042 ||| len_field n
  | OTPE => 0x80000844
  end.

Definition read_ops : list Z := [0x8000C003; 0xB400C00B; 0xBC00C00B; 0xE400C0BB; 0xEC00C0EB].

Definition RSA_BUF_SIZE : Z := 1024.

Class FlashChip (D : Type) := {
  (** [chip_exec word addr buf d]: the chip and the buffer after the command. *)
  chip_exec : Z -> Z -> list Z -> D -> D * list Z;
  (** What can be observed of a chip: the array, the one-time area, the two
      status bytes (as one 16-bit value), the third status register, and the
      write-enable latch. *)
  chip_byte : D -> Z -> Z;
  chip_otp : D -> Z -> Z;
  chip_sr : D -> Z;
  chip_sr3 : D -> Z;
  chip_wel : D -> bool;
  (** Constants of the part. *)
  chip_size : D -> Z;
  chip_id : D -> list Z;
  chip_uid : D -> list Z;
  chip_otp_size : D -> Z;
  chip_otp_block : D -> Z;
  (** The status registers the part has. *)
  chip_has : D -> flash_cmd -> bool;
  (** Which addresses the block-protect bits of a status protect. *)
  chip_prot : D -> Z -> Z -> bool;
}.

(** The block-protect and complement bits, and the one-time lock bits. *)
Definition BP_MASK : Z := 0x407C.
Definition LB_MASK : Z := 0x3C00.

Section contract.
Context {D : Type} `{FlashChip D}.

(** The part of a chip no command changes. *)
Definition same_part (d d' : D) : Prop :=
  chip_size d' = chip_size d /\ chip_id d' = chip_id d /\ chip_uid d' = chip_uid d /\
  chip_otp_size d' = chip_otp_size d /\ chip_otp_block d' = chip_otp_block d /\
  (forall c, chip_has d' c = chip_has d c) /\ (forall sr a, chip_prot d' sr a = chip_prot d sr a).

Definition keeps_array (d d' : D) : Prop := chip_byte d' ≡ₐ chip_byte d.
Definition keeps_otp (d d' : D) : Prop := chip_otp d' ≡ₐ chip_otp d.
Definition keeps_sr (d d' : D) : Prop := chip_sr d' = chip_sr d /\ chip_sr3 d' = chip_sr3 d.

(** The first bytes of the buffer are the answer, as far as it is defined. *)
Definition answers (n : Z) (P : Z -> Z -> Prop) (buf' : list Z) : Prop :=
  forall i, 0 <= i < n -> P i (byte_at buf' i).

Definition unprotected (d : D) (off n : Z) : Prop :=
  forall a, off <= a < off + n -> chip_prot d (chip_sr d) a = false.

(** A status write: the lock bits cannot be cleared again. *)
Definition sr_written (old new : Z) : Z := new ||| (old &&& LB_MASK).

(** What each command does to a chip [d] with address [addr] and buffer
    [buf]; a write command needs the latch, and resets it. *)
Definition cmd_effect (c : flash_cmd) (addr : Z) (buf : list Z) (d d' : D) (buf' : list Z) : Prop :=
  match c with
  | WREN => keeps_array d d' /\ keeps_otp d d' /\ keeps_sr d d' /\ chip_wel d' = true /\ buf' = buf
  | RDID => d' = d /\ answers 3 (fun i b => b = byte_at (chip_id d) i) buf'
  | RDSR1 => d' = d /\ answers 1 (fun i b => b = chip_sr d mod 256) buf'
  | RDSR2 => d' = d /\ answers 1 (fun i b => b = chip_sr d / 256) buf'
  | RDSR3 => d' = d /\ (chip_has d RDSR3 = true -> answers 1 (fun i b => b = chip_sr3 d) buf')
  | WRSR12 | WRSR1 | WRSR2 =>
      chip_wel d = true -> chip_has d c = true ->
      keeps_array d d' /\ keeps_otp d d' /\ chip_sr3 d' = chip_sr3 d /\ buf' = buf /\
      chip_sr d' =
        match c with
        | WRSR12 => sr_written (chip_sr d) (le_val (take 2 buf))
        | WRSR1 => le_val [byte_at buf 0; chip_sr d / 256]
        | _ => sr_written (chip_sr d) (le_val [chip_sr d mod 256; byte_at buf 0])
        end
  | WRSR3 =>
      chip_wel d = true -> chip_has d WRSR3 = true ->
      keeps_array d d' /\ keeps_otp d d' /\ chip_sr d' = chip_sr d /\
      chip_sr3 d' = byte_at buf 0 /\ buf' = buf
  | RUID n => 0 < n <= 20 -> d' = d /\ answers n (fun i b => 4 <= i -> b = byte_at (chip_uid d) (i - 4)) buf'
  | READ op n =>
      op ∈ read_ops -> 0 < n <= 1024 ->
      d' = d /\ answers n (fun i b => addr + i < chip_size d -> b = chip_byte d (addr + i)) buf'
  | PP n =>
      0 < n -> addr mod 256 + n <= 256 -> addr < chip_size d ->
      chip_wel d = true -> unprotected d addr n ->
      keeps_otp d d' /\ keeps_sr d d' /\ buf' = buf /\
      forall a, chip_byte d' a =
        if (addr <=? a) && (a <? addr + n) then chip_byte d a &&& byte_at buf (a - addr) else chip_byte d a
  | SE =>
      addr < chip_size d -> chip_wel d = true -> unprotected d (addr / 4096 * 4096) 4096 ->
      keeps_otp d d' /\ keeps_sr d d' /\ buf' = buf /\
      forall a, chip_byte d' a = if a / 4096 =? addr / 4096 then 255 else chip_byte d a
  | OTPR n =>
      0 < n <= 1024 ->
      d' = d /\ answers n (fun i b => addr + i < chip_otp_size d -> b = chip_otp d (addr + i)) buf'
  | OTPP n =>
      0 < n -> addr mod 256 + n <= 256 -> addr < chip_otp_size d ->
      chip_wel d = true -> chip_sr d &&& LB_MASK = 0 ->
      keeps_array d d' /\ keeps_sr d d' /\ buf' = buf /\
      forall a, chip_otp d' a =
        if (addr <=? a) && (a <? addr + n) then chip_otp d a &&& byte_at buf (a - addr) else chip_otp d a
  | OTPE =>
      addr < chip_otp_size d -> chip_wel d = true -> chip_sr d &&& LB_MASK = 0 ->
      keeps_array d d' /\ keeps_sr d d' /\ buf' = buf /\
      forall a, chip_otp d' a =
        if a / chip_otp_block d =? addr / chip_otp_block d then 255 else chip_otp d a
  end.
End contract.

(** The data sheet: every command has its effect, the buffer stays a buffer,
    bytes are bytes, and clear protect bits protect nothing. *)
Class FlashChipLaws (D : Type) `{FlashChip D} := {
  chip_exec_spec c addr buf d d' buf' :
    length buf = Z.to_nat RSA_BUF_SIZE -> bytes_ok buf -> 0 <= addr < 2 ^ 25 ->
    chip_exec (cmd_word c) addr buf d = (d', buf') -> cmd_effect c addr buf d d' buf';
  chip_exec_frame word addr buf d d' buf' :
    length buf = Z.to_nat RSA_BUF_SIZE -> bytes_ok buf ->
    chip_exec word addr buf d = (d', buf') ->
    length buf' = Z.to_nat RSA_BUF_SIZE /\ bytes_ok buf' /\ same_part d d';
  chip_byte_ok d a : byte_ok (chip_byte d a);
  chip_otp_ok d a : byte_ok (chip_otp d a);
  chip_sr_ok d : 0 <= chip_sr d < 2 ^ 16;
  chip_sr3_ok d : byte_ok (chip_sr3 d);
  chip_id_ok d : bytes_ok (chip_id d) /\ length (chip_id d) = 3%nat;
  chip_uid_ok d : bytes_ok (chip_uid d) /\ length (chip_uid d) = 16%nat;
  chip_prot_none d sr a : sr &&& BP_MASK = 0 -> chip_prot d sr a = false;
}.

(** ** A concrete chip *)
Module NorChip.

Record nor := Nor {
  arr : Z -> Z; otp : Z -> Z; sr : Z; sr3 : Z; wel : bool;
  size : Z; id : list Z; uid : list Z; otp_size : Z; otp_block : Z
}.

(** Cells hold bytes and status registers their width. *)
Definition cells (d : nor) (a : Z) : Z := u8 (arr d a).
Definition otp_cells (d : nor) (a : Z) : Z := u8 (otp d a).
Definition status (d : nor) : Z := u16 (sr d).
Definition status3 (d : nor) : Z := u8 (sr3 d).
Definition id3 (d : nor) : list Z := u8 <$> take 3 (id d ++ replicate 3 0).
Definition uid16 (d : nor) : list Z := u8 <$> take 16 (uid d ++ replicate 16 0).

(** The length field of a command word, and the word without it. *)
Definition word_len (w : Z) : Z := ((w &&& 0x3FF0000) ≫ 16) + 1.
Definition word_op (w : Z) : Z := Z.ldiff w 0x3FF0000.

Definition set_arr (f : Z -> Z) (d : nor) : nor :=
  Nor f (otp d) (sr d) (sr3 d) false (size d) (id d) (uid d) (otp_size d) (otp_block d).
Definition set_otp (f : Z -> Z) (d : nor) : nor :=
  Nor (arr d) f (sr d) (sr3 d) false (size d) (id d) (uid d) (otp_size d) (otp_block d).
Definition set_sr (v : Z) (d : nor) : nor :=
  Nor (arr d) (otp d) v (sr3 d) false (size d) (id d) (uid d) (otp_size d) (otp_block d).
Definition set_sr3 (v : Z) (d : nor) : nor :=
  Nor (arr d) (otp d) (sr d) v false (size d) (id d) (uid d) (otp_size d) (otp_block d).
Definition set_wel (d : nor) : nor :=
  Nor (arr d) (otp d) (sr d) (sr3 d) true (size d) (id d) (uid d) (otp_size d) (otp_block d).

Definition prot (status a : Z) : bool := negb (status &&& BP_MASK =? 0) && (a <? 0x2000).

Definition reply (l buf : list Z) : list Z := memcpy_at 0 (u8 <$> l) buf.

Definition program (f : Z -> Z) (addr n : Z) (buf : list Z) : Z -> Z := fun a =>
  if (addr <=? a) && (a <? addr + n) then f a &&& byte_at buf (a - addr) else f a.

Definition erase (f : Z -> Z) (block addr : Z) : Z -> Z := fun a =>
  if a / block =? addr / block then 255 else f a.

(** The answer a reading command leaves in the buffer. *)
Definition answer_of (op n addr : Z) (d : nor) : list Z :=
  if op =? 0xC09F then id3 d
  else if op =? 0xC005 then [status d mod 256]
  else if op =? 0xC035 then [status d / 256]
  else if op =? 0xC085 then [status3 d]
  else if op =? 0xC04B then take (Z.to_nat n) (replicate 4 0 ++ uid16 d)
  else if bool_decide (op ∈ read_ops) then range (cells d) addr n
  else if op =? 0xBC00C048 then range (otp_cells d) addr n
  else [].

(** What a writing command makes of an enabled chip. *)
Definition written (op n addr : Z) (buf : list Z) (d : nor) : nor :=
  if op =? 0xA001 then
    if n =? 2 then set_sr (sr_written (status d) (le_val (take 2 buf))) d
    else set_sr (le_val [byte_at buf 0; status d / 256]) d
  else if op =? 0xA031 then set_sr (sr_written (status d) (le_val [status d mod 256; byte_at buf 0])) d
  else if op =? 0xA0C1 then set_sr3 (byte_at buf 0) d
  else if op =? 0x80009002 then
    if prot (status d) addr then d else set_arr (program (cells d) addr n buf) d
  else if op =? 0x80000820 then
    if prot (status d) addr then d else set_arr (erase (cells d) 4096 addr) d
  else if op =? 0x80009042 then
    if status d &&& LB_MASK =? 0 then set_otp (program (otp_cells d) addr n buf) d else d
  else if op =? 0x80000844 then
    if status d &&& LB_MASK =? 0 then set_otp (erase (otp_cells d) (otp_block d) addr) d else d
  else d.

Definition exec (w addr : Z) (buf : list Z) (d : nor) : nor * list Z :=
  let op := word_op w in
  let n := word_len w in
  let d' := if op =? 0x6 then set_wel d else if wel d then written op n addr buf d else d in
  (d', reply (answer_of op n addr d) buf).

#[global] Instance chip : FlashChip nor := {
  chip_exec := exec; chip_byte := cells; chip_otp := otp_cells; chip_sr := status; chip_sr3 := status3;
  chip_wel := wel; chip_size := size; chip_id := id3; chip_uid := uid16;
  chip_otp_size := otp_size; chip_otp_block := otp_block; chip_has := fun _ _ => true;
  chip_prot := fun _ => prot
}.

(** *** The laws *)

Lemma u8_ok z : byte_ok (u8 z).
Proof. apply (wrap_bounds 8). lia. Qed.

Lemma u8_byte z : byte_ok z -> u8 z = z.
Proof. unfold byte_ok. intros. apply wrap_id. lia. Qed.

Lemma u8_list_ok l : bytes_ok (u8 <$> l).
Proof. apply Forall_fmap, Forall_true. intros z. apply u8_ok. Qed.

Lemma length_reply l buf : length (reply l buf) = length buf.
Proof. apply length_memcpy_at. Qed.

Lemma byte_at_reply l buf i :
  zlen l <= zlen buf -> 0 <= i < zlen l -> byte_at (reply l buf) i = u8 (byte_at l i).
Proof.
  intros Hfit Hi. unfold reply. rewrite byte_at_memcpy by (rewrite ?length_fmap; lia).
  rewrite length_fmap, (proj2 (Z.leb_le _ _)), (proj2 (Z.ltb_lt _ _)) by lia. simpl.
  rewrite Z.sub_0_r. apply byte_at_lookup; [lia|]. rewrite list_lookup_fmap, lookup_byte_at by lia. done.
Qed.

Lemma status_bounds d : 0 <= status d < 2 ^ 16.
Proof. apply wrap_bounds. lia. Qed.

(** Decoding a command word with a length field. *)
Lemma len_field_decode op n :
  op &&& 0x3FF0000 = 0 -> 0 < n <= 1024 ->
  word_len (op ||| len_field n) = n /\ word_op (op ||| len_field n) = op.
Proof.
  intros Hop Hn. unfold word_len, word_op, len_field.
  assert (Hl : ((n - 1) ≪ 16) &&& 0x3FF0000 = (n - 1) ≪ 16).
  { change 0x3FF0000 with (Z.ones 10 ≪ 16). rewrite <- Z.shiftl_land. f_equal.
    rewrite Z.land_ones, Z.mod_small by lia. done. }
  split.
  - rewrite Z.land_lor_distr_l, Hop, Z.lor_0_l, Hl, Z.shiftr_shiftl_l by lia.
    rewrite Z.sub_diag, Z.shiftl_0_r. lia.
  - apply Z.bits_inj'. intros i Hi. rewrite Z.ldiff_spec, Z.lor_spec.
    assert (Hb : Z.testbit (op &&& 0x3FF0000) i = false) by (by rewrite Hop, Z.testbit_0_l).
    assert (Hc : Z.testbit (((n - 1) ≪ 16) &&& 0x3FF0000) i = Z.testbit ((n - 1) ≪ 16) i) by (by rewrite Hl).
    rewrite Z.land_spec in Hb, Hc.
    by destruct (Z.testbit op i), (Z.testbit 0x3FF0000 i), (Z.testbit ((n - 1) ≪ 16) i).
Qed.


(** The commands with a length, in range, and their operation codes. *)
Lemma word_len_of c :
  match c with
  | RUID n => 0 < n <= 1024 -> word_len (cmd_word c) = n /\ word_op (cmd_word c) = 0xC04B
  | READ op n => op ∈ read_ops -> 0 < n <= 1024 -> word_len (cmd_word c) = n /\ word_op (cmd_word c) = op
  | PP n => 0 < n <= 1024 -> word_len (cmd_word c) = n /\ word_op (cmd_word c) = 0x80009002
  | OTPR n => 0 < n <= 1024 -> word_len (cmd_word c) = n /\ word_op (cmd_word c) = 0xBC00C048
  | OTPP n => 0 < n <= 1024 -> word_len (cmd_word c) = n /\ word_op (cmd_word c) = 0x80009042
  | _ => True
  end.
Proof.
  destruct c; try done; intros; try (by apply len_field_decode).
  apply len_field_decode; [|done].
  match goal with H : _ ∈ read_ops |- _ => unfold read_ops in H; rewrite !elem_of_cons in H end.
  by repeat match goal with H : _ \/ _ |- _ => destruct H as [->|H] end; try (exfalso; by apply elem_of_nil in H).
Qed.

Lemma exec_frame w addr buf d d' buf' :
  length buf = Z.to_nat RSA_BUF_SIZE -> bytes_ok buf -> exec w addr buf d = (d', buf') ->
  length buf' = Z.to_nat RSA_BUF_SIZE /\ bytes_ok buf' /\ same_part d d'.
Proof.
  intros Hlen Hok [= <- <-]. split; [by rewrite length_reply|]. split.
  - apply memcpy_bytes_ok; [apply u8_list_ok|done].
  - destruct (word_op w =? 0x6); [done|]. destruct (wel d); [|done].
    unfold written. repeat (case_match; try done).
Qed.


Lemma reply_nil buf : reply [] buf = buf.
Proof. by destruct buf. Qed.

Lemma answers_reply (l buf : list Z) n (P : Z -> Z -> Prop) :
  zlen l <= zlen buf -> bytes_ok l ->
  (forall i, 0 <= i < n -> i < zlen l -> P i (byte_at l i)) -> n <= zlen l -> answers n P (reply l buf).
Proof.
  intros Hfit Hok HP Hn i Hi. rewrite byte_at_reply by lia. rewrite u8_byte by (by apply byte_at_ok).
  apply HP; lia.
Qed.

Lemma answers_range f addr n buf lim :
  (forall a, byte_ok (f a)) -> 0 < n <= zlen buf ->
  answers n (fun i b => addr + i < lim -> b = f (addr + i)) (reply (range f addr n) buf).
Proof.
  intros Hf Hn. apply answers_reply; rewrite ?length_range; try lia.
  - unfold range. apply Forall_fmap, Forall_true. intros a. apply Hf.
  - intros i Hi _ _. apply byte_at_range. lia.
Qed.

(** The array after programming or erasing it. *)
Lemma cells_program d addr n buf a :
  bytes_ok buf ->
  cells (set_arr (program (cells d) addr n buf) d) a =
  if (addr <=? a) && (a <? addr + n) then cells d a &&& byte_at buf (a - addr) else cells d a.
Proof.
  intros Hb. unfold cells at 1. simpl. unfold program. case_match; apply u8_byte; [|apply u8_ok].
  apply (land_bounds_l 8); [lia|]. apply (wrap_bounds 8). lia.
Qed.

Lemma otp_cells_program d addr n buf a :
  bytes_ok buf ->
  otp_cells (set_otp (program (otp_cells d) addr n buf) d) a =
  if (addr <=? a) && (a <? addr + n) then otp_cells d a &&& byte_at buf (a - addr) else otp_cells d a.
Proof.
  intros Hb. unfold otp_cells at 1. simpl. unfold program. case_match; apply u8_byte; [|apply u8_ok].
  apply (land_bounds_l 8); [lia|]. apply (wrap_bounds 8). lia.
Qed.

Lemma cells_erase d block addr a :
  cells (set_arr (erase (cells d) block addr) d) a = if a / block =? addr / block then 255 else cells d a.
Proof. unfold cells at 1. simpl. unfold erase. case_match; apply u8_byte; [by unfold byte_ok|apply u8_ok]. Qed.

Lemma otp_cells_erase d block addr a :
  otp_cells (set_otp (erase (otp_cells d) block addr) d) a =
  if a / block =? addr / block then 255 else otp_cells d a.
Proof. unfold otp_cells at 1. simpl. unfold erase. case_match; apply u8_byte; [by unfold byte_ok|apply u8_ok]. Qed.

(** Status values that fit. *)
Lemma nor_le2_bounds a b : byte_ok a -> byte_ok b -> 0 <= le_val [a; b] < 2 ^ 16.
Proof. unfold byte_ok. simpl. lia. Qed.

Lemma status_lo d : byte_ok (status d mod 256).
Proof. apply Z.mod_pos_bound. lia. Qed.
Lemma status_hi d : byte_ok (status d / 256).
Proof. pose proof (status_bounds d). unfold byte_ok. dlia. Qed.

Lemma sr_written_bounds old new : 0 <= old < 2 ^ 16 -> 0 <= new < 2 ^ 16 -> 0 <= sr_written old new < 2 ^ 16.
Proof. intros. apply lor_bounds; [lia|done|]. by apply land_bounds_l. Qed.


(** The commands one by one. *)
Lemma exec_reads w op n addr buf d l :
  word_len w = n /\ word_op w = op -> op <> 0x6 ->
  answer_of op n addr d = l -> written op n addr buf d = d -> exec w addr buf d = (d, reply l buf).
Proof.
  intros [Hn Ho] H6%Z.eqb_neq <- Hd. unfold exec. rewrite Hn, Ho, H6, Hd. by destruct (wel d).
Qed.

Lemma exec_writes w op n addr buf d :
  word_len w = n /\ word_op w = op -> op <> 0x6 -> wel d = true ->
  answer_of op n addr d = [] -> exec w addr buf d = (written op n addr buf d, buf).
Proof. intros [Hn Ho] H6%Z.eqb_neq Hd Ha. unfold exec. by rewrite Hn, Ho, H6, Hd, Ha, reply_nil. Qed.

Lemma id3_ok d : bytes_ok (id3 d) /\ length (id3 d) = 3%nat.
Proof. split; [apply u8_list_ok|]. unfold id3. rewrite length_fmap, length_take, length_app, length_replicate. lia. Qed.

Lemma uid16_ok d : bytes_ok (uid16 d) /\ length (uid16 d) = 16%nat.
Proof. split; [apply u8_list_ok|]. unfold uid16. rewrite length_fmap, length_take, length_app, length_replicate. lia. Qed.

Lemma exec_query c addr buf d d' buf' :
  match c with RDID | RDSR1 | RDSR2 | RDSR3 => True | _ => False end ->
  length buf = 1024%nat ->
  exec (cmd_word c) addr buf d = (d', buf') -> cmd_effect c addr buf d d' buf'.
Proof.
  intros Hc Hlen.
  pose proof (status_lo d) as Hlo. pose proof (status_hi d) as Hhi. pose proof (id3_ok d) as [Hid Hid3].
  assert (H1 : forall b, byte_ok b -> answers 1 (fun _ b' => b' = b) (reply [b] buf)).
  { intros b Hb. apply answers_reply; simpl; [lia|by constructor| |lia].
    intros i Hi _. by replace i with 0 by lia. }
  destruct c; try done; clear Hc.
  - rewrite (exec_reads _ 0xC09F 3 addr buf d (id3 d)) by done. intros [= <- <-]. split; [done|].
    apply answers_reply; [lia|done|done|lia].
  - rewrite (exec_reads _ 0xC005 1 addr buf d [status d mod 256]) by done. intros [= <- <-]. split; [done|]. by apply H1.
  - rewrite (exec_reads _ 0xC035 1 addr buf d [status d / 256]) by done. intros [= <- <-]. split; [done|]. by apply H1.
  - rewrite (exec_reads _ 0xC085 1 addr buf d [status3 d]) by done. intros [= <- <-]. split; [done|].
    intros _. apply H1, u8_ok.
Qed.

Lemma answer_of_read op n addr buf d :
  op ∈ read_ops -> answer_of op n addr d = range (cells d) addr n /\ op <> 0x6 /\ written op n addr buf d = d.
Proof.
  intros Hop. unfold answer_of, written. rewrite bool_decide_true by done.
  unfold read_ops in Hop. rewrite !elem_of_cons in Hop.
  repeat destruct Hop as [->|Hop]; try done. by apply not_elem_of_nil in Hop.
Qed.

Lemma exec_ruid w n addr buf d d' buf' :
  word_len w = n /\ word_op w = 0xC04B -> 0 < n <= 20 -> length buf = 1024%nat ->
  exec w addr buf d = (d', buf') ->
  d' = d /\ answers n (fun i b => 4 <= i -> b = byte_at (uid16 d) (i - 4)) buf'.
Proof.
  intros Hw Hn Hlen.
  rewrite (exec_reads _ _ _ addr buf d (take (Z.to_nat n) (replicate 4 0 ++ uid16 d)) Hw) by done.
  intros [= <- <-]. split; [done|]. destruct (uid16_ok d) as [Hu Hul].
  assert (Hl : length (0 :: 0 :: 0 :: 0 :: uid16 d) = 20%nat) by (simpl; by rewrite Hul).
  apply answers_reply; rewrite ?length_take, ?Hl; try lia.
  - apply Forall_take. repeat (constructor; [by unfold byte_ok|]). done.
  - intros i Hi _ H4. unfold byte_at. rewrite !nth_lookup, lookup_take_lt by lia.
    by replace (Z.to_nat i) with (4 + Z.to_nat (i - 4))%nat by lia.
Qed.

Lemma exec_read w op n addr buf d d' buf' :
  word_len w = n /\ word_op w = op -> op ∈ read_ops -> 0 < n <= 1024 -> length buf = 1024%nat ->
  exec w addr buf d = (d', buf') ->
  d' = d /\ answers n (fun i b => addr + i < size d -> b = cells d (addr + i)) buf'.
Proof.
  intros Hw Hop Hn Hlen. destruct (answer_of_read op n addr buf d Hop) as (Ha & H6 & Hd).
  rewrite (exec_reads _ _ _ addr buf d _ Hw H6 Ha Hd). intros [= <- <-]. split; [done|].
  apply answers_range; [intros a; apply u8_ok|lia].
Qed.

Lemma exec_otpr w n addr buf d d' buf' :
  word_len w = n /\ word_op w = 0xBC00C048 -> 0 < n <= 1024 -> length buf = 1024%nat ->
  exec w addr buf d = (d', buf') ->
  d' = d /\ answers n (fun i b => addr + i < otp_size d -> b = otp_cells d (addr + i)) buf'.
Proof.
  intros Hw Hn Hlen. rewrite (exec_reads _ _ _ addr buf d (range (otp_cells d) addr n) Hw) by done.
  intros [= <- <-]. split; [done|]. apply answers_range; [intros a; apply u8_ok|lia].
Qed.

Lemma exec_status c addr buf d d' buf' :
  match c with WRSR12 | WRSR1 | WRSR2 | WRSR3 => True | _ => False end ->
  bytes_ok buf -> length buf = 1024%nat ->
  exec (cmd_word c) addr buf d = (d', buf') -> cmd_effect c addr buf d d' buf'.
Proof.
  intros Hc Hb Hlen H. pose proof (status_lo d) as Hlo. pose proof (status_hi d) as Hhi.
  assert (Hb0 : byte_ok (byte_at buf 0)) by auto. pose proof (status_bounds d) as Hs.
  assert (H2 : 0 <= le_val (take 2 buf) < 2 ^ 16).
  { pose proof (le_val_bounds (take 2 buf) (Forall_take _ _ _ Hb)) as Hv. rewrite length_take, Hlen in Hv. done. }
  destruct c; try done; clear Hc; intros Hwel _.
  - rewrite (exec_writes _ 0xA001 2) in H by done. injection H as <- <-.
    split; [done|]. split; [done|]. split; [done|]. split; [done|]. apply wrap_id. by apply sr_written_bounds.
  - rewrite (exec_writes _ 0xA001 1) in H by done. injection H as <- <-.
    split; [done|]. split; [done|]. split; [done|]. split; [done|]. apply wrap_id. by apply nor_le2_bounds.
  - rewrite (exec_writes _ 0xA031 1) in H by done. injection H as <- <-.
    split; [done|]. split; [done|]. split; [done|]. split; [done|]. apply wrap_id.
    apply sr_written_bounds; [done|]. by apply nor_le2_bounds.
  - rewrite (exec_writes _ 0xA0C1 1) in H by done. injection H as <- <-.
    split; [done|]. split; [done|]. split; [done|]. split; [|done]. by apply u8_byte.
Qed.

Lemma prot_unprotected d off n addr :
  unprotected d off n -> off <= addr < off + n -> prot (status d) addr = false.
Proof. intros Hu Ha. by apply Hu. Qed.

Lemma exec_pp w n addr buf d d' buf' :
  word_len w = n /\ word_op w = 0x80009002 -> bytes_ok buf -> 0 < n -> wel d = true ->
  unprotected d addr n -> exec w addr buf d = (d', buf') ->
  keeps_otp d d' /\ keeps_sr d d' /\ buf' = buf /\
  forall a, cells d' a =
    if (addr <=? a) && (a <? addr + n) then cells d a &&& byte_at buf (a - addr) else cells d a.
Proof.
  intros Hw Hb Hn Hwel Hu. rewrite (exec_writes _ _ _ addr buf d Hw) by done. intros [= <- <-].
  unfold written. simpl. rewrite (prot_unprotected _ _ _ addr Hu) by lia.
  split; [done|]. split; [done|]. split; [done|]. intros a. by apply cells_program.
Qed.

Lemma exec_se w n addr buf d d' buf' :
  word_len w = n /\ word_op w = 0x80000820 -> wel d = true ->
  unprotected d (addr / 4096 * 4096) 4096 -> exec w addr buf d = (d', buf') ->
  keeps_otp d d' /\ keeps_sr d d' /\ buf' = buf /\
  forall a, cells d' a = if a / 4096 =? addr / 4096 then 255 else cells d a.
Proof.
  intros Hw Hwel Hu. rewrite (exec_writes _ _ _ addr buf d Hw) by done. intros [= <- <-].
  unfold written. simpl. rewrite (prot_unprotected _ _ _ addr Hu) by dlia.
  split; [done|]. split; [done|]. split; [done|]. intros a. apply cells_erase.
Qed.

Lemma exec_otpp w n addr buf d d' buf' :
  word_len w = n /\ word_op w = 0x80009042 -> bytes_ok buf -> 0 < n -> wel d = true ->
  status d &&& LB_MASK = 0 -> exec w addr buf d = (d', buf') ->
  keeps_array d d' /\ keeps_sr d d' /\ buf' = buf /\
  forall a, otp_cells d' a =
    if (addr <=? a) && (a <? addr + n) then otp_cells d a &&& byte_at buf (a - addr) else otp_cells d a.
Proof.
  intros Hw Hb Hn Hwel Hu. rewrite (exec_writes _ _ _ addr buf d Hw) by done. intros [= <- <-].
  unfold written. simpl. rewrite Hu. simpl.
  split; [done|]. split; [done|]. split; [done|]. intros a. by apply otp_cells_program.
Qed.

Lemma exec_otpe w n addr buf d d' buf' :
  word_len w = n /\ word_op w = 0x80000844 -> wel d = true ->
  status d &&& LB_MASK = 0 -> exec w addr buf d = (d', buf') ->
  keeps_array d d' /\ keeps_sr d d' /\ buf' = buf /\
  forall a, otp_cells d' a =
    if a / otp_block d =? addr / otp_block d then 255 else otp_cells d a.
Proof.
  intros Hw Hwel Hu. rewrite (exec_writes _ _ _ addr buf d Hw) by done. intros [= <- <-].
  unfold written. simpl. rewrite Hu. simpl.
  split; [done|]. split; [done|]. split; [done|]. intros a. apply otp_cells_erase.
Qed.

#[global] Instance chip_laws : FlashChipLaws nor.
Proof.
  split.
  - intros c addr buf d d' buf' Hlen Hb Ha H. change (length buf = 1024%nat) in Hlen.
    pose proof (word_len_of c) as Hw. destruct c.
    + injection H as <- <-. rewrite reply_nil. done.
    + by apply exec_query.
    + by apply exec_query.
    + by apply exec_query.
    + by apply exec_query.
    + by apply exec_status.
    + by apply exec_status.
    + by apply exec_status.
    + by apply exec_status.
    + intros Hn. eapply exec_ruid; [apply Hw; lia|done|done|exact H].
    + intros Hop Hn. eapply exec_read; [by apply Hw|done|done|done|exact H].
    + intros Hn Hp _ Hwel Hu. eapply exec_pp; [apply Hw; dlia|done|done|done|done|exact H].
    + intros _ Hwel Hu. by eapply (exec_se (cmd_word SE) 1); [|exact Hwel|exact Hu|exact H].
    + intros Hn. eapply exec_otpr; [by apply Hw|done|done|exact H].
    + intros Hn Hp _ Hwel Hu. eapply exec_otpp; [apply Hw; dlia|done|done|done|done|exact H].
    + intros _ Hwel Hu. by eapply (exec_otpe (cmd_word OTPE) 1); [|exact Hwel|exact Hu|exact H].
  - intros word addr buf d d' buf'. apply exec_frame.
  - intros d a. apply u8_ok.
  - intros d a. apply u8_ok.
  - apply status_bounds.
  - intros d. apply u8_ok.
  - apply id3_ok.
  - apply uid16_ok.
  - intros d status a Hs. simpl. unfold prot. by rewrite Hs.
Qed.

(** A blank 2-megabyte chip with manufacturer [mid] and no protection. *)
Definition blank (mid : Z) : nor :=
  Nor (fun _ => 255) (fun _ => 255) 0 0 false 0x200000 [mid; 0x40; 21] [1; 2; 3; 4] 1024 256.

End NorChip.
