(* ===== verification/FlsHw.v ===== *)
(** * The flash controller and the command layer of [wm_internal_fls.c]

    The registers of the controller, the buffer at [RSA_BASE_ADDRESS] and the
    chip behind them; then the functions of
    [platform/drivers/internalflash/wm_internal_fls.c] that drive them:
    write enable, identification, status registers, page programming, sector
    erasing and [__readByCMD].  [history] is a ghost record of the chip after
    every command, which is what a power cut between two commands leaves. *)
From S2P Require Import Prelude CMonad FlashChip.

(** [enum TYPE_FLASH_ID] *)
Definition SPIFLASH_MID_GD : Z := 0xC8.
Definition SPIFLASH_MID_ESMT : Z := 0x1C.
Definition SPIFLASH_MID_PUYA : Z := 0x85.
Definition SPIFLASH_MID_WINBOND : Z := 0xEF.
Definition SPIFLASH_MID_FUDANMICRO : Z := 0xA1.
Definition SPIFLASH_MID_BOYA : Z := 0x68.
Definition SPIFLASH_MID_XMC : Z := 0x20.
Definition SPIFLASH_MID_XTX : Z := 0x0B.
Definition SPIFLASH_MID_TSINGTENG : Z := 0xEB.
Definition SPIFLASH_MID_TSINGTENG_1MB_4MB : Z := 0xCD.

Definition INSIDE_FLS_SECTOR_SIZE : Z := 0x1000.
Definition INSIDE_FLS_PAGE_SIZE : Z := 256.
Definition INSIDE_FLS_BASE_ADDR : Z := 0x8000000.
Definition INSIDE_FLS_SECBOOT_ADDR : Z := INSIDE_FLS_BASE_ADDR + 0x2000.
Definition ADDR_MSK : Z := 0x1FFFFFF.

Record hw (D : Type) := Hw {
  HR_FLASH_CMD_ADDR : Z;
  HR_FLASH_ADDR : Z;
  HR_FLASH_CR : Z;
  HR_FLASH_ENCRYPT_CTRL : Z;
  RSA_BUF : list Z;
  dev : D;
  history : list D
}.
Arguments Hw {D}.
Arguments HR_FLASH_CMD_ADDR {D}.
Arguments HR_FLASH_ADDR {D}.
Arguments HR_FLASH_CR {D}.
Arguments HR_FLASH_ENCRYPT_CTRL {D}.
Arguments RSA_BUF {D}.
Arguments dev {D}.
Arguments history {D}.

Section driver.
Context {D : Type} `{FlashChip D}.

(** ** Register access *)

Definition wr_cmd (v : Z) : M (hw D) unit := modify (fun h =>
  Hw v (HR_FLASH_ADDR h) (HR_FLASH_CR h) (HR_FLASH_ENCRYPT_CTRL h) (RSA_BUF h) (dev h) (history h)).

Definition wr_addr (v : Z) : M (hw D) unit := modify (fun h =>
  Hw (HR_FLASH_CMD_ADDR h) v (HR_FLASH_CR h) (HR_FLASH_ENCRYPT_CTRL h) (RSA_BUF h) (dev h) (history h)).

Definition set_rsa (l : list Z) (h : hw D) : hw D :=
  Hw (HR_FLASH_CMD_ADDR h) (HR_FLASH_ADDR h) (HR_FLASH_CR h) (HR_FLASH_ENCRYPT_CTRL h) l (dev h) (history h).

(** [M32(RSA_BASE_ADDRESS + off) = v], inside the buffer. *)
Definition wr_rsa (off v : Z) : M (hw D) unit := fun h =>
  if off + 4 <=? RSA_BUF_SIZE then Some (tt, set_rsa (memcpy_at off (le_bytes 4 v) (RSA_BUF h)) h) else None.

(** [M32(HR_FLASH_CMD_START) = CMD_START_Msk]: the controller runs the
    command. *)
Definition start : M (hw D) unit := modify (fun h =>
  let '(d, buf) := chip_exec (HR_FLASH_CMD_ADDR h) (HR_FLASH_ADDR h) (RSA_BUF h) (dev h) in
  Hw (HR_FLASH_CMD_ADDR h) (HR_FLASH_ADDR h) (HR_FLASH_CR h) (HR_FLASH_ENCRYPT_CTRL h) buf d (history h ++ [d])).

(** ** Commands *)

Definition read_first_value : M (hw D) Z := gets (fun h => le_val (slice 0 4 (RSA_BUF h))).

Definition writeEnable : M (hw D) unit :=
  wr_cmd 0x6 ;;
  start.

Definition readRID : M (hw D) Z :=
  wr_cmd 0x2c09F ;;
  start ;;
  v ← read_first_value;
  mret (v &&& 0xFF).

(** Both status bytes, as the lock functions fetch them. *)
Definition read_status : M (hw D) Z :=
  wr_cmd 0x0C005 ;;
  start ;;
  lo ← read_first_value;
  let status := lo &&& 0xFF in
  wr_cmd 0x0C035 ;;
  start ;;
  hi ← read_first_value;
  mret (status ||| ((hi &&& 0xFF) ≪ 8)).

Definition bp_bits (bp4 bp3 bp2 bp1 bp0 : Z) : Z :=
  (bp4 ≪ 6) ||| (bp3 ≪ 5) ||| (bp2 ≪ 4) ||| (bp1 ≪ 3) ||| (bp0 ≪ 2).

Definition writeBpBit_for_1wreg (cmp bp4 bp3 bp2 bp1 bp0 : Z) : M (hw D) unit :=
  status ← read_status;
  let bpstatus := bp_bits bp4 bp3 bp2 bp1 bp0 in
  if negb (status &&& 0x407C =? bpstatus ||| (cmp ≪ 14)) then
    let status := (status &&& 0xBF83) ||| bpstatus ||| (cmp ≪ 14) in
    wr_cmd 0x6 ;;
    start ;;
    wr_rsa 0 status ;;
    wr_cmd 0x1A001 ;;
    start
  else mret tt.

Definition writeBpBit_for_2wreg (cmp bp4 bp3 bp2 bp1 bp0 : Z) : M (hw D) unit :=
  status ← read_status;
  let bpstatus := bp_bits bp4 bp3 bp2 bp1 bp0 in
  (if negb (bpstatus =? status &&& 0x7C) then
     let bpstatus := (status &&& 0x83) ||| bpstatus in
     wr_cmd 0x6 ;;
     start ;;
     wr_rsa 0 bpstatus ;;
     wr_cmd 0xA001 ;;
     start
   else mret tt) ;;
  if negb ((status &&& 0x4000) ≫ 8 =? cmp ≪ 6) then
    wr_cmd 0x6 ;;
    start ;;
    let status := ((status ≫ 8) &&& 0xBF) ||| (cmp ≪ 6) in
    wr_rsa 0 status ;;
    wr_cmd 0xA031 ;;
    start
  else mret tt.

Definition writeESMTBpBit (cmp bp4 bp3 bp2 bp1 bp0 : Z) : M (hw D) unit :=
  wr_cmd 0x0C005 ;;
  start ;;
  v ← read_first_value;
  let status := v &&& 0xFF in
  let bpstatus := bp_bits bp4 bp3 bp2 bp1 bp0 in
  let status := (status &&& 0x83) ||| bpstatus in
  wr_cmd 0x6 ;;
  start ;;
  let status := (status &&& 0x83) ||| bpstatus ||| (cmp ≪ 14) in
  wr_rsa 0 status ;;
  wr_cmd 0x0A001 ;;
  start ;;
  wr_cmd 0x0C085 ;;
  start ;;
  v ← read_first_value;
  let status := v &&& 0xFF in
  wr_cmd 0x6 ;;
  start ;;
  let status := (status &&& 0xBF) ||| (cmp ≪ 6) in
  wr_rsa 0 status ;;
  wr_cmd 0x0A0C1 ;;
  start.

(** The lock functions dispatch on the manufacturer; [density] is
    [inside_fls->density]. *)
Definition write_bp (density cmp bp4 bp3 bp2 bp1 bp0 : Z) : M (hw D) Z :=
  rid ← readRID;
  if bool_decide (rid ∈ [SPIFLASH_MID_GD; SPIFLASH_MID_TSINGTENG]) then
    writeBpBit_for_1wreg cmp bp4 bp3 bp2 bp1 bp0 ;; mret 0
  else if bool_decide (rid ∈ [SPIFLASH_MID_PUYA; SPIFLASH_MID_TSINGTENG_1MB_4MB]) then
    (if density =? 0x100000 then writeBpBit_for_1wreg cmp bp4 bp3 bp2 bp1 bp0
     else writeBpBit_for_2wreg cmp bp4 bp3 bp2 bp1 bp0) ;; mret 0
  else if bool_decide (rid ∈ [SPIFLASH_MID_XTX; SPIFLASH_MID_BOYA; SPIFLASH_MID_FUDANMICRO; SPIFLASH_MID_XMC]) then
    writeBpBit_for_2wreg cmp bp4 bp3 bp2 bp1 bp0 ;; mret 0
  else if rid =? SPIFLASH_MID_ESMT then
    writeESMTBpBit cmp bp4 bp3 bp2 bp1 bp0 ;; mret 0
  else mret (-1).

Definition flashunlock (density : Z) : M (hw D) Z := write_bp density 0 0 0 0 0 0.
Definition flashlock (density : Z) : M (hw D) Z := write_bp density 0 1 1 0 1 0.

Definition writeLbBit_for_1wreg (val : Z) : M (hw D) unit :=
  status ← read_status;
  wr_cmd 0x6 ;;
  start ;;
  let status := status ||| val in
  wr_rsa 0 status ;;
  wr_cmd 0x1A001 ;;
  start.

Definition writeLbBit_for_2wreg (val : Z) : M (hw D) unit :=
  status ← read_status;
  wr_cmd 0x6 ;;
  start ;;
  let status := status ||| val in
  let status := status ≫ 8 in
  wr_rsa 0 status ;;
  wr_cmd 0xA031 ;;
  start.

(** [while (size)] of [programSR]: [size] is unsigned, so that it never
    reaches 0 unless it is a multiple of 4; the copy then leaves the buffer. *)
Definition programSR_fill (sz : Z) (buf : list Z) : M (hw D) unit :=
  mloop 257 (fun '(off, buf, size) =>
    if size =? 0 then mret (inr tt)
    else if zlen buf <? 4 then stuck
    else wr_rsa off (le_val (take 4 buf)) ;; mret (inl (off + 4, drop 4 buf, u32 (size - 4))))
    (0, buf, sz).

Definition programSR (cmd addr : Z) (buf : list Z) (sz : Z) : M (hw D) Z :=
  let sz := if INSIDE_FLS_PAGE_SIZE <? sz then INSIDE_FLS_PAGE_SIZE else sz in
  programSR_fill sz buf ;;
  writeEnable ;;
  wr_cmd (cmd ||| u32 ((sz - 1) ≪ 16)) ;;
  wr_addr (addr &&& ADDR_MSK) ;;
  start ;;
  mret 0.

Definition programPage (adr sz : Z) (buf : list Z) : M (hw D) Z :=
  programSR 0x80009002 adr buf sz ;;
  mret 0.

Definition eraseSR (cmd addr : Z) : M (hw D) Z :=
  writeEnable ;;
  wr_cmd cmd ;;
  wr_addr (addr &&& ADDR_MSK) ;;
  start ;;
  mret 0.

Definition eraseSector (adr : Z) : M (hw D) Z :=
  eraseSR 0x80000820 adr ;;
  mret 0.

(** The shift of the [int] 1 has no meaning from 32 on, which the test lets
    through. *)
Definition getFlashDensity : M (hw D) Z :=
  wr_cmd 0x2c09F ;;
  start ;;
  v ← read_first_value;
  let density := ((v &&& 0xFFFFFF) ≫ 16) &&& 0xFF in
  if negb (density =? 0) && (density <=? 0x21) then
    if density <? 32 then mret (u32 (1 ≪ density)) else stuck
  else mret 0.

(** ** Reading *)

(** [for (i = 0; i < word; i++) { M32(buf) = M32(addr_read); ... }]: no
    result outside the buffers. *)
Fixpoint copy_words (word : nat) (src : list Z) (addr_read : Z) (buf : list Z) (off : Z) : option (list Z) :=
  match word with
  | O => Some buf
  | S word =>
      if (addr_read + 4 <=? zlen src) && (off + 4 <=? zlen buf)
      then copy_words word src (addr_read + 4) (memcpy_at off (slice addr_read 4 src) buf) (off + 4)
      else None
  end.

(** The last, partial word: a whole word is stored and its end cleared. *)
Definition copy_tail (byte : Z) (src : list Z) (addr_read : Z) (buf : list Z) (off : Z) : option (list Z) :=
  if 0 <? byte then
    if (addr_read + 4 <=? zlen src) && (off + 4 <=? zlen buf)
    then Some (memcpy_at (off + byte) (replicate (Z.to_nat (4 - byte)) 0)
                 (memcpy_at off (slice addr_read 4 src) buf))
    else None
  else Some buf.

Definition read_word (cmd cr sz : Z) : option Z :=
  let len := ((sz - 1) &&& 0x3FF) ≪ 16 in
  if cmd =? 0x03 then Some (0x8000C003 ||| len)
  else if cmd =? 0x0B then
    if cr &&& 0x2 =? 0x2 then Some (0xB400C00B ||| len) else Some (0xBC00C00B ||| len)
  else if cmd =? 0xBB then Some (0xE400C0BB ||| len)
  else if cmd =? 0xEB then Some (0xEC00C0EB ||| len)
  else None.

(** [__readByCMD(cmd, addr, buf + off, sz)]: the status and the buffer. *)
Definition __readByCMD (cmd addr : Z) (buf : list Z) (off sz : Z) : M (hw D) (Z * list Z) :=
  cr ← gets HR_FLASH_CR;
  let cmd := if (cr &&& 0x1 =? 0) && (0x0B <? cmd) then 0x0B else cmd in
  match read_word cmd cr sz with
  | None => mret (-1, buf)
  | Some w =>
      wr_cmd w ;;
      wr_addr (addr &&& ADDR_MSK) ;;
      start ;;
      rsa ← gets RSA_BUF;
      let word := sz / 4 in
      let byte := sz mod 4 in
      match buf1 ← copy_words (Z.to_nat word) rsa 0 buf off;
            copy_tail byte rsa (4 * word) buf1 (off + 4 * word) with
      | Some buf => mret (0, buf)
      | None => stuck
      end
  end.

Definition config_flash_decrypt_param (code_decrypt dbus_decrypt data_decrypt : Z) : M (hw D) Z :=
  w ← gets HR_FLASH_ENCRYPT_CTRL;
  let w := Z.ldiff w 0xE ||| ((code_decrypt &&& 1) ≪ 1) ||| ((dbus_decrypt &&& 1) ≪ 2)
           ||| ((data_decrypt &&& 1) ≪ 3) in
  modify (fun h => Hw (HR_FLASH_CMD_ADDR h) (HR_FLASH_ADDR h) (HR_FLASH_CR h) w (RSA_BUF h) (dev h) (history h)) ;;
  mret 0.

End driver.

(** ** Reasoning about the commands *)

(** The controller's buffer and address register are what the laws need. *)
Definition hw_ok {D} (h : hw D) : Prop :=
  length (RSA_BUF h) = 1024%nat /\ bytes_ok (RSA_BUF h) /\ 0 <= HR_FLASH_ADDR h < 2 ^ 25.

(** [only S h h']: from [h] to [h'] the array changed within [S] at most, at
    every moment in between too; nothing else of the chip changed. *)
Record only {D} `{FlashChip D} (S : Z -> Prop) (h h' : hw D) : Prop := {
  only_ok : hw_ok h';
  only_part : same_part (dev h) (dev h');
  only_otp : keeps_otp (dev h) (dev h');
  only_sr : keeps_sr (dev h) (dev h');
  only_regs : HR_FLASH_CR h' = HR_FLASH_CR h /\ HR_FLASH_ENCRYPT_CTRL h' = HR_FLASH_ENCRYPT_CTRL h;
  only_out : forall a, ~ S a -> chip_byte (dev h') a = chip_byte (dev h) a;
  only_hist : exists l, history h' = history h ++ l /\
    Forall (fun d => forall a, ~ S a -> chip_byte d a = chip_byte (dev h) a) l
}.

Section commands.
Context {D : Type} `{FlashChipLaws D}.
Implicit Types h : hw D.

Lemma same_part_trans (d1 d2 d3 : D) : same_part d1 d2 -> same_part d2 d3 -> same_part d1 d3.
Proof.
  intros (? & ? & ? & ? & ? & A1 & A2) (? & ? & ? & ? & ? & B1 & B2).
  repeat split; try congruence; intros; by rewrite ?B1, ?B2, ?A1, ?A2.
Qed.

Lemma only_refl S h : hw_ok h -> only S h h.
Proof.
  intros Hok. split; try done. exists []. by rewrite app_nil_r.
Qed.

Lemma only_mono (S T : Z -> Prop) h h' : (forall a, S a -> T a) -> only S h h' -> only T h h'.
Proof.
  intros HST [? ? ? ? ? Ho (l & Hl & Hf)]. split; try done.
  - intros a Ha. apply Ho. auto.
  - exists l. split; [done|]. eapply Forall_impl; [exact Hf|]. simpl. auto.
Qed.

Lemma only_trans S h1 h2 h3 : only S h1 h2 -> only S h2 h3 -> only S h1 h3.
Proof.
  intros [O1 P1 T1 [R1 R1'] [G1 G1'] U1 (l1 & L1 & F1)] [O2 P2 T2 [R2 R2'] [G2 G2'] U2 (l2 & L2 & F2)].
  split; [done|by eapply same_part_trans| | | | |].
  - intros a. by rewrite T2, T1.
  - split; congruence.
  - split; congruence.
  - intros a Ha. by rewrite U2, U1.
  - exists (l1 ++ l2). rewrite L2, L1, app_assoc. split; [done|]. apply Forall_app. split; [done|].
    eapply Forall_impl; [exact F2|]. simpl. intros d Hd a Ha. by rewrite Hd, U1.
Qed.

(** Running one command. *)
Lemma start_spec c h (Q : unit -> hw D -> Prop) :
  hw_ok h -> HR_FLASH_CMD_ADDR h = cmd_word c ->
  (forall h', hw_ok h' -> same_part (dev h) (dev h') ->
     cmd_effect c (HR_FLASH_ADDR h) (RSA_BUF h) (dev h) (dev h') (RSA_BUF h') ->
     HR_FLASH_CMD_ADDR h' = HR_FLASH_CMD_ADDR h -> HR_FLASH_ADDR h' = HR_FLASH_ADDR h ->
     HR_FLASH_CR h' = HR_FLASH_CR h -> HR_FLASH_ENCRYPT_CTRL h' = HR_FLASH_ENCRYPT_CTRL h ->
     history h' = history h ++ [dev h'] -> Q tt h') ->
  wp start h Q.
Proof.
  intros (Hlen & Hb & Ha) Hc HQ. apply wp_modify.
  destruct (chip_exec _ _ _ _) as [d' buf'] eqn:E.
  destruct (chip_exec_frame _ _ _ _ _ _ Hlen Hb E) as (Hlen' & Hb' & Hp).
  rewrite Hc in E. apply (chip_exec_spec _ _ _ _ _ _ Hlen Hb Ha) in E.
  apply HQ; try done.
Qed.

(** A command that leaves the array alone, as an [only] step. *)
Lemma only_quiet h h' l :
  hw_ok h' -> same_part (dev h) (dev h') -> keeps_array (dev h) (dev h') -> keeps_otp (dev h) (dev h') ->
  keeps_sr (dev h) (dev h') -> HR_FLASH_CR h' = HR_FLASH_CR h ->
  HR_FLASH_ENCRYPT_CTRL h' = HR_FLASH_ENCRYPT_CTRL h -> history h' = history h ++ l ->
  Forall (keeps_array (dev h)) l -> only (fun _ => False) h h'.
Proof.
  intros ? ? Ha ? ? ? ? ? Hl. split; try done.
  exists l. split; [done|]. eapply Forall_impl; [exact Hl|]. intros d Hd a _. apply Hd.
Qed.

Abbreviation nowhere := (fun _ : Z => False).

(** Register writes change nothing of the chip. *)
Lemma wr_cmd_spec v h (Q : unit -> hw D -> Prop) :
  hw_ok h ->
  (forall h', only nowhere h h' -> HR_FLASH_CMD_ADDR h' = v -> HR_FLASH_ADDR h' = HR_FLASH_ADDR h ->
     RSA_BUF h' = RSA_BUF h -> dev h' = dev h -> Q tt h') ->
  wp (wr_cmd v) h Q.
Proof.
  intros Hok HQ. apply wp_modify, HQ; try done.
  apply only_quiet with []; try done. by rewrite app_nil_r.
Qed.

Lemma wr_addr_spec v h (Q : unit -> hw D -> Prop) :
  hw_ok h -> 0 <= v < 2 ^ 25 ->
  (forall h', only nowhere h h' -> HR_FLASH_CMD_ADDR h' = HR_FLASH_CMD_ADDR h -> HR_FLASH_ADDR h' = v ->
     RSA_BUF h' = RSA_BUF h -> dev h' = dev h -> Q tt h') ->
  wp (wr_addr v) h Q.
Proof.
  intros (? & ? & ?) Hv HQ. apply wp_modify, HQ; try done.
  apply only_quiet with []; try done. by rewrite app_nil_r.
Qed.

Lemma wr_rsa_spec off v h (Q : unit -> hw D -> Prop) :
  hw_ok h -> 0 <= off -> off + 4 <= 1024 ->
  (forall h', only nowhere h h' -> HR_FLASH_CMD_ADDR h' = HR_FLASH_CMD_ADDR h ->
     HR_FLASH_ADDR h' = HR_FLASH_ADDR h ->
     RSA_BUF h' = memcpy_at off (le_bytes 4 v) (RSA_BUF h) -> dev h' = dev h -> Q tt h') ->
  wp (wr_rsa off v) h Q.
Proof.
  intros (Hlen & Hb & ?) Hoff Hfit HQ. unfold wr_rsa, RSA_BUF_SIZE. rewrite (proj2 (Z.leb_le _ _)) by done.
  eapply wp_eq; [reflexivity|]. apply HQ; try done.
  apply only_quiet with []; try done; [|by rewrite app_nil_r].
  split; [simpl; by rewrite length_memcpy_at|split; [|done]]. by apply memcpy_bytes_ok.
Qed.

(** A command that changes at most the cells in [S]. *)
Lemma start_only c S h (Q : unit -> hw D -> Prop) :
  hw_ok h -> HR_FLASH_CMD_ADDR h = cmd_word c ->
  (forall d' buf', cmd_effect c (HR_FLASH_ADDR h) (RSA_BUF h) (dev h) d' buf' ->
     keeps_otp (dev h) d' /\ keeps_sr (dev h) d' /\
     (forall a, ~ S a -> chip_byte d' a = chip_byte (dev h) a)) ->
  (forall h', only S h h' -> HR_FLASH_ADDR h' = HR_FLASH_ADDR h ->
     cmd_effect c (HR_FLASH_ADDR h) (RSA_BUF h) (dev h) (dev h') (RSA_BUF h') -> Q tt h') ->
  wp start h Q.
Proof.
  intros Hok Hc HS HQ. apply (start_spec c); [done..|].
  intros h' Hok' Hp He _ Ha Hcr Henc Hh. destruct (HS _ _ He) as (Ho & Hs & Hout).
  apply HQ; [|done..]. split; try done. exists [dev h']. split; [done|]. by repeat constructor.
Qed.

Lemma writeEnable_spec h (Q : unit -> hw D -> Prop) :
  hw_ok h ->
  (forall h', only nowhere h h' -> chip_wel (dev h') = true -> RSA_BUF h' = RSA_BUF h ->
     HR_FLASH_ADDR h' = HR_FLASH_ADDR h -> Q tt h') ->
  wp writeEnable h Q.
Proof.
  intros Hok HQ. unfold writeEnable. apply wp_bind, wr_cmd_spec; [done|]. intros h1 O1 Hc Ha Hb Hd.
  apply (start_only WREN nowhere); [apply O1|done| |].
  - intros d' buf' (Ht & Ho & Hs & _). split; [done|]. split; [done|]. intros a _. apply Ht.
  - intros h2 O2 Ha2 (_ & _ & _ & Hw & Hb2). apply HQ; [by eapply only_trans|done|congruence|congruence].
Qed.

(** Commands that only answer. *)
Definition query_pre (c : flash_cmd) : Prop :=
  match c with
  | RDID | RDSR1 | RDSR2 | RDSR3 => True
  | RUID n => 0 < n <= 20
  | READ op n => op ∈ read_ops /\ 0 < n <= 1024
  | OTPR n => 0 < n <= 1024
  | _ => False
  end.

Lemma query_same c addr buf (d d' : D) buf' :
  query_pre c -> cmd_effect c addr buf d d' buf' -> d' = d.
Proof.
  intros Hp He. destruct c; try done; simpl in *;
    first [by destruct (He Hp)|destruct Hp as [Ho Hn]; by destruct (He Ho Hn)|by destruct He].
Qed.

Lemma query_spec c w h (Q : unit -> hw D -> Prop) :
  hw_ok h -> w = cmd_word c -> query_pre c ->
  (forall h', only nowhere h h' -> dev h' = dev h ->
     (exists buf, cmd_effect c (HR_FLASH_ADDR h) buf (dev h) (dev h) (RSA_BUF h')) -> Q tt h') ->
  wp (wr_cmd w ;; start) h Q.
Proof.
  intros Hok -> Hq HQ. apply wp_bind, wr_cmd_spec; [done|]. intros h1 O1 Hc Ha Hb Hd.
  apply (start_only c nowhere); [apply O1|done| |].
  - intros d' buf' He. by rewrite (query_same _ _ _ _ _ _ Hq He).
  - intros h2 O2 Ha2 He. pose proof (query_same _ _ _ _ _ _ Hq He) as Hd2.
    apply HQ; [by eapply only_trans|congruence|]. exists (RSA_BUF h1).
    by rewrite Hd2, Hd, Ha in He.
Qed.

(** *** Writing *)

Lemma programSR_fill_spec sz buf h (Q : unit -> hw D -> Prop) :
  hw_ok h -> bytes_ok buf -> 0 <= sz <= 1024 -> sz mod 4 = 0 -> sz <= zlen buf ->
  (forall h', only nowhere h h' -> RSA_BUF h' = memcpy_at 0 (take (Z.to_nat sz) buf) (RSA_BUF h) ->
     dev h' = dev h -> Q tt h') ->
  wp (programSR_fill sz buf) h Q.
Proof.
  intros Hok Hb Hsz Hmod Hlen HQ. pose proof Hok as (Hrsa & _ & _).
  apply (wp_loop (fun '(off, b, size) s => only nowhere h s /\ dev s = dev h /\
      off = sz - size /\ 0 <= size <= sz /\ size mod 4 = 0 /\ b = drop (Z.to_nat off) buf /\
      RSA_BUF s = memcpy_at 0 (take (Z.to_nat off) buf) (RSA_BUF h))
    (fun '(_, _, size) => Z.to_nat (size / 4))).
  - dlia.
  - split; [by apply only_refl|]. split; [done|]. rewrite Z.sub_diag. by repeat split; try lia.
  - intros [[off b] size] s (O & Hd & -> & Hs & Hm & -> & HR). cbv beta iota.
    destruct (Z.eqb_spec size 0) as [->|Hne].
    + apply wp_ret, HQ; [done| |done]. by rewrite Z.sub_0_r in HR.
    + assert (Hs4 : 4 <= size) by dlia. set (off := sz - size) in *.
      rewrite (proj2 (Z.ltb_ge _ 4)) by (rewrite length_drop; lia).
      set (w := take 4 (drop (Z.to_nat off) buf)).
      assert (Hw : length w = 4%nat) by (unfold w; rewrite length_take, length_drop; lia).
      assert (Hwb : bytes_ok w) by by apply Forall_take, Forall_drop.
      apply wp_bind, wr_rsa_spec; [apply O|lia|lia|]. intros s' O' _ _ HR' Hd'. apply wp_ret.
      replace (u32 (size - 4)) with (size - 4) by (symmetry; apply wrap_id; lia).
      split; [dlia|]. split; [by eapply only_trans|]. split; [congruence|]. split; [lia|]. split; [lia|].
      split; [dlia|]. split; [rewrite drop_drop; f_equal; lia|].
      rewrite HR', HR. rewrite <- Hw at 1. rewrite le_bytes_val by done.
      assert (Hzt : zlen (take (Z.to_nat off) buf) = off) by (rewrite length_take; lia).
      rewrite <- Hzt at 1. rewrite <- (Z.add_0_l (zlen _)), memcpy_at_app by (rewrite ?Hzt; lia).
      f_equal. unfold w. rewrite take_take_drop. f_equal. lia.
Qed.

Lemma land_addr_mask a : a &&& ADDR_MSK = a mod 2 ^ 25.
Proof. apply (Z.land_ones a 25). lia. Qed.

Lemma addr_mask_bounds a : 0 <= a &&& ADDR_MSK < 2 ^ 25.
Proof. rewrite land_addr_mask. apply Z.mod_pos_bound. lia. Qed.

(** Everything [programSR] does before it starts the command. *)
Lemma programSR_ready cmd adr buf h (Q : Z -> hw D -> Prop) :
  hw_ok h -> bytes_ok buf -> 256 <= zlen buf ->
  (forall h1, only nowhere h h1 -> chip_wel (dev h1) = true ->
     HR_FLASH_CMD_ADDR h1 = cmd ||| u32 (255 ≪ 16) -> HR_FLASH_ADDR h1 = adr mod 2 ^ 25 ->
     (forall i, 0 <= i < 256 -> byte_at (RSA_BUF h1) i = byte_at buf i) -> wp start h1 (fun _ => Q 0)) ->
  wp (programSR cmd adr buf 256) h Q.
Proof.
  intros Hok Hb Hlen HQ. pose proof Hok as (Hrsa & _ & _).
  unfold programSR, INSIDE_FLS_PAGE_SIZE. cbn [Z.ltb Z.compare Pos.compare Pos.compare_cont].
  apply wp_bind, programSR_fill_spec; [done|done|lia|done|lia|]. intros h1 O1 Hrsa1 Hd1.
  apply wp_bind, writeEnable_spec; [apply O1|]. intros h2 O2 Hw2 Hrsa2 _.
  apply wp_bind, wr_cmd_spec; [apply O2|]. intros h3 O3 Hc3 _ Hrsa3 Hd3.
  apply wp_bind, wr_addr_spec; [apply O3|apply addr_mask_bounds|]. intros h4 O4 Hc4 Ha4 Hrsa4 Hd4.
  apply wp_bind. eapply wp_mono; [apply HQ|intros [] h5 Hq; by apply wp_ret].
  - repeat (eapply only_trans; [eassumption|]). by apply only_refl, O4.
  - congruence.
  - by rewrite Hc4, Hc3.
  - by rewrite Ha4, land_addr_mask.
  - intros i Hi. rewrite Hrsa4, Hrsa3, Hrsa2, Hrsa1.
    rewrite byte_at_memcpy by (rewrite ?length_take; lia).
    rewrite length_take, (proj2 (Z.leb_le _ _)), (proj2 (Z.ltb_lt _ _)) by lia. simpl.
    unfold byte_at. rewrite !nth_lookup, lookup_take_lt by lia. do 2 f_equal. lia.
Qed.

(** The cells of a page, or of a sector. *)
Definition within (off n : Z) : Z -> Prop := fun a => off <= a < off + n.

Lemma only_unprotected S h h' off n :
  only S h h' -> unprotected (dev h) off n -> unprotected (dev h') off n.
Proof.
  intros [_ (_ & _ & _ & _ & _ & _ & Hp) _ [Hs _] _ _ _] Hu a Ha. rewrite Hp, Hs. by apply Hu.
Qed.

Lemma only_size S h h' : only S h h' -> chip_size (dev h') = chip_size (dev h).
Proof. intros O. apply O. Qed.

Lemma only_byte S h h' a : only S h h' -> ~ S a -> chip_byte (dev h') a = chip_byte (dev h) a.
Proof. intros O. apply O. Qed.

Lemma programPage_spec adr buf h (Q : Z -> hw D -> Prop) :
  let a0 := adr mod 2 ^ 25 in
  hw_ok h -> bytes_ok buf -> 256 <= zlen buf -> adr mod 256 = 0 ->
  a0 < chip_size (dev h) -> unprotected (dev h) a0 256 ->
  (forall h', only (within a0 256) h h' ->
     (forall i, 0 <= i < 256 -> chip_byte (dev h') (a0 + i) = chip_byte (dev h) (a0 + i) &&& byte_at buf i) ->
     Q 0 h') ->
  wp (programPage adr 256 buf) h Q.
Proof.
  intros a0 Hok Hb Hlen Hal Hsize Hu HQ. apply wp_bind. apply programSR_ready; [done..|].
  intros h1 O1 Hw Hc Ha Hr.
  assert (Hpre : forall d' buf', cmd_effect (PP 256) (HR_FLASH_ADDR h1) (RSA_BUF h1) (dev h1) d' buf' ->
    keeps_otp (dev h1) d' /\ keeps_sr (dev h1) d' /\
    forall a, chip_byte d' a = if (a0 <=? a) && (a <? a0 + 256)
      then chip_byte (dev h1) a &&& byte_at (RSA_BUF h1) (a - a0) else chip_byte (dev h1) a).
  { intros d' buf' He. rewrite Ha in He. simpl in He. destruct He as (? & ? & _ & ?); [lia| | |done| |done].
    - assert (adr mod 2 ^ 25 mod 256 = 0) by dlia. lia.
    - by rewrite (only_size _ _ _ O1).
    - by eapply only_unprotected. }
  apply (start_only (PP 256) (within a0 256)); [apply O1|done| |].
  - intros d' buf' (Ho & Hs & He)%Hpre. split; [done|]. split; [done|].
    intros a Hout. rewrite He. unfold within in Hout.
    destruct (Z.leb_spec a0 a), (Z.ltb_spec a (a0 + 256)); simpl; (done || lia).
  - intros h2 O2 _ (_ & _ & He)%Hpre. apply wp_ret, HQ.
    + eapply only_trans; [|exact O2]. eapply only_mono; [|exact O1]. done.
    + intros i Hi. rewrite He, (proj2 (Z.leb_le _ _)), (proj2 (Z.ltb_lt _ _)) by lia. simpl.
      rewrite (only_byte _ _ _ _ O1) by auto. rewrite Hr by lia. do 2 f_equal. lia.
Qed.

Lemma eraseSR_ready cmd adr h (Q : Z -> hw D -> Prop) :
  hw_ok h ->
  (forall h1, only nowhere h h1 -> chip_wel (dev h1) = true ->
     HR_FLASH_CMD_ADDR h1 = cmd -> HR_FLASH_ADDR h1 = adr mod 2 ^ 25 -> wp start h1 (fun _ => Q 0)) ->
  wp (eraseSR cmd adr) h Q.
Proof.
  intros Hok HQ. unfold eraseSR.
  apply wp_bind, writeEnable_spec; [done|]. intros h2 O2 Hw2 Hrsa2 _.
  apply wp_bind, wr_cmd_spec; [apply O2|]. intros h3 O3 Hc3 _ Hrsa3 Hd3.
  apply wp_bind, wr_addr_spec; [apply O3|apply addr_mask_bounds|]. intros h4 O4 Hc4 Ha4 Hrsa4 Hd4.
  apply wp_bind. eapply wp_mono; [apply HQ|intros [] h5 Hq; by apply wp_ret].
  - repeat (eapply only_trans; [eassumption|]). by apply only_refl, O4.
  - congruence.
  - by rewrite Hc4, Hc3.
  - by rewrite Ha4, land_addr_mask.
Qed.

Lemma eraseSector_spec adr h (Q : Z -> hw D -> Prop) :
  let a0 := adr mod 2 ^ 25 in
  hw_ok h -> adr mod 4096 = 0 -> a0 < chip_size (dev h) -> unprotected (dev h) a0 4096 ->
  (forall h', only (within a0 4096) h h' ->
     (forall a, within a0 4096 a -> chip_byte (dev h') a = 255) -> Q 0 h') ->
  wp (eraseSector adr) h Q.
Proof.
  intros a0 Hok Hal Hsize Hu HQ. apply wp_bind. apply eraseSR_ready; [done|]. intros h1 O1 Hw Hc Ha.
  assert (Ha0 : a0 mod 4096 = 0) by (unfold a0; dlia).
  assert (Hpre : forall d' buf', cmd_effect SE (HR_FLASH_ADDR h1) (RSA_BUF h1) (dev h1) d' buf' ->
    keeps_otp (dev h1) d' /\ keeps_sr (dev h1) d' /\
    forall a, chip_byte d' a = if a / 4096 =? a0 / 4096 then 255 else chip_byte (dev h1) a).
  { intros d' buf' He. rewrite Ha in He. simpl in He. destruct He as (? & ? & _ & ?); [|done| |done].
    - by rewrite (only_size _ _ _ O1).
    - replace (adr mod 2 ^ 25 / 4096 * 4096) with a0 by (unfold a0 in *; dlia). by eapply only_unprotected. }
  apply (start_only SE (within a0 4096)); [apply O1|done| |].
  - intros d' buf' (Ho & Hs & He)%Hpre. split; [done|]. split; [done|].
    intros a Hout. rewrite He. unfold within in Hout. case_match eqn:E; [|done]. exfalso. dlia.
  - intros h2 O2 _ (_ & _ & He)%Hpre. apply wp_ret, HQ.
    + eapply only_trans; [|exact O2]. eapply only_mono; [|exact O1]. done.
    + intros a Hin. unfold within in Hin. rewrite He. case_match eqn:E; [done|]. exfalso. dlia.
Qed.

(** *** Reading *)

Lemma copy_words_spec word src ar buf off :
  0 <= ar -> 0 <= off -> ar + 4 * Z.of_nat word <= zlen src -> off + 4 * Z.of_nat word <= zlen buf ->
  copy_words word src ar buf off = Some (memcpy_at off (slice ar (4 * Z.of_nat word) src) buf).
Proof.
  revert ar buf off. induction word as [|word IH]; intros ar buf off Har Hoff Hsrc Hbuf; [done|].
  cbn [copy_words]. rewrite (proj2 (Z.leb_le _ _)), (proj2 (Z.leb_le _ _)) by lia. cbn [andb].
  assert (Hl : zlen (slice ar 4 src) = 4) by (rewrite length_slice; lia).
  rewrite IH by (rewrite ?length_memcpy_at; lia). f_equal. rewrite <- Hl at 1.
  rewrite memcpy_at_app by (rewrite ?Hl, ?length_slice; lia). f_equal.
  rewrite <- slice_app by lia. f_equal. lia.
Qed.

Lemma copy_tail_spec byte src ar buf off :
  0 <= byte < 4 -> 0 <= ar -> 0 <= off -> ar + 4 <= zlen src \/ byte = 0 ->
  let pad := (if 0 <? byte then 4 - byte else 0) in
  off + byte + pad <= zlen buf ->
  copy_tail byte src ar buf off =
  Some (memcpy_at off (slice ar byte src ++ replicate (Z.to_nat pad) 0) buf).
Proof.
  intros Hb Har Hoff Hsrc pad Hbuf. unfold copy_tail, pad in *.
  destruct (Z.ltb_spec 0 byte); [|by replace byte with 0 by lia].
  rewrite (proj2 (Z.leb_le _ _)), (proj2 (Z.leb_le _ _)) by lia. cbn [andb]. f_equal.
  assert (Hl : zlen (slice ar byte src) = byte) by (rewrite length_slice; lia).
  replace 4 with (byte + (4 - byte)) at 2 by lia. rewrite slice_app by lia.
  rewrite <- (memcpy_at_app off (slice ar byte src)) by (rewrite ?Hl, ?length_slice; lia).
  rewrite <- (memcpy_at_app off (slice ar byte src)) by (rewrite ?Hl, ?length_replicate; lia).
  rewrite Hl. apply memcpy_at_hide; rewrite ?length_memcpy_at, ?length_slice, ?length_replicate; lia.
Qed.

(** The command words of [__readByCMD] are read commands of the chip. *)
Lemma read_word_cmd cmd cr sz :
  cmd ∈ [0x03; 0x0B; 0xBB; 0xEB] -> 0 < sz <= 1024 ->
  exists op, read_word cmd cr sz = Some (cmd_word (READ op sz)) /\ op ∈ read_ops.
Proof.
  intros Hc Hsz. assert (Hl : ((sz - 1) &&& 0x3FF) ≪ 16 = len_field sz).
  { unfold len_field. f_equal. change 0x3FF with (Z.ones 10). rewrite Z.land_ones by lia.
    apply Z.mod_small. lia. }
  unfold read_word. rewrite Hl. unfold read_ops.
  rewrite !elem_of_cons in Hc. destruct Hc as [->|[->|[->|[->|Hc]]]]; simpl; [| | | |by apply not_elem_of_nil in Hc].
  - eexists. split; [done|]. by left.
  - case_match; eexists; (split; [done|]); [by right; left|by right; right; left].
  - eexists. split; [done|]. by do 3 right; left.
  - eexists. split; [done|]. by do 4 right; left.
Qed.

Definition read_pad (sz : Z) : Z := if 0 <? sz mod 4 then 4 - sz mod 4 else 0.

(** [sz] bytes of the array arrive in the buffer; when [sz] is no multiple
    of 4 the bytes up to the next one are cleared. *)
Lemma readByCMD_spec cmd addr buf off sz h (Q : Z * list Z -> hw D -> Prop) :
  let a0 := addr mod 2 ^ 25 in
  hw_ok h -> cmd ∈ [0x03; 0x0B; 0xBB; 0xEB] -> 0 < sz <= 1024 -> a0 + sz <= chip_size (dev h) ->
  0 <= off -> off + sz + read_pad sz <= zlen buf ->
  (forall h', only nowhere h h' -> dev h' = dev h ->
     Q (0, memcpy_at off (range (chip_byte (dev h)) a0 sz ++ replicate (Z.to_nat (read_pad sz)) 0) buf) h') ->
  wp (__readByCMD cmd addr buf off sz) h Q.
Proof.
  intros a0 Hok Hcmd Hsz Hsize Hoff Hbuf HQ. unfold __readByCMD. apply wp_bind, wp_gets. cbv zeta.
  set (cmd' := if _ && _ then 0x0B else cmd).
  assert (Hcmd' : cmd' ∈ [0x03; 0x0B; 0xBB; 0xEB]) by (unfold cmd'; case_match; [by right; left|done]).
  destruct (read_word_cmd cmd' (HR_FLASH_CR h) sz Hcmd' Hsz) as (op & -> & Hop).
  apply wp_bind, wr_cmd_spec; [done|]. intros h1 O1 Hc1 Ha1 _ Hd1.
  apply wp_bind, wr_addr_spec; [apply O1|apply addr_mask_bounds|]. intros h2 O2 Hc2 Ha2 _ Hd2.
  apply wp_bind, (start_only (READ op sz) nowhere); [apply O2|congruence| |].
  { intros d' buf' He. by rewrite (query_same (READ op sz) _ _ _ _ _ (conj Hop Hsz) He). }
  intros h3 O3 Ha3 He. destruct (He Hop Hsz) as [Hd3 Hans]. clear He.
  rewrite Ha2, land_addr_mask, Hd2, Hd1 in Hans. fold a0 in Hans.
  apply wp_bind, wp_gets. pose proof (only_ok _ _ _ O3) as (Hlen & Hbok & _).
  set (rsa := RSA_BUF h3) in *. set (data := range (chip_byte (dev h)) a0 sz).
  assert (Hdata : slice 0 sz rsa = data).
  { apply byte_list_eq; [unfold data; rewrite length_slice, length_range; lia|].
    rewrite length_slice by lia. intros i Hi. rewrite byte_at_slice by lia.
    unfold data. rewrite byte_at_range by lia. apply Hans; lia. }
  unfold read_pad in *. assert (Hw : Z.of_nat (Z.to_nat (sz / 4)) = sz / 4) by dlia.
  rewrite copy_words_spec; [|lia|lia|rewrite Hw; dlia|rewrite Hw; case_match; dlia]. rewrite Hw. simpl mbind.
  rewrite copy_tail_spec; rewrite ?length_memcpy_at; [|dlia|dlia|dlia|dlia|case_match; dlia].
  apply wp_ret. assert (Hsl : zlen (slice 0 (4 * (sz / 4)) rsa) = 4 * (sz / 4)) by (rewrite length_slice; dlia).
  rewrite <- Hsl at 1. rewrite memcpy_at_app, app_assoc.
  - rewrite <- slice_app by dlia. replace (4 * (sz / 4) + sz mod 4) with sz by dlia. rewrite Hdata.
    apply HQ; [|congruence]. repeat (eapply only_trans; [eassumption|]). by apply only_refl, O3.
  - done.
  - rewrite Hsl, length_app, length_replicate, length_slice by dlia. case_match; dlia.
Qed.

(** *** Identification *)

Lemma first_value_byte h : hw_ok h -> le_val (slice 0 4 (RSA_BUF h)) &&& 0xFF = byte_at (RSA_BUF h) 0.
Proof.
  intros (Hlen & Hb & _). destruct (RSA_BUF h) as [|b l]; [done|].
  apply Forall_cons in Hb as [H0b _]. unfold byte_ok in H0b.
  change 0xFF with (Z.ones 8). rewrite Z.land_ones by lia. change (2 ^ 8) with 256.
  change (slice 0 4 (b :: l)) with (b :: take 3 l). change (byte_at (b :: l) 0) with b.
  cbn [le_val]. generalize (le_val (take 3 l)). intros z. dlia.
Qed.

Lemma readRID_spec h (Q : Z -> hw D -> Prop) :
  hw_ok h ->
  (forall h', only nowhere h h' -> dev h' = dev h -> Q (byte_at (chip_id (dev h)) 0) h') ->
  wp readRID h Q.
Proof.
  intros Hok HQ. unfold readRID. apply wp_bind, wr_cmd_spec; [done|]. intros h1 O1 Hc1 Ha1 _ Hd1.
  apply wp_bind, (start_only RDID nowhere); [apply O1|done| |].
  { intros d' buf' [-> _]. done. }
  intros h2 O2 _ [Hd2 Hans]. unfold read_first_value. apply wp_bind, wp_gets, wp_ret.
  rewrite first_value_byte by apply O2. rewrite (Hans 0), Hd1 by lia.
  apply HQ; [by eapply only_trans|congruence].
Qed.

(** The density code of the identification, as a size in bytes. *)
Definition density_of (id : list Z) : Z :=
  let code := byte_at id 2 in
  if negb (code =? 0) && (code <=? 0x21) then 2 ^ code else 0.

Lemma third_byte h : hw_ok h ->
  (((le_val (slice 0 4 (RSA_BUF h)) &&& 0xFFFFFF) ≫ 16) &&& 0xFF) = byte_at (RSA_BUF h) 2.
Proof.
  intros (Hlen & Hb & _).
  destruct (RSA_BUF h) as [|b0 [|b1 [|b2 [|b3 l]]]]; try done.
  apply Forall_cons in Hb as [H0b Hb]. apply Forall_cons in Hb as [H1b Hb].
  apply Forall_cons in Hb as [H2b Hb]. apply Forall_cons in Hb as [H3b _].
  change 0xFFFFFF with (Z.ones 24). change 0xFF with (Z.ones 8).
  rewrite !Z.land_ones, Z.shiftr_div_pow2 by lia.
  change (slice 0 4 _) with [b0; b1; b2; b3]. change (byte_at _ 2) with b2. cbn [le_val].
  unfold byte_ok in *. change (2 ^ 16) with 65536. change (2 ^ 24) with 16777216. change (2 ^ 8) with 256. dlia.
Qed.

Lemma getFlashDensity_spec h (Q : Z -> hw D -> Prop) :
  hw_ok h -> byte_at (chip_id (dev h)) 2 < 32 ->
  (forall h', only nowhere h h' -> dev h' = dev h -> Q (density_of (chip_id (dev h))) h') ->
  wp getFlashDensity h Q.
Proof.
  intros Hok H32 HQ. unfold getFlashDensity. apply wp_bind, wr_cmd_spec; [done|]. intros h1 O1 Hc1 Ha1 _ Hd1.
  apply wp_bind, (start_only RDID nowhere); [apply O1|done| |].
  { intros d' buf' [-> _]. done. }
  intros h2 O2 _ [Hd2 Hans]. unfold read_first_value. apply wp_bind, wp_gets.
  cbv zeta. rewrite third_byte by apply O2.
  assert (Hb2 : byte_at (RSA_BUF h2) 2 = byte_at (chip_id (dev h)) 2) by (rewrite <- Hd1; apply (Hans 2); lia).
  rewrite !Hb2.
  assert (HQ' : Q (density_of (chip_id (dev h))) h2).
  { apply HQ; [by eapply only_trans|congruence]. }
  unfold density_of in HQ'. cbv zeta. set (code := byte_at (chip_id (dev h)) 2) in *.
  assert (Hcode : byte_ok code) by (apply byte_at_ok, chip_id_ok). unfold byte_ok in Hcode.
  case_match eqn:E; [|by apply wp_ret]. rewrite (proj2 (Z.ltb_lt _ _)) by lia. apply wp_ret.
  rewrite Z.shiftl_mul_pow2, Z.mul_1_l, wrap_id; [done| |lia].
  split; [apply Z.pow_nonneg; lia|apply Z.pow_lt_mono_r; lia].
Qed.

(** *** Status registers *)

(** Steps that may rewrite the status registers, but nothing else. *)
Record status_only h h' : Prop := {
  so_ok : hw_ok h';
  so_part : same_part (dev h) (dev h');
  so_array : keeps_array (dev h) (dev h');
  so_otp : keeps_otp (dev h) (dev h');
  so_hist : exists l, history h' = history h ++ l /\ Forall (keeps_array (dev h)) l
}.

Lemma only_status h h' : only nowhere h h' -> status_only h h'.
Proof.
  intros [? ? ? ? ? Hout (l & El & Fl)]. split; try done; [intros a; apply Hout; tauto|].
  exists l. split; [done|]. eapply Forall_impl; [exact Fl|]. intros d Hd a. apply Hd. tauto.
Qed.

Lemma only_sr_eq S h h' : only S h h' -> chip_sr (dev h') = chip_sr (dev h).
Proof. intros [_ _ _ [-> _] _ _ _]. done. Qed.

Lemma only_has S h h' c : only S h h' -> chip_has (dev h') c = chip_has (dev h) c.
Proof. intros O. apply O. Qed.

Lemma status_only_trans h1 h2 h3 : status_only h1 h2 -> status_only h2 h3 -> status_only h1 h3.
Proof.
  intros [? ? A1 B1 (l1 & E1 & F1)] [? ? A2 B2 (l2 & E2 & F2)].
  split; [done|by eapply same_part_trans|intros a; by rewrite A2, A1|intros a; by rewrite B2, B1|].
  exists (l1 ++ l2). rewrite E2, E1, app_assoc. split; [done|]. apply Forall_app. split; [done|].
  eapply Forall_impl; [exact F2|]. intros d Hd a. by rewrite Hd, A1.
Qed.

Lemma read_status_spec h (Q : Z -> hw D -> Prop) :
  hw_ok h ->
  (forall h', only nowhere h h' -> dev h' = dev h -> Q (chip_sr (dev h)) h') ->
  wp read_status h Q.
Proof.
  intros Hok HQ. unfold read_status. apply wp_bind, wr_cmd_spec; [done|]. intros h1 O1 Hc1 Ha1 _ Hd1.
  apply wp_bind, (start_only RDSR1 nowhere); [apply O1|done| |].
  { intros d' buf' [-> _]. done. }
  intros h2 O2 _ [Hd2 Hans2]. unfold read_first_value. apply wp_bind, wp_gets.
  rewrite first_value_byte by apply O2. rewrite (Hans2 0), Hd1 by lia.
  apply wp_bind, wr_cmd_spec; [apply O2|]. intros h3 O3 Hc3 Ha3 _ Hd3.
  apply wp_bind, (start_only RDSR2 nowhere); [apply O3|done| |].
  { intros d' buf' [-> _]. done. }
  intros h4 O4 _ [Hd4 Hans4]. apply wp_bind, wp_gets.
  rewrite first_value_byte by apply O4. rewrite (Hans4 0), Hd3, Hd2, Hd1 by lia. apply wp_ret.
  replace (_ ||| _) with (chip_sr (dev h)).
  { apply HQ; [|congruence]. repeat (eapply only_trans; [eassumption|]). by apply only_refl, O4. }
  change 256 with (2 ^ 8). rewrite <- Z.land_ones, <- Z.shiftr_div_pow2 by lia.
  apply Z.bits_inj'. intros i Hi. rewrite Z.lor_spec, Z.land_spec, Z.shiftl_spec by done.
  destruct (Z.lt_ge_cases i 8).
  - rewrite Z.ones_spec_low, (Z.testbit_neg_r _ (i - 8)) by lia. by rewrite andb_true_r, orb_false_r.
  - rewrite Z.ones_spec_high, Z.shiftr_spec by lia. rewrite andb_false_r. simpl. f_equal. lia.
Qed.

Lemma take2_word v (l : list Z) : length l = 1024%nat -> take 2 (memcpy_at 0 (le_bytes 4 v) l) = le_bytes 2 v.
Proof. destruct l as [|a [|b [|c [|e l]]]]; done. Qed.

Lemma byte0_word v (l : list Z) : length l = 1024%nat -> byte_at (memcpy_at 0 (le_bytes 4 v) l) 0 = v mod 256.
Proof. destruct l as [|a [|b [|c [|e l]]]]; done. Qed.

(** Write enable, the new value into the buffer, and the status write [c]. *)
Lemma status_write_spec c v h (Q : unit -> hw D -> Prop) :
  c = WRSR12 \/ c = WRSR1 \/ c = WRSR2 ->
  hw_ok h -> chip_has (dev h) c = true ->
  let old := chip_sr (dev h) in
  (forall h', status_only h h' ->
     chip_sr (dev h') = match c with
       | WRSR12 => sr_written old (v mod 2 ^ 16)
       | WRSR1 => le_val [v mod 256; old / 256]
       | _ => sr_written old (le_val [old mod 256; v mod 256])
       end -> Q tt h') ->
  wp (wr_cmd 0x6 ;; start ;; wr_rsa 0 v ;; wr_cmd (cmd_word c) ;; start) h Q.
Proof.
  intros Hc Hok Hhas old HQ. pose proof Hok as (Hlen & _).
  apply wp_bind, wr_cmd_spec; [done|]. intros h1 O1 Hc1 Ha1 Hr1 Hd1.
  apply wp_bind, (start_only WREN nowhere); [apply O1|done| |].
  { intros d' buf' (Ht & Ho & Hs & _). split; [done|]. split; [done|]. intros a _. apply Ht. }
  intros h2 O2 Ha2 (_ & _ & _ & Hw & Hb2).
  apply wp_bind, wr_rsa_spec; [apply O2|lia|lia|]. intros h3 O3 _ Ha3 Hr3 Hd3.
  apply wp_bind, wr_cmd_spec; [apply O3|]. intros h4 O4 Hc4 Ha4 Hr4 Hd4.
  assert (O : only nowhere h h4).
  { repeat (eapply only_trans; [eassumption|]). by apply only_refl, O4. }
  assert (HR : RSA_BUF h4 = memcpy_at 0 (le_bytes 4 v) (RSA_BUF h)) by congruence.
  apply (start_spec c); [apply O4|done|]. intros h5 Hok5 Hp5 He _ _ _ _ Hh5.
  assert (He' : keeps_array (dev h4) (dev h5) /\ keeps_otp (dev h4) (dev h5) /\
    chip_sr (dev h5) = match c with
      | WRSR12 => sr_written old (v mod 2 ^ 16)
      | WRSR1 => le_val [v mod 256; old / 256]
      | _ => sr_written old (le_val [old mod 256; v mod 256])
      end).
  { assert (Hw4 : chip_wel (dev h4) = true) by congruence.
    rewrite <- (only_has _ _ _ _ O) in Hhas. unfold old. rewrite <- (only_sr_eq _ _ _ O).
    destruct Hc as [->|[->| ->]]; simpl in He; destruct (He Hw4 Hhas) as (? & ? & _ & _ & ->);
      (split; [done|]); (split; [done|]); rewrite HR.
    - rewrite take2_word by done. by rewrite le_val_bytes.
    - by rewrite byte0_word by done.
    - by rewrite byte0_word by done. }
  destruct He' as (Harr & Hotp & Hsr). apply HQ; [|done].
  eapply status_only_trans; [by apply only_status|]. split; try done.
  exists [dev h5]. split; [done|]. by apply Forall_cons.
Qed.

(** *** Bit fields of the status *)

Lemma testbit_le2 a b i :
  byte_ok a -> byte_ok b -> 0 <= i ->
  Z.testbit (le_val [a; b]) i = if i <? 8 then Z.testbit a i else Z.testbit b (i - 8).
Proof.
  unfold byte_ok. intros Ha Hb Hi. cbn [le_val]. rewrite Z.mul_0_r, Z.add_0_r.
  destruct (Z.ltb_spec i 8).
  - rewrite <- (Z.mod_pow2_bits_low (a + 256 * b) 8) by lia. f_equal. change (2 ^ 8) with 256. dlia.
  - replace i with ((i - 8) + 8) at 1 by lia. rewrite <- Z.div_pow2_bits by lia. f_equal.
    change (2 ^ 8) with 256. dlia.
Qed.

Lemma le2_bounds a b : byte_ok a -> byte_ok b -> 0 <= le_val [a; b] < 2 ^ 16.
Proof. unfold byte_ok. simpl. lia. Qed.

Lemma mod_256_ok a : byte_ok (a mod 256).
Proof. apply Z.mod_pos_bound. lia. Qed.

Lemma div_256_ok a : 0 <= a < 2 ^ 16 -> byte_ok (a / 256).
Proof. intros. unfold byte_ok. dlia. Qed.

Lemma testbit_mod_256 a i : 0 <= i -> Z.testbit (a mod 256) i = if i <? 8 then Z.testbit a i else false.
Proof.
  intros Hi. change 256 with (2 ^ 8). destruct (Z.ltb_spec i 8);
    [by apply Z.mod_pow2_bits_low|by apply Z.mod_pow2_bits_high; lia].
Qed.

Lemma testbit_div_256 a i : 0 <= i -> Z.testbit (a / 256) i = Z.testbit a (i + 8).
Proof. intros Hi. change 256 with (2 ^ 8). by apply Z.div_pow2_bits. Qed.

End commands.

(** Equality of two 16-bit values, bit by bit. *)
Ltac ground_indices :=
  repeat match goal with
  | |- context [Z.sub ?a ?b] => let c := eval vm_compute in (Z.sub a b) in
      lazymatch c with Z0 => idtac | Zpos _ => idtac | Zneg _ => idtac end; change (Z.sub a b) with c
  | |- context [Z.testbit _ (Z.add ?a ?b)] => let c := eval vm_compute in (Z.add a b) in
      change (Z.add a b) with c
  end.
Ltac push_bits :=
  repeat (rewrite ?testbit_le2, ?Z.lor_spec, ?Z.land_spec, ?Z.shiftr_spec, ?Z.shiftl_spec,
            ?testbit_mod_256, ?testbit_div_256 by (auto using mod_256_ok, div_256_ok || lia)).
Ltac bits16 :=
  apply (bits_eq_bounded 16);
  [ | |
    let i := fresh "i" in let Hi := fresh "Hi" in
    intros i Hi;
    assert (i = 0 \/ i = 1 \/ i = 2 \/ i = 3 \/ i = 4 \/ i = 5 \/ i = 6 \/ i = 7 \/ i = 8 \/ i = 9 \/
            i = 10 \/ i = 11 \/ i = 12 \/ i = 13 \/ i = 14 \/ i = 15) as Hcases by lia; clear Hi;
    push_bits;
    repeat destruct Hcases as [->|Hcases]; try subst i; ground_indices; push_bits; ground_indices;
    cbn -[Z.testbit] ].

Abbreviation nowhere := (fun _ : Z => False).
