(* ===== verification/FlsStatus.v ===== *)
(** * Block protection and one-time lock bits

    What the status-register functions of [wm_internal_fls.c] leave in the
    chip: [flashlock] / [flashunlock] set the block-protect field and keep
    every other bit, whichever of the register layouts the manufacturer's
    parts have; the [writeLbBit_for_*] functions set lock bits. *)
From S2P Require Import Prelude CMonad FlashChip FlsHw.

(** The status with the block-protect field set to [b] and no complement. *)
Definition with_bp (sr b : Z) : Z := (sr &&& 0xBF83) ||| b.

Section bits.
Implicit Types sr : Z.

Lemma with_bp_bounds sr b : 0 <= sr < 2 ^ 16 -> 0 <= b < 2 ^ 16 -> 0 <= with_bp sr b < 2 ^ 16.
Proof. intros. apply lor_bounds; [lia| |done]. by apply land_bounds_l. Qed.

(** The two fields the drivers write: no protection, and 0x68. *)
Definition bp_field (b : Z) : Prop := b = 0 \/ b = 0x68.

Lemma bp_field_bounds b : bp_field b -> 0 <= b < 2 ^ 16.
Proof. intros [->| ->]; lia. Qed.

Lemma with_bp_one_write sr b :
  0 <= sr < 2 ^ 16 -> bp_field b ->
  sr_written sr ((((sr &&& 0xBF83) ||| b) ||| (0 ≪ 14)) mod 2 ^ 16) = with_bp sr b.
Proof.
  intros Hs Hb. rewrite Z.shiftl_0_l, Z.lor_0_r.
  pose proof (with_bp_bounds sr b Hs (bp_field_bounds b Hb)) as Hw. unfold with_bp in Hw.
  rewrite Z.mod_small by done. unfold sr_written, with_bp, LB_MASK.
  destruct Hb as [->| ->]; bits16; try done; try (by apply lor_bounds; [lia|done|apply land_bounds_l; lia]);
    by destruct (Z.testbit sr _).
Qed.

Lemma with_bp_same sr b :
  0 <= sr < 2 ^ 16 -> bp_field b -> sr &&& 0x407C = b ||| (0 ≪ 14) -> sr = with_bp sr b.
Proof.
  intros Hs Hb Heq. rewrite Z.shiftl_0_l, Z.lor_0_r in Heq. subst b. unfold with_bp.
  bits16; try done; try (by apply lor_bounds; [lia|apply land_bounds_l; lia..]); by destruct (Z.testbit sr _).
Qed.

(** After the low register has been written; the high one still has its
    complement bit. *)
Definition with_bp_low (sr b : Z) : Z := (sr &&& 0xFF83) ||| b.

Lemma with_bp_low_bounds sr b : 0 <= sr < 2 ^ 16 -> bp_field b -> 0 <= with_bp_low sr b < 2 ^ 16.
Proof. intros ? Hb%bp_field_bounds. apply lor_bounds; [lia| |done]. by apply land_bounds_l. Qed.

Lemma low_written sr b :
  0 <= sr < 2 ^ 16 -> bp_field b -> le_val [((sr &&& 0x83) ||| b) mod 256; sr / 256] = with_bp_low sr b.
Proof.
  intros Hs Hb. pose proof (with_bp_low_bounds sr b Hs Hb) as Hw. unfold with_bp_low in *.
  destruct Hb as [->| ->]; bits16; try done;
    try (by apply le2_bounds; [apply mod_256_ok|apply div_256_ok]); first [done|by destruct (Z.testbit sr _)].
Qed.

Lemma low_same sr b : 0 <= sr < 2 ^ 16 -> b = sr &&& 0x7C -> sr = with_bp_low sr b.
Proof.
  intros Hs ->. unfold with_bp_low. bits16; try done;
    try (by apply lor_bounds; [lia|apply land_bounds_l; lia..]); first [done|by destruct (Z.testbit sr _)].
Qed.

Lemma high_clear sr b :
  0 <= sr < 2 ^ 16 -> bp_field b -> (sr &&& 0x4000) ≫ 8 = 0 ≪ 6 -> with_bp_low sr b = with_bp sr b.
Proof.
  intros Hs Hb H14. apply (f_equal (fun z => Z.testbit z 6)) in H14.
  rewrite Z.shiftr_spec, Z.land_spec, Z.shiftl_0_l in H14 by lia. cbn -[Z.testbit] in H14.
  change (Z.testbit sr 14 && true = false) in H14. rewrite andb_true_r in H14.
  pose proof (with_bp_low_bounds sr b Hs Hb) as Hw.
  pose proof (with_bp_bounds sr b Hs (bp_field_bounds b Hb)) as Hw2. unfold with_bp, with_bp_low in *.
  destruct Hb as [->| ->]; bits16; try done; rewrite ?H14; clear H14; first [done|by destruct (Z.testbit sr _)].
Qed.

Lemma high_written sr b :
  0 <= sr < 2 ^ 16 -> bp_field b ->
  sr_written (with_bp_low sr b)
    (le_val [with_bp_low sr b mod 256; (((sr ≫ 8) &&& 0xBF) ||| (0 ≪ 6)) mod 256]) = with_bp sr b.
Proof.
  intros Hs Hb. rewrite Z.shiftl_0_l, Z.lor_0_r. unfold sr_written.
  pose proof (with_bp_low_bounds sr b Hs Hb) as Hw.
  pose proof (with_bp_bounds sr b Hs (bp_field_bounds b Hb)) as Hw2. unfold with_bp, with_bp_low, LB_MASK in *.
  destruct Hb as [->| ->]; bits16; try done;
    try (by apply lor_bounds; [lia|apply le2_bounds; apply mod_256_ok|apply land_bounds_l; lia]);
    first [done|by destruct (Z.testbit sr _)].
Qed.
End bits.

Section lock.
Context {D : Type} `{FlashChipLaws D}.
Implicit Types h : hw D.

(** The parts with one combined status write, and those with two. *)
Definition one_reg (rid density : Z) : bool :=
  bool_decide (rid ∈ [SPIFLASH_MID_GD; SPIFLASH_MID_TSINGTENG]) ||
  (bool_decide (rid ∈ [SPIFLASH_MID_PUYA; SPIFLASH_MID_TSINGTENG_1MB_4MB]) && (density =? 0x100000)).

Definition two_reg (rid density : Z) : bool :=
  negb (one_reg rid density) &&
  bool_decide (rid ∈ [SPIFLASH_MID_PUYA; SPIFLASH_MID_TSINGTENG_1MB_4MB; SPIFLASH_MID_XTX; SPIFLASH_MID_BOYA;
                      SPIFLASH_MID_FUDANMICRO; SPIFLASH_MID_XMC]).

(** The part has the status writes the driver picks for it. *)
Definition status_commands (d : D) (rid density : Z) : Prop :=
  (one_reg rid density = true -> chip_has d WRSR12 = true) /\
  (two_reg rid density = true -> chip_has d WRSR1 = true /\ chip_has d WRSR2 = true).

Lemma one_wreg_spec bp4 bp3 bp2 bp1 bp0 h (Q : unit -> hw D -> Prop) :
  let b := bp_bits bp4 bp3 bp2 bp1 bp0 in
  hw_ok h -> bp_field b -> chip_has (dev h) WRSR12 = true ->
  (forall h', status_only h h' -> chip_sr (dev h') = with_bp (chip_sr (dev h)) b -> Q tt h') ->
  wp (writeBpBit_for_1wreg 0 bp4 bp3 bp2 bp1 bp0) h Q.
Proof.
  intros b Hok Hb Hhas HQ. pose proof (chip_sr_ok (dev h)) as Hs. unfold writeBpBit_for_1wreg. fold b.
  apply wp_bind, read_status_spec; [done|]. intros h1 O1 Hd1. cbv zeta.
  destruct (Z.eqb_spec (chip_sr (dev h) &&& 0x407C) (b ||| (0 ≪ 14))) as [Heq|Hne]; cbn [negb].
  - apply wp_ret, HQ; [by apply only_status|]. rewrite Hd1. by apply with_bp_same.
  - apply (status_write_spec WRSR12); [by left|apply O1|by rewrite Hd1|]. intros h2 S2 Hsr.
    apply HQ; [eapply status_only_trans; [by apply only_status|done]|].
    rewrite Hsr, Hd1. by apply with_bp_one_write.
Qed.

Lemma two_wreg_spec bp4 bp3 bp2 bp1 bp0 h (Q : unit -> hw D -> Prop) :
  let b := bp_bits bp4 bp3 bp2 bp1 bp0 in
  hw_ok h -> bp_field b -> chip_has (dev h) WRSR1 = true -> chip_has (dev h) WRSR2 = true ->
  (forall h', status_only h h' -> chip_sr (dev h') = with_bp (chip_sr (dev h)) b -> Q tt h') ->
  wp (writeBpBit_for_2wreg 0 bp4 bp3 bp2 bp1 bp0) h Q.
Proof.
  intros b Hok Hb Hhas1 Hhas2 HQ. pose proof (chip_sr_ok (dev h)) as Hs. unfold writeBpBit_for_2wreg. fold b.
  apply wp_bind, read_status_spec; [done|]. intros h1 O1 Hd1. cbv zeta.
  apply wp_bind. apply wp_mono with (Q := fun _ h2 => status_only h h2 /\
    chip_sr (dev h2) = with_bp_low (chip_sr (dev h)) b /\ chip_has (dev h2) WRSR2 = true).
  { destruct (Z.eqb_spec b (chip_sr (dev h) &&& 0x7C)) as [Heq|Hne]; cbn [negb].
    - apply wp_ret. rewrite Hd1. split; [by apply only_status|]. split; [|done]. by apply low_same.
    - apply (status_write_spec WRSR1); [by right; left|apply O1|by rewrite Hd1|]. intros h2 S2 Hsr.
      split; [eapply status_only_trans; [by apply only_status|done]|].
      rewrite Hsr, Hd1. split; [by apply low_written|].
      destruct (so_part _ _ S2) as (_ & _ & _ & _ & _ & -> & _). by rewrite Hd1. }
  intros [] h2 (S2 & Hsr2 & Hh2).
  destruct (Z.eqb_spec ((chip_sr (dev h) &&& 0x4000) ≫ 8) (0 ≪ 6)) as [Heq|Hne]; cbn [negb].
  - apply wp_ret, HQ; [done|]. rewrite Hsr2. by apply high_clear.
  - apply (status_write_spec WRSR2); [by right; right|apply S2|done|]. intros h3 S3 Hsr3.
    apply HQ; [by eapply status_only_trans|]. rewrite Hsr3, Hsr2. by apply high_written.
Qed.

(** Both lock functions on a supported part. *)
Lemma write_bp_spec density bp4 bp3 bp2 bp1 bp0 h (Q : Z -> hw D -> Prop) :
  let b := bp_bits bp4 bp3 bp2 bp1 bp0 in
  let rid := byte_at (chip_id (dev h)) 0 in
  hw_ok h -> bp_field b -> status_commands (dev h) rid density ->
  one_reg rid density || two_reg rid density = true ->
  (forall h', status_only h h' -> chip_sr (dev h') = with_bp (chip_sr (dev h)) b -> Q 0 h') ->
  wp (write_bp density 0 bp4 bp3 bp2 bp1 bp0) h Q.
Proof.
  intros b rid Hok Hb [Hone Htwo] Hsup HQ. unfold write_bp.
  apply wp_bind, readRID_spec; [done|]. intros h1 O1 Hd1. fold rid.
  assert (H1 : chip_has (dev h1) WRSR12 = true ->
    wp (writeBpBit_for_1wreg 0 bp4 bp3 bp2 bp1 bp0 ;; mret 0) h1 Q).
  { intros Hh. apply wp_bind, one_wreg_spec; [apply O1|done|done|]. intros h2 S2 Hsr. apply wp_ret, HQ.
    - eapply status_only_trans; [by apply only_status|done].
    - by rewrite Hsr, Hd1. }
  assert (H2 : chip_has (dev h1) WRSR1 = true -> chip_has (dev h1) WRSR2 = true ->
    wp (writeBpBit_for_2wreg 0 bp4 bp3 bp2 bp1 bp0 ;; mret 0) h1 Q).
  { intros Hh Hh'. apply wp_bind, two_wreg_spec; [apply O1|done|done|done|]. intros h2 S2 Hsr. apply wp_ret, HQ.
    - eapply status_only_trans; [by apply only_status|done].
    - by rewrite Hsr, Hd1. }
  rewrite Hd1 in H1, H2. unfold two_reg in Htwo, Hsup.
  destruct (one_reg rid density) eqn:E1.
  - specialize (H1 (Hone eq_refl)). unfold one_reg in E1. apply orb_true_iff in E1 as [E1|E1].
    + by rewrite E1.
    + apply andb_true_iff in E1 as [E1 E2]. rewrite E2.
      case_match; [done|]. by rewrite E1.
  - simpl in Hsup. specialize (Htwo Hsup). apply bool_decide_eq_true in Hsup.
    specialize (H2 (proj1 Htwo) (proj2 Htwo)). clear H1 Htwo Hone.
    unfold one_reg in E1. apply orb_false_iff in E1 as [E1 E2]. rewrite E1.
    case_bool_decide as C1.
    + simpl in E2. rewrite E2. done.
    + rewrite bool_decide_true; [done|]. rewrite !elem_of_cons in *. tauto.
Qed.

End lock.
