(* ===== verification/FlsDriver.v ===== *)
(** * The flash driver of [wm_internal_fls.c]

    The driver's state and its entry points: reading, writing with and
    without erasing, sector and chip erasing, the buffered fast write, the
    one-time area, the lock entry points, parameters and initialisation.
    Every entry point takes the semaphore [fls_lock]; acquiring it when its
    count is 0 blocks for ever, which is a computation without a result. *)
From S2P Require Import Prelude CMonad HostEnv FlashChip FlsHw.

Definition TLS_FLS_STATUS_OK : Z := 0.
Definition TLS_FLS_STATUS_EINVAL : Z := 1.
Definition TLS_FLS_STATUS_EBUSY : Z := 2.
Definition TLS_FLS_STATUS_EPERM : Z := 3.
Definition TLS_FLS_STATUS_ENOSUPPORT : Z := 4.
Definition TLS_FLS_STATUS_ENOMEM : Z := 6.

(** [wm_flash_map.h]: where the flash is mapped, and the mark of the boot
    loader's and the factory's records. *)
Definition FLASH_BASE_ADDR : Z := 0x8000000.
Definition SIGNATURE_WORD : Z := 0xA0FFFF9F.

(** [struct tls_inside_fls]; the semaphore is its count. *)
Record tls_inside_fls := InsideFls {
  fls_lock : Z;
  flashid : Z;
  density : Z;
  eraseSize : Z;
  pageSize : Z
}.

(** The addresses of the system's own sectors. *)
Record flash_map := FlashMap {
  TLS_FLASH_MESH_PARAM_ADDR : Z;
  TLS_FLASH_PARAM_DEFAULT : Z;
  TLS_FLASH_PARAM1_ADDR : Z;
  TLS_FLASH_PARAM2_ADDR : Z;
  TLS_FLASH_PARAM_RESTORE_ADDR : Z;
  TLS_FLASH_OTA_FLAG_ADDR : Z;
  TLS_FLASH_END_ADDR : Z
}.

(** Their initial values: a 2-megabyte part. *)
Definition flash_map_default : flash_map :=
  FlashMap 0x81FA000 0x81FB000 0x81FC000 0x81FD000 0x81FE000 0x81FF000 0x81FFFFF.

(** [oom] is a ghost: it remembers that an allocation has failed. *)
Record fls (E D : Type) := Fls {
  hwst : hw D;
  env : E;
  oom : bool;
  inside_fls : option tls_inside_fls;
  gsflscache : option (Z * list Z);
  gsSector : Z;
  fmap : flash_map
}.
Arguments Fls {E D}.
Arguments hwst {E D}.
Arguments env {E D}.
Arguments oom {E D}.
Arguments inside_fls {E D}.
Arguments gsflscache {E D}.
Arguments gsSector {E D}.
Arguments fmap {E D}.

Section driver.
Context {E D : Type} `{Host E} `{FlashChip D}.
Abbreviation st := (fls E D).

(** ** Plumbing *)

Definition set_hw (h : hw D) (s : st) : st :=
  Fls h (env s) (oom s) (inside_fls s) (gsflscache s) (gsSector s) (fmap s).
Definition on_hw {A} (m : M (hw D) A) : M st A := zoom hwst set_hw m.

Definition set_inside (f : option tls_inside_fls) : M st unit := modify (fun s =>
  Fls (hwst s) (env s) (oom s) f (gsflscache s) (gsSector s) (fmap s)).
Definition set_gs (cache : option (Z * list Z)) : M st unit := modify (fun s =>
  Fls (hwst s) (env s) (oom s) (inside_fls s) cache (gsSector s) (fmap s)).
Definition set_gsSector (v : Z) : M st unit := modify (fun s =>
  Fls (hwst s) (env s) (oom s) (inside_fls s) (gsflscache s) v (fmap s)).
Definition set_fmap (m : flash_map) : M st unit := modify (fun s =>
  Fls (hwst s) (env s) (oom s) (inside_fls s) (gsflscache s) (gsSector s) m).

Definition tls_mem_alloc (size : Z) : M st (option (Z * list Z)) := fun s =>
  let '(r, e) := h_alloc size (env s) in
  Some (r, Fls (hwst s) e (match r with None => true | Some _ => oom s end)
             (inside_fls s) (gsflscache s) (gsSector s) (fmap s)).
Definition tls_mem_free (p : Z) : M st unit := modify (fun s =>
  Fls (hwst s) (h_free p (env s)) (oom s) (inside_fls s) (gsflscache s) (gsSector s) (fmap s)).

(** [inside_fls->...]; a NULL pointer has no fields. *)
Definition the_fls : M st tls_inside_fls := fun s =>
  match inside_fls s with Some f => Some (f, s) | None => None end.

Definition set_lock (n : Z) (f : tls_inside_fls) : tls_inside_fls :=
  InsideFls n (flashid f) (density f) (eraseSize f) (pageSize f).

(** [tls_os_sem_acquire(inside_fls->fls_lock, 0)] waits without limit. *)
Definition sem_acquire : M st unit :=
  f ← the_fls;
  if 0 <? fls_lock f then set_inside (Some (set_lock (fls_lock f - 1) f)) else stuck.
Definition sem_release : M st unit :=
  f ← the_fls;
  set_inside (Some (set_lock (fls_lock f + 1) f)).

(** [if (inside_fls == NULL) return r;] before the rest. *)
Definition if_installed {A} (r : A) (m : M st A) : M st A :=
  i ← gets inside_fls;
  match i with None => mret r | Some _ => m end.

(** ** Reading *)

Definition readByCMD (cmd addr : Z) (buf : list Z) (sz : Z) : M st (Z * list Z) :=
  if_installed (TLS_FLS_STATUS_EPERM, buf) (
    sem_acquire ;;
    r ← on_hw (__readByCMD cmd addr buf 0 sz);
    sem_release ;;
    mret (TLS_FLS_STATUS_OK, snd r)).

(** The loop of the aligned case of [flashRead]. *)
Fixpoint read_direct (n : nat) (flash_addr : Z) (buf : list Z) (off max_size : Z) : M (hw D) (list Z) :=
  match n with
  | O => mret buf
  | S n =>
      r ← __readByCMD 0xEB flash_addr buf off max_size;
      read_direct n (u32 (flash_addr + max_size)) (snd r) (off + max_size) max_size
  end.

(** The loop of the other case, through the page cache. *)
Fixpoint read_pages (n : nat) (flash_addr : Z) (cache buf : list Z) (off : Z) : M (hw D) (list Z * list Z) :=
  match n with
  | O => mret (cache, buf)
  | S n =>
      r ← __readByCMD 0xEB flash_addr cache 0 INSIDE_FLS_PAGE_SIZE;
      read_pages n (u32 (flash_addr + INSIDE_FLS_PAGE_SIZE)) (snd r)
        (memcpy_at off (take 256 (snd r)) buf) (off + INSIDE_FLS_PAGE_SIZE)
  end.

Definition flashRead_cached (addr : Z) (cache buf : list Z) (sz : Z) : M (hw D) (list Z) :=
  let page_offset := addr &&& (INSIDE_FLS_PAGE_SIZE - 1) in
  let flash_addr := Z.ldiff addr (INSIDE_FLS_PAGE_SIZE - 1) in
  r ← __readByCMD 0xEB flash_addr cache 0 INSIDE_FLS_PAGE_SIZE;
  let cache := snd r in
  if INSIDE_FLS_PAGE_SIZE - page_offset <? sz then
    let first := INSIDE_FLS_PAGE_SIZE - page_offset in
    let buf := memcpy_at 0 (slice page_offset first cache) buf in
    let flash_addr := u32 (flash_addr + INSIDE_FLS_PAGE_SIZE) in
    let sz_pagenum := (sz - first) / INSIDE_FLS_PAGE_SIZE in
    let sz_remain := (sz - first) mod INSIDE_FLS_PAGE_SIZE in
    r ← read_pages (Z.to_nat sz_pagenum) flash_addr cache buf first;
    let '(cache, buf) := r in
    if negb (sz_remain =? 0) then
      r ← __readByCMD 0xEB (u32 (flash_addr + sz_pagenum * INSIDE_FLS_PAGE_SIZE)) cache 0
            (sz_remain + (4 - sz_remain mod 4));
      mret (memcpy_at (first + sz_pagenum * INSIDE_FLS_PAGE_SIZE) (take (Z.to_nat sz_remain) (snd r)) buf)
    else mret buf
  else mret (memcpy_at 0 (slice page_offset sz cache) buf).

(** [flashRead(addr, buf, sz)]; [bufp] is the address of [buf]. *)
Definition flashRead (addr bufp : Z) (buf : list Z) (sz : Z) : M st (Z * list Z) :=
  let page_offset := addr &&& (INSIDE_FLS_PAGE_SIZE - 1) in
  if (page_offset =? 0) && (bufp &&& 0x3 =? 0) && (sz &&& 0x3 =? 0) then
    let max_size := if 512 <=? sz then 1024 else INSIDE_FLS_PAGE_SIZE in
    let sz_pagenum := sz / max_size in
    let sz_remain := sz mod max_size in
    buf ← on_hw (read_direct (Z.to_nat sz_pagenum) addr buf 0 max_size);
    if negb (sz_remain =? 0) then
      r ← on_hw (__readByCMD 0xEB (u32 (addr + sz_pagenum * max_size)) buf (sz_pagenum * max_size) sz_remain);
      mret (0, snd r)
    else mret (0, buf)
  else
    c ← tls_mem_alloc INSIDE_FLS_PAGE_SIZE;
    match c with
    | None => mret (TLS_FLS_STATUS_ENOMEM, buf)
    | Some (p, cache) =>
        buf ← on_hw (flashRead_cached addr cache buf sz);
        tls_mem_free p ;;
        mret (0, buf)
    end.

(** The arguments the entry points refuse; a NULL buffer is address 0. *)
Definition bad_args (f : tls_inside_fls) (addr bufp len : Z) : bool :=
  (density f <=? addr &&& (INSIDE_FLS_BASE_ADDR - 1)) || (len =? 0) || (bufp =? 0).

Definition tls_fls_read (addr bufp : Z) (buf : list Z) (len : Z) : M st (Z * list Z) :=
  if_installed (TLS_FLS_STATUS_EPERM, buf) (
    f ← the_fls;
    if bad_args f addr bufp len then mret (TLS_FLS_STATUS_EINVAL, buf)
    else
      sem_acquire ;;
      r ← flashRead addr bufp buf len;
      sem_release ;;
      mret (TLS_FLS_STATUS_OK, snd r)).

(** ** Writing *)

(** [for (i = 0; i < n; i++) cache[i + off] = buf[i];] *)
Fixpoint copy_loop (n : nat) (i : Z) (cache : list Z) (off : Z) (buf : list Z) : list Z :=
  match n with
  | O => cache
  | S n => copy_loop n (i + 1) (<[Z.to_nat (i + off) := byte_at buf i]> cache) off buf
  end.

(** [for (i = 0; i < SECTOR / PAGE; i++) programPage(base + i * PAGE, PAGE, &cache[i * PAGE]);] *)
Definition program_sector (base : Z) (cache : list Z) : M (hw D) unit :=
  mfor 16 0 (fun i =>
    programPage (u32 (base + i * INSIDE_FLS_PAGE_SIZE)) INSIDE_FLS_PAGE_SIZE
      (drop (Z.to_nat (i * INSIDE_FLS_PAGE_SIZE)) cache) ;;
    mret tt).

(** One round of [tls_fls_write]: read, erase, merge, program. *)
Definition write_round (p : Z) (secpos secoff : Z) (cache buf : list Z) (secremain : Z) : M st (list Z) :=
  let base := u32 (secpos * INSIDE_FLS_SECTOR_SIZE) in
  r ← flashRead base p cache INSIDE_FLS_SECTOR_SIZE;
  on_hw (eraseSector base) ;;
  let cache := copy_loop (Z.to_nat secremain) 0 (snd r) secoff buf in
  on_hw (program_sector base cache) ;;
  mret cache.

(** The body of its [while (1)]. *)
Definition write_body (p : Z) (x : Z * Z * list Z * list Z * Z * Z)
    : M st (Z * Z * list Z * list Z * Z * Z + unit) :=
  let '(secpos, secoff, cache, buf, len, secremain) := x in
  cache ← write_round p secpos secoff cache buf secremain;
  if len =? secremain then mret (inr tt)
  else
    let len := len - secremain in
    let buf := drop (Z.to_nat secremain) buf in
    let secremain := if INSIDE_FLS_SECTOR_SIZE <? len then INSIDE_FLS_SECTOR_SIZE else len in
    mret (inl (u32 (secpos + 1), 0, cache, buf, len, secremain)).

Definition tls_fls_write (addr bufp : Z) (buf : list Z) (len : Z) : M st Z :=
  if_installed TLS_FLS_STATUS_EPERM (
    f ← the_fls;
    if bad_args f addr bufp len then mret TLS_FLS_STATUS_EINVAL
    else
      sem_acquire ;;
      c ← tls_mem_alloc INSIDE_FLS_SECTOR_SIZE;
      match c with
      | None => sem_release ;; mret TLS_FLS_STATUS_ENOMEM
      | Some (p, cache) =>
          let offaddr := addr &&& (INSIDE_FLS_BASE_ADDR - 1) in
          let secpos := offaddr / INSIDE_FLS_SECTOR_SIZE in
          let secoff := offaddr mod INSIDE_FLS_SECTOR_SIZE in
          let secremain := INSIDE_FLS_SECTOR_SIZE - secoff in
          let secremain := if len <=? secremain then len else secremain in
          mloop (Z.to_nat (len / INSIDE_FLS_SECTOR_SIZE + 2))
            (write_body p) (secpos, secoff, cache, buf, len, secremain) ;;
          tls_mem_free p ;;
          sem_release ;;
          mret TLS_FLS_STATUS_OK
      end).

(** The body of the [while (1)] of the write without erasing. *)
Definition append_body (p : Z) (x : Z * Z * list Z * list Z * Z * Z)
    : M st (Z * Z * list Z * list Z * Z * Z + unit) :=
  let '(pagepos, pageoff, cache, buf, len, pageremain) := x in
  let cache := copy_loop (Z.to_nat pageremain) 0 cache pageoff buf in
  on_hw (programPage (u32 (pagepos * INSIDE_FLS_PAGE_SIZE)) INSIDE_FLS_PAGE_SIZE cache) ;;
  if len =? pageremain then mret (inr tt)
  else
    let pagepos := u32 (pagepos + 1) in
    let len := len - pageremain in
    let buf := drop (Z.to_nat pageremain) buf in
    if INSIDE_FLS_PAGE_SIZE <? len then
      mret (inl (pagepos, 0, cache, buf, len, INSIDE_FLS_PAGE_SIZE))
    else
      r ← flashRead (u32 (pagepos * INSIDE_FLS_PAGE_SIZE)) p cache INSIDE_FLS_PAGE_SIZE;
      mret (inl (pagepos, 0, snd r, buf, len, len)).

Definition tls_fls_write_without_erase (addr bufp : Z) (buf : list Z) (len : Z) : M st Z :=
  if_installed TLS_FLS_STATUS_EPERM (
    f ← the_fls;
    if bad_args f addr bufp len then mret TLS_FLS_STATUS_EINVAL
    else
      sem_acquire ;;
      c ← tls_mem_alloc INSIDE_FLS_PAGE_SIZE;
      match c with
      | None => sem_release ;; mret TLS_FLS_STATUS_ENOMEM
      | Some (p, cache) =>
          let offaddr := addr &&& (INSIDE_FLS_BASE_ADDR - 1) in
          let pagepos := offaddr / INSIDE_FLS_PAGE_SIZE in
          let pageoff := offaddr mod INSIDE_FLS_PAGE_SIZE in
          let pageremain := INSIDE_FLS_PAGE_SIZE - pageoff in
          let pageremain := if len <=? pageremain then len else pageremain in
          r ← flashRead (u32 (pagepos * INSIDE_FLS_PAGE_SIZE)) p cache INSIDE_FLS_PAGE_SIZE;
          mloop (Z.to_nat (len / INSIDE_FLS_PAGE_SIZE + 2))
            (append_body p) (pagepos, pageoff, snd r, buf, len, pageremain) ;;
          tls_mem_free p ;;
          sem_release ;;
          mret TLS_FLS_STATUS_OK
      end).

(** The sectors the driver accepts, in absolute numbering. *)
Definition sector_limit (f : tls_inside_fls) : Z :=
  density f / INSIDE_FLS_SECTOR_SIZE + INSIDE_FLS_BASE_ADDR / INSIDE_FLS_SECTOR_SIZE.

Definition tls_fls_erase (sector : Z) : M st Z :=
  if_installed TLS_FLS_STATUS_EPERM (
    f ← the_fls;
    if sector_limit f <=? sector then mret TLS_FLS_STATUS_EINVAL
    else
      sem_acquire ;;
      on_hw (eraseSector (u32 (sector * INSIDE_FLS_SECTOR_SIZE))) ;;
      sem_release ;;
      mret TLS_FLS_STATUS_OK).

(** ** Fast write *)

Definition tls_fls_flush_sector : M st unit :=
  f ← the_fls;
  sector ← gets gsSector;
  if sector <? sector_limit f then
    let addr := u32 (sector * INSIDE_FLS_SECTOR_SIZE) in
    on_hw (eraseSector addr) ;;
    c ← gets gsflscache;
    match c with
    | None => stuck
    | Some (_, cache) => on_hw (program_sector addr cache)
    end
  else mret tt.

Definition tls_fls_fast_write_init : M st Z :=
  if_installed TLS_FLS_STATUS_EPERM (
    c ← gets gsflscache;
    match c with
    | Some _ => mret (-1)
    | None =>
        c ← tls_mem_alloc INSIDE_FLS_SECTOR_SIZE;
        set_gs c ;;
        match c with
        | None => mret (-1)
        | Some _ => mret TLS_FLS_STATUS_OK
        end
    end).

Definition tls_fls_fast_write_destroy : M st unit :=
  c ← gets gsflscache;
  match c with
  | None => mret tt
  | Some (p, _) =>
      if_installed tt (
        sem_acquire ;;
        tls_fls_flush_sector ;;
        sem_release ;;
        tls_mem_free p ;;
        set_gs None)
  end.

(** [MEMCPY(gsflscache + offset, buf, len)] *)
Definition gs_memcpy (offset : Z) (data : list Z) : M st unit :=
  c ← gets gsflscache;
  match c with
  | None => stuck
  | Some (p, cache) => set_gs (Some (p, memcpy_at offset data cache))
  end.

(** The body of [while (length > 0)]. *)
Definition fast_body (x : Z * Z * list Z * Z) : M st (Z * Z * list Z * Z + unit) :=
  let '(offset, maxlen, buf, length) := x in
  if length <=? 0 then mret (inr tt)
  else
    let len := if maxlen <? length then maxlen else length in
    gs_memcpy offset (take (Z.to_nat len) buf) ;;
    (if INSIDE_FLS_SECTOR_SIZE <=? offset + len then
       tls_fls_flush_sector ;;
       g ← gets gsSector;
       set_gsSector (u32 (g + 1))
     else mret tt) ;;
    mret (inl (0, INSIDE_FLS_SECTOR_SIZE, drop (Z.to_nat len) buf, length - len)).

Definition tls_fls_fast_write (addr bufp : Z) (buf : list Z) (length : Z) : M st Z :=
  if_installed TLS_FLS_STATUS_EPERM (
    f ← the_fls;
    if bad_args f addr bufp length then mret TLS_FLS_STATUS_EINVAL
    else
      sem_acquire ;;
      let sector := addr / INSIDE_FLS_SECTOR_SIZE in
      let offset := addr mod INSIDE_FLS_SECTOR_SIZE in
      g ← gets gsSector;
      (if negb (sector =? g) && negb (g =? 0) then tls_fls_flush_sector else mret tt) ;;
      set_gsSector sector ;;
      let maxlen := if 0 <? offset then INSIDE_FLS_SECTOR_SIZE - offset else INSIDE_FLS_SECTOR_SIZE in
      mloop (Z.to_nat (length / INSIDE_FLS_SECTOR_SIZE + 3))
        fast_body (offset, maxlen, buf, length) ;;
      sem_release ;;
      mret TLS_FLS_STATUS_OK).

(** ** Erasing the whole chip *)

(** [for (j = 0; j < SECTOR; j++) if (cache[j] != 0xFF) ...] *)
Definition all_blank (cache : list Z) : bool := forallb (fun b => b =? 0xFF) (take 4096 cache).

Fixpoint chip_erase_loop (n : nat) (i : Z) (p : Z) (cache : list Z) : M st unit :=
  match n with
  | O => mret tt
  | S n =>
      let addr := INSIDE_FLS_SECBOOT_ADDR + i * INSIDE_FLS_SECTOR_SIZE in
      r ← flashRead addr p cache INSIDE_FLS_SECTOR_SIZE;
      (if negb (all_blank (snd r)) then on_hw (eraseSector addr) ;; mret tt else mret tt) ;;
      chip_erase_loop n (i + 1) p (snd r)
  end.

Definition tls_fls_chip_erase : M st Z :=
  if_installed TLS_FLS_STATUS_EPERM (
    sem_acquire ;;
    c ← tls_mem_alloc INSIDE_FLS_SECTOR_SIZE;
    match c with
    | None => sem_release ;; mret TLS_FLS_STATUS_ENOMEM
    | Some (p, cache) =>
        f ← the_fls;
        let n := u32 (density f - (INSIDE_FLS_SECBOOT_ADDR &&& 0xFFFFF)) / INSIDE_FLS_SECTOR_SIZE in
        chip_erase_loop (Z.to_nat n) 0 p cache ;;
        tls_mem_free p ;;
        sem_release ;;
        mret TLS_FLS_STATUS_OK
    end).

(** ** Parameters, initialisation and the position of the system sectors *)

(** The value stored through [param] (if any) and the status; a NULL
    [param] is [false]. *)
Definition tls_fls_get_param (type : Z) (param : bool) : M st (Z * option Z) :=
  if_installed (TLS_FLS_STATUS_EPERM, None) (
    if negb param then mret (TLS_FLS_STATUS_EINVAL, None)
    else
      sem_acquire ;;
      f ← the_fls;
      let r :=
        if type =? 0 then (TLS_FLS_STATUS_OK, Some 0x2013)
        else if type =? 1 then (TLS_FLS_STATUS_OK, Some (density f))
        else if type =? 2 then (TLS_FLS_STATUS_OK, Some INSIDE_FLS_PAGE_SIZE)
        else if type =? 3 then (TLS_FLS_STATUS_OK, Some INSIDE_FLS_PAGE_SIZE)
        else if type =? 4 then (TLS_FLS_STATUS_OK, Some INSIDE_FLS_SECTOR_SIZE)
        else (TLS_FLS_STATUS_EINVAL, None) in
      sem_release ;;
      mret r).

(** The erase block of the one-time area by manufacturer; [None] for a part
    the driver does not support. *)
Definition otp_erase_size (flashid density : Z) : option Z :=
  if flashid =? SPIFLASH_MID_TSINGTENG_1MB_4MB then
    Some (if density =? 0x100000 then 1024 else if density =? 0x400000 then 2048 else 256)
  else if flashid =? SPIFLASH_MID_GD then Some 1024
  else if flashid =? SPIFLASH_MID_FUDANMICRO then Some (if density <=? 2 ^ 20 then 256 else 1024)
  else if bool_decide (flashid ∈ [SPIFLASH_MID_TSINGTENG; SPIFLASH_MID_BOYA; SPIFLASH_MID_XMC; SPIFLASH_MID_WINBOND])
  then Some 256
  else if flashid =? SPIFLASH_MID_PUYA then Some 512
  else if bool_decide (flashid ∈ [SPIFLASH_MID_XTX; SPIFLASH_MID_ESMT]) then Some 0
  else None.

Definition sizeof_inside_fls : Z := 16.

Definition tls_fls_init : M st Z :=
  i ← gets inside_fls;
  match i with
  | Some _ => mret TLS_FLS_STATUS_EBUSY
  | None =>
      c ← tls_mem_alloc sizeof_inside_fls;
      match c with
      | None => mret TLS_FLS_STATUS_ENOMEM
      | Some (p, _) =>
          ok ← (fun s => let '(ok, e) := h_sem_create (env s) in
                 Some (ok, Fls (hwst s) e (oom s) (inside_fls s) (gsflscache s) (gsSector s) (fmap s)));
          if negb ok then tls_mem_free p ;; mret TLS_FLS_STATUS_ENOMEM
          else
            id ← on_hw readRID;
            dens ← on_hw getFlashDensity;
            match otp_erase_size id dens with
            | None => tls_mem_free p ;; mret TLS_FLS_STATUS_ENOSUPPORT
            | Some es => set_inside (Some (InsideFls 1 id dens es 256)) ;; mret TLS_FLS_STATUS_OK
            end
      end
  end.

Definition tls_fls_exit : M st Z := mret TLS_FLS_STATUS_EPERM.

Definition map_for (density : Z) : flash_map :=
  let top := INSIDE_FLS_BASE_ADDR ||| density in
  FlashMap (u32 (top - 0x6000)) (u32 (top - 0x5000)) (u32 (top - 0x4000)) (u32 (top - 0x3000))
    (u32 (top - 0x2000)) (u32 (top - 0x1000)) (u32 (top - 1)).

Definition tls_fls_sys_param_postion_init : M st unit :=
  r ← tls_fls_get_param 1 true;
  match r with
  | (0, Some density) => set_fmap (map_for density)
  | _ => mret tt
  end.

(** ** Lock entry points *)

Definition tls_flash_unlock : M st Z :=
  if_installed TLS_FLS_STATUS_EPERM (
    sem_acquire ;;
    f ← the_fls;
    r ← on_hw (flashunlock (density f));
    sem_release ;;
    mret r).

Definition tls_flash_lock : M st Z :=
  if_installed TLS_FLS_STATUS_EPERM (
    sem_acquire ;;
    f ← the_fls;
    r ← on_hw (flashlock (density f));
    sem_release ;;
    mret r).

Definition tls_fls_sem_lock : M st unit := if_installed tt sem_acquire.
Definition tls_fls_sem_unlock : M st unit := if_installed tt sem_release.

(** ** Unique identification and the one-time area *)

(** The identification bytes by manufacturer: leading dummies and length. *)
Definition uid_layout (rid : Z) : option (Z * Z) :=
  if bool_decide (rid ∈ [SPIFLASH_MID_GD; SPIFLASH_MID_PUYA; SPIFLASH_MID_TSINGTENG; SPIFLASH_MID_TSINGTENG_1MB_4MB])
  then Some (4, 16)
  else if bool_decide (rid ∈ [SPIFLASH_MID_WINBOND; SPIFLASH_MID_FUDANMICRO; SPIFLASH_MID_BOYA; SPIFLASH_MID_XMC])
  then Some (4, 8)
  else None.

(** The 18 bytes stored through [uuid]; the lengths are whole words, so that
    the code for a partial word is never reached. *)
Definition tls_fls_read_unique_id (uuid : list Z) : M st (Z * list Z) :=
  if_installed (TLS_FLS_STATUS_EPERM, uuid) (
    sem_acquire ;;
    let uuid := memcpy_at 0 (replicate 18 0xFF) uuid in
    rid ← on_hw readRID;
    match uid_layout rid with
    | None => sem_release ;; mret (-1, uuid)
    | Some (dumy_bytes, uni_bytes) =>
        let uuid := memcpy_at 0 [rid; uni_bytes &&& 0xFF] uuid in
        let len := dumy_bytes + uni_bytes in
        on_hw (wr_cmd (0xC04B ||| ((len - 1) ≪ 16)) ;; start) ;;
        rsa ← gets (fun s => RSA_BUF (hwst s));
        match copy_words (Z.to_nat (len / 4)) rsa 0 (replicate 20 0) 0 with
        | None => stuck
        | Some FLASH_BUF =>
            sem_release ;;
            mret (0, memcpy_at 2 (slice dumy_bytes uni_bytes FLASH_BUF) uuid)
        end
    end).

(** The words of the one-time area, from the buffer to [buf]: a first
    partial word, whole words, a last partial word. *)
Definition otp_extract (rsa : list Z) (addr_offset len : Z) : list Z :=
  let addr_read := addr_offset / 4 * 4 in
  let i := (4 - addr_offset mod 4) mod 4 in
  let byte := if len <? i then len else i in
  let head := slice (addr_read + (4 - i)) byte rsa in
  let addr_read := if byte =? 0 then addr_read else addr_read + 4 in
  let word := (len - byte) / 4 in
  let body := slice addr_read (4 * word) rsa in
  let tail := slice (addr_read + 4 * word) ((len - byte) mod 4) rsa in
  (if byte =? 0 then [] else head) ++ body ++ tail.

(** [tls_fls_otp_read(addr, buf, len)]; [None] is a NULL buffer, for which
    the command is issued and nothing copied. *)
Definition tls_fls_otp_read (addr : Z) (buf : option (list Z)) (len : Z) : M st (Z * option (list Z)) :=
  if_installed (TLS_FLS_STATUS_EPERM, buf) (
    sem_acquire ;;
    let '(addr_offset, sz_need, addr) :=
      match buf with
      | Some _ => (addr mod 16, u32 (addr mod 16 + len + 16) / 16 * 16, addr / 16 * 16)
      | None => (0, len, addr)
      end in
    on_hw (
      wr_cmd (0xBC00C048 ||| ((u32 (sz_need - 1) &&& 0x3FF) ≪ 16)) ;;
      wr_addr (addr &&& ADDR_MSK) ;;
      start) ;;
    rsa ← gets (fun s => RSA_BUF (hwst s));
    sem_release ;;
    match buf with
    | Some buf => mret (TLS_FLS_STATUS_OK, Some (memcpy_at 0 (otp_extract rsa addr_offset len) buf))
    | None => mret (TLS_FLS_STATUS_OK, None)
    end).

(** The two page loops of [tls_fls_otp_write]. *)
Fixpoint otp_backup (n : nat) (p : Z) (backbuf : list Z) (q size pageSize : Z) : M st (Z * list Z) :=
  match n with
  | O => stuck
  | S n =>
      if size <=? 0 then mret (TLS_FLS_STATUS_OK, backbuf)
      else
        let l := if pageSize <? size then pageSize else size in
        r ← tls_fls_otp_read p (Some (drop (Z.to_nat q) backbuf)) l;
        match r with
        | (0, Some part) =>
            otp_backup n (p + l) (take (Z.to_nat q) backbuf ++ part) (q + l) (size - l) pageSize
        | _ => mret (TLS_FLS_STATUS_EPERM, backbuf)
        end
  end.

Fixpoint otp_program (n : nat) (p : Z) (backbuf : list Z) (q size pageSize : Z) : M (hw D) unit :=
  match n with
  | O => stuck
  | S n =>
      if size <=? 0 then mret tt
      else
        let l := if pageSize <? size then pageSize else size in
        programSR 0x80009042 p (drop (Z.to_nat q) backbuf) l ;;
        otp_program n (p + l) backbuf (q + l) (size - l) pageSize
  end.

(** [tls_fls_otp_write(addr, buf, len)]; [eraseSize] is 16 bits wide. *)
Definition tls_fls_otp_write (addr : Z) (buf : option (list Z)) (len : Z) : M st Z :=
  match buf with
  | None => mret TLS_FLS_STATUS_EINVAL
  | Some buf =>
      if_installed TLS_FLS_STATUS_EPERM (
        f ← the_fls;
        let es := eraseSize f in
        let ps := pageSize f in
        if (es =? 0) || (ps =? 0) then mret TLS_FLS_STATUS_ENOSUPPORT
        else
          let eraseAddr := Z.ldiff addr (es - 1) in
          if (addr <? eraseAddr) || (es - (addr - eraseAddr) <? len) then mret TLS_FLS_STATUS_EINVAL
          else
            c ← tls_mem_alloc es;
            match c with
            | None => mret TLS_FLS_STATUS_ENOMEM
            | Some (bp, backbuf) =>
                let rounds := Z.to_nat (es / ps + 2) in
                r ← otp_backup rounds eraseAddr backbuf 0 es ps;
                match r with
                | (0, backbuf) =>
                    sem_acquire ;;
                    on_hw (eraseSR 0x80000844 eraseAddr) ;;
                    let backbuf := memcpy_at (addr - eraseAddr) (take (Z.to_nat len) buf) backbuf in
                    on_hw (otp_program rounds eraseAddr backbuf 0 es ps) ;;
                    sem_release ;;
                    tls_mem_free bp ;;
                    mret TLS_FLS_STATUS_OK
                | (e, _) => tls_mem_free bp ;; mret e
                end
            end)
  end.

(** An unsupported part leaves the function before the semaphore is
    released. *)
Definition tls_fls_otp_lock : M st Z :=
  if_installed TLS_FLS_STATUS_EPERM (
    sem_acquire ;;
    f ← the_fls;
    let id := flashid f in
    if bool_decide (id ∈ [SPIFLASH_MID_GD; SPIFLASH_MID_TSINGTENG]) then
      on_hw (writeLbBit_for_1wreg (1 ≪ 10)) ;; sem_release ;; mret 0
    else if id =? SPIFLASH_MID_TSINGTENG_1MB_4MB then
      on_hw (writeLbBit_for_1wreg (7 ≪ 11)) ;; sem_release ;; mret 0
    else if id =? SPIFLASH_MID_FUDANMICRO then
      on_hw (writeLbBit_for_2wreg (1 ≪ 10)) ;; sem_release ;; mret 0
    else if bool_decide (id ∈ [SPIFLASH_MID_BOYA; SPIFLASH_MID_XMC; SPIFLASH_MID_WINBOND; SPIFLASH_MID_PUYA]) then
      on_hw (writeLbBit_for_2wreg (7 ≪ 11)) ;; sem_release ;; mret 0
    else mret TLS_FLS_STATUS_ENOSUPPORT).

End driver.
