(* ===== verification/FlsRead.v ===== *)
(** * Reading the flash: what [flashRead] and [tls_fls_read] deliver *)
From S2P Require Import Prelude CMonad HostEnv FlashChip FlsHw FlsDriver.

Section read.
Context {E D : Type} `{HostLaws E} `{FlashChipLaws D}.
Implicit Types s : fls E D.
Implicit Types h : hw D.

(** From [s] to [s'] the flash changed within [S] at most, and the driver's
    own variables not at all. *)
Record fls_only (S : Z -> Prop) s s' : Prop := {
  fo_hw : only S (hwst s) (hwst s');
  fo_inside : inside_fls s' = inside_fls s;
  fo_gs : gsflscache s' = gsflscache s;
  fo_sector : gsSector s' = gsSector s;
  fo_map : fmap s' = fmap s;
  fo_oom : oom s = true -> oom s' = true
}.

Lemma fls_only_refl S s : hw_ok (hwst s) -> fls_only S s s.
Proof. intros Hok. by split; [apply only_refl|..]. Qed.

Lemma fls_only_trans S s1 s2 s3 : fls_only S s1 s2 -> fls_only S s2 s3 -> fls_only S s1 s3.
Proof.
  intros [? ? ? ? ? ?] [? ? ? ? ? ?]. split; [by eapply only_trans|congruence..|auto].
Qed.

Lemma fls_only_mono (S T : Z -> Prop) s s' : (forall a, S a -> T a) -> fls_only S s s' -> fls_only T s s'.
Proof. intros HST [? ? ? ? ? ?]. split; [by eapply only_mono|done..]. Qed.

(** Hardware code run from the driver. *)
Lemma on_hw_spec {A} (m : M (hw D) A) s (S : Z -> Prop) (Q : A -> fls E D -> Prop) :
  wp m (hwst s) (fun a h' => only S (hwst s) h' /\
    (forall s', fls_only S s s' -> hwst s' = h' -> env s' = env s -> oom s' = oom s -> Q a s')) ->
  wp (on_hw m) s Q.
Proof.
  intros (a & h' & Hm & Ho & HQ)%wp_run. unfold on_hw. apply wp_zoom. rewrite Hm.
  apply HQ; [by split|done..].
Qed.

(** ** The loops *)

Lemma read_direct_spec n addr buf off max h (Q : list Z -> hw D -> Prop) :
  let a0 := addr mod 2 ^ 25 in let sz := Z.of_nat n * max in
  hw_ok h -> 0 < max <= 1024 -> max mod 4 = 0 -> 0 <= addr -> addr + sz < 2 ^ 32 ->
  a0 + sz <= chip_size (dev h) -> chip_size (dev h) <= 2 ^ 25 ->
  0 <= off -> off + sz <= zlen buf ->
  (forall h', only nowhere h h' -> dev h' = dev h ->
     Q (memcpy_at off (range (chip_byte (dev h)) a0 sz) buf) h') ->
  wp (read_direct n addr buf off max) h Q.
Proof.
  cbv zeta. revert addr buf off h. induction n as [|n IH];
    intros addr buf off h Hok Hmax Hm4 Haddr Hwrap Hsize Hcs Hoff Hbuf HQ; cbn [read_direct].
  - apply wp_ret. apply (HQ h); [by apply only_refl|done].
  - apply wp_bind. apply readByCMD_spec;
      [done|by do 3 right; left|done|nia|done|unfold read_pad; rewrite Hm4; simpl; nia|].
    intros h1 O1 Hd1. unfold read_pad. rewrite Hm4. simpl. rewrite app_nil_r.
    assert (Hnext : n = O \/ (u32 (addr + max) = addr + max /\ (addr + max) mod 2 ^ 25 = addr mod 2 ^ 25 + max)).
    { destruct n as [|n]; [by left|right]. split; [apply wrap_id; nia|].
      rewrite <- (Z.mod_small (addr mod 2 ^ 25 + max) (2 ^ 25)); [by rewrite Zplus_mod_idemp_l|].
      pose proof (Z.mod_pos_bound addr (2 ^ 25)). nia. }
    set (l1 := range (chip_byte (dev h)) (addr mod 2 ^ 25) max).
    assert (Hl1 : zlen l1 = max) by (unfold l1; rewrite length_range; lia).
    destruct n as [|n].
    { cbn [read_direct]. apply wp_ret. replace (Z.of_nat 1 * max) with max in HQ by lia. by apply HQ. }
    destruct Hnext as [|[Hu Hmod]]; [done|]. rewrite Hu.
    apply IH; [apply O1|done|done|lia|lia|rewrite Hmod, Hd1; nia|by rewrite Hd1|lia|
      rewrite length_memcpy_at; lia|].
    intros h2 O2 Hd2. rewrite Hmod, Hd1. rewrite <- Hl1 at 1.
    rewrite memcpy_at_app; [|done|rewrite Hl1, length_range; lia].
    unfold l1. rewrite <- range_app by nia.
    replace (max + Z.of_nat (S n) * max) with (Z.of_nat (S (S n)) * max) by lia.
    apply HQ; [by eapply only_trans|congruence].
Qed.

Lemma land_low_zero a n : 0 <= n -> (a &&& (2 ^ n - 1) =? 0) = (a mod 2 ^ n =? 0).
Proof. intros Hn. replace (2 ^ n - 1) with (Z.ones n) by (rewrite Z.ones_equiv; lia). by rewrite Z.land_ones. Qed.

(** Page-aligned reads go straight to a word-aligned buffer. *)
Lemma flashRead_aligned addr bufp buf sz s (Q : Z * list Z -> fls E D -> Prop) :
  let a0 := addr mod 2 ^ 25 in
  hw_ok (hwst s) -> addr mod 256 = 0 -> bufp mod 4 = 0 -> sz mod 4 = 0 -> 0 <= sz ->
  0 <= addr -> addr + sz < 2 ^ 32 ->
  a0 + sz <= chip_size (dev (hwst s)) -> chip_size (dev (hwst s)) <= 2 ^ 25 -> sz <= zlen buf ->
  (forall s', fls_only nowhere s s' -> dev (hwst s') = dev (hwst s) -> env s' = env s -> oom s' = oom s ->
     Q (0, memcpy_at 0 (range (chip_byte (dev (hwst s))) a0 sz) buf) s') ->
  wp (flashRead addr bufp buf sz) s Q.
Proof.
  intros a0 Hok Hal Hbp Hsz4 Hsz Haddr Hwrap Hsize Hcs Hbuf HQ. unfold flashRead.
  change (INSIDE_FLS_PAGE_SIZE - 1) with (2 ^ 8 - 1). change 0x3 with (2 ^ 2 - 1).
  rewrite !land_low_zero by lia. change (2 ^ 8) with 256. change (2 ^ 2) with 4.
  rewrite Hal, Hbp, Hsz4. cbn [Z.eqb andb].
  set (max := if 512 <=? sz then 1024 else INSIDE_FLS_PAGE_SIZE).
  assert (Hmax : (max = 1024 \/ max = 256)) by (unfold max, INSIDE_FLS_PAGE_SIZE; case_match; auto).
  set (n := sz / max). set (r := sz mod max).
  assert (Hnr : sz = n * max + r /\ 0 <= r < max /\ 0 <= n /\ r mod 4 = 0) by (unfold n, r; destruct Hmax as [->| ->]; dlia).
  destruct Hnr as (Hn & Hr & Hn0 & Hr4). clearbody n r max.
  assert (Hd : Z.of_nat (Z.to_nat n) * max = n * max) by lia.
  apply wp_bind, (on_hw_spec _ _ nowhere).
  apply read_direct_spec; rewrite ?Hd; [done|lia|destruct Hmax as [->| ->]; done|done|lia|nia|done|lia|lia|].
  intros h1 O1 Hd1. split; [done|]. intros s1 F1 Hh1 He1 Hm1.
  destruct (Z.eqb_spec r 0) as [->|Hr0]; cbn [negb].
  - apply wp_ret. rewrite Z.add_0_r in Hn. rewrite <- Hn. apply HQ; [done|by rewrite Hh1|done|done].
  - apply wp_bind, (on_hw_spec _ _ nowhere). rewrite Hh1.
    assert (Hu : u32 (addr + n * max) = addr + n * max) by (apply wrap_id; nia).
    assert (Hmod : (addr + n * max) mod 2 ^ 25 = a0 + n * max).
    { rewrite <- (Z.mod_small (a0 + n * max) (2 ^ 25)); [by unfold a0; rewrite Zplus_mod_idemp_l|].
      pose proof (Z.mod_pos_bound addr (2 ^ 25)). nia. }
    rewrite Hu. assert (Hp : read_pad r = 0) by (unfold read_pad; by rewrite Hr4).
    apply readByCMD_spec; rewrite ?Hmod, ?Hp, ?length_memcpy_at;
      [apply O1|by do 3 right; left|lia|rewrite Hd1; lia|nia|lia|].
    intros h2 O2 Hd2. split; [done|]. intros s2 F2 Hh2 He2 Hm2. apply wp_ret. cbn [snd].
    replace (replicate (Z.to_nat 0) 0) with (@nil Z) by done. rewrite app_nil_r, Hd1.
    assert (Hl : zlen (range (chip_byte (dev (hwst s))) a0 (n * max)) = n * max) by (rewrite length_range; nia).
    replace (n * max) with (0 + zlen (range (chip_byte (dev (hwst s))) a0 (n * max))) at 1 by lia.
    fold a0. rewrite memcpy_at_app; [|done|rewrite Hl, length_range; lia].
    rewrite <- range_app by nia. rewrite <- Hn. apply HQ.
    + by eapply fls_only_trans.
    + by rewrite Hh2, Hd2, Hd1.
    + congruence.
    + congruence.
Qed.

(** ** Through the page cache *)

(** Addresses within the chip survive the 25-bit mask. *)
Lemma mask_add a k : 0 <= k -> a mod 2 ^ 25 + k < 2 ^ 25 -> (a + k) mod 2 ^ 25 = a mod 2 ^ 25 + k.
Proof.
  intros Hk Hlt. pose proof (Z.mod_pos_bound a (2 ^ 25)).
  rewrite <- (Z.mod_small (a mod 2 ^ 25 + k) (2 ^ 25)) by lia. by rewrite Zplus_mod_idemp_l.
Qed.

(** A whole page into the cache. *)
Lemma read_page_spec addr cache h (Q : Z * list Z -> hw D -> Prop) :
  hw_ok h -> length cache = 256%nat -> addr mod 2 ^ 25 + 256 <= chip_size (dev h) ->
  (forall h', only nowhere h h' -> dev h' = dev h ->
     Q (0, range (chip_byte (dev h)) (addr mod 2 ^ 25) 256) h') ->
  wp (__readByCMD 0xEB addr cache 0 INSIDE_FLS_PAGE_SIZE) h Q.
Proof.
  intros Hok Hlen Hsize HQ.
  apply readByCMD_spec; [done|by do 3 right; left|done|done|done|rewrite Hlen; done|].
  intros h1 O1 Hd1. replace (replicate _ 0) with (@nil Z) by done. rewrite app_nil_r.
  unfold INSIDE_FLS_PAGE_SIZE. rewrite memcpy_at_all by (rewrite length_range, Hlen; done). by apply HQ.
Qed.

Lemma read_pages_spec n addr cache buf off h (Q : list Z * list Z -> hw D -> Prop) :
  let a0 := addr mod 2 ^ 25 in let sz := Z.of_nat n * 256 in
  hw_ok h -> length cache = 256%nat -> 0 <= addr -> addr + sz < 2 ^ 32 ->
  a0 + sz <= chip_size (dev h) -> chip_size (dev h) <= 2 ^ 25 -> 0 <= off -> off + sz <= zlen buf ->
  (forall cache' h', only nowhere h h' -> dev h' = dev h -> length cache' = 256%nat ->
     Q (cache', memcpy_at off (range (chip_byte (dev h)) a0 sz) buf) h') ->
  wp (read_pages n addr cache buf off) h Q.
Proof.
  cbv zeta. revert addr cache buf off h. induction n as [|n IH];
    intros addr cache buf off h Hok Hc Haddr Hwrap Hsize Hcs Hoff Hbuf HQ; cbn [read_pages].
  - apply wp_ret. apply (HQ cache h); [by apply only_refl|done|done].
  - apply wp_bind, read_page_spec; [done|done|lia|]. intros h1 O1 Hd1. cbn [snd].
    set (l1 := range (chip_byte (dev h)) (addr mod 2 ^ 25) 256).
    assert (Hl1 : length l1 = 256%nat) by (unfold l1; rewrite length_range; done).
    rewrite firstn_all2 by lia.
    destruct n as [|n].
    { cbn [read_pages]. apply wp_ret. by apply HQ. }
    assert (Hu : u32 (addr + INSIDE_FLS_PAGE_SIZE) = addr + 256) by (unfold INSIDE_FLS_PAGE_SIZE; apply wrap_id; lia).
    assert (Hmod : (addr + 256) mod 2 ^ 25 = addr mod 2 ^ 25 + 256) by (apply mask_add; lia).
    rewrite Hu. unfold INSIDE_FLS_PAGE_SIZE.
    apply IH; rewrite ?Hmod, ?Hd1, ?length_memcpy_at; [apply O1|done|lia|lia|lia|done|lia|lia|].
    intros cache' h2 O2 Hd2 Hc'. replace 256 with (zlen l1) at 1 by lia.
    rewrite memcpy_at_app; [|done|rewrite Hl1, length_range; lia].
    unfold l1. rewrite <- range_app by lia.
    replace (256 + Z.of_nat (S n) * 256) with (Z.of_nat (S (S n)) * 256) by lia.
    apply HQ; [by eapply only_trans|congruence|done].
Qed.

Lemma flashRead_cached_spec addr cache buf sz h (Q : list Z -> hw D -> Prop) :
  let a0 := addr mod 2 ^ 25 in
  hw_ok h -> length cache = 256%nat -> 0 <= addr -> 0 < sz -> addr + sz < 2 ^ 32 -> a0 + sz <= chip_size (dev h) ->
  chip_size (dev h) <= 2 ^ 25 -> chip_size (dev h) mod 256 = 0 -> sz <= zlen buf ->
  (forall h', only nowhere h h' -> dev h' = dev h ->
     Q (memcpy_at 0 (range (chip_byte (dev h)) a0 sz) buf) h') ->
  wp (flashRead_cached addr cache buf sz) h Q.
Proof.
  intros a0 Hok Hc Haddr Hsz Hwrap Hsize Hcs Hc256 Hbuf HQ. unfold flashRead_cached.
  change (INSIDE_FLS_PAGE_SIZE - 1) with (Z.ones 8). rewrite Z.land_ones, Z.ldiff_ones_r by lia.
  rewrite Z.shiftr_div_pow2, Z.shiftl_mul_pow2 by lia. change (2 ^ 8) with 256. unfold INSIDE_FLS_PAGE_SIZE.
  set (po := addr mod 256). set (fa := addr / 256 * 256). cbv zeta.
  assert (Hpo : addr = fa + po /\ 0 <= po < 256) by (unfold fa, po; dlia). destruct Hpo as [Hfa Hpo].
  assert (Hf0 : fa mod 2 ^ 25 = a0 - po /\ (a0 - po) mod 256 = 0) by (unfold a0, fa, po; dlia).
  destruct Hf0 as [Hf0 Hf256]. clearbody po fa.
  assert (Ha0 : a0 < 2 ^ 25) by (apply Z.mod_pos_bound; lia).
  set (f := chip_byte (dev h)) in *.
  apply wp_bind, read_page_spec; [done|done|rewrite Hf0; dlia|]. intros h1 O1 Hd1. rewrite Hf0. cbn [snd].
  fold f. destruct (Z.ltb_spec (256 - po) sz) as [Hbig|Hsmall].
  - rewrite slice_range by lia. replace (a0 - po + po) with a0 by lia. set (first := 256 - po) in *.
    assert (Hl1 : zlen (range f a0 first) = first) by (rewrite length_range; lia).
    set (k := (sz - first) / 256). set (r := (sz - first) mod 256).
    assert (Hkr : sz = first + 256 * k + r /\ 0 <= r < 256 /\ 0 <= k) by (unfold k, r; dlia).
    destruct Hkr as (Hkr & Hr & Hk). clearbody k r.
    assert (Hu : u32 (fa + 256) = fa + 256) by (apply wrap_id; lia). rewrite Hu.
    assert (Hm1 : (fa + 256) mod 2 ^ 25 = a0 + first) by (rewrite mask_add, Hf0 by lia; lia).
    apply wp_bind, read_pages_spec; rewrite ?Hm1, ?Hd1, ?length_memcpy_at, ?Z2Nat.id by lia;
      [apply O1|by rewrite length_range|lia|lia|lia|done|lia|lia|].
    intros cache' h2 O2 Hd2 Hc'. fold f.
    assert (Hj : memcpy_at first (range f (a0 + first) (k * 256)) (memcpy_at 0 (range f a0 first) buf) =
      memcpy_at 0 (range f a0 (first + k * 256)) buf).
    { rewrite range_app by lia. rewrite <- memcpy_at_app by (rewrite ?Hl1, ?length_range; lia). by rewrite Hl1. }
    rewrite Hj. cbn iota.
    destruct (Z.eqb_spec r 0) as [->|Hr0]; cbn [negb].
    + apply wp_ret. replace (first + k * 256) with sz by lia.
      apply HQ; [by eapply only_trans|congruence].
    + assert (Hu2 : u32 (fa + 256 + k * 256) = fa + 256 + k * 256) by (apply wrap_id; lia). rewrite Hu2.
      assert (Hm2 : (fa + 256 + k * 256) mod 2 ^ 25 = a0 + first + k * 256) by (rewrite mask_add, Hm1 by lia; lia).
      set (m := r + (4 - r mod 4)). assert (Hm : r < m <= 256 /\ m mod 4 = 0) by (unfold m; dlia).
      assert (Hp : read_pad m = 0) by (unfold read_pad; by rewrite (proj2 Hm)).
      apply wp_bind, readByCMD_spec; rewrite ?Hm2, ?Hp, ?Hd2, ?Hd1, ?Hc';
        [apply O2|by do 3 right; left|lia|dlia|done|lia|].
      intros h3 O3 Hd3. apply wp_ret. cbn [snd]. fold f. replace (replicate _ 0) with (@nil Z) by done.
      rewrite app_nil_r. set (buf' := memcpy_at 0 _ buf).
      assert (Htk : take (Z.to_nat r) (memcpy_at 0 (range f (a0 + first + k * 256) m) cache') =
        range f (a0 + first + k * 256) r).
      { rewrite <- (take_range f _ m r) by lia.
        transitivity (take (Z.to_nat r) (take (Z.to_nat m) (memcpy_at 0 (range f (a0 + first + k * 256) m) cache'))).
        - rewrite take_take. f_equal. lia.
        - by rewrite take_memcpy_at by (rewrite ?length_range; lia). }
      rewrite Htk. unfold buf'.
      assert (Hl2 : zlen (range f a0 (first + k * 256)) = first + k * 256) by (rewrite length_range; lia).
      replace (first + k * 256) with (0 + zlen (range f a0 (first + k * 256))) at 1 by lia.
      rewrite memcpy_at_app; [|done|rewrite Hl2, length_range; lia].
      rewrite <- Z.add_assoc, <- range_app by lia. replace (first + k * 256 + r) with sz by lia.
      apply HQ; [|congruence]. repeat (eapply only_trans; [eassumption|]). by apply only_refl, O3.
  - apply wp_ret. rewrite slice_range by lia. replace (a0 - po + po) with a0 by lia. by apply HQ.
Qed.

(** [flashRead] on any address and size within the chip: the data, unless
    the page cache cannot be allocated. *)
Lemma flashRead_spec addr bufp buf sz s (Q : Z * list Z -> fls E D -> Prop) :
  let a0 := addr mod 2 ^ 25 in let d := dev (hwst s) in
  hw_ok (hwst s) -> 0 <= addr -> 0 < sz -> addr + sz < 2 ^ 32 -> a0 + sz <= chip_size d ->
  chip_size d <= 2 ^ 25 -> chip_size d mod 256 = 0 -> sz <= zlen buf ->
  (forall r s', fls_only nowhere s s' -> dev (hwst s') = d ->
     r = (0, memcpy_at 0 (range (chip_byte d) a0 sz) buf) \/
     (r = (TLS_FLS_STATUS_ENOMEM, buf) /\ oom s' = true) -> Q r s') ->
  wp (flashRead addr bufp buf sz) s Q.
Proof.
  intros a0 d Hok Haddr Hsz Hwrap Hsize Hcs Hc256 Hbuf HQ.
  destruct (decide (addr mod 256 = 0 /\ bufp mod 4 = 0 /\ sz mod 4 = 0)) as [(A1 & A2 & A3)|Hun].
  { apply flashRead_aligned; [done..|lia|done|done|done|done|done|]. intros s' F Hd _ _. apply HQ; auto. }
  unfold flashRead. change (INSIDE_FLS_PAGE_SIZE - 1) with (2 ^ 8 - 1). change 0x3 with (2 ^ 2 - 1).
  rewrite !land_low_zero by lia. change (2 ^ 8) with 256. change (2 ^ 2) with 4.
  destruct (Z.eqb_spec (addr mod 256) 0), (Z.eqb_spec (bufp mod 4) 0), (Z.eqb_spec (sz mod 4) 0);
    try tauto; cbn [andb]; clear Hun.
  all: apply wp_bind; unfold tls_mem_alloc; destruct (h_alloc INSIDE_FLS_PAGE_SIZE (env s)) as [[[p cache]|] e'] eqn:Ea;
    (eapply wp_eq; [unfold tls_mem_alloc; rewrite Ea; reflexivity|]); cbn iota.
  all: try (apply wp_ret, HQ; [by split; [apply only_refl|..]|done|by right]).
  all: apply h_alloc_spec in Ea as (_ & _ & Hlen & _); [|done].
  all: apply wp_bind, (on_hw_spec _ _ nowhere), flashRead_cached_spec; cbn [hwst]; try done; [].
  all: intros h1 O1 Hd1; split; [done|]; intros s1 F1 Hh1 _ Ho1; apply wp_bind, wp_modify, wp_ret, HQ;
    [|simpl in *; unfold d; congruence|by left].
  all: destruct F1 as [F1 ? ? ? ? ?]; simpl in *; split; simpl; (done || congruence).
Qed.

End read.
