(* ===== verification/FlsWrite.v ===== *)
(** * Writing the flash: [tls_fls_write], [tls_fls_erase] and [tls_fls_read]

    The array after the read-modify-write of every sector involved is the old
    array with the bytes spliced in; between any two commands only the
    sectors involved differ from it. *)
From S2P Require Import Prelude CMonad HostEnv FlashChip FlsHw FlsDriver FlsRead.

Section write.
Context {E D : Type} `{HostLaws E} `{FlashChipLaws D}.
Implicit Types s : fls E D.
Implicit Types h : hw D.

(** ** The driver at rest, and holding its lock *)

(** An installed driver that knows its chip, with nobody in it. *)
Record ready s (f : tls_inside_fls) : Prop := {
  rd_inside : inside_fls s = Some f;
  rd_lock : fls_lock f = 1;
  rd_hw : hw_ok (hwst s);
  rd_size : density f = chip_size (dev (hwst s));
  rd_geom : density f mod 4096 = 0 /\ 0 < density f <= 2 ^ 25
}.

Definition with_inside (i : option tls_inside_fls) s : fls E D :=
  Fls (hwst s) (env s) (oom s) i (gsflscache s) (gsSector s) (fmap s).
Definition locked s (f : tls_inside_fls) : fls E D := with_inside (Some (set_lock 0 f)) s.

Lemma ready_only S s s' f : ready s f -> fls_only S s s' -> ready s' f.
Proof.
  intros [R1 R2 R3 R4 R5] [F1 F2 _ _ _ _]. split; [congruence|done|apply F1| |done].
  by rewrite R4, (only_size _ _ _ F1).
Qed.

Lemma if_installed_spec {A} (r : A) (m : M (fls E D) A) s f (Q : A -> fls E D -> Prop) :
  inside_fls s = Some f -> wp m s Q -> wp (if_installed r m) s Q.
Proof. intros Hf Hm. unfold if_installed. apply wp_bind, wp_gets. by rewrite Hf. Qed.

Lemma the_fls_spec s f (Q : tls_inside_fls -> fls E D -> Prop) :
  inside_fls s = Some f -> Q f s -> wp the_fls s Q.
Proof. intros Hf HQ. eapply wp_eq; [unfold the_fls; by rewrite Hf|done]. Qed.

Lemma sem_acquire_spec s f (Q : unit -> fls E D -> Prop) :
  ready s f -> Q tt (locked s f) -> wp sem_acquire s Q.
Proof.
  intros [R1 R2 _ _ _] HQ. unfold sem_acquire. apply wp_bind, (the_fls_spec s f); [done|].
  rewrite R2. by apply wp_modify.
Qed.

(** Releasing restores the driver's record. *)
Lemma sem_release_spec S s s1 f (Q : unit -> fls E D -> Prop) :
  ready s f -> fls_only S (locked s f) s1 ->
  (forall s', fls_only S s s' -> hwst s' = hwst s1 -> env s' = env s1 -> oom s' = oom s1 -> Q tt s') ->
  wp sem_release s1 Q.
Proof.
  intros [R1 R2 _ _ _] [F1 F2 F3 F4 F5 F6] HQ. unfold sem_release.
  apply wp_bind, (the_fls_spec s1 (set_lock 0 f)); [done|]. apply wp_modify, HQ; try done.
  split; try done. simpl. rewrite R1. destruct f; simpl in *. by subst.
Qed.

Lemma locked_only S s f : ready s f -> fls_only S (locked s f) (locked s f).
Proof. intros R. apply fls_only_refl. apply R. Qed.

(** Allocating and freeing do not touch the flash. *)
Lemma tls_mem_alloc_spec size s (Q : option (Z * list Z) -> fls E D -> Prop) :
  0 <= size -> hw_ok (hwst s) ->
  (forall s', fls_only nowhere s s' -> hwst s' = hwst s -> oom s' = true -> Q None s') ->
  (forall p l s', fls_only nowhere s s' -> hwst s' = hwst s -> oom s' = oom s ->
     p mod 4 = 0 -> p <> 0 -> length l = Z.to_nat size -> bytes_ok l -> Q (Some (p, l)) s') ->
  wp (tls_mem_alloc size) s Q.
Proof.
  intros Hsize Hok Hnone Hsome. destruct (h_alloc size (env s)) as [[[p l]|] e] eqn:Ea;
    (eapply wp_eq; [unfold tls_mem_alloc; rewrite Ea; reflexivity|]).
  - pose proof (h_alloc_spec _ _ _ _ _ Hsize Ea) as (? & ? & ? & ?).
    apply Hsome; try done. by split; [apply only_refl|..].
  - apply Hnone; try done. by split; [apply only_refl|..].
Qed.

Lemma tls_mem_free_spec p s (Q : unit -> fls E D -> Prop) :
  hw_ok (hwst s) ->
  (forall s', fls_only nowhere s s' -> hwst s' = hwst s -> oom s' = oom s -> Q tt s') ->
  wp (tls_mem_free p) s Q.
Proof. intros Hok HQ. apply wp_modify, HQ; try done. by split; [apply only_refl|..]. Qed.

Lemma fls_only_nowhere S s s' : fls_only nowhere s s' -> fls_only S s s'.
Proof. apply fls_only_mono. done. Qed.

(** ** One sector *)

Lemma copy_loop_slice n i cache off buf :
  0 <= i -> 0 <= off -> i + Z.of_nat n <= zlen buf -> i + off + Z.of_nat n <= zlen cache ->
  copy_loop n i cache off buf = memcpy_at (i + off) (slice i (Z.of_nat n) buf) cache.
Proof.
  revert i cache. induction n as [|n IH]; intros i cache Hi Hoff Hb Hc; [done|]. cbn [copy_loop].
  rewrite IH by (rewrite ?length_insert; lia).
  change (<[Z.to_nat (i + off) := byte_at buf i]> cache) with (memcpy_at (i + off) [byte_at buf i] cache).
  replace (i + 1 + off) with ((i + off) + zlen [byte_at buf i]) by (simpl; lia).
  rewrite memcpy_at_app by (rewrite ?length_slice; simpl; lia). f_equal.
  replace (Z.of_nat (S n)) with (1 + Z.of_nat n) by lia. rewrite slice_app by lia. f_equal.
  apply byte_list_eq; [by rewrite length_slice by lia|]. simpl. intros j Hj.
  rewrite byte_at_slice by lia. by replace j with 0 by lia; rewrite Z.add_0_r.
Qed.

Lemma copy_loop_eq n cache off buf :
  0 <= n -> 0 <= off -> n <= zlen buf -> off + n <= zlen cache ->
  copy_loop (Z.to_nat n) 0 cache off buf = memcpy_at off (take (Z.to_nat n) buf) cache.
Proof. intros. rewrite copy_loop_slice by lia. unfold slice. simpl. by rewrite Nat2Z.id. Qed.

Lemma land_255 b : byte_ok b -> 255 &&& b = b.
Proof.
  intros Hb. rewrite Z.land_comm. change 255 with (Z.ones 8). rewrite Z.land_ones by lia.
  apply Z.mod_small, Hb.
Qed.

Lemma only_within S h h' off n a : only S h h' -> (forall x, S x -> within off n x) ->
  a < off \/ off + n <= a -> chip_byte (dev h') a = chip_byte (dev h) a.
Proof. intros Ho HS Ha. apply (only_byte _ _ _ _ Ho). intros Hs%HS. unfold within in Hs. lia. Qed.

(** Sixteen pages programmed into an erased sector hold the cache. *)
Lemma program_sector_spec addr cache h (Q : unit -> hw D -> Prop) :
  let base := addr mod 2 ^ 25 in
  hw_ok h -> bytes_ok cache -> length cache = 4096%nat -> addr mod 4096 = 0 -> 0 <= addr -> addr + 4096 <= 2 ^ 32 ->
  base + 4096 <= chip_size (dev h) -> chip_size (dev h) <= 2 ^ 25 -> unprotected (dev h) base 4096 ->
  (forall a, within base 4096 a -> chip_byte (dev h) a = 255) ->
  (forall h', only (within base 4096) h h' ->
     (forall a, within base 4096 a -> chip_byte (dev h') a = byte_at cache (a - base)) -> Q tt h') ->
  wp (program_sector addr cache) h Q.
Proof.
  intros base Hok Hb Hlen Hal Haddr Hwrap Hsize Hcs Hu H255 HQ.
  assert (Hbase : 0 <= base /\ base mod 4096 = 0) by (unfold base; dlia). destruct Hbase as [Hbase Hbal].
  apply (wp_for (fun i h' => only (within base 4096) h h' /\ forall a, within base 4096 a ->
    chip_byte (dev h') a = if a <? base + i * 256 then byte_at cache (a - base) else 255)).
  - split; [by apply only_refl|]. intros a Ha. rewrite H255 by done. unfold within in Ha.
    by rewrite (proj2 (Z.ltb_ge _ _)) by lia.
  - intros i h1 Hi [O1 Ha1]. simpl in Hi. unfold INSIDE_FLS_PAGE_SIZE.
    assert (Hu1 : u32 (addr + i * 256) = addr + i * 256) by (apply wrap_id; lia). rewrite Hu1.
    assert (Hm : (addr + i * 256) mod 2 ^ 25 = base + i * 256) by (apply mask_add; fold base; lia).
    pose proof (only_size _ _ _ O1) as Hs1.
    apply wp_bind, programPage_spec; rewrite ?Hm, ?Hs1;
      [apply O1|by apply Forall_drop|rewrite length_drop; lia|dlia|lia| |].
    + intros a Ha. apply (only_unprotected _ _ _ _ _ O1 Hu). lia.
    + intros h2 O2 Hpage. apply wp_ret. split.
      * eapply only_trans; [done|]. eapply only_mono; [|exact O2]. unfold within. lia.
      * intros a Ha. destruct (decide (within (base + i * 256) 256 a)) as [Hin|Hout].
        { unfold within in Hin. specialize (Hpage (a - (base + i * 256)) ltac:(lia)).
          replace (base + i * 256 + (a - (base + i * 256))) with a in Hpage by lia.
          rewrite Hpage, Ha1 by done. rewrite (proj2 (Z.ltb_ge _ _)), (proj2 (Z.ltb_lt _ _)) by lia.
          replace (byte_at (drop _ cache) _) with (byte_at cache (a - base)); [apply land_255; auto|].
          unfold byte_at. rewrite !nth_lookup, lookup_drop. do 2 f_equal. lia. }
        { rewrite (only_byte _ _ _ _ O2), Ha1 by done. unfold within in *.
          destruct (Z.ltb_spec a (base + i * 256)), (Z.ltb_spec a (base + (i + 1) * 256)); (done || lia). }
  - simpl. intros h1 [O1 Ha1]. apply HQ; [done|]. intros a Ha. rewrite Ha1 by done.
    unfold within in Ha. by rewrite (proj2 (Z.ltb_lt _ _)) by lia.
Qed.

(** Read, erase, merge, program: the bytes are spliced into the sector. *)
Lemma write_round_spec p secpos secoff cache buf n s (Q : list Z -> fls E D -> Prop) :
  let base := secpos * 4096 in let d := dev (hwst s) in
  hw_ok (hwst s) -> p mod 4 = 0 -> length cache = 4096%nat -> bytes_ok buf ->
  0 <= secpos -> base + 4096 <= chip_size d -> chip_size d <= 2 ^ 25 -> unprotected d base 4096 ->
  0 <= secoff -> 0 <= n <= zlen buf -> secoff + n <= 4096 ->
  (forall cache' s', fls_only (within base 4096) s s' -> env s' = env s -> oom s' = oom s ->
     length cache' = 4096%nat ->
     (forall a, chip_byte (dev (hwst s')) a = overlay (chip_byte d) (base + secoff) (take (Z.to_nat n) buf) a) ->
     Q cache' s') ->
  wp (write_round p secpos secoff cache buf n) s Q.
Proof.
  intros base d Hok Hp Hlen Hb Hsec Hsize Hcs Hu Hoff Hn Hfit HQ. unfold write_round.
  change INSIDE_FLS_SECTOR_SIZE with 4096. fold base.
  assert (Hu1 : u32 base = base) by (apply wrap_id; lia).
  assert (Hm : base mod 2 ^ 25 = base) by (apply Z.mod_small; lia).
  assert (Hal : base mod 4096 = 0) by (unfold base; dlia). rewrite Hu1.
  assert (Hb0 : 0 <= base) by lia. clearbody base.
  apply wp_bind, flashRead_aligned; rewrite ?Hm; [done|dlia|done|done|lia|lia|lia|done|done|lia|].
  intros s1 F1 Hd1 He1 Ho1. cbn [snd]. rewrite memcpy_at_all by (rewrite length_range; lia). fold d in Hd1 |- *.
  apply wp_bind, (on_hw_spec _ _ (within base 4096)), eraseSector_spec; rewrite ?Hm, ?Hd1; [apply F1|done|lia|done|].
  intros h2 O2 H255. split; [done|]. intros s2 F2 Hh2 He2 Ho2.
  rewrite copy_loop_eq by (rewrite ?length_range; lia).
  set (l := take (Z.to_nat n) buf). assert (Hl : zlen l = n) by (unfold l; rewrite length_take; lia).
  set (c := memcpy_at secoff l (range (chip_byte d) base 4096)).
  assert (Hc : length c = 4096%nat) by (unfold c; by rewrite length_memcpy_at, length_range).
  assert (Hcb : bytes_ok c).
  { apply memcpy_bytes_ok; [by apply Forall_take|]. apply Forall_fmap, Forall_true. intros a. apply chip_byte_ok. }
  apply wp_bind, (on_hw_spec _ _ (within base 4096)), program_sector_spec; rewrite ?Hh2;
    cbn zeta; rewrite ?Hm, ?(only_size _ _ _ O2), ?Hd1; [apply O2|done|done|done|lia|lia|lia|done| |done|].
  { eapply only_unprotected; [exact O2|]. by rewrite Hd1. }
  intros h3 O3 Hcells. split; [done|]. intros s3 F3 Hh3 He3 Ho3. apply wp_ret, HQ; [|congruence..|done|].
  - eapply fls_only_trans; [apply fls_only_nowhere, F1|]. by eapply fls_only_trans.
  - intros a. rewrite Hh3. destruct (decide (within base 4096 a)) as [Hin|Hout].
    + rewrite Hcells by done. unfold within in Hin. unfold c.
      rewrite byte_at_memcpy by (rewrite ?length_range; lia). unfold overlay. fold l. rewrite !Hl.
      destruct (Z.leb_spec secoff (a - base)), (Z.leb_spec (base + secoff) a); try lia; cbn [andb].
      * destruct (Z.ltb_spec (a - base) (secoff + n)), (Z.ltb_spec a (base + secoff + n)); try lia.
        { f_equal. lia. }
        { rewrite byte_at_range by lia. f_equal. lia. }
      * rewrite byte_at_range by lia. f_equal. lia.
    + fold l. rewrite (only_byte _ _ _ _ O3), (only_byte _ _ _ _ O2), Hd1 by done.
      unfold within in Hout. rewrite overlay_out by (rewrite Hl; lia). done.
Qed.

(** ** The whole write *)

(** The sectors that [n] bytes at [off] lie in. *)
Definition span (off n : Z) : Z -> Prop := fun a => off / 4096 * 4096 <= a < (off + n + 4095) / 4096 * 4096.

Lemma flash_offset addr : addr &&& (INSIDE_FLS_BASE_ADDR - 1) = addr mod 2 ^ 27.
Proof. apply (Z.land_ones addr 27). lia. Qed.

Lemma bad_args_false f addr bufp len :
  addr mod 2 ^ 27 < density f -> 0 < len -> bufp <> 0 -> bad_args f addr bufp len = false.
Proof.
  intros A1 A2 A3. unfold bad_args. rewrite flash_offset.
  by rewrite (proj2 (Z.leb_gt _ _)), (proj2 (Z.eqb_neq len 0)), (proj2 (Z.eqb_neq bufp 0)) by lia.
Qed.

Lemma overlay_split (g : Z -> Z) off (buf : list Z) k n :
  0 <= k -> 0 <= n -> k + n <= zlen buf ->
  overlay (overlay g off (take (Z.to_nat k) buf)) (off + k) (take (Z.to_nat n) (drop (Z.to_nat k) buf))
  ≡ₐ overlay g off (take (Z.to_nat (k + n)) buf).
Proof.
  intros Hk Hn Hlen. assert (Hl : zlen (take (Z.to_nat k) buf) = k) by (rewrite length_take; lia).
  rewrite <- Hl at 2. rewrite overlay_app. rewrite take_take_drop, <- Z2Nat.inj_add by lia. done.
Qed.

(** The state of the write loop after [k] bytes. *)
Definition write_inv s off buf len (x : Z * Z * list Z * list Z * Z * Z) (s' : fls E D) : Prop :=
  let '(secpos, secoff, cache, b, l, secremain) := x in
  exists k, 0 <= k < len /\ l = len - k /\ b = drop (Z.to_nat k) buf /\
    off + k = secpos * 4096 + secoff /\ 0 <= secpos /\ 0 <= secoff < 4096 /\ secremain = Z.min l (4096 - secoff) /\
    length cache = 4096%nat /\ fls_only (span off len) s s' /\ oom s' = oom s /\
    chip_byte (dev (hwst s')) ≡ₐ overlay (chip_byte (dev (hwst s))) off (take (Z.to_nat k) buf).

Definition write_measure (x : Z * Z * list Z * list Z * Z * Z) : nat :=
  let '(secpos, secoff, cache, b, l, secremain) := x in Z.to_nat ((l + secoff) / 4096).

(** The loop of [tls_fls_write], started on the first sector. *)
Lemma write_loop_spec p s f off buf len fuel secoff0 secremain0 cache0 (Q : unit -> fls E D -> Prop) :
  hw_ok (hwst s) -> density f = chip_size (dev (hwst s)) -> density f mod 4096 = 0 -> density f <= 2 ^ 25 ->
  p mod 4 = 0 -> bytes_ok buf -> 0 < len <= zlen buf -> 0 <= off -> off + len <= density f ->
  (forall a, span off len a -> chip_prot (dev (hwst s)) (chip_sr (dev (hwst s))) a = false) ->
  secoff0 = off mod 4096 -> length cache0 = 4096%nat -> (Z.to_nat (len / 4096 + 2) <= fuel)%nat ->
  (forall s', fls_only (span off len) s s' -> oom s' = oom s ->
     chip_byte (dev (hwst s')) ≡ₐ overlay (chip_byte (dev (hwst s))) off (take (Z.to_nat len) buf) -> Q tt s') ->
  secremain0 = Z.min len (4096 - secoff0) ->
  wp (mloop fuel (write_body p) (off / 4096, secoff0, cache0, buf, len, secremain0)) s Q.
Proof.
  intros Hok Hden Hd4 Hd25 Hp Hb Hlen Hoff Hfit Hprot -> Hc0 Hfuel HQ ->.
  apply (wp_loop (write_inv s off buf len) write_measure).
  - unfold write_measure. dlia.
  - exists 0. change (drop (Z.to_nat 0) buf) with buf. change (take (Z.to_nat 0) buf) with (@nil Z).
    split; [lia|]. split; [lia|]. split; [done|]. split; [dlia|]. split; [dlia|]. split; [dlia|].
    split; [lia|]. split; [done|]. split; [by apply fls_only_refl|]. split; [done|].
    intros a. by rewrite overlay_nil.
  - intros [[[[[secpos secoff] cache] b] l] secremain] s1
      (k & Hk & -> & -> & Hpos & Hsp & Hso & -> & Hc & F1 & Ho1 & Harr). cbv beta iota.
    unfold write_body.
    assert (Hs1 : chip_size (dev (hwst s1)) = chip_size (dev (hwst s))) by apply (only_size _ _ _ (fo_hw _ _ _ F1)).
    set (n := Z.min (len - k) (4096 - secoff)) in *.
    apply wp_bind, write_round_spec; rewrite ?Hs1, ?length_drop;
      [apply F1|done|done|by apply Forall_drop|done|dlia|lia| |lia|lia|lia|].
    { intros a Ha. destruct (fo_hw _ _ _ F1) as [_ (_ & _ & _ & _ & _ & _ & ->) _ [-> _] _ _ _].
      apply Hprot. unfold span. dlia. }
    intros cache' s2 F2 He2 Ho2 Hc' Harr2.
    assert (F : fls_only (span off len) s s2).
    { eapply fls_only_trans; [exact F1|]. eapply fls_only_mono; [|exact F2].
      intros a. unfold within, span. intros Ha. dlia. }
    assert (Harr' : chip_byte (dev (hwst s2)) ≡ₐ
      overlay (chip_byte (dev (hwst s))) off (take (Z.to_nat (k + n)) buf)).
    { intros a. rewrite Harr2, <- Hpos. rewrite <- (overlay_split _ off buf k n) by lia.
      unfold overlay at 1 3. rewrite Harr. done. }
    destruct (Z.eqb_spec (len - k) n) as [Hend|Hmore]; apply wp_ret.
    + apply HQ; [done|congruence|]. by replace len with (k + n) by lia.
    + unfold write_measure, INSIDE_FLS_SECTOR_SIZE. split; [dlia|].
      assert (Hu : u32 (secpos + 1) = secpos + 1) by (apply wrap_id; dlia).
      exists (k + n). rewrite Hu, drop_drop.
      split; [lia|]. split; [lia|]. split; [f_equal; lia|]. split; [lia|]. split; [lia|]. split; [lia|].
      split; [case_match; lia|]. split; [done|]. split; [done|]. split; [congruence|done].
Qed.

(** The four outcomes of a write on an installed driver at rest: done, or
    out of memory with nothing written. *)
Definition write_outcome (s : fls E D) off (data : list Z) (r : Z) (s' : fls E D) : Prop :=
  (r = TLS_FLS_STATUS_OK /\ oom s' = oom s /\
     chip_byte (dev (hwst s')) ≡ₐ overlay (chip_byte (dev (hwst s))) off data) \/
  (r = TLS_FLS_STATUS_ENOMEM /\ oom s' = true /\ dev (hwst s') = dev (hwst s)).

Lemma tls_fls_write_spec s f addr bufp buf len :
  let off := addr mod 2 ^ 27 in
  ready s f -> bufp <> 0 -> bytes_ok buf -> 0 < len <= zlen buf -> off + len <= density f ->
  (forall a, span off len a -> chip_prot (dev (hwst s)) (chip_sr (dev (hwst s))) a = false) ->
  wp (tls_fls_write addr bufp buf len) s (fun r s' =>
    fls_only (span off len) s s' /\ write_outcome s off (take (Z.to_nat len) buf) r s').
Proof.
  intros off R Hbp Hb Hlen Hfit Hprot. pose proof R as [R1 R2 R3 R4 [R5 R6]].
  assert (Hoff : 0 <= off) by (apply Z.mod_pos_bound; lia).
  apply (if_installed_spec _ _ _ f); [done|]. apply wp_bind, (the_fls_spec _ f); [done|].
  rewrite bad_args_false by (try done; fold off; lia).
  apply wp_bind, (sem_acquire_spec _ f); [done|]. pose proof (locked_only nowhere s f R) as FL.
  apply wp_bind, tls_mem_alloc_spec; [done|apply R| |].
  - intros s1 F1 Hh1 Ho1. apply wp_bind, (sem_release_spec nowhere s _ f); [done|done|].
    intros s2 F2 Hh2 _ Ho2. apply wp_ret. split; [by apply fls_only_nowhere|]. right.
    split; [done|]. split; [congruence|]. by rewrite Hh2, Hh1.
  - intros p cache s1 F1 Hh1 Ho1 Hp4 _ Hc _. rewrite flash_offset. fold off. cbv zeta.
    apply wp_bind, (write_loop_spec p s1 f off buf len);
      rewrite ?Hh1; [done|done|done|lia|done|done|done|done|done|done|done|done|done| |].
    2: { unfold INSIDE_FLS_SECTOR_SIZE. case_match; lia. }
    intros s2 F2 Ho2 Harr. change (hwst (locked s f)) with (hwst s) in Harr.
    apply wp_bind, tls_mem_free_spec; [apply F2|]. intros s3 F3 Hh3 Ho3.
    apply wp_bind, (sem_release_spec (span off len) s _ f); [done| |].
    { eapply fls_only_trans; [by apply fls_only_nowhere|]. eapply fls_only_trans; [done|by apply fls_only_nowhere]. }
    intros s4 F4 Hh4 _ Ho4. apply wp_ret. split; [done|]. left. split; [done|].
    split; [by rewrite Ho4, Ho3, Ho2, Ho1|]. by rewrite Hh4, Hh3.
Qed.

(** ** Erasing and reading *)

Lemma tls_fls_erase_spec s f sector :
  let base := sector * 4096 mod 2 ^ 25 in
  ready s f -> 0 <= sector < sector_limit f -> base < density f ->
  (forall a, within base 4096 a -> chip_prot (dev (hwst s)) (chip_sr (dev (hwst s))) a = false) ->
  wp (tls_fls_erase sector) s (fun r s' => r = TLS_FLS_STATUS_OK /\ fls_only (within base 4096) s s' /\
    oom s' = oom s /\ forall a, within base 4096 a -> chip_byte (dev (hwst s')) a = 255).
Proof.
  intros base R Hsec Hbase Hprot. pose proof R as [R1 R2 R3 R4 [R5 R6]].
  apply (if_installed_spec _ _ _ f); [done|]. apply wp_bind, (the_fls_spec _ f); [done|].
  rewrite (proj2 (Z.leb_gt _ _)) by lia.
  assert (Hu : u32 (sector * INSIDE_FLS_SECTOR_SIZE) = sector * 4096).
  { unfold sector_limit, INSIDE_FLS_SECTOR_SIZE, INSIDE_FLS_BASE_ADDR in *. apply wrap_id. dlia. }
  apply wp_bind, (sem_acquire_spec _ f); [done|].
  apply wp_bind, (on_hw_spec _ _ (within base 4096)), eraseSector_spec; cbn zeta; rewrite ?Hu; fold base;
    [done|dlia|simpl; lia|done|].
  intros h1 O1 H255. split; [done|]. intros s1 F1 Hh1 _ Ho1.
  apply wp_bind, (sem_release_spec (within base 4096) s _ f); [done|done|].
  intros s2 F2 Hh2 _ Ho2. apply wp_ret. split; [done|]. split; [done|]. split; [by rewrite Ho2, Ho1|].
  intros a Ha. rewrite Hh2, Hh1. by apply H255.
Qed.

Lemma tls_fls_read_spec s f addr bufp buf len :
  let off := addr mod 2 ^ 27 in
  ready s f -> bufp <> 0 -> 0 <= addr -> addr + len < 2 ^ 32 -> 0 < len <= zlen buf -> off + len <= density f ->
  wp (tls_fls_read addr bufp buf len) s (fun r s' =>
    fls_only nowhere s s' /\ dev (hwst s') = dev (hwst s) /\ fst r = TLS_FLS_STATUS_OK /\
    (snd r = memcpy_at 0 (range (chip_byte (dev (hwst s))) off len) buf \/ (snd r = buf /\ oom s' = true))).
Proof.
  intros off R Hbp Haddr Hwrap Hlen Hfit. pose proof R as [R1 R2 R3 R4 [R5 R6]].
  assert (Hoff : 0 <= off) by (apply Z.mod_pos_bound; lia).
  assert (Ha : addr mod 2 ^ 25 = off) by (unfold off in *; dlia).
  apply (if_installed_spec _ _ _ f); [done|]. apply wp_bind, (the_fls_spec _ f); [done|].
  rewrite bad_args_false by (try done; fold off; lia).
  apply wp_bind, (sem_acquire_spec _ f); [done|].
  apply wp_bind, flashRead_spec; cbn zeta; rewrite ?Ha;
    [done|done|lia|done|change (hwst (locked s f)) with (hwst s); lia|
     change (hwst (locked s f)) with (hwst s); lia|change (hwst (locked s f)) with (hwst s); rewrite <- R4; dlia|lia|].
  intros r s1 F1 Hd1 Hr. apply wp_bind, (sem_release_spec nowhere s _ f); [done|done|].
  intros s2 F2 Hh2 _ Ho2. apply wp_ret. cbn [fst snd]. split; [done|]. split; [by rewrite Hh2|]. split; [done|].
  destruct Hr as [->|[-> Ho]]; [by left|right]. split; [done|congruence].
Qed.

(** What an entry point refuses leaves everything as it was. *)
Lemma not_installed {A} (r : A) (m : M (fls E D) A) s : inside_fls s = None -> if_installed r m s = Some (r, s).
Proof. intros Hn. unfold if_installed, mbind, M_bind, gets. by rewrite Hn. Qed.

Lemma refused {A} (r0 r : A) (m : M (fls E D) A) s f (b : tls_inside_fls -> bool) :
  inside_fls s = Some f -> b f = true ->
  if_installed r0 (f ← the_fls; if b f then mret r else m) s = Some (r, s).
Proof.
  intros Hf Hb. unfold if_installed, the_fls, mbind, M_bind, gets. rewrite Hf. rewrite Hf. by rewrite Hb.
Qed.

End write.

(** ** Properties *)

Section properties.
Context {E D : Type} `{HostLaws E} `{FlashChipLaws D}.
Implicit Types s : fls E D.

(** C4. [tls_fls_write] on an installed driver at rest, inside the chip and
    outside the protected area, always returns, with the driver at rest
    again.  Either it reports success, and the array is exactly the old one
    with the bytes spliced in at the offset of the address, whatever sectors
    they straddle; or it reports that memory ran out, and the chip is as it
    was. *)
Theorem tls_fls_write_splices s f addr bufp buf len :
  let off := addr mod 2 ^ 27 in
  ready s f -> bufp <> 0 -> bytes_ok buf -> 0 < len <= zlen buf -> off + len <= density f ->
  (forall a, span off len a -> chip_prot (dev (hwst s)) (chip_sr (dev (hwst s))) a = false) ->
  wp (tls_fls_write addr bufp buf len) s (fun r s' =>
    ready s' f /\
    ((r = TLS_FLS_STATUS_OK /\
        chip_byte (dev (hwst s')) ≡ₐ overlay (chip_byte (dev (hwst s))) off (take (Z.to_nat len) buf)) \/
     (r = TLS_FLS_STATUS_ENOMEM /\ oom s' = true /\ dev (hwst s') = dev (hwst s)))).
Proof.
  intros off R Hbp Hb Hlen Hfit Hprot. eapply wp_mono; [by apply (tls_fls_write_spec s f)|].
  cbv beta. intros r s' [Ho [(Hr & _ & Ha)|Hr]]; (split; [by eapply ready_only|]); auto.
Qed.

(** C10. Crash safety of [tls_fls_write]: whenever the power is cut between
    two flash commands, every byte outside the sectors that the written range
    touches still has its old value. *)
Theorem tls_fls_write_power_cut s f addr bufp buf len :
  let off := addr mod 2 ^ 27 in
  ready s f -> bufp <> 0 -> bytes_ok buf -> 0 < len <= zlen buf -> off + len <= density f ->
  (forall a, span off len a -> chip_prot (dev (hwst s)) (chip_sr (dev (hwst s))) a = false) ->
  wp (tls_fls_write addr bufp buf len) s (fun _ s' =>
    exists cuts, history (hwst s') = history (hwst s) ++ cuts /\
      Forall (fun d => forall a, ~ span off len a -> chip_byte d a = chip_byte (dev (hwst s)) a) cuts).
Proof.
  intros off R Hbp Hb Hlen Hfit Hprot. eapply wp_mono; [by apply (tls_fls_write_spec s f)|].
  cbv beta. intros r s' [[[_ _ _ _ _ _ Hh] _ _ _ _ _] _]. exact Hh.
Qed.

(** C28. [tls_fls_read] always returns, changes nothing on the chip and leaves
    the driver at rest; it delivers exactly the bytes of the array at the
    offset of the address, for any alignment of address, buffer and length,
    and leaves the rest of the buffer alone.  When the page cache cannot be
    allocated the buffer is left as it was, and success is reported all the
    same. *)
Theorem tls_fls_read_exact s f addr bufp buf len :
  let off := addr mod 2 ^ 27 in
  ready s f -> bufp <> 0 -> 0 <= addr -> addr + len < 2 ^ 32 -> 0 < len <= zlen buf -> off + len <= density f ->
  wp (tls_fls_read addr bufp buf len) s (fun r s' =>
    ready s' f /\ dev (hwst s') = dev (hwst s) /\ fst r = TLS_FLS_STATUS_OK /\
    (snd r = memcpy_at 0 (range (chip_byte (dev (hwst s))) off len) buf \/
     (snd r = buf /\ oom s' = true))).
Proof.
  intros off R Hbp Haddr Hwrap Hlen Hfit. eapply wp_mono; [by apply (tls_fls_read_spec s f)|].
  cbv beta. intros r s' (F & Hd & Hr). split; [by eapply ready_only|done].
Qed.

(** Every data entry point answers EPERM before the driver is installed,
    and EINVAL for an address beyond the chip, an empty range or a NULL
    buffer (an erase: for a sector beyond the chip), in each case without
    touching the chip, the heap or the lock. *)
Theorem fls_entry_points_refuse s addr bufp buf len sector :
  (inside_fls s = None ->
     tls_fls_read addr bufp buf len s = Some ((TLS_FLS_STATUS_EPERM, buf), s) /\
     tls_fls_write addr bufp buf len s = Some (TLS_FLS_STATUS_EPERM, s) /\
     tls_fls_write_without_erase addr bufp buf len s = Some (TLS_FLS_STATUS_EPERM, s) /\
     tls_fls_fast_write addr bufp buf len s = Some (TLS_FLS_STATUS_EPERM, s) /\
     tls_fls_erase sector s = Some (TLS_FLS_STATUS_EPERM, s)) /\
  (forall f, inside_fls s = Some f ->
     (bad_args f addr bufp len = true ->
        tls_fls_read addr bufp buf len s = Some ((TLS_FLS_STATUS_EINVAL, buf), s) /\
        tls_fls_write addr bufp buf len s = Some (TLS_FLS_STATUS_EINVAL, s) /\
        tls_fls_write_without_erase addr bufp buf len s = Some (TLS_FLS_STATUS_EINVAL, s) /\
        tls_fls_fast_write addr bufp buf len s = Some (TLS_FLS_STATUS_EINVAL, s)) /\
     (sector_limit f <= sector -> tls_fls_erase sector s = Some (TLS_FLS_STATUS_EINVAL, s))).
Proof.
  split.
  - intros Hn. repeat split; by apply not_installed.
  - intros f Hf. split.
    + intros Hb. repeat split; by apply (refused _ _ _ _ f (fun f => bad_args f addr bufp len)).
    + intros Hs%Z.leb_le. by apply (refused _ _ _ _ f (fun f => sector_limit f <=? sector)).
Qed.

End properties.

(** A driver on a blank 2-megabyte chip of a supported manufacturer. *)
Definition sample_hw (mid : Z) : hw NorChip.nor := Hw 0 0 1 0 (replicate 1024 0) (NorChip.blank mid) [].
Definition sample_inside (mid : Z) : tls_inside_fls := InsideFls 1 mid 0x200000 1024 256.
Definition sample_fls : fls BumpHost.bump NorChip.nor :=
  Fls (sample_hw SPIFLASH_MID_GD) BumpHost.roomy false (Some (sample_inside SPIFLASH_MID_GD)) None 0 flash_map_default.

Lemma sample_ready : ready sample_fls (sample_inside SPIFLASH_MID_GD).
Proof.
  split; [done|done| |done|done].
  split; [done|]. split; [|done]. apply Forall_replicate. done.
Qed.

(** The start state's chip, and the offset of the sample address. *)
Abbreviation chip0 := (dev (hwst sample_fls)) (only parsing).
Abbreviation off0 := (0x8010FFE mod 2 ^ 27) (only parsing).

Lemma sample_unprotected a : chip_prot chip0 (chip_sr chip0) a = false.
Proof. reflexivity. Qed.

Lemma tls_fls_write_splices_witness :
  wp (tls_fls_write 0x8010FFE 536870912 [1; 2; 3; 4] 4) sample_fls (fun r s' =>
    ready s' (sample_inside SPIFLASH_MID_GD) /\
    ((r = TLS_FLS_STATUS_OK /\
        chip_byte (dev (hwst s')) ≡ₐ overlay (chip_byte chip0) off0 (take (Z.to_nat 4) [1; 2; 3; 4])) \/
     (r = TLS_FLS_STATUS_ENOMEM /\ oom s' = true /\ dev (hwst s') = chip0))).
Proof.
  apply tls_fls_write_splices; [exact sample_ready|lia|repeat constructor; lia|simpl; lia|vm_compute; discriminate|].
  intros a _. apply sample_unprotected.
Defined.

Lemma tls_fls_write_power_cut_witness :
  wp (tls_fls_write 0x8010FFE 536870912 [1; 2; 3; 4] 4) sample_fls (fun _ s' =>
    exists cuts, history (hwst s') = history (hwst sample_fls) ++ cuts /\
      Forall (fun d => forall a, ~ span off0 4 a -> chip_byte d a = chip_byte chip0 a) cuts).
Proof.
  apply (tls_fls_write_power_cut sample_fls (sample_inside SPIFLASH_MID_GD));
    [exact sample_ready|lia|repeat constructor; lia|simpl; lia|vm_compute; discriminate|].
  intros a _. apply sample_unprotected.
Defined.

Lemma tls_fls_read_exact_witness :
  wp (tls_fls_read 0x8010FFE 536870913 [7; 7; 7; 7] 3) sample_fls (fun r s' =>
    ready s' (sample_inside SPIFLASH_MID_GD) /\ dev (hwst s') = chip0 /\ fst r = TLS_FLS_STATUS_OK /\
    (snd r = memcpy_at 0 (range (chip_byte chip0) off0 3) [7; 7; 7; 7] \/ (snd r = [7; 7; 7; 7] /\ oom s' = true))).
Proof.
  apply tls_fls_read_exact; [exact sample_ready|lia|lia|lia|simpl; lia|vm_compute; discriminate].
Defined.

Lemma fls_entry_points_refuse_witness :
  bad_args (sample_inside SPIFLASH_MID_GD) 0x8200000 1 1 = true /\
  tls_fls_write 0x8200000 1 [1] 1 sample_fls = Some (TLS_FLS_STATUS_EINVAL, sample_fls).
Proof.
  split; [reflexivity|].
  destruct (fls_entry_points_refuse sample_fls 0x8200000 1 [1] 1 0) as [_ Hr].
  destruct (Hr (sample_inside SPIFLASH_MID_GD) eq_refl) as [Hb _].
  destruct (Hb eq_refl) as (_ & Hw & _). exact Hw.
Defined.
