(* ===== verification/FlsAppend.v ===== *)
(** * Writing without erasing: [tls_fls_write_without_erase]

    Programming can only clear bits: the bytes written are and-ed into the
    array, page by page, and everything else is programmed with itself. *)
From S2P Require Import Prelude CMonad HostEnv FlashChip FlsHw FlsDriver FlsRead FlsWrite.

(** The array with [l] and-ed in at [off]. *)
Definition andlay (f : Z -> Z) (off : Z) (l : list Z) : Z -> Z := fun a =>
  if (off <=? a) && (a <? off + zlen l) then f a &&& byte_at l (a - off) else f a.

Lemma andlay_in f off l a : off <= a < off + zlen l -> andlay f off l a = f a &&& byte_at l (a - off).
Proof. intros Ha. unfold andlay. by rewrite (proj2 (Z.leb_le _ _)), (proj2 (Z.ltb_lt _ _)) by lia. Qed.

Lemma andlay_out f off l a : a < off \/ off + zlen l <= a -> andlay f off l a = f a.
Proof.
  intros Ha. unfold andlay. destruct (Z.leb_spec off a), (Z.ltb_spec a (off + zlen l)); simpl; (done || lia).
Qed.

Lemma andlay_app f off l1 l2 :
  andlay (andlay f off l1) (off + zlen l1) l2 ≡ₐ andlay f off (l1 ++ l2).
Proof.
  intros a. destruct (decide (off + zlen l1 <= a < off + zlen l1 + zlen l2)) as [H2|H2].
  - rewrite andlay_in, (andlay_out f), andlay_in by (rewrite ?length_app; lia).
    unfold byte_at. rewrite app_nth2 by lia. do 2 f_equal. lia.
  - rewrite andlay_out by lia. destruct (decide (off <= a < off + zlen l1)) as [H1|H1].
    + rewrite !andlay_in by (rewrite ?length_app; lia). unfold byte_at. by rewrite app_nth1 by lia.
    + by rewrite !andlay_out by (rewrite ?length_app; lia).
Qed.

(** On erased cells the data itself arrives. *)
Lemma andlay_erased f off l a :
  bytes_ok l -> off <= a < off + zlen l -> f a = 255 -> andlay f off l a = byte_at l (a - off).
Proof. intros Hl Ha Hf. rewrite andlay_in, Hf by done. apply land_255. auto. Qed.

Section append.
Context {E D : Type} `{HostLaws E} `{FlashChipLaws D}.
Implicit Types s : fls E D.
Implicit Types h : hw D.

(** The pages that [n] bytes at [off] lie in. *)
Definition pages (off n : Z) : Z -> Prop := fun a => off / 256 * 256 <= a < (off + n + 255) / 256 * 256.

(** One page: a cache that holds the page outside the new bytes. *)
Lemma append_page_spec base po n cache buf h (Q : Z -> hw D -> Prop) :
  hw_ok h -> 0 <= base -> base mod 256 = 0 -> base + 256 <= chip_size (dev h) -> chip_size (dev h) <= 2 ^ 25 ->
  (forall a, within base 256 a -> chip_prot (dev h) (chip_sr (dev h)) a = false) ->
  bytes_ok buf -> bytes_ok cache -> length cache = 256%nat -> 0 <= po -> 0 <= n <= zlen buf -> po + n <= 256 ->
  (n = 256 \/ cache = range (chip_byte (dev h)) base 256) ->
  (forall h', only (within base 256) h h' ->
     chip_byte (dev h') ≡ₐ andlay (chip_byte (dev h)) (base + po) (take (Z.to_nat n) buf) -> Q 0 h') ->
  wp (programPage (u32 base) INSIDE_FLS_PAGE_SIZE (copy_loop (Z.to_nat n) 0 cache po buf)) h Q.
Proof.
  intros Hok Hb0 Hal Hsize Hcs Hprot Hb Hcb Hlen Hpo Hn Hfit Hcache HQ. unfold INSIDE_FLS_PAGE_SIZE.
  rewrite copy_loop_eq by lia. set (l := take (Z.to_nat n) buf).
  assert (Hl : zlen l = n) by (unfold l; rewrite length_take; lia).
  assert (Hu : u32 base = base) by (apply wrap_id; lia). rewrite Hu.
  assert (Hm : base mod 2 ^ 25 = base) by (apply Z.mod_small; lia).
  apply programPage_spec; rewrite ?Hm; [done| |rewrite length_memcpy_at; lia|done|lia|done|].
  { apply memcpy_bytes_ok; [by apply Forall_take|done]. }
  intros h' O Hpage. apply HQ; [done|]. intros a. fold l.
  destruct (decide (within base 256 a)) as [Hin|Hout].
  - unfold within in Hin. specialize (Hpage (a - base) ltac:(lia)).
    replace (base + (a - base)) with a in Hpage by lia. rewrite Hpage, byte_at_memcpy, Hl by lia.
    destruct (decide (base + po <= a < base + po + n)) as [Hd|Hd].
    + rewrite (proj2 (Z.leb_le _ _)), (proj2 (Z.ltb_lt _ _)), andlay_in by lia. cbn [andb]. do 2 f_equal. lia.
    + rewrite andlay_out by lia. replace ((po <=? a - base) && (a - base <? po + n)) with false by lia.
      destruct Hcache as [->| ->]; [lia|]. rewrite byte_at_range by lia.
      replace (base + (a - base)) with a by lia. apply Z.land_diag.
  - rewrite (only_byte _ _ _ _ O) by done. unfold within in Hout. by rewrite andlay_out by lia.
Qed.

(** The state of the loop after [k] bytes. *)
Definition append_inv s off buf len (x : Z * Z * list Z * list Z * Z * Z) (s' : fls E D) : Prop :=
  let '(pagepos, pageoff, cache, b, l, pageremain) := x in
  exists k, 0 <= k < len /\ l = len - k /\ b = drop (Z.to_nat k) buf /\
    off + k = pagepos * 256 + pageoff /\ 0 <= pagepos /\ 0 <= pageoff < 256 /\
    pageremain = Z.min l (256 - pageoff) /\ length cache = 256%nat /\ bytes_ok cache /\
    (pageremain = 256 \/ cache = range (chip_byte (dev (hwst s'))) (pagepos * 256) 256) /\
    fls_only (pages off len) s s' /\ oom s' = oom s /\
    chip_byte (dev (hwst s')) ≡ₐ andlay (chip_byte (dev (hwst s))) off (take (Z.to_nat k) buf).

Definition append_measure (x : Z * Z * list Z * list Z * Z * Z) : nat :=
  let '(pagepos, pageoff, cache, b, l, pageremain) := x in Z.to_nat ((l + pageoff) / 256).

Lemma range_bytes_ok (d : D) off n : bytes_ok (range (chip_byte d) off n).
Proof. apply Forall_fmap, Forall_true. intros a. apply chip_byte_ok. Qed.

(** Reading a page back into the cache. *)
Lemma reread_spec p base cache s (Q : Z * list Z -> fls E D -> Prop) :
  hw_ok (hwst s) -> p mod 4 = 0 -> length cache = 256%nat -> 0 <= base -> base mod 256 = 0 ->
  base + 256 <= chip_size (dev (hwst s)) -> chip_size (dev (hwst s)) <= 2 ^ 25 ->
  (forall s', fls_only nowhere s s' -> dev (hwst s') = dev (hwst s) -> oom s' = oom s ->
     Q (0, range (chip_byte (dev (hwst s))) base 256) s') ->
  wp (flashRead (u32 base) p cache INSIDE_FLS_PAGE_SIZE) s Q.
Proof.
  intros Hok Hp Hlen Hb0 Hal Hsize Hcs HQ. assert (Hu : u32 base = base) by (apply wrap_id; lia). rewrite Hu.
  assert (Hm : base mod 2 ^ 25 = base) by (apply Z.mod_small; lia). unfold INSIDE_FLS_PAGE_SIZE.
  apply flashRead_aligned; rewrite ?Hm; [done|done|done|done|lia|done|lia|lia|lia|lia|].
  intros s' F Hd _ Ho. rewrite memcpy_at_all by (rewrite length_range; lia). by apply HQ.
Qed.

Lemma append_loop_spec p s f off buf len fuel po0 n0 cache0 (Q : unit -> fls E D -> Prop) :
  hw_ok (hwst s) -> density f = chip_size (dev (hwst s)) -> density f mod 4096 = 0 -> density f <= 2 ^ 25 ->
  p mod 4 = 0 -> bytes_ok buf -> 0 < len <= zlen buf -> 0 <= off -> off + len <= density f ->
  (forall a, pages off len a -> chip_prot (dev (hwst s)) (chip_sr (dev (hwst s))) a = false) ->
  po0 = off mod 256 -> n0 = Z.min len (256 - po0) ->
  cache0 = range (chip_byte (dev (hwst s))) (off / 256 * 256) 256 -> (Z.to_nat (len / 256 + 2) <= fuel)%nat ->
  (forall s', fls_only (pages off len) s s' -> oom s' = oom s ->
     chip_byte (dev (hwst s')) ≡ₐ andlay (chip_byte (dev (hwst s))) off (take (Z.to_nat len) buf) -> Q tt s') ->
  wp (mloop fuel (append_body p) (off / 256, po0, cache0, buf, len, n0)) s Q.
Proof.
  intros Hok Hden Hd4 Hd25 Hp Hb Hlen Hoff Hfit Hprot -> -> -> Hfuel HQ.
  apply (wp_loop (append_inv s off buf len) append_measure).
  - unfold append_measure. dlia.
  - exists 0. change (drop (Z.to_nat 0) buf) with buf. change (take (Z.to_nat 0) buf) with (@nil Z).
    split; [lia|]. split; [lia|]. split; [done|]. split; [dlia|]. split; [dlia|]. split; [dlia|].
    split; [lia|]. split; [by rewrite length_range|]. split; [apply range_bytes_ok|]. split; [by right|].
    split; [by apply fls_only_refl|]. split; [done|].
    intros a. symmetry. apply andlay_out. simpl. lia.
  - intros [[[[[pagepos po] cache] b] l] n] s1
      (k & Hk & -> & -> & Hpos & Hpp & Hpo & Hn & Hc & Hcb & Hcache & F1 & Ho1 & Harr). unfold append_body.
    assert (Hs1 : chip_size (dev (hwst s1)) = chip_size (dev (hwst s))) by apply (only_size _ _ _ (fo_hw _ _ _ F1)).
    apply wp_bind, (on_hw_spec _ _ (pages off len)). unfold INSIDE_FLS_PAGE_SIZE at 1.
    apply append_page_spec; rewrite ?Hs1, ?length_drop;
      [apply F1|lia|dlia|dlia|lia| |by apply Forall_drop|done|done|lia|lia|lia|done|].
    { intros a Ha. destruct (fo_hw _ _ _ F1) as [_ (_ & _ & _ & _ & _ & _ & ->) _ [-> _] _ _ _].
      apply Hprot. unfold pages, within in *. dlia. }
    intros h2 O2 Harr2.
    assert (O2' : only (pages off len) (hwst s1) h2).
    { eapply only_mono; [|exact O2]. intros a. unfold within, pages. intros Ha. dlia. }
    split; [done|]. intros s2 F2 Hh2 _ Ho2.
    assert (F : fls_only (pages off len) s s2) by by eapply fls_only_trans.
    assert (Harr' : chip_byte (dev (hwst s2)) ≡ₐ
      andlay (chip_byte (dev (hwst s))) off (take (Z.to_nat (k + n)) buf)).
    { intros a. rewrite Hh2, Harr2, <- Hpos. rewrite Z2Nat.inj_add, <- take_take_drop by lia.
      rewrite <- andlay_app. rewrite length_take.
      replace (Z.of_nat (Z.to_nat k `min` length buf)) with k by lia.
      unfold andlay at 1 2. by rewrite Harr. }
    destruct (Z.eqb_spec (len - k) n) as [Hend|Hmore].
    { apply wp_ret, HQ; [done|congruence|]. by replace len with (k + n) by lia. }
    assert (Hu : u32 (pagepos + 1) = pagepos + 1) by (apply wrap_id; dlia). cbv zeta. rewrite Hu.
    rewrite drop_drop. replace (len - k - n) with (len - (k + n)) by lia.
    replace (Z.to_nat n + Z.to_nat k)%nat with (Z.to_nat (k + n)) by lia.
    replace (Z.to_nat k + Z.to_nat n)%nat with (Z.to_nat (k + n)) by lia.
    assert (Hc' : length (copy_loop (Z.to_nat n) 0 cache po (drop (Z.to_nat k) buf)) = 256%nat).
    { rewrite copy_loop_eq, length_memcpy_at by (rewrite ?length_drop; lia). done. }
    destruct (Z.ltb_spec INSIDE_FLS_PAGE_SIZE (len - (k + n))) as [Hbig|Hsmall].
    + apply wp_ret. unfold append_measure, INSIDE_FLS_PAGE_SIZE in *. split; [dlia|]. exists (k + n).
      split; [lia|]. split; [done|]. split; [done|]. split; [lia|]. split; [lia|]. split; [lia|].
      split; [lia|]. split; [done|]. split; [|split; [by left|]; split; [done|]; split; [congruence|done]].
      rewrite copy_loop_eq by (rewrite ?length_drop; lia).
      apply memcpy_bytes_ok; [by apply Forall_take, Forall_drop|done].
    + assert (Hs2 : chip_size (dev (hwst s2)) = chip_size (dev (hwst s))) by apply (only_size _ _ _ (fo_hw _ _ _ F)).
      unfold INSIDE_FLS_PAGE_SIZE at 1.
      apply wp_bind, reread_spec; rewrite ?Hs2; [apply F2|done|done|lia|dlia|dlia|lia|].
      intros s3 F3 Hd3 Ho3. apply wp_ret. unfold append_measure, INSIDE_FLS_PAGE_SIZE in *. cbn [snd].
      split; [dlia|]. exists (k + n).
      split; [lia|]. split; [done|]. split; [done|]. split; [lia|]. split; [lia|]. split; [lia|].
      split; [lia|]. split; [by rewrite length_range|]. split; [apply range_bytes_ok|].
      split; [right; by rewrite Hd3|]. split; [eapply fls_only_trans; [done|by apply fls_only_nowhere]|].
      split; [congruence|]. by rewrite Hd3.
Qed.

Lemma tls_fls_write_without_erase_spec s f addr bufp buf len :
  let off := addr mod 2 ^ 27 in
  ready s f -> bufp <> 0 -> bytes_ok buf -> 0 < len <= zlen buf -> off + len <= density f ->
  (forall a, pages off len a -> chip_prot (dev (hwst s)) (chip_sr (dev (hwst s))) a = false) ->
  wp (tls_fls_write_without_erase addr bufp buf len) s (fun r s' =>
    fls_only (pages off len) s s' /\
    ((r = TLS_FLS_STATUS_OK /\ oom s' = oom s /\
        chip_byte (dev (hwst s')) ≡ₐ andlay (chip_byte (dev (hwst s))) off (take (Z.to_nat len) buf)) \/
     (r = TLS_FLS_STATUS_ENOMEM /\ oom s' = true /\ dev (hwst s') = dev (hwst s)))).
Proof.
  intros off R Hbp Hb Hlen Hfit Hprot. pose proof R as [R1 R2 R3 R4 [R5 R6]].
  assert (Hoff : 0 <= off) by (apply Z.mod_pos_bound; lia).
  apply (if_installed_spec _ _ _ f); [done|]. apply wp_bind, (the_fls_spec _ f); [done|].
  rewrite bad_args_false by (try done; fold off; lia).
  apply wp_bind, (sem_acquire_spec _ f); [done|].
  apply wp_bind, tls_mem_alloc_spec; [done|apply R| |].
  - intros s1 F1 Hh1 Ho1. apply wp_bind, (sem_release_spec nowhere s _ f); [done|done|].
    intros s2 F2 Hh2 _ Ho2. apply wp_ret. split; [by apply fls_only_nowhere|]. right.
    split; [done|]. split; [congruence|]. by rewrite Hh2, Hh1.
  - intros p cache s1 F1 Hh1 Ho1 Hp4 _ Hc _. rewrite flash_offset. fold off. cbv zeta.
    change (hwst (locked s f)) with (hwst s) in Hh1.
    apply wp_bind, reread_spec; rewrite ?Hh1; [done|done|done|unfold INSIDE_FLS_PAGE_SIZE; dlia|
      unfold INSIDE_FLS_PAGE_SIZE; dlia|unfold INSIDE_FLS_PAGE_SIZE; dlia|lia|].
    intros s2 F2 Hd2 Ho2.
    apply wp_bind, (append_loop_spec p s2 f off buf len); rewrite ?Hd2;
      [apply F2|done|done|lia|done|done|done|done|done|done|done| |done|done|].
    { unfold INSIDE_FLS_PAGE_SIZE. case_match; lia. }
    intros s3 F3 Ho3 Harr.
    apply wp_bind, tls_mem_free_spec; [apply F3|]. intros s4 F4 Hh4 Ho4.
    apply wp_bind, (sem_release_spec (pages off len) s _ f); [done| |].
    { eapply fls_only_trans; [by apply fls_only_nowhere|]. eapply fls_only_trans; [by apply fls_only_nowhere|].
      eapply fls_only_trans; [done|by apply fls_only_nowhere]. }
    intros s5 F5 Hh5 _ Ho5. apply wp_ret. split; [done|]. left. split; [done|].
    split; [by rewrite Ho5, Ho4, Ho3, Ho2, Ho1|]. by rewrite Hh5, Hh4.
Qed.

End append.

(** ** Properties *)

(** [tls_fls_write_without_erase] programs exactly the addressed bytes:
    each of them becomes the bitwise and of its old value and the new one,
    so that bytes which were erased receive the data, and every other byte
    of the chip keeps its value although whole pages are programmed. *)
Theorem tls_fls_write_without_erase_ands {E D : Type} `{HostLaws E} `{FlashChipLaws D}
    (s : fls E D) f addr bufp buf len :
  let off := addr mod 2 ^ 27 in
  ready s f -> bufp <> 0 -> bytes_ok buf -> 0 < len <= zlen buf -> off + len <= density f ->
  (forall a, pages off len a -> chip_prot (dev (hwst s)) (chip_sr (dev (hwst s))) a = false) ->
  wp (tls_fls_write_without_erase addr bufp buf len) s (fun r s' =>
    ready s' f /\
    (r = TLS_FLS_STATUS_ENOMEM /\ dev (hwst s') = dev (hwst s) \/
     r = TLS_FLS_STATUS_OK /\ forall a,
       let old := chip_byte (dev (hwst s)) a in
       let new := chip_byte (dev (hwst s')) a in
       if decide (off <= a < off + len)
       then new = old &&& byte_at buf (a - off) /\ (old = 255 -> new = byte_at buf (a - off))
       else new = old)).
Proof.
  intros off R Hbp Hb Hlen Hfit Hprot. eapply wp_mono; [by apply (tls_fls_write_without_erase_spec s f)|].
  cbv beta. intros r s' [F [(-> & _ & Ha)|(-> & _ & Hd)]]; (split; [by eapply ready_only|]); [right|by left].
  split; [done|]. intros a. cbv zeta. rewrite Ha.
  assert (Hl : zlen (take (Z.to_nat len) buf) = len) by (rewrite length_take; lia).
  case_decide as Hin; [|apply andlay_out; fold off; lia].
  assert (Hbyte : byte_at (take (Z.to_nat len) buf) (a - off) = byte_at buf (a - off)).
  { unfold byte_at. by rewrite !nth_lookup, lookup_take_lt by lia. }
  fold off. rewrite andlay_in, Hbyte by lia. split; [done|]. intros ->. apply land_255. auto.
Qed.

Lemma tls_fls_write_without_erase_ands_witness :
  wp (tls_fls_write_without_erase 0x80100FE 536870912 [1; 2; 3; 4] 4) sample_fls (fun r s' =>
    ready s' (sample_inside SPIFLASH_MID_GD) /\
    (r = TLS_FLS_STATUS_ENOMEM /\ dev (hwst s') = dev (hwst sample_fls) \/
     r = TLS_FLS_STATUS_OK /\ forall a,
       let old := chip_byte (dev (hwst sample_fls)) a in
       let new := chip_byte (dev (hwst s')) a in
       if decide (0x80100FE mod 2 ^ 27 <= a < 0x80100FE mod 2 ^ 27 + 4)
       then new = old &&& byte_at [1; 2; 3; 4] (a - 0x80100FE mod 2 ^ 27) /\
            (old = 255 -> new = byte_at [1; 2; 3; 4] (a - 0x80100FE mod 2 ^ 27))
       else new = old)).
Proof.
  apply tls_fls_write_without_erase_ands;
    [exact sample_ready|lia|repeat constructor; lia|simpl; lia|vm_compute; discriminate|].
  intros a _. apply sample_unprotected.
Defined.
