(* ===== verification/FlsFast.v ===== *)
(** * Buffered writing: the fast-write session of [wm_internal_fls.c]

    [tls_fls_fast_write_init], any number of [tls_fls_fast_write] of
    consecutive chunks, [tls_fls_fast_write_destroy]: what the flash holds
    afterwards, and what a session does to the sector that an earlier session
    left in [gsSector]. *)
From S2P Require Import Prelude CMonad HostEnv FlashChip FlsHw FlsDriver FlsRead FlsWrite.

Section fast.
Context {E D : Type} `{HostLaws E} `{FlashChipLaws D}.
Implicit Types s : fls E D.
Implicit Types h : hw D.

(** The session as its users run it. *)
Fixpoint fast_chunks (addr : Z) (chunks : list (list Z)) : M (fls E D) Z :=
  match chunks with
  | [] => mret TLS_FLS_STATUS_OK
  | c :: chunks =>
      r ← tls_fls_fast_write addr 536870912 c (zlen c);
      if r =? TLS_FLS_STATUS_OK then fast_chunks (addr + zlen c) chunks else mret r
  end.

Definition fast_session (addr : Z) (chunks : list (list Z)) : M (fls E D) Z :=
  r ← tls_fls_fast_write_init;
  if r =? TLS_FLS_STATUS_OK then
    r ← fast_chunks addr chunks;
    tls_fls_fast_write_destroy ;;
    mret r
  else mret r.

(** Like [fls_only], with the lock and the fast-write variables free. *)
Record flash_only (S : Z -> Prop) s s' : Prop := {
  fl_hw : only S (hwst s) (hwst s');
  fl_map : fmap s' = fmap s;
  fl_oom : oom s = true -> oom s' = true
}.

Lemma flash_only_refl S s : hw_ok (hwst s) -> flash_only S s s.
Proof. intros Hok. by split; [apply only_refl|..]. Qed.

Lemma flash_only_trans S s1 s2 s3 : flash_only S s1 s2 -> flash_only S s2 s3 -> flash_only S s1 s3.
Proof. intros [? ? ?] [? ? ?]. split; [by eapply only_trans|congruence|auto]. Qed.

Lemma flash_only_mono (S T : Z -> Prop) s s' : (forall a, S a -> T a) -> flash_only S s s' -> flash_only T s s'.
Proof. intros HST [? ? ?]. split; [by eapply only_mono|done..]. Qed.

Lemma fls_only_flash S s s' : fls_only S s s' -> flash_only S s s'.
Proof. intros [? ? ? ? ? ?]. by split. Qed.

Lemma ready_flash S s s' f : ready s f -> flash_only S s s' -> inside_fls s' = Some f -> ready s' f.
Proof.
  intros [R1 R2 R3 R4 R5] [F1 _ _] F2. split; [done|done|apply F1| |done].
  by rewrite R4, (only_size _ _ _ F1).
Qed.

(** Changing the fast-write variables. *)
Lemma gs_step S s s' :
  hw_ok (hwst s) -> hwst s' = hwst s -> fmap s' = fmap s -> oom s' = oom s ->
  flash_only S s s'.
Proof. intros Hok Hh ? Ho. split; try done; [rewrite Hh; by apply only_refl|by rewrite Ho]. Qed.

(** ** Flushing *)

Lemma flush_spec s f p cache (Q : unit -> fls E D -> Prop) :
  let base := gsSector s * 4096 mod 2 ^ 25 in
  inside_fls s = Some f -> hw_ok (hwst s) -> density f = chip_size (dev (hwst s)) -> density f <= 2 ^ 25 ->
  density f mod 4096 = 0 ->
  gsflscache s = Some (p, cache) -> length cache = 4096%nat -> bytes_ok cache ->
  0 <= gsSector s < sector_limit f -> base < density f ->
  (forall a, within base 4096 a -> chip_prot (dev (hwst s)) (chip_sr (dev (hwst s))) a = false) ->
  (forall s', fls_only (within base 4096) s s' -> oom s' = oom s ->
     chip_byte (dev (hwst s')) ≡ₐ overlay (chip_byte (dev (hwst s))) base cache -> Q tt s') ->
  wp tls_fls_flush_sector s Q.
Proof.
  intros base Hf Hok Hden Hd25 Hd4 Hgs Hlen Hb Hsec Hbase Hprot HQ. unfold tls_fls_flush_sector.
  apply wp_bind, (the_fls_spec _ f); [done|]. apply wp_bind, wp_gets.
  rewrite (proj2 (Z.ltb_lt _ _)) by apply Hsec. cbv zeta.
  assert (Hu : u32 (gsSector s * INSIDE_FLS_SECTOR_SIZE) = gsSector s * 4096).
  { unfold sector_limit, INSIDE_FLS_SECTOR_SIZE, INSIDE_FLS_BASE_ADDR in *. apply wrap_id. dlia. }
  rewrite Hu. set (addr := gsSector s * 4096) in *.
  assert (Hal : addr mod 4096 = 0) by (unfold addr; dlia).
  assert (Hb4 : base mod 4096 = 0 /\ 0 <= base) by (unfold base in *; dlia).
  apply wp_bind, (on_hw_spec _ _ (within base 4096)), eraseSector_spec; fold base; [done|done|lia|done|].
  intros h1 O1 H255. split; [done|]. intros s1 F1 Hh1 _ Ho1.
  apply wp_bind, wp_gets. rewrite (fo_gs _ _ _ F1), Hgs.
  pose proof (only_size _ _ _ O1) as Hs1.
  apply (on_hw_spec _ _ (within base 4096)), program_sector_spec; rewrite ?Hh1; fold base; rewrite ?Hs1;
    [apply O1|done|done|done|lia| |dlia|lia| |done|].
  { unfold addr, sector_limit, INSIDE_FLS_SECTOR_SIZE, INSIDE_FLS_BASE_ADDR in *. dlia. }
  { by eapply only_unprotected. }
  intros h2 O2 Hcells. split; [done|]. intros s2 F2 Hh2 _ Ho2. apply HQ; [by eapply fls_only_trans|congruence|].
  intros a. rewrite Hh2. destruct (decide (within base 4096 a)) as [Hin|Hout].
  - rewrite Hcells by done. unfold within in Hin. by rewrite overlay_in by lia.
  - rewrite (only_byte _ _ _ _ O2), (only_byte _ _ _ _ O1) by done. unfold within in Hout.
    by rewrite overlay_out by lia.
Qed.
(** ** Streaming *)

(** [n] rounded down to a whole number of sectors. *)
Definition whole (n : Z) : Z := n / 4096 * 4096.

(** A session that started at address [a0] (flash offset [off]) in state
    [s0] has received the bytes [l]: whole sectors are in the flash, the rest
    is at the start of the cache. *)
Record stream (R : Z -> Prop) s0 (a0 off : Z) (l : list Z) s : Prop := {
  sm_flash : flash_only R s0 s;
  sm_oom : oom s = oom s0;
  sm_cache : exists p cache, gsflscache s = Some (p, cache) /\ length cache = 4096%nat /\ bytes_ok cache /\
    take (Z.to_nat (zlen l mod 4096)) cache = drop (Z.to_nat (whole (zlen l))) l;
  sm_array : chip_byte (dev (hwst s)) ≡ₐ
    overlay (chip_byte (dev (hwst s0))) off (take (Z.to_nat (whole (zlen l))) l)
}.

Definition sector_of (a0 : Z) (l : list Z) : Z := a0 / 4096 + zlen l / 4096.

(** The sectors a session of [len] bytes rewrites. *)
Definition fast_region (off len : Z) : Z -> Prop := within off (whole len + 4096).

Section session.
Variables (s0 : fls E D) (f : tls_inside_fls) (a0 off len : Z).
Hypothesis Hden : density f = chip_size (dev (hwst s0)).
Hypothesis Hgeom : density f mod 4096 = 0 /\ 0 < density f <= 2 ^ 25.
Hypothesis Hoff : off = a0 mod 2 ^ 27.
Hypothesis Ha0 : a0 mod 4096 = 0 /\ 0 <= a0 < 2 ^ 28.
Hypothesis Hlen : 0 <= len.
Hypothesis Hfit : off + whole len + 4096 <= density f.

#[local] Abbreviation region := (fast_region off len).

Hypothesis Hprot : forall a, region a -> chip_prot (dev (hwst s0)) (chip_sr (dev (hwst s0))) a = false.

Lemma sector_place k :
  0 <= k -> 4096 * k <= whole len ->
  0 <= a0 / 4096 + k < sector_limit f /\ (a0 / 4096 + k) * 4096 mod 2 ^ 25 = off + 4096 * k /\
  u32 (a0 / 4096 + k + 1) = a0 / 4096 + k + 1.
Proof.
  intros Hk Hkl. unfold sector_limit, INSIDE_FLS_SECTOR_SIZE, INSIDE_FLS_BASE_ADDR, whole in *.
  assert (Hcase : a0 = off \/ a0 = off + 2 ^ 27) by (subst off; dlia).
  assert (0 <= off /\ off mod 4096 = 0) by (subst off; dlia). clear Hoff.
  split; [destruct Hcase as [->| ->]; dlia|]. split; [|apply wrap_id; dlia].
  replace ((a0 / 4096 + k) * 4096) with (a0 + 4096 * k) by dlia.
  destruct Hcase as [->| ->]; [apply Z.mod_small; dlia|].
  replace (off + 2 ^ 27 + 4096 * k) with (off + 4096 * k + 4 * 2 ^ 25) by lia.
  rewrite Z.mod_add by lia. apply Z.mod_small. dlia.
Qed.

(** Flushing the current sector of a session. *)
Lemma stream_flush g k s p cache (Q : unit -> fls E D -> Prop) :
  inside_fls s = Some g -> density g = density f ->
  flash_only region s0 s -> 0 <= k -> 4096 * k <= whole len -> gsSector s = a0 / 4096 + k ->
  gsflscache s = Some (p, cache) -> length cache = 4096%nat -> bytes_ok cache ->
  (forall s', fls_only region s s' -> oom s' = oom s ->
     chip_byte (dev (hwst s')) ≡ₐ overlay (chip_byte (dev (hwst s))) (off + 4096 * k) cache -> Q tt s') ->
  wp tls_fls_flush_sector s Q.
Proof.
  intros Hin Hg' F Hk Hkl Hg Hgs Hcl Hcb HQ. destruct (sector_place k Hk Hkl) as (Hlim & Hbase & _).
  pose proof (only_size _ _ _ (fl_hw _ _ _ F)) as Hsz.
  apply (flush_spec s g p cache); unfold sector_limit in *; rewrite ?Hg, ?Hbase, ?Hsz, ?Hg'; try done.
  - apply F.
  - lia.
  - by destruct Hgeom.
  - unfold whole in *. lia.
  - intros a Ha. destruct (fl_hw _ _ _ F) as [_ (_ & _ & _ & _ & _ & _ & ->) _ [-> _] _ _ _].
    apply Hprot. unfold fast_region, within in *. lia.
  - intros s' F' Ho Harr. apply HQ; [|done|done]. eapply fls_only_mono; [|exact F'].
    intros a Ha. unfold fast_region, within in *. lia.
Qed.

(** One piece of a chunk, up to the end of its sector. *)
Lemma stream_piece g l x s (Q : unit -> fls E D -> Prop) :
  inside_fls s = Some g -> density g = density f ->
  stream region s0 a0 off l s -> gsSector s = sector_of a0 l -> bytes_ok x -> 0 < zlen x ->
  zlen l mod 4096 + zlen x <= 4096 -> zlen (l ++ x) <= len ->
  (forall s', stream region s0 a0 off (l ++ x) s' -> gsSector s' = sector_of a0 (l ++ x) ->
     inside_fls s' = Some g -> Q tt s') ->
  wp (gs_memcpy (zlen l mod 4096) x ;;
      (if INSIDE_FLS_SECTOR_SIZE <=? zlen l mod 4096 + zlen x then
         tls_fls_flush_sector ;;
         g ← gets gsSector;
         set_gsSector (u32 (g + 1))
       else mret tt)) s Q.
Proof.
  intros Hin Hg' [F Ho (p & cache & Hgs & Hcl & Hcb & Hpre) Harr] Hsec Hx Hx0 Hroom Hmax HQ.
  rewrite length_app in Hmax. set (n := zlen l) in *. set (o := n mod 4096) in *.
  assert (Ho4 : 0 <= o < 4096 /\ n = whole n + o) by (unfold o, whole; dlia). destruct Ho4 as [Ho4 Hn].
  set (cache' := memcpy_at o x cache).
  assert (Hcl' : length cache' = 4096%nat) by (unfold cache'; by rewrite length_memcpy_at).
  assert (Hpre' : take (Z.to_nat (o + zlen x)) cache' = drop (Z.to_nat (whole n)) (l ++ x)).
  { rewrite drop_app_le by lia. rewrite <- Hpre. unfold cache'.
    assert (Ht : zlen (take (Z.to_nat o) cache) = o) by (rewrite length_take; lia).
    assert (Hc0 : cache = memcpy_at 0 (take (Z.to_nat o) cache) cache).
    { apply byte_list_eq; [by rewrite length_memcpy_at|]. intros i Hi.
      rewrite byte_at_memcpy by lia. rewrite Ht, (proj2 (Z.leb_le 0 i)) by lia. cbn [andb].
      case_match; [|done]. unfold byte_at. rewrite Z.sub_0_r, !nth_lookup, lookup_take_lt by lia. done. }
    rewrite Hc0 at 1. rewrite <- Ht at 2. rewrite <- (Z.add_0_l (zlen (take _ _))).
    rewrite memcpy_at_app by lia. apply take_memcpy_at; [rewrite length_app; lia|lia]. }
  assert (Hcb' : bytes_ok cache') by by apply memcpy_bytes_ok.
  apply wp_bind. unfold gs_memcpy. apply wp_bind, wp_gets. rewrite Hgs. apply wp_modify. fold cache'.
  set (s1 := Fls _ _ _ _ _ _ _).
  assert (F1 : flash_only region s0 s1).
  { eapply flash_only_trans; [exact F|]. apply gs_step; try done. apply F. }
  unfold sector_of in Hsec. fold n in Hsec. change INSIDE_FLS_SECTOR_SIZE with 4096.
  destruct (Z.leb_spec 4096 (o + zlen x)) as [Hfull|Hpart].
  - assert (Hend : n + zlen x = whole n + 4096) by lia.
    assert (Hw : whole (n + zlen x) = whole n + 4096) by (rewrite Hend; unfold whole; dlia).
    assert (Hk : 4096 * (n / 4096) = whole n) by (unfold whole; lia).
    assert (Hlen' : whole n + 4096 <= whole len) by (rewrite <- Hw; unfold whole; dlia).
    apply wp_bind, (stream_flush g (n / 4096) s1 p cache'); [done|done|done|dlia|lia|done|done|done|done|].
    intros s2 F2 Ho2 Harr2. apply wp_bind, wp_gets, wp_modify.
    destruct (sector_place (n / 4096)) as (_ & _ & Hu); [dlia|lia|].
    assert (Hg2 : gsSector s2 = a0 / 4096 + n / 4096) by (by rewrite (fo_sector _ _ _ F2)).
    apply HQ.
    + split.
      * eapply flash_only_trans; [exact F1|]. eapply flash_only_trans; [by apply fls_only_flash|].
        apply gs_step; try done. apply F2.
      * simpl. by rewrite Ho2.
      * exists p, cache'. split; [simpl; by rewrite (fo_gs _ _ _ F2)|]. split; [done|]. split; [done|].
        rewrite length_app, Nat2Z.inj_add. fold n. rewrite Hw, Hend.
        replace ((whole n + 4096) mod 4096) with 0 by (unfold whole; dlia).
        rewrite drop_ge; [done|]. rewrite length_app. lia.
      * simpl. rewrite length_app, Nat2Z.inj_add. fold n. rewrite Hw. intros a. rewrite Harr2, Hk.
        assert (Hl1 : zlen (take (Z.to_nat (whole n)) l) = whole n) by (rewrite length_take; lia).
        replace (take (Z.to_nat (whole n + 4096)) (l ++ x)) with (take (Z.to_nat (whole n)) l ++ cache').
        { rewrite <- overlay_app, Hl1. unfold overlay at 1 2. by rewrite Harr. }
        rewrite (take_ge (l ++ x)) by (rewrite length_app; lia).
        replace cache' with (take (Z.to_nat (o + zlen x)) cache') by (apply firstn_all2; lia).
        rewrite Hpre', drop_app_le, app_assoc, take_drop by lia. done.
    + simpl. rewrite Hg2, Hu. unfold sector_of. rewrite length_app, Nat2Z.inj_add. fold n.
      assert ((n + zlen x) / 4096 = n / 4096 + 1) by (rewrite Hend; unfold whole; dlia). lia.
    + simpl. by rewrite (fo_inside _ _ _ F2).
  - assert (Hw : whole (n + zlen x) = whole n) by (unfold whole in *; dlia).
    apply wp_ret, HQ.
    + split; [done|done| |].
      * exists p, cache'. split; [done|]. split; [done|]. split; [done|].
        rewrite length_app, Nat2Z.inj_add. fold n. rewrite Hw.
        replace ((n + zlen x) mod 4096) with (o + zlen x) by (unfold o, whole in *; dlia). done.
      * simpl. rewrite length_app, Nat2Z.inj_add. fold n. rewrite Hw, take_app_le by lia. done.
    + simpl. rewrite Hsec. unfold sector_of. rewrite length_app, Nat2Z.inj_add. fold n.
      assert ((n + zlen x) / 4096 = n / 4096) by (unfold whole in *; dlia). lia.
    + done.
Qed.

(** The loop over one chunk [buf]. *)
Definition chunk_inv g l (buf : list Z) (x : Z * Z * list Z * Z) s : Prop :=
  let '(offset, maxlen, b, rem) := x in
  exists m, 0 <= m <= zlen buf /\ rem = zlen buf - m /\ b = drop (Z.to_nat m) buf /\
    inside_fls s = Some g /\
    stream region s0 a0 off (l ++ take (Z.to_nat m) buf) s /\
    gsSector s = sector_of a0 (l ++ take (Z.to_nat m) buf) /\
    (0 < rem -> offset = zlen (l ++ take (Z.to_nat m) buf) mod 4096 /\ maxlen = 4096 - offset).

Definition chunk_measure (x : Z * Z * list Z * Z) : nat :=
  let '(offset, maxlen, b, rem) := x in
  if rem <=? 0 then O else Z.to_nat ((rem + offset) / 4096 + 1).

Lemma chunk_loop g l buf s fuel (Q : unit -> fls E D -> Prop) :
  inside_fls s = Some g -> density g = density f ->
  stream region s0 a0 off l s -> gsSector s = sector_of a0 l -> bytes_ok buf ->
  zlen l + zlen buf <= len -> (Z.to_nat (zlen buf / 4096 + 3) <= fuel)%nat ->
  (forall s', stream region s0 a0 off (l ++ buf) s' -> gsSector s' = sector_of a0 (l ++ buf) ->
     inside_fls s' = Some g -> Q tt s') ->
  wp (mloop fuel fast_body (zlen l mod 4096, 4096 - zlen l mod 4096, buf, zlen buf)) s Q.
Proof.
  intros Hin Hg' Hst Hsec Hb Hmax Hfuel HQ.
  apply (wp_loop (chunk_inv g l buf) chunk_measure).
  - unfold chunk_measure. case_match; dlia.
  - exists 0. change (drop (Z.to_nat 0) buf) with buf. change (take (Z.to_nat 0) buf) with (@nil Z).
    rewrite app_nil_r. split; [lia|]. split; [lia|]. split; [done|]. split; [done|]. done.
  - intros [[[offset maxlen] b] rem] s1 (m & Hm & -> & -> & Hin1 & Hst1 & Hsec1 & Hpos). unfold fast_body.
    destruct (Z.leb_spec (zlen buf - m) 0) as [Hdone|Hrem].
    { apply wp_ret, HQ; [..|done]; by rewrite take_ge in * by lia. }
    destruct (Hpos Hrem) as [Hoffset ->]. set (done_ := l ++ take (Z.to_nat m) buf) in *.
    assert (Hd : zlen done_ = zlen l + m) by (unfold done_; rewrite length_app, length_take; lia).
    set (t := Z.min (4096 - offset) (zlen buf - m)).
    replace (if 4096 - offset <? zlen buf - m then 4096 - offset else zlen buf - m) with t
      by (unfold t; case_match; lia). cbv zeta.
    set (x := take (Z.to_nat t) (drop (Z.to_nat m) buf)).
    assert (Hx : zlen x = t) by (unfold x; rewrite length_take, length_drop; unfold t; dlia).
    assert (Ht : 0 < t) by (unfold t; dlia).
    assert (Hjoin : done_ ++ x = l ++ take (Z.to_nat (m + t)) buf).
    { unfold done_, x. rewrite <- app_assoc, take_take_drop. do 2 f_equal. lia. }
    assert (Hwp : wp (gs_memcpy offset x ;;
      (if INSIDE_FLS_SECTOR_SIZE <=? offset + zlen x then
         tls_fls_flush_sector ;; g ← gets gsSector; set_gsSector (u32 (g + 1)) else mret tt)) s1
      (fun _ s' => stream region s0 a0 off (done_ ++ x) s' /\ gsSector s' = sector_of a0 (done_ ++ x) /\
         inside_fls s' = Some g)).
    { rewrite Hoffset. apply (stream_piece g); [done|done|done|done|by apply Forall_take, Forall_drop|lia|unfold t in *; lia| |].
      - rewrite length_app, Nat2Z.inj_add. unfold t in *. lia.
      - intros s' ? ? ?. done. }
    rewrite Hx in Hwp. apply wp_bind_inv in Hwp. apply wp_bind. eapply wp_mono; [exact Hwp|].
    cbv beta. intros [] s2 Hwp2. apply wp_bind. eapply wp_mono; [exact Hwp2|].
    cbv beta. intros [] s3 (Hst3 & Hsec3 & Hin3). apply wp_ret. rewrite Hjoin in Hst3, Hsec3.
    split.
    + unfold chunk_measure. clear -Hrem Ht Hoffset. unfold t in *. repeat case_match; dlia.
    + exists (m + t). rewrite drop_drop. split; [unfold t; lia|]. split; [lia|]. split; [f_equal; lia|].
      split; [done|]. split; [done|]. split; [done|]. intros Hr'.
      rewrite <- Hjoin, length_app, Nat2Z.inj_add, Hx. change INSIDE_FLS_SECTOR_SIZE with 4096. split; [|lia].
      clear -Hr' Hoffset. unfold t in *. dlia.
Qed.

(** One call of [tls_fls_fast_write], continuing the stream. *)
Lemma stream_write bufp l buf s (Q : Z -> fls E D -> Prop) :
  inside_fls s = Some f -> fls_lock f = 1 ->
  stream region s0 a0 off l s -> (gsSector s = sector_of a0 l \/ gsSector s = 0) ->
  bufp <> 0 -> bytes_ok buf -> 0 < zlen buf -> zlen l + zlen buf <= len ->
  (forall s', stream region s0 a0 off (l ++ buf) s' -> gsSector s' = sector_of a0 (l ++ buf) ->
     inside_fls s' = Some f -> Q TLS_FLS_STATUS_OK s') ->
  wp (tls_fls_fast_write (a0 + zlen l) bufp buf (zlen buf)) s Q.
Proof.
  intros Hin Hlock Hst Hsec Hbp Hb Hne Hmax HQ.
  apply (if_installed_spec _ _ _ f); [done|]. apply wp_bind, (the_fls_spec _ f); [done|].
  assert (Hmod : (a0 + zlen l) mod 2 ^ 27 = off + zlen l).
  { unfold whole in *. subst off. rewrite <- (Z.mod_small (a0 mod 2 ^ 27 + zlen l) (2 ^ 27)) by dlia.
    by rewrite Zplus_mod_idemp_l. }
  rewrite bad_args_false; [|rewrite Hmod; unfold whole in *; dlia|done|done].
  assert (Hsd : (a0 + zlen l) / 4096 = sector_of a0 l /\ (a0 + zlen l) mod 4096 = zlen l mod 4096)
    by (unfold sector_of; dlia). destruct Hsd as [Hs Ho].
  apply wp_bind. unfold sem_acquire. apply wp_bind, (the_fls_spec _ f); [done|]. rewrite Hlock. apply wp_modify.
  set (s1 := Fls _ _ _ _ _ _ _). cbv zeta. change INSIDE_FLS_SECTOR_SIZE with 4096. rewrite Hs, Ho.
  assert (Hst1 : stream region s0 a0 off l s1).
  { destruct Hst as [F ? ? ?]. split; try done. eapply flash_only_trans; [exact F|]. apply gs_step; try done. apply F. }
  apply wp_bind, wp_gets. apply wp_bind.
  replace (negb (sector_of a0 l =? gsSector s1) && negb (gsSector s1 =? 0)) with false.
  2: { simpl. destruct Hsec as [->| ->]; [by rewrite Z.eqb_refl|by rewrite andb_false_r]. }
  apply wp_ret, wp_bind, wp_modify. set (s2 := Fls _ _ _ _ _ _ _).
  replace (if 0 <? zlen l mod 4096 then 4096 - zlen l mod 4096 else 4096) with (4096 - zlen l mod 4096)
    by (case_match; dlia).
  apply wp_bind, (chunk_loop (set_lock 0 f) l buf s2); [done|done| |done|done|done|done|].
  { destruct Hst1 as [F ? ? ?]. split; try done. eapply flash_only_trans; [exact F|]. apply gs_step; try done. apply F. }
  intros s3 Hst3 Hsec3 Hin3. apply wp_bind. unfold sem_release.
  apply wp_bind, (the_fls_spec _ (set_lock 0 f)); [done|]. apply wp_modify, wp_ret, HQ; [|done|].
  - destruct Hst3 as [F ? ? ?]. split; try done. eapply flash_only_trans; [exact F|]. apply gs_step; try done. apply F.
  - simpl. destruct f; simpl in *. by subst.
Qed.

(** All the chunks. *)
Lemma stream_chunks chunks l s (Q : Z -> fls E D -> Prop) :
  inside_fls s = Some f -> fls_lock f = 1 ->
  stream region s0 a0 off l s -> (gsSector s = sector_of a0 l \/ (gsSector s = 0 /\ chunks <> [])) ->
  Forall (fun c => bytes_ok c /\ c <> []) chunks -> zlen l + zlen (concat chunks) <= len ->
  (forall s', stream region s0 a0 off (l ++ concat chunks) s' -> gsSector s' = sector_of a0 (l ++ concat chunks) ->
     inside_fls s' = Some f -> Q TLS_FLS_STATUS_OK s') ->
  wp (fast_chunks (a0 + zlen l) chunks) s Q.
Proof.
  revert l s. induction chunks as [|c chunks IH]; intros l s Hin Hlock Hst Hsec Hall Hmax HQ; cbn [fast_chunks concat].
  - apply wp_ret. simpl in HQ. rewrite app_nil_r in HQ. apply HQ; [done| |done]. by destruct Hsec as [|[_ ?]].
  - apply Forall_cons in Hall as [[Hc Hne] Hall]. simpl in Hmax. rewrite length_app in Hmax.
    assert (0 < zlen c) by (destruct c; simpl; [done|lia]).
    apply wp_bind, stream_write; [done|done|done|tauto|done|done|done|lia|].
    intros s1 Hst1 Hsec1 Hin1. cbn [Z.eqb]. change (TLS_FLS_STATUS_OK =? TLS_FLS_STATUS_OK) with true. cbn iota.
    replace (a0 + zlen l + zlen c) with (a0 + zlen (l ++ c)) by (rewrite length_app; lia).
    apply IH; [done|done|done|by left|done|rewrite length_app; lia|].
    rewrite <- app_assoc. exact HQ.
Qed.

End session.
End fast.

(** ** Properties *)

Section properties.
Context {E D : Type} `{HostLaws E} `{FlashChipLaws D}.
Implicit Types s : fls E D.

Lemma fast_init_spec s f (Q : Z -> fls E D -> Prop) :
  ready s f -> gsflscache s = None ->
  (forall p cache s', flash_only nowhere s s' -> hwst s' = hwst s -> oom s' = oom s -> inside_fls s' = Some f ->
     gsflscache s' = Some (p, cache) -> length cache = 4096%nat -> bytes_ok cache -> gsSector s' = gsSector s ->
     Q TLS_FLS_STATUS_OK s') ->
  (forall s', flash_only nowhere s s' -> inside_fls s' = Some f -> hwst s' = hwst s -> oom s' = true ->
     gsflscache s' = None -> Q (-1) s') ->
  wp tls_fls_fast_write_init s Q.
Proof.
  intros R Hgs Hok Hno. apply (if_installed_spec _ _ _ f); [apply R|]. apply wp_bind, wp_gets. rewrite Hgs.
  apply wp_bind, tls_mem_alloc_spec; [done|apply R| |].
  - intros s1 F1 Hh1 Ho1. apply wp_bind, wp_modify, wp_ret. apply Hno; try done; [|simpl; rewrite (fo_inside _ _ _ F1); apply R].
    eapply flash_only_trans; [by apply fls_only_flash|]. apply gs_step; try done. apply F1.
  - intros p cache s1 F1 Hh1 Ho1 _ _ Hlen Hb. apply wp_bind, wp_modify, wp_ret.
    apply (Hok p cache); try done; simpl.
    + eapply flash_only_trans; [by apply fls_only_flash|]. apply gs_step; try done. apply F1.
    + rewrite (fo_inside _ _ _ F1). apply R.
    + apply (fo_sector _ _ _ F1).
Qed.

Lemma fast_session_spec s f a0 chunks :
  let data := concat chunks in let len := zlen data in let off := a0 mod 2 ^ 27 in
  ready s f -> gsflscache s = None -> gsSector s = 0 -> a0 mod 4096 = 0 -> 0 <= a0 < 2 ^ 28 ->
  chunks <> [] -> Forall (fun c => bytes_ok c /\ c <> []) chunks -> off + whole len + 4096 <= density f ->
  (forall a, fast_region off len a -> chip_prot (dev (hwst s)) (chip_sr (dev (hwst s))) a = false) ->
  wp (fast_session a0 chunks) s (fun r s' =>
    (r = TLS_FLS_STATUS_OK /\ ready s' f /\ gsflscache s' = None /\ gsSector s' = sector_of a0 data /\
       exists tail, zlen (data ++ tail) = whole len + 4096 /\
         chip_byte (dev (hwst s')) ≡ₐ overlay (chip_byte (dev (hwst s))) off (data ++ tail)) \/
    (r = -1 /\ oom s' = true /\ dev (hwst s') = dev (hwst s))).
Proof.
  intros data len off R Hgs Hsec Ha0 Ha0b Hne Hall Hfit Hprot. pose proof R as [R1 R2 R3 R4 R5].
  apply wp_bind, (fast_init_spec _ f); [done|done| |].
  2: { intros s1 _ _ Hh1 Ho1 _. change (-1 =? TLS_FLS_STATUS_OK) with false. apply wp_ret. right. by rewrite Hh1. }
  intros p cache s1 F1 Hh1 Ho1 Hin1 Hgs1 Hcl Hcb Hg1.
  change (TLS_FLS_STATUS_OK =? TLS_FLS_STATUS_OK) with true. cbn iota.
  assert (Hs0 : stream (fast_region off len) s1 a0 off [] s1).
  { split; [by apply flash_only_refl; apply F1|done| |by intros a; rewrite overlay_nil].
    exists p, cache. done. }
  assert (Hfit1 : density f = chip_size (dev (hwst s1))) by (by rewrite Hh1).
  assert (Hprot1 : forall a, fast_region off len a -> chip_prot (dev (hwst s1)) (chip_sr (dev (hwst s1))) a = false)
    by (by rewrite Hh1).
  pose proof (Zle_0_nat (length data)) as Hl0. fold len in Hl0.
  pose proof (stream_chunks s1 f a0 off len Hfit1 R5 eq_refl (conj Ha0 Ha0b) Hl0 Hfit Hprot1 chunks [] s1) as Hchunks.
  replace (a0 + zlen []) with a0 in Hchunks by (simpl; lia).
  apply wp_bind, Hchunks; [done|done|done|right; split; [by rewrite Hg1|done]|done|done|].
  intros s2 Hst2 Hsec2 Hin2. change ([] ++ concat chunks) with data in *.
  apply wp_bind. unfold tls_fls_fast_write_destroy.
  destruct Hst2 as [F2 Ho2 (p2 & c2 & Hgs2 & Hcl2 & Hcb2 & Hpre2) Harr2].
  apply wp_bind, wp_gets. rewrite Hgs2. apply (if_installed_spec _ _ _ f); [done|].
  assert (R' : ready s2 f).
  { assert (R1' : ready s1 f) by (by split; [done|done|apply F1|done|done]).
    by eapply ready_flash. }
  apply wp_bind, (sem_acquire_spec _ f); [done|].
  apply wp_bind, (stream_flush s1 f a0 off len Hfit1 R5 eq_refl (conj Ha0 Ha0b) Hl0 Hfit Hprot1 (set_lock 0 f) (len / 4096) (locked s2 f) p2 c2);
    [done|done| | |unfold whole; lia|done|done|done|done|].
  { eapply flash_only_trans; [exact F2|]. apply gs_step; try done. apply F2. }
  { dlia. }
  intros s3 F3 Ho3 Harr3. apply wp_bind, (sem_release_spec (fast_region off len) s2 _ f); [done|done|].
  intros s4 F4 Hh4 _ Ho4. apply wp_bind, wp_modify, wp_modify, wp_ret. left. split; [done|].
  assert (R4' : ready s4 f) by (by eapply ready_only).
  split; [destruct R4'; by split|]. split; [done|]. split; [simpl; by rewrite (fo_sector _ _ _ F4)|].
  fold len in Hpre2. assert (Hmod : 0 <= len mod 4096 < 4096 /\ len = whole len + len mod 4096) by (unfold whole; dlia).
  exists (drop (Z.to_nat (len mod 4096)) c2). split; [rewrite length_app, length_drop; fold len; lia|].
  intros a. simpl. rewrite Hh4, Harr3. change (hwst (locked s2 f)) with (hwst s2).
  replace (4096 * (len / 4096)) with (whole len) by (unfold whole; lia).
  assert (Hl1 : zlen (take (Z.to_nat (whole len)) data) = whole len).
  { assert (0 <= whole len) by (unfold whole; dlia). rewrite length_take. unfold len in *. lia. }
  replace (data ++ drop (Z.to_nat (len mod 4096)) c2) with (take (Z.to_nat (whole len)) data ++ c2).
  { rewrite <- overlay_app, Hl1. unfold overlay at 1 2. by rewrite Harr2, Hh1. }
  rewrite <- (take_drop (Z.to_nat (whole len)) data) at 2. rewrite <- app_assoc. f_equal.
  fold data len in Hpre2. rewrite <- Hpre2. by rewrite take_drop.
Qed.

(** C29. A fast-write session that finds [gsSector] clear - initialise, write
    any non-empty sequence of consecutive non-empty chunks from a sector
    boundary, destroy - either runs out of memory at once with the chip
    untouched, or leaves in the flash exactly the concatenation of the
    chunks, however it was cut; the session rewrites the sectors up to and
    including the one behind the last byte, whose remaining bytes are
    whatever the cache held, and nothing else. *)
Theorem fast_write_session s f a0 chunks :
  let data := concat chunks in let off := a0 mod 2 ^ 27 in
  ready s f -> gsflscache s = None -> gsSector s = 0 -> a0 mod 4096 = 0 -> 0 <= a0 < 2 ^ 28 ->
  chunks <> [] -> Forall (fun c => bytes_ok c /\ c <> []) chunks ->
  off + whole (zlen data) + 4096 <= density f ->
  (forall a, fast_region off (zlen data) a -> chip_prot (dev (hwst s)) (chip_sr (dev (hwst s))) a = false) ->
  wp (fast_session a0 chunks) s (fun r s' =>
    (r = TLS_FLS_STATUS_OK /\ ready s' f /\ gsflscache s' = None /\
       range (chip_byte (dev (hwst s'))) off (zlen data) = data /\
       forall a, ~ fast_region off (zlen data) a -> chip_byte (dev (hwst s')) a = chip_byte (dev (hwst s)) a) \/
    (r = -1 /\ oom s' = true /\ dev (hwst s') = dev (hwst s))).
Proof.
  intros data off R Hgs Hsec Ha0 Ha0b Hne Hall Hfit Hprot.
  eapply wp_mono; [by apply (fast_session_spec s f)|]. cbv beta. fold data off.
  intros r s' [(Hr & R' & Hg' & _ & tail & Hlen & Harr)|Hno]; [left|by right].
  split; [done|]. split; [done|]. split; [done|]. rewrite length_app, Nat2Z.inj_add in Hlen. split.
  - rewrite Harr. transitivity (range (overlay (overlay (chip_byte (dev (hwst s))) off data) (off + zlen data) tail) off (zlen data)).
    + apply range_ext. intros a _. by rewrite overlay_app.
    + rewrite range_overlay_out by lia. apply range_overlay.
  - intros a Ha. rewrite Harr. unfold fast_region, within in Ha. apply overlay_out. rewrite length_app. lia.
Qed.

(** [gsSector] outlives its session: a later session that starts in
    another sector first writes its freshly allocated cache, whose contents
    nobody has initialised, over the sector the earlier session ended in. *)
Theorem fast_write_stale_sector s f p cache addr bufp buf :
  let stale := gsSector s * 4096 mod 2 ^ 25 in
  ready s f -> gsflscache s = Some (p, cache) -> length cache = 4096%nat -> bytes_ok cache ->
  gsSector s <> 0 -> gsSector s <> addr / 4096 -> 0 <= gsSector s < sector_limit f -> stale < density f ->
  (forall a, within stale 4096 a -> chip_prot (dev (hwst s)) (chip_sr (dev (hwst s))) a = false) ->
  bufp <> 0 -> addr mod 2 ^ 27 < density f -> 0 < zlen buf -> addr mod 4096 + zlen buf < 4096 ->
  wp (tls_fls_fast_write addr bufp buf (zlen buf)) s (fun r s' =>
    r = TLS_FLS_STATUS_OK /\ chip_byte (dev (hwst s')) ≡ₐ overlay (chip_byte (dev (hwst s))) stale cache).
Proof.
  intros stale R Hgs Hcl Hcb Hg0 Hga Hlim Hst Hprot Hbp Haddr Hb Hroom. pose proof R as [R1 R2 R3 R4 [R5 R6]].
  apply (if_installed_spec _ _ _ f); [done|]. apply wp_bind, (the_fls_spec _ f); [done|].
  rewrite bad_args_false by (done || lia). apply wp_bind, (sem_acquire_spec _ f); [done|]. cbv zeta.
  change INSIDE_FLS_SECTOR_SIZE with 4096. apply wp_bind, wp_gets. apply wp_bind. cbn [gsSector locked with_inside].
  rewrite (proj2 (Z.eqb_neq _ _)) by congruence. rewrite (proj2 (Z.eqb_neq (gsSector s) 0)) by done. cbn [negb andb].
  apply (flush_spec _ (set_lock 0 f) p cache); try done; [simpl; lia|].
  intros s1 F1 _ Harr1. apply wp_bind, wp_modify.
  set (s2 := Fls _ _ _ _ _ _ _).
  replace (if 0 <? addr mod 4096 then 4096 - addr mod 4096 else 4096) with (4096 - addr mod 4096) by (case_match; dlia).
  assert (Hfuel : exists n, Z.to_nat (zlen buf / 4096 + 3) = S (S n)) by (exists (Z.to_nat (zlen buf / 4096 + 1)); dlia).
  destruct Hfuel as [n ->]. cbn [mloop]. apply wp_bind, wp_bind. unfold fast_body.
  rewrite (proj2 (Z.leb_gt (zlen buf) 0)) by lia. replace (4096 - addr mod 4096 <? zlen buf) with false by lia. cbv zeta.
  apply wp_bind. unfold gs_memcpy. apply wp_bind, wp_gets. unfold s2 at 1. cbn [gsflscache].
  rewrite (fo_gs _ _ _ F1). change (gsflscache (locked s f)) with (gsflscache s). rewrite Hgs. apply wp_modify.
  change INSIDE_FLS_SECTOR_SIZE with 4096. rewrite (proj2 (Z.leb_gt 4096 _)) by lia.
  apply wp_bind, wp_ret, wp_ret, wp_bind. rewrite Z.sub_diag. apply wp_ret, wp_ret.
  apply wp_bind. unfold sem_release. apply wp_bind, (the_fls_spec _ (set_lock 0 f)); [apply (fo_inside _ _ _ F1)|].
  apply wp_modify, wp_ret. split; [done|]. exact Harr1.
Qed.

End properties.

(** The sample driver in the middle of a second session. *)
Definition stale_fls : fls BumpHost.bump NorChip.nor :=
  Fls (sample_hw SPIFLASH_MID_GD) BumpHost.roomy false (Some (sample_inside SPIFLASH_MID_GD))
    (Some (536870912, replicate 4096 170)) 0x8020 flash_map_default.

Lemma fast_write_session_witness :
  wp (fast_session 0x8010000 [[1; 2; 3]; [4]]) sample_fls (fun r s' =>
    (r = TLS_FLS_STATUS_OK /\ ready s' (sample_inside SPIFLASH_MID_GD) /\ gsflscache s' = None /\
       range (chip_byte (dev (hwst s'))) (0x8010000 mod 2 ^ 27) (zlen (concat [[1; 2; 3]; [4]])) = concat [[1; 2; 3]; [4]] /\
       forall a, ~ fast_region (0x8010000 mod 2 ^ 27) (zlen (concat [[1; 2; 3]; [4]])) a ->
         chip_byte (dev (hwst s')) a = chip_byte (dev (hwst sample_fls)) a) \/
    (r = -1 /\ oom s' = true /\ dev (hwst s') = dev (hwst sample_fls))).
Proof.
  apply (fast_write_session sample_fls (sample_inside SPIFLASH_MID_GD));
    [exact sample_ready|reflexivity|reflexivity|reflexivity|lia|done| |vm_compute; discriminate|].
  - repeat constructor; (lia || done).
  - intros a _. apply sample_unprotected.
Defined.

Lemma stale_ready : ready stale_fls (sample_inside SPIFLASH_MID_GD).
Proof. destruct sample_ready. by split. Qed.

Lemma fast_write_stale_sector_witness :
  wp (tls_fls_fast_write 0x8010000 536870912 [1; 2; 3] (zlen [1; 2; 3])) stale_fls (fun r s' =>
    r = TLS_FLS_STATUS_OK /\
    chip_byte (dev (hwst s')) ≡ₐ
      overlay (chip_byte (dev (hwst stale_fls))) (gsSector stale_fls * 4096 mod 2 ^ 25) (replicate 4096 170)).
Proof.
  apply (fast_write_stale_sector stale_fls (sample_inside SPIFLASH_MID_GD) 536870912 (replicate 4096 170));
    [exact stale_ready|reflexivity|apply length_replicate| |simpl; lia|vm_compute; discriminate
    |vm_compute; split; [discriminate|reflexivity]|vm_compute; reflexivity| |lia|vm_compute; reflexivity|simpl; lia|vm_compute; reflexivity].
  - apply Forall_replicate. unfold byte_ok. lia.
  - intros a _. apply sample_unprotected.
Defined.
