(* ===== verification/FlsMisc.v ===== *)
(** * Protection, whole-chip erase, initialisation and system positions *)
From S2P Require Import Prelude CMonad HostEnv FlashChip FlsHw FlsStatus FlsDriver FlsRead FlsWrite.

Section misc.
Context {E D : Type} `{HostLaws E} `{FlashChipLaws D}.
Implicit Types s : fls E D.

(** ** Block protection *)

(** Code on the chip that may only change status registers, between acquire
    and release. *)
Lemma status_entry_spec s f (m : tls_inside_fls -> M (hw D) Z) (r0 : Z) (P : hw D -> Prop) :
  ready s f ->
  wp (m (set_lock 0 f)) (hwst s) (fun r h' => r = r0 /\ status_only (hwst s) h' /\ P h') ->
  wp (if_installed TLS_FLS_STATUS_EPERM (
        sem_acquire ;;
        f ← the_fls;
        r ← on_hw (m f);
        sem_release ;;
        mret r)) s (fun r s' => 
        r = r0 /\ ready s' f /\ fmap s' = fmap s /\ oom s' = oom s /\ status_only (hwst s) (hwst s') /\ P (hwst s')).
Proof.
  intros R Hm. pose proof R as [R1 R2 R3 R4 R5].
  apply (if_installed_spec _ _ _ f); [done|]. apply wp_bind, (sem_acquire_spec _ f); [done|].
  apply wp_bind, (the_fls_spec _ (set_lock 0 f)); [done|]. apply wp_bind. unfold on_hw. apply wp_zoom.
  apply wp_run in Hm as (r & h' & Hm & -> & Hs & HP). cbn [hwst locked with_inside]. rewrite Hm.
  apply wp_bind. unfold sem_release. apply wp_bind, (the_fls_spec _ (set_lock 0 f)); [done|].
  apply wp_modify, wp_ret. split; [done|]. split; [|done]. destruct Hs as [Hok Hp Ha Ho]. split; simpl.
  - destruct f; simpl in *. by subst.
  - done.
  - done.
  - rewrite R4. symmetry. apply Hp.
  - done.
Qed.

(** The part is one whose status registers the lock functions know. *)
Definition lock_supported (d : D) (dens : Z) : Prop :=
  let rid := byte_at (chip_id d) 0 in
  status_commands d rid dens /\ one_reg rid dens || two_reg rid dens = true.

Lemma with_bp_0_none sr : with_bp sr 0 &&& BP_MASK = 0.
Proof.
  unfold with_bp, BP_MASK. rewrite Z.lor_0_r, <- Z.land_assoc. change (0xBF83 &&& 0x407C) with 0.
  apply Z.land_0_r.
Qed.

Lemma tls_flash_unlock_spec s f :
  ready s f -> lock_supported (dev (hwst s)) (density f) ->
  wp tls_flash_unlock s (fun r s' =>
    r = 0 /\ ready s' f /\ fmap s' = fmap s /\ oom s' = oom s /\ status_only (hwst s) (hwst s') /\
    chip_sr (dev (hwst s')) = with_bp (chip_sr (dev (hwst s))) 0 /\
    forall a, chip_prot (dev (hwst s')) (chip_sr (dev (hwst s'))) a = false).
Proof.
  intros R [Hcmd Hsup].
  eapply wp_mono; [apply (status_entry_spec s f (fun f => flashunlock (density f)) 0 (fun h' =>
    chip_sr (dev h') = with_bp (chip_sr (dev (hwst s))) 0)); [done|]|].
  - apply (write_bp_spec (density f)); [apply R|by left|done|done|]. intros h' Hs Hsr. done.
  - cbv beta. intros r s' (-> & R' & Hm & Ho & Hs & Hsr). repeat (split; [done|]).
    intros a. rewrite Hsr. apply chip_prot_none, with_bp_0_none.
Qed.

(** A taken lock blocks. *)
Lemma blocked_args {A} (r0 r : A) (k : tls_inside_fls -> unit -> M (fls E D) A) s f (b : tls_inside_fls -> bool) :
  inside_fls s = Some f -> fls_lock f = 0 -> b f = false ->
  if_installed r0 (f ← the_fls; if b f then mret r else sem_acquire ≫= k f) s = None.
Proof.
  intros Hf Hl Hb. unfold if_installed, sem_acquire, the_fls, mbind, M_bind, gets.
  rewrite Hf, Hf, Hb. rewrite Hf. by rewrite Hl.
Qed.

(** ** Erasing the chip *)

Lemma all_blank_true cache : length cache = 4096%nat ->
  all_blank cache = true -> forall i, 0 <= i < 4096 -> byte_at cache i = 255.
Proof.
  intros Hlen Hb i Hi. unfold all_blank in Hb. rewrite take_ge in Hb by lia.
  rewrite forallb_forall in Hb. apply Z.eqb_eq, Hb, list_elem_of_In.
  apply list_elem_of_lookup_2 with (Z.to_nat i). apply lookup_byte_at. lia.
Qed.

(** After [i] sectors from 0x2000 on. *)
Lemma chip_erase_loop_spec n i p cache s f (Q : unit -> fls E D -> Prop) :
  density f = chip_size (dev (hwst s)) -> density f mod 4096 = 0 -> density f <= 2 ^ 25 ->
  hw_ok (hwst s) -> p mod 4 = 0 -> length cache = 4096%nat -> 0 <= i ->
  0x2000 + 4096 * (i + Z.of_nat n) <= density f ->
  (forall a, 0x2000 <= a < density f -> chip_prot (dev (hwst s)) (chip_sr (dev (hwst s))) a = false) ->
  (forall s', fls_only (within (0x2000 + 4096 * i) (4096 * Z.of_nat n)) s s' -> oom s' = oom s ->
     (forall a, within (0x2000 + 4096 * i) (4096 * Z.of_nat n) a -> chip_byte (dev (hwst s')) a = 255) -> Q tt s') ->
  wp (chip_erase_loop n i p cache) s Q.
Proof.
  revert i cache s. induction n as [|n IH]; intros i cache s Hden Hd4 Hd25 Hok Hp Hc Hi Hfit Hprot HQ;
    cbn [chip_erase_loop].
  - apply wp_ret, HQ; [by apply fls_only_refl|done|]. unfold within. lia.
  - set (base := 0x2000 + 4096 * i).
    assert (Ha : (INSIDE_FLS_SECBOOT_ADDR + i * INSIDE_FLS_SECTOR_SIZE) = 2 ^ 27 + base)
      by (unfold INSIDE_FLS_SECBOOT_ADDR, INSIDE_FLS_BASE_ADDR, INSIDE_FLS_SECTOR_SIZE, base; lia).
    assert (Hm : (2 ^ 27 + base) mod 2 ^ 25 = base).
    { replace (2 ^ 27 + base) with (base + 4 * 2 ^ 25) by lia. rewrite Z.mod_add by lia.
      apply Z.mod_small. unfold base. lia. }
    rewrite Ha. change INSIDE_FLS_SECTOR_SIZE with 4096.
    apply wp_bind, flashRead_aligned; rewrite ?Hm;
      [done|unfold base; dlia|done|done|lia|unfold base; lia|unfold base; lia|unfold base; lia|lia|lia|].
    intros s1 F1 Hd1 _ Ho1. cbn [snd]. rewrite memcpy_at_all by (rewrite length_range; lia).
    set (c := range (chip_byte (dev (hwst s))) base 4096).
    assert (Hcl : length c = 4096%nat) by (unfold c; by rewrite length_range).
    apply wp_bind. apply wp_mono with (Q := fun _ s2 => fls_only (within base 4096) s1 s2 /\ oom s2 = oom s1 /\
      forall a, within base 4096 a -> chip_byte (dev (hwst s2)) a = 255).
    { destruct (all_blank c) eqn:Eb; cbn [negb].
      - apply wp_ret. split; [apply fls_only_refl, F1|]. split; [done|]. intros a Hin. unfold within in Hin.
        pose proof (all_blank_true c Hcl Eb (a - base) ltac:(lia)) as Hv. unfold c in Hv.
        rewrite byte_at_range in Hv by lia. rewrite Hd1. by replace (base + (a - base)) with a in Hv by lia.
      - apply wp_bind, (on_hw_spec _ _ (within base 4096)), eraseSector_spec; rewrite ?Hm, ?Hd1;
          [apply F1|unfold base; dlia|unfold base; lia| |].
        { intros a Ha'. apply Hprot. unfold base in Ha'. lia. }
        intros h2 O2 H255. split; [done|]. intros s2 F2 Hh2 _ Ho2. apply wp_ret. rewrite Hh2. done. }
    intros [] s2 (F2 & Ho2 & H255).
    assert (F12 : fls_only (within base 4096) s s2) by (eapply fls_only_trans; [by apply fls_only_nowhere|done]).
    assert (Hmono : forall a, within base 4096 a -> within (0x2000 + 4096 * i) (4096 * Z.of_nat (S n)) a)
      by (unfold within, base; lia).
    destruct (fo_hw _ _ _ F12) as [Hok2 (Hsz2 & _ & _ & _ & _ & _ & Hpr2) _ [Hsr2 _] _ _ _].
    apply IH; [by rewrite Hsz2|done|done|done|done|done|lia|lia| |].
    { intros a Ha'. rewrite Hpr2, Hsr2. by apply Hprot. }
    intros s3 F3 Ho3 H255'. apply HQ; [|congruence|].
    + eapply fls_only_trans; [eapply fls_only_mono; [exact Hmono|exact F12]|].
      eapply fls_only_mono; [|exact F3]. unfold within. lia.
    + intros a Hin. destruct (decide (within (0x2000 + 4096 * (i + 1)) (4096 * Z.of_nat n) a)) as [Hlater|Hnow];
        [by apply H255'|].
      rewrite (only_byte _ _ _ _ (fo_hw _ _ _ F3)) by done. apply H255. unfold within, base in *. lia.
Qed.

(** ** Positions of the system sectors *)

Lemma base_lor_pow2 k : 0 <= k < 27 -> INSIDE_FLS_BASE_ADDR ||| 2 ^ k = INSIDE_FLS_BASE_ADDR + 2 ^ k.
Proof.
  intros Hk. unfold INSIDE_FLS_BASE_ADDR. change 0x8000000 with (2 ^ 27). symmetry.
  rewrite <- Z.lxor_lor; [apply Z.add_nocarry_lxor|]; apply Z.bits_inj'; intros i Hi;
    rewrite Z.land_spec, !Z.pow2_bits_eqb, Z.bits_0 by lia;
    destruct (Z.eqb_spec 27 i), (Z.eqb_spec k i); (done || lia).
Qed.

End misc.

(** ** Properties *)

Section properties.
Context {E D : Type} `{HostLaws E} `{FlashChipLaws D}.
Implicit Types s : fls E D.

(** On every part with a known status layout [tls_flash_unlock] leaves
    no address protected, and both lock functions set the block-protect
    field to their pattern while every other status bit, the array and the
    one-time area keep their values; the lock is free afterwards. *)
Theorem flash_lock_sets_protection s f :
  ready s f -> lock_supported (dev (hwst s)) (density f) ->
  wp tls_flash_unlock s (fun r s' =>
    r = 0 /\ ready s' f /\ status_only (hwst s) (hwst s') /\
    chip_sr (dev (hwst s')) = with_bp (chip_sr (dev (hwst s))) 0 /\
    forall a, chip_prot (dev (hwst s')) (chip_sr (dev (hwst s'))) a = false) /\
  wp tls_flash_lock s (fun r s' =>
    r = 0 /\ ready s' f /\ status_only (hwst s) (hwst s') /\
    chip_sr (dev (hwst s')) = with_bp (chip_sr (dev (hwst s))) 0x68).
Proof.
  intros R [Hcmd Hsup]. split.
  - eapply wp_mono; [by apply (tls_flash_unlock_spec s f)|]. cbv beta. tauto.
  - eapply wp_mono; [apply (status_entry_spec s f (fun f => flashlock (density f)) 0 (fun h' =>
      chip_sr (dev h') = with_bp (chip_sr (dev (hwst s))) 0x68)); [done|]|
      cbv beta; intros r s' (-> & R' & _ & _ & Hs & Hsr); by repeat (split; [done|])].
    apply (write_bp_spec (density f)); [apply R|by right|done|done|]. intros h' Hs Hsr. done.
Qed.

(** On a part whose one-time area cannot be locked [tls_fls_otp_lock]
    answers ENOSUPPORT but keeps the semaphore: from then on every other
    driver call blocks for ever. *)
Theorem otp_lock_unsupported_deadlocks s f addr bufp buf len sector :
  ready s f -> flashid f = SPIFLASH_MID_XTX \/ flashid f = SPIFLASH_MID_ESMT ->
  bad_args f addr bufp len = false -> sector < sector_limit f ->
  wp tls_fls_otp_lock s (fun r s' =>
    r = TLS_FLS_STATUS_ENOSUPPORT /\
    tls_fls_read addr bufp buf len s' = None /\ tls_fls_write addr bufp buf len s' = None /\
    tls_fls_erase sector s' = None /\ tls_flash_unlock s' = None /\ tls_fls_otp_lock s' = None).
Proof.
  intros R Hid Hargs Hsec. apply (if_installed_spec _ _ _ f); [apply R|].
  apply wp_bind, (sem_acquire_spec _ f); [done|]. apply wp_bind, (the_fls_spec _ (set_lock 0 f)); [done|].
  assert (Hr : forall Q : Z -> fls E D -> Prop, Q TLS_FLS_STATUS_ENOSUPPORT (locked s f) -> forall m1 m2 m3 m4,
    wp (if bool_decide (flashid f ∈ [SPIFLASH_MID_GD; SPIFLASH_MID_TSINGTENG]) then m1
        else if flashid f =? SPIFLASH_MID_TSINGTENG_1MB_4MB then m2
        else if flashid f =? SPIFLASH_MID_FUDANMICRO then m3
        else if bool_decide (flashid f ∈ [SPIFLASH_MID_BOYA; SPIFLASH_MID_XMC; SPIFLASH_MID_WINBOND; SPIFLASH_MID_PUYA])
        then m4 else mret TLS_FLS_STATUS_ENOSUPPORT) (locked s f) Q).
  { intros Q HQ m1 m2 m3 m4. destruct Hid as [-> | ->]; exact HQ. }
  apply Hr. split; [done|].
  assert (Hi : inside_fls (locked s f) = Some (set_lock 0 f)) by done.
  repeat split.
  - by apply (blocked_args _ _ _ _ (set_lock 0 f) (fun f => bad_args f addr bufp len)).
  - by apply (blocked_args _ _ _ _ (set_lock 0 f) (fun f => bad_args f addr bufp len)).
  - apply (blocked_args _ _ _ _ (set_lock 0 f) (fun f => sector_limit f <=? sector)); try done.
    by apply Z.leb_gt.
Qed.

(** [tls_fls_chip_erase] leaves every byte from the secondary boot
    loader on erased, and the first 8 KiB, where the boot loader is, as they
    were; or it reports that memory ran out and does nothing. *)
Theorem chip_erase_spares_boot s f :
  ready s f -> 0x2000 <= density f ->
  (forall a, 0x2000 <= a < density f -> chip_prot (dev (hwst s)) (chip_sr (dev (hwst s))) a = false) ->
  wp tls_fls_chip_erase s (fun r s' =>
    ready s' f /\
    ((r = TLS_FLS_STATUS_OK /\ forall a, 0 <= a < density f ->
        chip_byte (dev (hwst s')) a = if a <? 0x2000 then chip_byte (dev (hwst s)) a else 255) \/
     (r = TLS_FLS_STATUS_ENOMEM /\ dev (hwst s') = dev (hwst s)))).
Proof.
  intros R Hmin Hprot. pose proof R as [R1 R2 R3 R4 [R5 R6]].
  apply (if_installed_spec _ _ _ f); [done|]. apply wp_bind, (sem_acquire_spec _ f); [done|].
  apply wp_bind, tls_mem_alloc_spec; [done|done| |].
  - intros s1 F1 Hh1 Ho1. apply wp_bind, (sem_release_spec nowhere s _ f); [done|done|].
    intros s2 F2 Hh2 _ Ho2. apply wp_ret. split; [by eapply ready_only|]. right. by rewrite Hh2, Hh1.
  - intros p cache s1 F1 Hh1 Ho1 Hp4 _ Hc _.
    apply wp_bind, (the_fls_spec _ (set_lock 0 f)); [by rewrite (fo_inside _ _ _ F1)|]. cbv zeta.
    change (INSIDE_FLS_SECBOOT_ADDR &&& 0xFFFFF) with 0x2000. change INSIDE_FLS_SECTOR_SIZE with 4096.
    change (density (set_lock 0 f)) with (density f).
    assert (Hu : u32 (density f - 0x2000) = density f - 0x2000) by (apply wrap_id; lia). rewrite Hu.
    set (n := Z.to_nat ((density f - 0x2000) / 4096)).
    assert (Hn : 4096 * Z.of_nat n = density f - 0x2000) by (unfold n; dlia).
    change (hwst (locked s f)) with (hwst s) in Hh1.
    apply wp_bind, (chip_erase_loop_spec n 0 p cache s1 f); rewrite ?Hh1;
      [done|done|lia|done|done|done|lia|lia|done|].
    intros s2 F2 Ho2 H255. set (S := within _ _) in *.
    apply wp_bind, tls_mem_free_spec; [apply F2|]. intros s3 F3 Hh3 _.
    apply wp_bind, (sem_release_spec S s _ f); [done| |].
    { eapply fls_only_trans; [by apply fls_only_nowhere|]. eapply fls_only_trans; [done|by apply fls_only_nowhere]. }
    intros s4 F4 Hh4 _ _. apply wp_ret. split; [by eapply ready_only|]. left. split; [done|].
    intros a Ha. rewrite Hh4, Hh3. destruct (Z.ltb_spec a 0x2000) as [Hlow|Hhigh].
    + rewrite (only_byte _ _ _ _ (fo_hw _ _ _ F2)), Hh1; [done|]. unfold S, within. lia.
    + apply H255. unfold S, within. lia.
Qed.

(** Initialisation: on a chip of a supported manufacturer with 2^k bytes
    (k from 15 to 25) [tls_fls_init] followed by
    [tls_fls_sys_param_postion_init] either runs out of memory or installs
    the driver, at rest, with the density of the chip, and places the seven
    system addresses in the last six sectors, distinct, sector aligned and
    inside the chip. *)
Theorem fls_init_positions s k es :
  inside_fls s = None -> hw_ok (hwst s) -> 15 <= k <= 25 ->
  byte_at (chip_id (dev (hwst s))) 2 = k -> chip_size (dev (hwst s)) = 2 ^ k ->
  otp_erase_size (byte_at (chip_id (dev (hwst s))) 0) (2 ^ k) = Some es ->
  wp (r ← tls_fls_init; tls_fls_sys_param_postion_init ;; mret r) s (fun r s' =>
    dev (hwst s') = dev (hwst s) /\
    ((r = TLS_FLS_STATUS_ENOMEM /\ inside_fls s' = None /\ fmap s' = fmap s) \/
     (r = TLS_FLS_STATUS_OK /\
        ready s' (InsideFls 1 (byte_at (chip_id (dev (hwst s))) 0) (2 ^ k) es 256) /\
        let top := INSIDE_FLS_BASE_ADDR + 2 ^ k in
        fmap s' = FlashMap (top - 6 * 4096) (top - 5 * 4096) (top - 4 * 4096) (top - 3 * 4096)
                    (top - 2 * 4096) (top - 4096) (top - 1)))).
Proof.
  intros Hni Hok Hk Hcode Hsize Hes.
  assert (Hpow : 2 ^ 15 <= 2 ^ k <= 2 ^ 25) by (split; apply Z.pow_le_mono_r; lia).
  assert (H4 : 2 ^ k mod 4096 = 0).
  { replace k with (12 + (k - 12)) by lia. rewrite Z.pow_add_r by lia. change (2 ^ 12) with 4096.
    rewrite Z.mul_comm. apply Z.mod_mul. lia. }
  assert (Hlate : forall r s', inside_fls s' = None -> fmap s' = fmap s -> dev (hwst s') = dev (hwst s) -> r = TLS_FLS_STATUS_ENOMEM ->
    wp (tls_fls_sys_param_postion_init ;; mret r) s' (fun r s' => dev (hwst s') = dev (hwst s) /\
      ((r = TLS_FLS_STATUS_ENOMEM /\ inside_fls s' = None /\ fmap s' = fmap s) \/
       (r = TLS_FLS_STATUS_OK /\
        ready s' (InsideFls 1 (byte_at (chip_id (dev (hwst s))) 0) (2 ^ k) es 256) /\
        let top := INSIDE_FLS_BASE_ADDR + 2 ^ k in
        fmap s' = FlashMap (top - 6 * 4096) (top - 5 * 4096) (top - 4 * 4096) (top - 3 * 4096)
                    (top - 2 * 4096) (top - 4096) (top - 1))))).
  { intros r s' Hn Hm Hd ->. apply wp_bind. unfold tls_fls_sys_param_postion_init, tls_fls_get_param. apply wp_bind.
    eapply wp_eq; [by apply not_installed|]. apply wp_ret, wp_ret. split; [done|by left]. }
  apply wp_bind. unfold tls_fls_init. apply wp_bind, wp_gets. rewrite Hni.
  apply wp_bind, tls_mem_alloc_spec; [done|done| |].
  { intros s1 F1 Hh1 Ho1. apply wp_ret. apply Hlate; [by rewrite (fo_inside _ _ _ F1)|apply F1|by rewrite Hh1|done]. }
  intros p l s1 F1 Hh1 _ _ _ _ _. destruct (h_sem_create (env s1)) as [ok e] eqn:Es.
  apply wp_bind. eapply wp_eq; [rewrite Es; reflexivity|]. destruct ok; cbn [negb].
  2: { apply wp_bind, wp_modify, wp_ret. apply Hlate; simpl; [by rewrite (fo_inside _ _ _ F1)|apply F1|by rewrite Hh1|done]. }
  set (s2 := Fls _ _ _ _ _ _ _). assert (Hh2 : hwst s2 = hwst s) by done.
  apply wp_bind, (on_hw_spec _ _ nowhere). rewrite Hh2. apply readRID_spec; [done|].
  intros h3 O3 Hd3. split; [done|]. intros s3 F3 Hh3 _ _.
  apply wp_bind, (on_hw_spec _ _ nowhere). rewrite Hh3. apply getFlashDensity_spec; [apply O3|rewrite Hd3; lia|].
  intros h4 O4 Hd4. split; [done|]. intros s4 F4 Hh4 _ _.
  assert (Hdens : density_of (chip_id (dev h3)) = 2 ^ k).
  { rewrite Hd3. unfold density_of. rewrite Hcode.
    by rewrite (proj2 (Z.eqb_neq k 0)), (proj2 (Z.leb_le k 0x21)) by lia. }
  rewrite Hdens, Hes. set (f := InsideFls _ _ _ _ _). apply wp_bind, wp_modify, wp_ret.
  set (s5 := Fls _ _ _ _ _ _ _).
  assert (R5 : ready s5 f).
  { split; [done|done| | |done || (split; [done|simpl; lia])]; simpl; rewrite Hh4; [apply O4|]. by rewrite Hd4, Hd3, Hsize. }
  apply wp_bind. unfold tls_fls_sys_param_postion_init, tls_fls_get_param. apply wp_bind.
  apply (if_installed_spec _ _ _ f); [done|]. apply wp_bind, (sem_acquire_spec _ f); [done|].
  apply wp_bind, (the_fls_spec _ (set_lock 0 f)); [done|]. cbv zeta. cbn [Z.eqb Pos.eqb].
  apply wp_bind, (sem_release_spec nowhere s5 _ f); [done|by apply locked_only|].
  intros s6 F6 Hh6 _ _. apply wp_ret. cbn iota. apply wp_modify, wp_ret.
  assert (Hd6 : dev (hwst s6) = dev (hwst s)).
  { rewrite Hh6. change (hwst (locked s5 f)) with (hwst s4). congruence. }
  split; [exact Hd6|]. right. split; [done|]. split.
  - destruct (ready_only nowhere s5 s6 f R5 F6) as [A1 A2 A3 A4 A5].
    split; [exact A1|exact A2|exact A3|exact A4|exact A5].
  - unfold map_for. change (density (set_lock 0 f)) with (2 ^ k). rewrite base_lor_pow2 by lia.
    unfold INSIDE_FLS_BASE_ADDR. simpl fmap. f_equal; apply wrap_id; lia.
Qed.

End properties.

Lemma flash_lock_sets_protection_witness :
  lock_supported (dev (hwst sample_fls)) 0x200000 /\
  wp tls_flash_unlock sample_fls (fun r s' =>
    r = 0 /\ ready s' (sample_inside SPIFLASH_MID_GD) /\ status_only (hwst sample_fls) (hwst s') /\
    chip_sr (dev (hwst s')) = with_bp (chip_sr (dev (hwst sample_fls))) 0 /\
    forall a, chip_prot (dev (hwst s')) (chip_sr (dev (hwst s'))) a = false).
Proof.
  assert (Hs : lock_supported (dev (hwst sample_fls)) 0x200000) by (split; [by split|reflexivity]).
  split; [exact Hs|].
  exact (proj1 (flash_lock_sets_protection sample_fls (sample_inside SPIFLASH_MID_GD) sample_ready Hs)).
Defined.

(** The sample driver on a part without lockable one-time area. *)
Definition xtx_fls : fls BumpHost.bump NorChip.nor :=
  Fls (sample_hw SPIFLASH_MID_XTX) BumpHost.roomy false (Some (sample_inside SPIFLASH_MID_XTX)) None 0 flash_map_default.

Lemma xtx_ready : ready xtx_fls (sample_inside SPIFLASH_MID_XTX).
Proof. destruct sample_ready. by split. Qed.

Lemma otp_lock_unsupported_deadlocks_witness :
  wp tls_fls_otp_lock xtx_fls (fun r s' =>
    r = TLS_FLS_STATUS_ENOSUPPORT /\
    tls_fls_read 0x8002000 4 [0] 1 s' = None /\ tls_fls_write 0x8002000 4 [0] 1 s' = None /\
    tls_fls_erase 0x8010 s' = None /\ tls_flash_unlock s' = None /\ tls_fls_otp_lock s' = None).
Proof.
  apply (otp_lock_unsupported_deadlocks xtx_fls (sample_inside SPIFLASH_MID_XTX));
    [exact xtx_ready|by left|reflexivity|vm_compute; reflexivity].
Defined.

Lemma chip_erase_spares_boot_witness :
  wp tls_fls_chip_erase sample_fls (fun r s' =>
    ready s' (sample_inside SPIFLASH_MID_GD) /\
    ((r = TLS_FLS_STATUS_OK /\ forall a, 0 <= a < density (sample_inside SPIFLASH_MID_GD) ->
        chip_byte (dev (hwst s')) a = if a <? 0x2000 then chip_byte (dev (hwst sample_fls)) a else 255) \/
     (r = TLS_FLS_STATUS_ENOMEM /\ dev (hwst s') = dev (hwst sample_fls)))).
Proof.
  apply chip_erase_spares_boot; [exact sample_ready|vm_compute; discriminate|].
  intros a _. apply sample_unprotected.
Defined.

(** The driver before initialisation. *)
Definition cold_fls : fls BumpHost.bump NorChip.nor :=
  Fls (sample_hw SPIFLASH_MID_GD) BumpHost.roomy false None None 0 flash_map_default.

Lemma fls_init_positions_witness :
  wp (r ← tls_fls_init; tls_fls_sys_param_postion_init ;; mret r) cold_fls (fun r s' =>
    dev (hwst s') = dev (hwst cold_fls) /\
    ((r = TLS_FLS_STATUS_ENOMEM /\ inside_fls s' = None /\ fmap s' = fmap cold_fls) \/
     (r = TLS_FLS_STATUS_OK /\
        ready s' (InsideFls 1 (byte_at (chip_id (dev (hwst cold_fls))) 0) (2 ^ 21) 1024 256) /\
        let top := INSIDE_FLS_BASE_ADDR + 2 ^ 21 in
        fmap s' = FlashMap (top - 6 * 4096) (top - 5 * 4096) (top - 4 * 4096) (top - 3 * 4096)
                    (top - 2 * 4096) (top - 4096) (top - 1)))).
Proof.
  apply (fls_init_positions cold_fls 21 1024); [reflexivity|apply sample_ready|lia|reflexivity|reflexivity|reflexivity].
Defined.
