(* ===== verification/CrcHard.v ===== *)
(** * The CRC part of the crypto driver ([wm_crypto_hard.c])

    The general-purpose security unit computes CRCs over a block of memory:
    the driver writes a configuration word and a key register, starts the
    unit, waits for its interrupt and reads the result register.  What the
    unit computes is a parameter with a law; the driver's way of continuing a
    CRC over several blocks is proved to give the CRC of the whole message,
    the same as the software [get_crc32]. *)
From S2P Require Import Prelude CMonad Checksum.
Import Crc32 Crc32Facts.

Definition CRYPTO_METHOD_CRC : Z := 6.
Definition CRYPTO_CRC_TYPE_8 : Z := 0.
Definition CRYPTO_CRC_TYPE_16_MODBUS : Z := 1.
Definition CRYPTO_CRC_TYPE_16_CCITT : Z := 2.
Definition CRYPTO_CRC_TYPE_32 : Z := 3.
Definition OUTPUT_REFLECT : Z := 1.
Definition ERR_CRY_OK : Z := 0.

(** A field above the low [k] bits. *)
Lemma lor_shiftl k a b : 0 <= k -> 0 <= b < 2 ^ k -> (a ≪ k) ||| b = a * 2 ^ k + b.
Proof.
  intros Hk Hb. assert (Hd : (a ≪ k) &&& b = 0).
  { apply Z.bits_inj'. intros i Hi. rewrite Z.land_spec, Z.bits_0, Z.shiftl_spec by done.
    destruct (Z.lt_ge_cases i k); [by rewrite Z.testbit_neg_r by lia|].
    rewrite (testbit_high k b) by lia. apply andb_false_r. }
  by rewrite <- Z.lxor_lor, <- Z.add_nocarry_lxor, Z.shiftl_mul_pow2 by done.
Qed.

(** [psCrcContext_t] *)
Record psCrcContext_t := CrcContext { ctx_state : Z; ctx_type : Z; ctx_mode : Z }.

(** [g_crypto_ctx] and the unit's registers; a NULL lock is [None]. *)
Record gpsec := Gpsec {
  gpsec_lock : option Z;
  gpsec_complete : bool;
  clock_open : bool;
  HR_CRYPTO_SEC_CFG : Z;
  HR_CRYPTO_CRC_KEY : Z;
  HR_CRYPTO_CRC_RESULT : Z
}.

(** The value the unit leaves in its result register for a configuration
    word, a key register and the block at the source address. *)
Class CrcEngine := crc_engine : Z -> Z -> list Z -> Z.

(** [for (i = 1; i < ch + 1; i++) { if (ref & 1) value |= 1 << (ch - i); ref >>= 1; }] *)
Definition Reflect (ref ch : Z) : Z :=
  snd (fold_left (fun '(ref, value) i =>
    (ref ≫ 1, if Z.odd ref then u32 (value ||| (1 ≪ (ch - i))) else value)) (seqZ 1 ch) (ref, 0)).

Section driver.
Context `{CrcEngine}.

Definition tls_crypto_sem_lock : M gpsec unit := fun g =>
  match gpsec_lock g with
  | None => Some (tt, g)
  | Some n =>
      if 0 <? n then
        Some (tt, Gpsec (Some (n - 1)) (gpsec_complete g) (clock_open g) (HR_CRYPTO_SEC_CFG g) (HR_CRYPTO_CRC_KEY g) (HR_CRYPTO_CRC_RESULT g))
      else None
  end.

Definition tls_crypto_sem_unlock : M gpsec unit := modify (fun g =>
  match gpsec_lock g with
  | None => g
  | Some n => Gpsec (Some (n + 1)) (gpsec_complete g) (clock_open g) (HR_CRYPTO_SEC_CFG g) (HR_CRYPTO_CRC_KEY g) (HR_CRYPTO_CRC_RESULT g)
  end).

Definition set_clock (b : bool) : M gpsec unit := modify (fun g =>
  Gpsec (gpsec_lock g) (gpsec_complete g) b (HR_CRYPTO_SEC_CFG g) (HR_CRYPTO_CRC_KEY g) (HR_CRYPTO_CRC_RESULT g)).
Definition set_complete (b : bool) : M gpsec unit := modify (fun g =>
  Gpsec (gpsec_lock g) b (clock_open g) (HR_CRYPTO_SEC_CFG g) (HR_CRYPTO_CRC_KEY g) (HR_CRYPTO_CRC_RESULT g)).
Definition wr_sec_cfg (v : Z) : M gpsec unit := modify (fun g =>
  Gpsec (gpsec_lock g) (gpsec_complete g) (clock_open g) (u32 v) (HR_CRYPTO_CRC_KEY g) (HR_CRYPTO_CRC_RESULT g)).
Definition wr_crc_key (v : Z) : M gpsec unit := modify (fun g =>
  Gpsec (gpsec_lock g) (gpsec_complete g) (clock_open g) (HR_CRYPTO_SEC_CFG g) v (HR_CRYPTO_CRC_RESULT g)).

(** The interrupt of a finished operation. *)
Definition CRYPTION_IRQHandler : M gpsec unit := set_complete true.

(** Starting the unit on the block [input]: it stores its result and raises the
    interrupt. *)
Definition crc_start (input : list Z) : M gpsec unit :=
  modify (fun g => Gpsec (gpsec_lock g) (gpsec_complete g) (clock_open g) (HR_CRYPTO_SEC_CFG g) (HR_CRYPTO_CRC_KEY g)
                     (crc_engine (HR_CRYPTO_SEC_CFG g) (HR_CRYPTO_CRC_KEY g) input)) ;;
  CRYPTION_IRQHandler.

(** [while (!g_crypto_ctx.gpsec_complete) {}] *)
Definition crc_wait : M gpsec unit :=
  c ← gets gpsec_complete;
  if (c : bool) then mret tt else stuck.

Definition tls_crypto_crc_init (key crc_type mode : Z) : psCrcContext_t := CrcContext key crc_type mode.

Definition crc_width (type : Z) : Z :=
  if type =? CRYPTO_CRC_TYPE_8 then 8
  else if type =? CRYPTO_CRC_TYPE_16_MODBUS then 16
  else if type =? CRYPTO_CRC_TYPE_16_CCITT then 16
  else if type =? CRYPTO_CRC_TYPE_32 then 32
  else 16.

(** The configuration word; the length field is 16 bits wide. *)
Definition crc_cfg (ctx : psCrcContext_t) (len : Z) : Z :=
  (CRYPTO_METHOD_CRC ≪ 16) ||| (ctx_type ctx ≪ 21) ||| (ctx_mode ctx ≪ 23) ||| (len &&& 0xFFFF).

(** [tls_crypto_crc_update(ctx, in, len)], [data] the memory at [in]: the unit reads the
    16-bit length it is given from there, which must not leave it. *)
Definition tls_crypto_crc_update (ctx : psCrcContext_t) (data : list Z) (len : Z) : M gpsec psCrcContext_t :=
  if zlen data <? len &&& 0xFFFF then stuck
  else
    tls_crypto_sem_lock ;;
    set_clock true ;;
    wr_sec_cfg (crc_cfg ctx len) ;;
    wr_crc_key (if negb (ctx_mode ctx &&& OUTPUT_REFLECT =? 0)
                then Reflect (ctx_state ctx) (crc_width (ctx_type ctx)) else ctx_state ctx) ;;
    set_complete false ;;
    crc_start (take (Z.to_nat (len &&& 0xFFFF)) data) ;;
    crc_wait ;;
    set_complete false ;;
    state ← gets HR_CRYPTO_CRC_RESULT;
    set_clock false ;;
    tls_crypto_sem_unlock ;;
    mret (CrcContext state (ctx_type ctx) (ctx_mode ctx)).

Definition tls_crypto_crc_final (ctx : psCrcContext_t) : Z := ctx_state ctx.

(** Continuing over several blocks. *)
Fixpoint crc_updates (ctx : psCrcContext_t) (blocks : list (list Z)) : M gpsec psCrcContext_t :=
  match blocks with
  | [] => mret ctx
  | b :: blocks => ctx ← tls_crypto_crc_update ctx b (zlen b); crc_updates ctx blocks
  end.

End driver.

(** What the clients use: CRC-32 with both reflections. *)
Abbreviation crc32_ctx r := (CrcContext r CRYPTO_CRC_TYPE_32 3).

(** What the unit computes in that mode: the key register holds the CRC
    register most significant bit first, the result is the register after the
    block, least significant bit first. *)
Class CrcEngineLaws `{CrcEngine} := {
  crc_engine_spec key data :
    0 <= key < 2 ^ 32 -> bytes_ok data -> zlen data <= 0xFFFF ->
    crc_engine (u32 (crc_cfg (crc32_ctx 0) (zlen data))) key data = ref_reg (Reflect key 32) data
}.

Lemma crc_cfg_32 r n : 0 <= n < 2 ^ 16 -> crc_cfg (crc32_ctx r) n = 486 * 65536 + n.
Proof.
  intros Hn. change (crc_cfg (crc32_ctx r) n) with ((486 ≪ 16) ||| (n &&& Z.ones 16)).
  rewrite Z.land_ones, Z.mod_small, lor_shiftl by lia. done.
Qed.

(** A unit that keeps the law: a software CRC-32. *)
Module SoftCrc.
#[export] Instance engine : CrcEngine := fun cfg key data =>
  if cfg ≫ 16 =? 486 then ref_reg (Reflect key 32) data else 0.

#[export] Instance engine_laws : CrcEngineLaws.
Proof.
  split. intros key data _ _ Hn. unfold crc_engine, engine.
  assert (Hcfg : u32 (crc_cfg (crc32_ctx 0) (zlen data)) = 486 * 65536 + zlen data).
  { rewrite crc_cfg_32 by lia. apply wrap_id. lia. }
  rewrite Hcfg, Z.shiftr_div_pow2 by lia.
  by replace ((486 * 65536 + zlen data) / 2 ^ 16) with 486 by dlia.
Qed.
End SoftCrc.

(** ** Reflection *)

Definition reflect_step (ch : Z) (p : Z * Z) (i : Z) : Z * Z :=
  (fst p ≫ 1, if Z.odd (fst p) then u32 (snd p ||| (1 ≪ (ch - i))) else snd p).

Lemma Reflect_steps ref ch : Reflect ref ch = snd (fold_left (reflect_step ch) (seqZ 1 ch) (ref, 0)).
Proof.
  unfold Reflect. f_equal. generalize (ref, 0). induction (seqZ 1 ch) as [|i l IH]; [done|].
  intros [r v]. simpl. by rewrite IH.
Qed.

Lemma testbit_pow2 k j : 0 <= k -> 0 <= j -> Z.testbit (1 ≪ k) j = (j =? k).
Proof. intros Hk Hj. rewrite Z.shiftl_1_l, Z.pow2_bits_eqb by done. apply Z.eqb_sym. Qed.

Lemma testbit_reflect_step ch p i j :
  0 <= j < 32 -> 0 <= ch - i < 32 -> 0 <= snd p < 2 ^ 32 ->
  Z.testbit (snd (reflect_step ch p i)) j = Z.testbit (snd p) j || (Z.odd (fst p) && (j =? ch - i)) /\
  0 <= snd (reflect_step ch p i) < 2 ^ 32.
Proof.
  intros Hj Hi Hp. unfold reflect_step. cbn [snd]. destruct (Z.odd (fst p)); cbn [andb].
  - assert (Hb : 0 <= snd p ||| (1 ≪ (ch - i)) < 2 ^ 32).
    { apply lor_bounds; [lia|done|]. rewrite Z.shiftl_1_l.
      split; [apply Z.pow_nonneg; lia|apply Z.pow_lt_mono_r; lia]. }
    rewrite wrap_id by done. split; [|done]. rewrite Z.lor_spec, testbit_pow2 by lia. done.
  - by rewrite orb_false_r.
Qed.

(** After the indices from [i] to [ch] the bits of [ref] stand mirrored. *)
Lemma testbit_reflect_loop n i ch p j :
  0 <= j < 32 -> 0 < i -> i + Z.of_nat n = ch + 1 -> ch <= 32 -> 0 <= snd p < 2 ^ 32 ->
  let r := snd (fold_left (reflect_step ch) (seqZ i (Z.of_nat n)) p) in
  0 <= r < 2 ^ 32 /\
  Z.testbit r j = Z.testbit (snd p) j || ((j <=? ch - i) && Z.testbit (fst p) (ch - i - j)).
Proof.
  cbv zeta. revert i p. induction n as [|n IH]; intros i p Hj Hi Hn Hch Hv.
  { simpl. split; [done|]. rewrite (proj2 (Z.leb_gt _ _)) by lia. by rewrite orb_false_r. }
  rewrite seqZ_cons by lia. cbn [fold_left]. replace (Z.pred (Z.of_nat (S n))) with (Z.of_nat n) by lia.
  destruct (testbit_reflect_step ch p i j) as [Hs Hb]; [done|lia|done|].
  destruct (IH (Z.succ i) (reflect_step ch p i)) as [Hb' Ht]; [done|lia|lia|done|done|].
  split; [exact Hb'|]. rewrite Ht, Hs, <- orb_assoc. f_equal. simpl fst.
  destruct (Z.leb_spec j (ch - Z.succ i)); cbn [andb].
  - rewrite Z.shiftr_spec by lia. rewrite (proj2 (Z.leb_le j (ch - i))), (proj2 (Z.eqb_neq j (ch - i))) by lia.
    rewrite andb_false_r. cbn [orb andb]. f_equal. lia.
  - rewrite orb_false_r. destruct (Z.eqb_spec j (ch - i)) as [->|Hne].
    + rewrite Z.leb_refl, Z.sub_diag, andb_true_r. by rewrite Z.bit0_odd.
    + rewrite (proj2 (Z.leb_gt _ _)) by lia. apply andb_false_r.
Qed.

Lemma testbit_Reflect ref j : 0 <= j < 32 -> Z.testbit (Reflect ref 32) j = Z.testbit ref (31 - j).
Proof.
  intros Hj. rewrite Reflect_steps.
  destruct (testbit_reflect_loop 32 1 32 (ref, 0) j) as [_ Ht]; [done|lia|lia|lia|simpl; lia|].
  change (Z.of_nat 32) with 32 in Ht. rewrite Ht. cbn [fst snd]. rewrite Z.testbit_0_l, (proj2 (Z.leb_le _ _)) by lia. done.
Qed.

Lemma Reflect_bounds ref : 0 <= Reflect ref 32 < 2 ^ 32.
Proof.
  rewrite Reflect_steps. apply (testbit_reflect_loop 32 1 32 (ref, 0) 0); simpl; lia.
Qed.

Lemma Reflect_involutive r : 0 <= r < 2 ^ 32 -> Reflect (Reflect r 32) 32 = r.
Proof.
  intros Hr. apply (bits_eq_bounded 32); [apply Reflect_bounds|done|].
  intros j Hj. rewrite !testbit_Reflect by lia. f_equal. lia.
Qed.

(** ** The driver *)

(** The unit with nobody in it. *)
Definition gpsec_ok (g : gpsec) : Prop := match gpsec_lock g with None => True | Some n => n = 1 end.

Section update.
Context `{CrcEngineLaws}.

Lemma crc_update_spec r data n g (Q : psCrcContext_t -> gpsec -> Prop) :
  gpsec_ok g -> 0 <= r < 2 ^ 32 -> bytes_ok data -> 0 <= n <= 0xFFFF -> n <= zlen data ->
  (forall g', gpsec_ok g' -> gpsec_lock g' = gpsec_lock g -> Q (crc32_ctx (ref_reg r (take (Z.to_nat n) data))) g') ->
  wp (tls_crypto_crc_update (crc32_ctx r) data n) g Q.
Proof.
  intros Hg Hr Hd Hn Hlen HQ. unfold tls_crypto_crc_update.
  assert (Hland : n &&& 0xFFFF = n).
  { change 0xFFFF with (Z.ones 16). rewrite Z.land_ones by lia. apply Z.mod_small. lia. }
  rewrite Hland, (proj2 (Z.ltb_ge _ _)) by lia.
  assert (Hz : zlen (take (Z.to_nat n) data) = n) by (rewrite length_take; lia).
  assert (Hres : crc_engine (u32 (crc_cfg (crc32_ctx r) n)) (Reflect r 32) (take (Z.to_nat n) data)
                 = ref_reg r (take (Z.to_nat n) data)).
  { rewrite crc_cfg_32, <- (crc_cfg_32 0 n) by lia. rewrite <- Hz at 1.
    rewrite crc_engine_spec by (first [apply Reflect_bounds|by apply Forall_take|lia]).
    by rewrite Reflect_involutive. }
  destruct g as [lk cp ck cfg key res]. rewrite <- Hres in HQ.
  eapply (wp_eq _ _ _ (Gpsec lk false false (u32 (crc_cfg (crc32_ctx r) n)) (Reflect r 32)
    (crc_engine (u32 (crc_cfg (crc32_ctx r) n)) (Reflect r 32) (take (Z.to_nat n) data)))); [|by apply HQ].
  destruct lk as [k|]; [unfold gpsec_ok in Hg; simpl in Hg; subst k|]; reflexivity.
Qed.

Lemma crc_updates_spec r blocks g (Q : psCrcContext_t -> gpsec -> Prop) :
  gpsec_ok g -> 0 <= r < 2 ^ 32 -> Forall (fun b => bytes_ok b /\ zlen b <= 0xFFFF) blocks ->
  (forall g', gpsec_ok g' -> Q (crc32_ctx (ref_reg r (concat blocks))) g') ->
  wp (crc_updates (crc32_ctx r) blocks) g Q.
Proof.
  revert r g. induction blocks as [|b blocks IH]; intros r g Hg Hr Hbl HQ; simpl crc_updates.
  { apply wp_ret. by apply HQ. }
  inversion Hbl as [|? ? [Hb Hn] Hbl']; subst.
  apply wp_bind, crc_update_spec; [done|done|done|lia|lia|]. intros g1 Hg1 _.
  rewrite take_ge by lia. apply IH; [done|by apply ref_reg_bounds|done|].
  intros g2 Hg2. rewrite <- ref_reg_app. by apply HQ.
Qed.
End update.

(** ** Properties *)

(** C26. A message given to the unit block by block, each of at most 0xFFFF
    bytes, with the initial value and the reflections that the parameter
    manager and the updater ask for, leaves the complement of the software [get_crc32] of the whole
    message: complemented, the result that guards the parameters and the
    firmware image is the CRC-32 of the message, however it is cut.  (Of a
    longer block only a part is seen: [crc_update_truncates].) *)
Theorem crc_blocks_get_crc32 `{CrcEngineLaws} blocks g :
  gpsec_ok g -> Forall (fun b => bytes_ok b /\ zlen b <= 0xFFFF) blocks ->
  wp (crc_updates (tls_crypto_crc_init 0xFFFFFFFF CRYPTO_CRC_TYPE_32 3) blocks) g (fun ctx g' =>
    gpsec_ok g' /\ u32 (Z.lnot (tls_crypto_crc_final ctx)) = get_crc32 (concat blocks)).
Proof.
  intros Hg Hbl. apply crc_updates_spec; [done|lia|done|]. intros g' Hg'. split; [done|].
  assert (Hb : bytes_ok (concat blocks)).
  { apply Forall_concat. eapply Forall_impl; [exact Hbl|]. by intros b [? _]. }
  rewrite get_crc32_is_ref by done. apply u32_lnot, ref_reg_bounds; [lia|done].
Qed.

(** The length field of the configuration word is 16 bits wide: of an
    update with 65536 bytes or more only the remainder modulo 65536 is
    counted, the rest of the block is silently left out. *)
Theorem crc_update_truncates `{CrcEngineLaws} r data g :
  gpsec_ok g -> 0 <= r < 2 ^ 32 -> bytes_ok data ->
  wp (tls_crypto_crc_update (crc32_ctx r) data (zlen data)) g (fun ctx g' =>
    gpsec_ok g' /\ ctx = crc32_ctx (ref_reg r (take (Z.to_nat (zlen data mod 65536)) data))).
Proof.
  intros Hg Hr Hd.
  assert (Hm : forall n, 0 <= n -> (n &&& 0xFFFF) = n mod 65536).
  { intros n Hn. change 0xFFFF with (Z.ones 16). by rewrite Z.land_ones. }
  assert (Heq : forall n, 0 <= n ->
    tls_crypto_crc_update (crc32_ctx r) data n = tls_crypto_crc_update (crc32_ctx r) data (n mod 65536)).
  { intros n Hn. unfold tls_crypto_crc_update, crc_cfg.
    rewrite !Hm by (try apply Z.mod_pos_bound; lia). by rewrite Zmod_mod. }
  rewrite Heq by lia. apply crc_update_spec; [done|done|done|dlia|dlia|]. intros g' Hg' _. done.
Qed.

Import SoftCrc.
Definition idle_gpsec : gpsec := Gpsec (Some 1) false false 0 0 0.

Lemma crc_blocks_get_crc32_witness :
  wp (crc_updates (tls_crypto_crc_init 0xFFFFFFFF CRYPTO_CRC_TYPE_32 3) [[49; 50; 51]; [52]]) idle_gpsec
    (fun ctx g' => gpsec_ok g' /\ u32 (Z.lnot (tls_crypto_crc_final ctx)) = get_crc32 (concat [[49; 50; 51]; [52]])).
Proof.
  apply crc_blocks_get_crc32; [reflexivity|]. repeat constructor; simpl; lia.
Defined.

Lemma crc_update_truncates_witness :
  wp (tls_crypto_crc_update (crc32_ctx 5) [1; 2] (zlen [1; 2])) idle_gpsec (fun ctx g' =>
    gpsec_ok g' /\ ctx = crc32_ctx (ref_reg 5 (take (Z.to_nat (zlen [1; 2] mod 65536)) [1; 2]))).
Proof.
  apply crc_update_truncates; [reflexivity|lia|]. repeat constructor; lia.
Defined.
