(* ===== verification/Storage.v ===== *)
(** * The storage interface between the flash driver and its clients

    The parameter manager and the firmware updater reach the flash only
    through the driver's entry points.  [FlashStore] lists those operations
    and what can be observed of the storage; [FlashStoreLaws] is what the
    driver promises.  The clients are verified against the laws; [FlsStore]
    proves them of the driver. *)
From S2P Require Import Prelude CMonad FlsDriver.

Class FlashStore (F : Type) := {
  (** [tls_fls_read], [tls_fls_write], [tls_fls_erase]; the second argument
      of the first two is the buffer's address. *)
  fs_read : Z -> Z -> list Z -> Z -> M F (Z * list Z);
  fs_write : Z -> Z -> list Z -> Z -> M F Z;
  fs_erase : Z -> M F Z;
  (** [tls_mem_alloc], [tls_mem_free], [tls_os_sem_create]. *)
  fs_alloc : Z -> M F (option (Z * list Z));
  fs_free : Z -> M F unit;
  fs_sem_create : M F bool;
  (** The [TLS_FLASH_..._ADDR] variables. *)
  fs_map : F -> flash_map;
  (** The driver is at rest and the storage area is not write protected. *)
  fs_ok : F -> Prop;
  fs_size : F -> Z;
  fs_byte : F -> Z -> Z;
  (** An allocation has failed at some time. *)
  fs_low : F -> bool;
  (** What a power cut between two commands would have left so far. *)
  fs_cuts : F -> list (Z -> Z);
}.

Section frame.
Context {F : Type} `{FlashStore F}.
Implicit Types s : F.

(** From [s] to [s'] the storage changed within [S] at most, at every moment
    in between too. *)
Record fs_step (S : Z -> Prop) s s' : Prop := {
  st_ok : fs_ok s';
  st_map : fs_map s' = fs_map s;
  st_size : fs_size s' = fs_size s;
  st_out : forall a, ~ S a -> fs_byte s' a = fs_byte s a;
  st_low : fs_low s = true -> fs_low s' = true;
  st_cuts : exists cuts, fs_cuts s' = fs_cuts s ++ cuts /\
    Forall (fun img => forall a, ~ S a -> img a = fs_byte s a) cuts
}.

Lemma fs_step_refl S s : fs_ok s -> fs_step S s s.
Proof. intros Hok. split; try done. exists []. by rewrite app_nil_r. Qed.

Lemma fs_step_trans S s1 s2 s3 : fs_step S s1 s2 -> fs_step S s2 s3 -> fs_step S s1 s3.
Proof.
  intros [? ? ? O1 ? (l1 & E1 & F1)] [? ? ? O2 ? (l2 & E2 & F2)]. split; [done|congruence|congruence| |auto|].
  - intros a Ha. by rewrite O2, O1.
  - exists (l1 ++ l2). rewrite E2, E1, app_assoc. split; [done|]. apply Forall_app. split; [done|].
    eapply Forall_impl; [exact F2|]. intros img Hi a Ha. by rewrite Hi, O1.
Qed.

Lemma fs_step_mono (S T : Z -> Prop) s s' : (forall a, S a -> T a) -> fs_step S s s' -> fs_step T s s'.
Proof.
  intros HST [? ? ? Ho ? (l & E & F1)]. split; try done; [auto|]. exists l. split; [done|].
  eapply Forall_impl; [exact F1|]. intros img Hi a Ha. auto.
Qed.

End frame.

(** The sectors that a range touches. *)
Definition sectors_of (off n : Z) : Z -> Prop := fun a => off / 4096 * 4096 <= a < (off + n + 4095) / 4096 * 4096.

(** The boot sectors in front of the storage. *)
Definition BOOT_SIZE : Z := 0x2000.

Class FlashStoreLaws (F : Type) `{FlashStore F} := {
  fs_size_ok s : fs_ok s -> fs_size s mod 4096 = 0 /\ 0 < fs_size s <= 2 ^ 25;
  fs_byte_ok s a : byte_ok (fs_byte s a);
  fs_read_spec s addr p buf n :
    let off := addr mod 2 ^ 27 in
    fs_ok s -> p <> 0 -> 0 <= addr -> addr + n < 2 ^ 32 -> 0 < n <= zlen buf -> off + n <= fs_size s ->
    wp (fs_read addr p buf n) s (fun r s' =>
      fs_step (fun _ => False) s s' /\ fst r = TLS_FLS_STATUS_OK /\
      (snd r = memcpy_at 0 (range (fs_byte s) off n) buf \/ (snd r = buf /\ fs_low s' = true)));
  fs_write_spec s addr p buf n :
    let off := addr mod 2 ^ 27 in
    fs_ok s -> p <> 0 -> bytes_ok buf -> 0 < n <= zlen buf -> BOOT_SIZE <= off -> off + n <= fs_size s ->
    wp (fs_write addr p buf n) s (fun r s' =>
      fs_step (sectors_of off n) s s' /\
      ((r = TLS_FLS_STATUS_OK /\ fs_low s' = fs_low s /\
          fs_byte s' ≡ₐ overlay (fs_byte s) off (take (Z.to_nat n) buf)) \/
       (r = TLS_FLS_STATUS_ENOMEM /\ fs_low s' = true /\ fs_byte s' ≡ₐ fs_byte s)));
  fs_alloc_spec s n :
    fs_ok s -> 0 <= n ->
    wp (fs_alloc n) s (fun r s' =>
      fs_step (fun _ => False) s s' /\
      match r with
      | Some (p, l) => p <> 0 /\ length l = Z.to_nat n /\ bytes_ok l
      | None => fs_low s' = true
      end);
  fs_free_spec s p : fs_ok s -> wp (fs_free p) s (fun _ s' => fs_step (fun _ => False) s s');
  fs_sem_spec s : fs_ok s -> wp fs_sem_create s (fun _ s' => fs_step (fun _ => False) s s')
}.

(** ** The boot sectors

    In front of the storage, write protected until [tls_flash_unlock] is
    called: the factory records are there.  [boot_same] relates two states
    with the same protection and the same part; [boot_lockable] says that the
    part is one whose protection the driver can change. *)
Class FlashBoot (F : Type) `{FlashStore F} := {
  boot_unlock : M F Z;
  boot_open : F -> Prop;
  boot_lockable : F -> Prop;
  boot_same : F -> F -> Prop
}.

Class FlashBootLaws (F : Type) `{FlashBoot F} := {
  #[global] boot_preorder :: PreOrder boot_same;
  boot_same_open s s' : boot_same s s' -> boot_open s -> boot_open s';
  boot_same_lockable s s' : boot_same s s' -> boot_lockable s -> boot_lockable s';
  boot_read_same s addr p buf n :
    let off := addr mod 2 ^ 27 in
    fs_ok s -> p <> 0 -> 0 <= addr -> addr + n < 2 ^ 32 -> 0 < n <= zlen buf -> off + n <= fs_size s ->
    wp (fs_read addr p buf n) s (fun _ s' => boot_same s s');
  boot_alloc_same s n : fs_ok s -> 0 <= n -> wp (fs_alloc n) s (fun _ s' => boot_same s s');
  boot_free_same s p : fs_ok s -> wp (fs_free p) s (fun _ s' => boot_same s s');
  boot_sem_same s : fs_ok s -> wp fs_sem_create s (fun _ s' => boot_same s s');
  boot_unlock_spec s :
    fs_ok s -> boot_lockable s ->
    wp boot_unlock s (fun _ s' =>
      fs_step (fun _ => False) s s' /\ fs_low s' = fs_low s /\ boot_open s' /\ boot_lockable s');
  boot_write_spec s addr p buf n :
    let off := addr mod 2 ^ 27 in
    fs_ok s -> boot_open s -> p <> 0 -> bytes_ok buf -> 0 < n <= zlen buf -> off + n <= fs_size s ->
    wp (fs_write addr p buf n) s (fun r s' =>
      fs_step (sectors_of off n) s s' /\ boot_same s s' /\
      ((r = TLS_FLS_STATUS_OK /\ fs_low s' = fs_low s /\
          fs_byte s' ≡ₐ overlay (fs_byte s) off (take (Z.to_nat n) buf)) \/
       (r = TLS_FLS_STATUS_ENOMEM /\ fs_low s' = true /\ fs_byte s' ≡ₐ fs_byte s)))
}.

(** ** Buffered streaming

    [tls_fls_fast_write_init], [tls_fls_fast_write] and
    [tls_fls_fast_write_destroy], with what can be said of a session: none
    has been run yet ([fb_idle]), one is open and has received nothing
    ([fb_open]), one that was opened in [s0] has received the bytes [l] at
    consecutive addresses from [a0] and will receive at most [len]
    ([fb_stream]). *)
Class FlashBurst (F : Type) `{FlashStore F} := {
  fb_init : M F Z;
  fb_write : Z -> Z -> list Z -> Z -> M F Z;
  fb_destroy : M F unit;
  fb_idle : F -> Prop;
  fb_open : F -> Prop;
  fb_stream : F -> Z -> Z -> list Z -> F -> Prop;
  (** The operation does not touch the session. *)
  fb_same : F -> F -> Prop
}.

(** The sectors a session of [len] bytes from offset [off] rewrites. *)
Definition burst_region (off len : Z) : Z -> Prop := fun a => off <= a < off + len / 4096 * 4096 + 4096.

(** Where a session may go: from a sector boundary behind the boot sectors
    up to a sector of the storage behind its last byte. *)
Definition burst_fits (size a0 len : Z) : Prop :=
  a0 mod 4096 = 0 /\ 0 <= a0 < 2 ^ 28 /\ 0 <= len /\ BOOT_SIZE <= a0 mod 2 ^ 27 /\
  a0 mod 2 ^ 27 + len / 4096 * 4096 + 4096 <= size.

Class FlashBurstLaws (F : Type) `{FlashBurst F} := {
  fb_same_idle s s' : fb_same s s' -> fb_idle s -> fb_idle s';
  fb_same_open s s' : fb_same s s' -> fb_open s -> fb_open s';
  fb_same_stream s0 a0 len l s s' :
    fb_same s s' -> fs_low s' = fs_low s -> fb_stream s0 a0 len l s -> fb_stream s0 a0 len l s';
  fb_read_same s addr p buf n :
    let off := addr mod 2 ^ 27 in
    fs_ok s -> p <> 0 -> 0 <= addr -> addr + n < 2 ^ 32 -> 0 < n <= zlen buf -> off + n <= fs_size s ->
    wp (fs_read addr p buf n) s (fun _ s' => fb_same s s');
  fb_alloc_same s n : fs_ok s -> 0 <= n -> wp (fs_alloc n) s (fun _ s' => fb_same s s');
  fb_free_same s p : fs_ok s -> wp (fs_free p) s (fun _ s' => fb_same s s');
  fb_sem_same s : fs_ok s -> wp fs_sem_create s (fun _ s' => fb_same s s' /\ fs_low s' = fs_low s);
  fb_init_spec s :
    fs_ok s -> fb_idle s ->
    wp fb_init s (fun r s' =>
      fs_step (fun _ => False) s s' /\
      ((r = TLS_FLS_STATUS_OK /\ fb_open s') \/ (r <> TLS_FLS_STATUS_OK /\ fs_low s' = true)));
  fb_start s a0 len :
    fs_ok s -> fb_open s -> burst_fits (fs_size s) a0 len -> fb_stream s a0 len [] s;
  fb_stream_step s0 a0 len l s :
    fb_stream s0 a0 len l s -> fs_step (burst_region (a0 mod 2 ^ 27) len) s0 s /\ fs_low s = fs_low s0;
  fb_write_spec s0 a0 len l s p buf :
    fb_stream s0 a0 len l s -> p <> 0 -> bytes_ok buf -> 0 < zlen buf -> zlen l + zlen buf <= len ->
    wp (fb_write (a0 + zlen l) p buf (zlen buf)) s (fun r s' =>
      r = TLS_FLS_STATUS_OK /\ fb_stream s0 a0 len (l ++ buf) s');
  fb_destroy_spec s0 a0 len l s :
    fb_stream s0 a0 len l s -> l <> [] ->
    wp fb_destroy s (fun _ s' =>
      fs_step (burst_region (a0 mod 2 ^ 27) len) s0 s' /\ fs_low s' = fs_low s0 /\
      range (fs_byte s') (a0 mod 2 ^ 27) (zlen l) = l)
}.
