(* ===== verification/FlsStore.v ===== *)
(** * The flash driver keeps the storage laws *)
From S2P Require Import Prelude CMonad HostEnv FlashChip FlsHw FlsDriver FlsRead FlsWrite Storage.

Section store.
Context {E D : Type} `{HostLaws E} `{FlashChipLaws D}.
Implicit Types s : fls E D.

(** At rest, with nothing behind the boot sectors write protected. *)
Definition store_ok s : Prop :=
  (exists f, ready s f) /\
  forall a, BOOT_SIZE <= a -> chip_prot (dev (hwst s)) (chip_sr (dev (hwst s))) a = false.

#[export] Instance fls_store : FlashStore (fls E D) := {
  fs_read := tls_fls_read;
  fs_write := tls_fls_write;
  fs_erase := tls_fls_erase;
  fs_alloc := tls_mem_alloc;
  fs_free := tls_mem_free;
  fs_sem_create := fun s =>
    let '(ok, e) := h_sem_create (env s) in
    Some (ok, Fls (hwst s) e (oom s) (inside_fls s) (gsflscache s) (gsSector s) (fmap s));
  fs_map := fmap;
  fs_ok := store_ok;
  fs_size s := chip_size (dev (hwst s));
  fs_byte s := chip_byte (dev (hwst s));
  fs_low := oom;
  fs_cuts s := chip_byte <$> history (hwst s)
}.

Lemma store_ok_only S s s' : store_ok s -> fls_only S s s' -> store_ok s'.
Proof.
  intros [(f & R) Hp] F. split; [exists f; by eapply ready_only|].
  intros a Ha. destruct (fo_hw _ _ _ F) as [_ (_ & _ & _ & _ & _ & _ & Hpp) _ [Hs _] _ _ _].
  rewrite Hpp, Hs. by apply Hp.
Qed.

Lemma store_step S s s' : store_ok s -> fls_only S s s' -> fs_step S s s'.
Proof.
  intros Hok F. split; [by eapply store_ok_only|apply F| | | |].
  - apply only_size with (S := S), F.
  - intros a Ha. apply (only_byte S); [apply F|done].
  - apply F.
  - destruct (fo_hw _ _ _ F) as [_ _ _ _ _ _ (l & El & Fl)]. exists (chip_byte <$> l).
    simpl. rewrite El, fmap_app. split; [done|]. by apply Forall_fmap.
Qed.

Lemma store_quiet S s s' : store_ok s -> fls_only nowhere s s' -> fs_step S s s'.
Proof. intros Hok F. apply store_step; [done|]. by apply fls_only_nowhere. Qed.

#[export] Instance fls_store_laws : FlashStoreLaws (fls E D).
Proof.
  split.
  - intros s [(f & R) _]. simpl. rewrite <- (rd_size _ _ R). apply R.
  - intros s a. apply chip_byte_ok.
  - intros s addr p buf n off Hok Hp Ha Hw Hn Hfit. pose proof Hok as [(f & R) _].
    eapply wp_mono; [apply (tls_fls_read_spec s f)|]; [done|done|done|done|done|by rewrite (rd_size _ _ R)|].
    cbv beta. intros r s' (F & _ & Hr & Hb). split; [by apply store_quiet|done].
  - intros s addr p buf n off Hok Hp Hb Hn Hboot Hfit. pose proof Hok as [(f & R) Hpr].
    eapply wp_mono; [apply (tls_fls_write_spec s f)|];
      [done|done|done|done|by rewrite (rd_size _ _ R)|unfold span; fold off|].
    { intros a Ha. apply Hpr. unfold BOOT_SIZE in *. dlia. }
    cbv beta. intros r s' [F Hr]. split; [by apply store_step|].
    destruct Hr as [(? & ? & ?)|(? & ? & Hd)]; [by left|right]. split; [done|]. split; [done|]. simpl. by rewrite Hd.
  - intros s n Hok Hn. pose proof Hok as [(f & R) _]. apply tls_mem_alloc_spec; [done|apply R| |].
    + intros s' F _ Ho. split; [by apply store_quiet|done].
    + intros p l s' F _ _ _ Hp0 Hl Hb. split; [by apply store_quiet|done].
  - intros s p Hok. pose proof Hok as [(f & R) _]. apply tls_mem_free_spec; [apply R|].
    intros s' F _ _. by apply store_quiet.
  - intros s Hok. pose proof Hok as [(f & R) _]. simpl. destruct (h_sem_create (env s)) as [ok e] eqn:Es.
    eapply wp_eq; [rewrite Es; reflexivity|]. apply store_quiet; [done|].
    split; try done. apply only_refl, R.
Qed.

End store.

(** The sample driver offers a storage at rest. *)
Lemma sample_store : fs_ok sample_fls.
Proof. split; [exists (sample_inside SPIFLASH_MID_GD); exact sample_ready|]. intros a _. apply sample_unprotected. Qed.
