(* ===== verification/FlsBurst.v ===== *)
(** * The flash driver keeps the laws of buffered streaming *)
From S2P Require Import Prelude CMonad HostEnv FlashChip FlsHw FlsDriver FlsRead FlsWrite FlsFast Storage FlsStore.

Section burst.
Context {E D : Type} `{HostLaws E} `{FlashChipLaws D}.
Implicit Types s : fls E D.

(** The sector buffer of a session that has been opened. *)
Definition cache_ready s : Prop :=
  exists p cache, gsflscache s = Some (p, cache) /\ length cache = 4096%nat /\ bytes_ok cache.

(** A session in progress: opened in [s0], [l] received. *)
Definition in_session s0 (a0 len : Z) (l : list Z) s : Prop :=
  store_ok s0 /\ burst_fits (chip_size (dev (hwst s0))) a0 len /\ zlen l <= len /\
  exists f, inside_fls s0 = Some f /\ inside_fls s = Some f /\
    stream (fast_region (a0 mod 2 ^ 27) len) s0 a0 (a0 mod 2 ^ 27) l s /\
    (gsSector s = sector_of a0 l \/ (gsSector s = 0 /\ l = [])).

#[export] Instance fls_burst : FlashBurst (fls E D) := {
  fb_init := tls_fls_fast_write_init;
  fb_write := tls_fls_fast_write;
  fb_destroy := tls_fls_fast_write_destroy;
  fb_idle s := gsflscache s = None /\ gsSector s = 0;
  fb_open s := cache_ready s /\ gsSector s = 0;
  fb_stream := in_session;
  fb_same := fls_only nowhere
}.

Lemma in_session_same s0 a0 len l s s' :
  fls_only nowhere s s' -> oom s' = oom s -> in_session s0 a0 len l s -> in_session s0 a0 len l s'.
Proof.
  intros F Ho (Hok & Hfits & Hll & f & Hf0 & Hf & [F1 Ho1 (p & c & Hgs & Hc) Harr] & Hsec).
  split; [done|]. split; [done|]. split; [done|]. exists f. split; [done|].
  split; [by rewrite (fo_inside _ _ _ F)|]. rewrite (fo_sector _ _ _ F). split; [|done]. split.
  - eapply flash_only_trans; [exact F1|]. eapply flash_only_mono; [|exact (fls_only_flash _ _ _ F)]. intros a [].
  - congruence.
  - exists p, c. by rewrite (fo_gs _ _ _ F).
  - intros a. rewrite (only_byte nowhere (hwst s) (hwst s')); [apply Harr|apply F|intros []].
Qed.

Lemma region_ge a0 len a : burst_region (a0 mod 2 ^ 27) len a <-> fast_region (a0 mod 2 ^ 27) len a.
Proof. unfold burst_region, fast_region, within, whole. lia. Qed.

(** The conditions of the streaming lemmas. *)
Lemma session_conditions s0 a0 len f :
  store_ok s0 -> inside_fls s0 = Some f -> burst_fits (chip_size (dev (hwst s0))) a0 len ->
  ready s0 f /\ (a0 mod 4096 = 0 /\ 0 <= a0 < 2 ^ 28) /\ 0 <= len /\
  a0 mod 2 ^ 27 + whole len + 4096 <= density f /\
  forall a, fast_region (a0 mod 2 ^ 27) len a -> chip_prot (dev (hwst s0)) (chip_sr (dev (hwst s0))) a = false.
Proof.
  intros [(g & R) Hp] Hf (Ha & Hb & Hl & Hboot & Hfit). assert (g = f) as -> by (destruct R; congruence).
  split; [done|]. split; [done|]. split; [done|]. split; [rewrite (rd_size _ _ R); unfold whole; lia|].
  intros a Ha'. apply Hp. unfold fast_region, within in Ha'. lia.
Qed.

Lemma flash_step s0 s f S : store_ok s0 -> ready s f -> flash_only S s0 s -> fs_step S s0 s.
Proof.
  intros [_ Hp] R [Fh Fm Fo]. split.
  - split; [by exists f|]. intros a Ha. destruct Fh as [_ (_ & _ & _ & _ & _ & _ & Hpp) _ [Hs _] _ _ _].
    rewrite Hpp, Hs. by apply Hp.
  - exact Fm.
  - by apply only_size with (S := S).
  - intros a Ha. by apply (only_byte S).
  - exact Fo.
  - destruct Fh as [_ _ _ _ _ _ (l & El & Fl)]. exists (chip_byte <$> l). simpl. rewrite El, fmap_app.
    split; [done|]. by apply Forall_fmap.
Qed.

Lemma in_session_ready s0 a0 len l s :
  in_session s0 a0 len l s -> exists f, ready s f /\ inside_fls s0 = Some f.
Proof.
  intros ([(g & R) _] & _ & _ & f & Hf0 & Hf & Hst & _). assert (g = f) as -> by (destruct R; congruence).
  exists f. split; [|done]. by eapply ready_flash; [exact R|apply Hst|].
Qed.

Lemma in_session_step s0 a0 len l s :
  in_session s0 a0 len l s -> fs_step (burst_region (a0 mod 2 ^ 27) len) s0 s /\ oom s = oom s0.
Proof.
  intros Hs. destruct (in_session_ready _ _ _ _ _ Hs) as (f & R & _).
  destruct Hs as (Hok & _ & _ & g & _ & _ & Hst & _). split; [|apply Hst].
  apply (fs_step_mono (fast_region (a0 mod 2 ^ 27) len)); [intros a; apply region_ge|].
  by apply (flash_step s0 s f); [done|done|apply Hst].
Qed.

Lemma session_write s0 a0 len l s p buf :
  in_session s0 a0 len l s -> p <> 0 -> bytes_ok buf -> 0 < zlen buf -> zlen l + zlen buf <= len ->
  wp (tls_fls_fast_write (a0 + zlen l) p buf (zlen buf)) s (fun r s' =>
    r = TLS_FLS_STATUS_OK /\ in_session s0 a0 len (l ++ buf) s').
Proof.
  intros (Hok & Hfits & Hll & f & Hf0 & Hf & Hst & Hsec) Hp Hb Hne Hmax.
  destruct (session_conditions s0 a0 len f Hok Hf0 Hfits) as (R & Ha0 & Hl0 & Hfit & Hprot).
  apply (stream_write s0 f a0 (a0 mod 2 ^ 27) len (rd_size _ _ R) (rd_geom _ _ R) eq_refl Ha0 Hl0 Hfit Hprot);
    [done|apply R|done|destruct Hsec as [?|[? _]]; auto|done|done|done|done|].
  intros s' Hst' Hsec' Hf'. split; [done|]. split; [done|]. split; [done|].
  split; [rewrite length_app; lia|]. exists f. auto.
Qed.

Lemma session_destroy s0 a0 len l s :
  in_session s0 a0 len l s -> l <> [] ->
  wp tls_fls_fast_write_destroy s (fun _ s' =>
    fs_step (burst_region (a0 mod 2 ^ 27) len) s0 s' /\ oom s' = oom s0 /\
    range (chip_byte (dev (hwst s'))) (a0 mod 2 ^ 27) (zlen l) = l).
Proof.
  intros Hs Hne. destruct (in_session_ready _ _ _ _ _ Hs) as (f & R & Hf0).
  destruct Hs as (Hok & Hfits & Hll & g & Hg & Hf & Hst & Hsec).
  destruct (session_conditions s0 a0 len f Hok Hf0 Hfits) as (R0 & Ha0 & Hl0 & Hfit & Hprot).
  assert (Hsec' : gsSector s = sector_of a0 l) by (destruct Hsec as [|[_ ?]]; done). clear Hsec.
  destruct Hst as [F Ho (p & cache & Hgs & Hcl & Hcb & Hpre) Harr].
  unfold tls_fls_fast_write_destroy. apply wp_bind, wp_gets. rewrite Hgs. apply (if_installed_spec _ _ _ f); [apply R|].
  apply wp_bind, (sem_acquire_spec _ f); [done|].
  apply wp_bind, (stream_flush s0 f a0 _ len (rd_size _ _ R0) (rd_geom _ _ R0) eq_refl Ha0 Hl0 Hfit Hprot
    (set_lock 0 f) (zlen l / 4096) (locked s f) p cache);
    [done|done| |dlia|unfold whole; dlia|exact Hsec'|done|done|done|].
  { eapply flash_only_trans; [exact F|]. apply gs_step; try done. apply F. }
  intros s3 F3 Ho3 Harr3.
  apply wp_bind, (sem_release_spec (fast_region (a0 mod 2 ^ 27) len) s _ f); [done|done|].
  intros s4 F4 Hh4 _ Ho4. apply wp_bind, wp_modify, wp_modify.
  assert (R4 : ready s4 f) by (eapply ready_only; [exact R|exact F4]).
  match goal with |- ?P /\ ?A /\ ?B => assert (HP : P); [|split; [exact HP|]] end.
  { apply (fs_step_mono (fast_region (a0 mod 2 ^ 27) len)); [intros a; apply region_ge|].
    apply (flash_step s0 _ f); [done|destruct R4; by split|].
    eapply flash_only_trans; [exact F|]. eapply flash_only_trans; [by apply fls_only_flash|].
    apply gs_step; try done. apply R4. }
  simpl. split; [rewrite Ho4, Ho3; exact Ho|]. rewrite Hh4. change (hwst (locked s f)) with (hwst s) in Harr3. rewrite Harr3.
  assert (Hw : 4096 * (zlen l / 4096) = whole (zlen l) /\ 0 <= whole (zlen l) /\ zlen l = whole (zlen l) + zlen l mod 4096)
    by (unfold whole; dlia). destruct Hw as (-> & Hw0 & Hw).
  assert (Hl1 : zlen (take (Z.to_nat (whole (zlen l))) l) = whole (zlen l)) by (rewrite length_take; dlia).
  assert (Hl : l = take (Z.to_nat (whole (zlen l))) l ++ take (Z.to_nat (zlen l mod 4096)) cache)
    by (rewrite Hpre; symmetry; apply take_drop).
  transitivity (range (overlay (chip_byte (dev (hwst s0))) (a0 mod 2 ^ 27)
    (take (Z.to_nat (whole (zlen l))) l ++ cache)) (a0 mod 2 ^ 27) (zlen l)).
  { apply range_ext. intros a _. rewrite <- overlay_app, Hl1. unfold overlay at 1 2. by rewrite Harr. }
  rewrite <- (take_drop (Z.to_nat (zlen l mod 4096)) cache), app_assoc, <- Hl.
  rewrite <- overlay_app. rewrite range_overlay_out by lia. apply range_overlay.
Qed.

#[export] Instance fls_burst_laws : FlashBurstLaws (fls E D).
Proof.
  split.
  - intros s s' F [? ?]. split; [by rewrite (fo_gs _ _ _ F)|by rewrite (fo_sector _ _ _ F)].
  - intros s s' F [(p & c & ? & ?) ?]. split; [|by rewrite (fo_sector _ _ _ F)]. exists p, c. by rewrite (fo_gs _ _ _ F).
  - intros s0 a0 len l s s'. apply in_session_same.
  - intros s addr p buf n off [(f & R) _] Hp Ha Hw Hn Hfit.
    eapply wp_mono; [apply (tls_fls_read_spec s f)|]; [done|done|done|done|done|by rewrite (rd_size _ _ R)|].
    cbv beta. by intros r s' (F & _).
  - intros s n [(f & R) _] Hn. apply tls_mem_alloc_spec; [done|apply R|..]; done.
  - intros s p [(f & R) _]. apply tls_mem_free_spec; [apply R|]. done.
  - intros s [(f & R) _]. simpl. destruct (h_sem_create (env s)) as [ok e] eqn:Es.
    eapply wp_eq; [rewrite Es; reflexivity|]. split; [|done]. split; try done. apply only_refl, R.
  - intros s Hok [Hgs Hsec]. pose proof Hok as [(f & R) _].
    apply (fast_init_spec s f); [done|done| |].
    + intros p cache s' F Hh Ho Hf' Hgs' Hcl Hcb Hsec'. split.
      * apply (flash_step _ _ f); [done| |done]. by eapply ready_flash.
      * left. split; [done|]. split; [by exists p, cache|]. by rewrite Hsec'.
    + intros s' F Hf' Hh Ho Hgs'. split; [|by right]. apply (flash_step _ _ f); [done| |done]. by eapply ready_flash.
  - intros s a0 len Hok [Hc Hsec] Hfits. pose proof Hok as [(f & R) _]. destruct Hc as (p & cache & Hgs & Hcl & Hcb).
    split; [done|]. split; [done|]. split; [destruct Hfits as (_ & _ & ? & _); done|]. exists f.
    split; [apply R|]. split; [apply R|]. split; [|by right]. split; [apply flash_only_refl, R|done| |].
    + exists p, cache. done.
    + intros a. by rewrite overlay_nil.
  - intros. by eapply in_session_step.
  - intros. by apply session_write.
  - intros. by apply session_destroy.
Qed.

End burst.
