(* ===== verification/FlsBoot.v ===== *)
(** * The flash driver opens the boot sectors to the factory records *)
From S2P Require Import Prelude CMonad HostEnv FlashChip FlsHw FlsStatus FlsDriver FlsRead FlsWrite FlsMisc Storage FlsStore.

Section boot.
Context {E D : Type} `{HostLaws E} `{FlashChipLaws D}.
Implicit Types s : fls E D.

(** Nothing is protected; the part has a status layout the driver knows. *)
Definition unprotected_all s : Prop := forall a, chip_prot (dev (hwst s)) (chip_sr (dev (hwst s))) a = false.
Definition lockable s : Prop := exists f, inside_fls s = Some f /\ lock_supported (dev (hwst s)) (density f).

(** Commands that may write to the array only. *)
Definition same_protection s s' : Prop :=
  inside_fls s' = inside_fls s /\ same_part (dev (hwst s)) (dev (hwst s')) /\
  chip_sr (dev (hwst s')) = chip_sr (dev (hwst s)).

#[export] Instance fls_boot : FlashBoot (fls E D) := {
  boot_unlock := tls_flash_unlock;
  boot_open := unprotected_all;
  boot_lockable := lockable;
  boot_same := same_protection
}.

Lemma only_same_protection S s s' : fls_only S s s' -> same_protection s s'.
Proof. intros F. split; [apply F|]. split; [apply (fo_hw _ _ _ F)|]. eapply only_sr_eq, F. Qed.

Lemma lock_supported_part (d d' : D) n : same_part d d' -> lock_supported d n -> lock_supported d' n.
Proof.
  intros (_ & Hid & _ & _ & _ & Hhas & _) [[Hone Htwo] Hs]. unfold lock_supported, status_commands.
  rewrite Hid, !Hhas. by split.
Qed.

#[export] Instance fls_boot_laws : FlashBootLaws (fls E D).
Proof.
  split.
  - split; [by intros s|]. intros s1 s2 s3 (I1 & P1 & R1) (I2 & P2 & R2).
    split; [congruence|]. split; [by eapply same_part_trans|congruence].
  - intros s s' (_ & (_ & _ & _ & _ & _ & _ & Hp) & Hs) Ho a. rewrite Hp, Hs. apply Ho.
  - intros s s' (Hi & Hp & _) (f & Hf & Hl). exists f. split; [congruence|]. by eapply lock_supported_part.
  - intros s addr p buf n off [(f & R) _] Hp Ha Hw Hn Hfit.
    eapply wp_mono; [apply (tls_fls_read_spec s f); try done; by rewrite (rd_size _ _ R)|].
    cbv beta. intros r s' (F & _). by eapply only_same_protection.
  - intros s n [(f & R) _] Hn. apply tls_mem_alloc_spec; [done|apply R| |].
    + intros s' F _ _. by eapply only_same_protection.
    + intros p l s' F _ _ _ _ _ _. by eapply only_same_protection.
  - intros s p [(f & R) _]. apply tls_mem_free_spec; [apply R|]. intros s' F _ _. by eapply only_same_protection.
  - intros s Hok. simpl. destruct (h_sem_create (env s)) as [ok e] eqn:Es.
    eapply wp_eq; [rewrite Es; reflexivity|]. done.
  - intros s Hok (g & Hg & Hl). pose proof Hok as [(f & R) Hpr].
    assert (g = f) as -> by (destruct R; congruence).
    eapply wp_mono; [by apply (tls_flash_unlock_spec s f)|].
    cbv beta. intros r s' (_ & R' & Hm & Ho & [_ Hpart Harr _ (l & El & Fl)] & _ & Hun).
    split; [|split; [done|split; [done|exists f; split; [apply R'|by eapply lock_supported_part]]]].
    split; [split; [by exists f|auto]|done|apply Hpart|intros a _; apply Harr|simpl; congruence|].
    exists (chip_byte <$> l). simpl. rewrite El, fmap_app. split; [done|]. apply Forall_fmap.
    eapply Forall_impl; [exact Fl|]. intros d Hd a _. apply Hd.
  - intros s addr p buf n off Hok Ho Hp Hb Hn Hfit. pose proof Hok as [(f & R) _].
    eapply wp_mono; [apply (tls_fls_write_spec s f); [done|done|done|done|by rewrite (rd_size _ _ R)|intros a _; apply Ho]|].
    cbv beta. intros r s' [F Hr]. split; [by apply store_step|]. split; [by eapply only_same_protection|].
    destruct Hr as [(? & ? & ?)|(? & ? & Hd)]; [by left|right]. split; [done|]. split; [done|]. simpl. by rewrite Hd.
Qed.

End boot.

(** The sample driver can be unlocked. *)
Lemma sample_lockable : boot_lockable sample_fls.
Proof. eexists. split; [reflexivity|]. split; [by split|reflexivity]. Qed.
