(* ===== verification/ParamData.v ===== *)
(** * The parameter structures of [wm_param.h] and [wm_params.h]

    The C structures that the parameter manager copies to and from the flash,
    as byte images: sizes, alignments and offsets are computed from the
    declarations, so that a copy that overruns a field lands where it does in
    the program. *)
From S2P Require Import Prelude.

(** ** C types and their layout *)

Inductive cty := U8 | U16 | U32 | Arr (n : Z) (t : cty) | Struct (fs : list cty).

Definition round_up (off al : Z) : Z := (off + al - 1) / al * al.

Fixpoint calign (t : cty) : Z :=
  match t with
  | U8 => 1 | U16 => 2 | U32 => 4
  | Arr _ t => calign t
  | Struct fs => fold_right (fun t a => Z.max (calign t) a) 1 fs
  end.

Fixpoint csize (t : cty) : Z :=
  match t with
  | U8 => 1 | U16 => 2 | U32 => 4
  | Arr n t => n * csize t
  | Struct fs =>
      round_up (fold_left (fun off t => round_up off (calign t) + csize t) fs 0)
        (fold_right (fun t a => Z.max (calign t) a) 1 fs)
  end.

(** ** [wm_params.h] *)

Definition bytes (n : Z) : cty := Arr n U8.
Definition tls_param_hardware_version : cty := Struct [U8; U8; U8; U8; U8; U8; bytes 2].
Definition tls_param_bssid : cty := Struct [U8; U8; bytes 6].
Definition tls_param_ssid : cty := Struct [bytes 32; U32].
Definition tls_param_tem_offset : cty := Struct [U8; U32].
Definition tls_param_key : cty := Struct [bytes 64; U8; U8; U8; U8].
Definition tls_param_original_key : cty := Struct [bytes 64; U32].
Definition tls_param_sha1 : cty := Struct [U8; bytes 32].
Definition tls_param_bgr : cty := Struct [U8; U8; bytes 2].
Definition tls_param_ip : cty := Struct [U8; bytes 3; bytes 4; bytes 4; bytes 4; bytes 4; bytes 4].
Definition tls_param_uart : cty := Struct [U32; U8; U8; U8; U8].
Definition tls_param_socket : cty := Struct [U8; U8; U16; bytes 32].
Definition tls_param_wps : cty := Struct [U8; U8; U8; U8; bytes 8].
Definition tls_param_oray_client : cty := Struct [U32; bytes 32; bytes 32].
Definition tls_webs_cfg : cty := Struct [U8; U8; U16].
Definition bt_adapter_t : cty :=
  Struct [U32; U32; bytes 6; U8; bytes 16; U32; U8; U8; U8; U8; U8; U8; bytes 16; bytes 16; bytes 16; bytes 16].
Definition bt_remote_device_t : cty :=
  Struct [U32; U8; U32; bytes 6; bytes 16; U8; U32; U32; bytes 16; U8; U8; U8; U8; U8; U8;
          bytes 28; bytes 23; bytes 23; bytes 24; bytes 24; bytes 20; U32; U32; U32].
Definition tls_param_quick_connect : cty := Struct [U8; U8].

(** ** [struct tls_sys_param] *)

Inductive pfield :=
  | hardware_version | bssid | ssid | channel_enable | channel | wireless_region | encry | wireless_protocol
  | auto_create_adhoc | auto_retrycnt | auto_roam | auto_powersave | ssid_broadcast_enable | channellist | key | wbgr
  | wps | ipcfg | local_dnsname | local_device_name | oray_client_setting | upnp_enable | always_online
  | user_port_mode | res_2 | uart_cfg | auto_mode | res_3 | transparent_trigger_length | transparent_trigger_period
  | remote_socket_cfg | debug_mode | res_4 | EscapeChar | EscReserved | EscapePeriod | IoMode | CmdMode | PassWord
  | WebsCfg | oneshotflag | oneshotres | psk | original_key | original_ssid | auto_reconnect | res_5 | quick_connect
  | key_changed | ssid_changed | apsta_ssid | apsta_psk | res_6 | channel4softap | encry4softap | key4softap
  | ipcfg4softap | wbgr4softap | sntp_service1 | sntp_service2 | sntp_service3 | params_tem | adapter_t
  | remote_device1 | remote_device2 | remote_device3 | remote_device4 | remote_device5.

#[export] Instance pfield_eq_dec : EqDecision pfield.
Proof. solve_decision. Defined.

Definition tls_sys_param : list (pfield * cty) :=
  [(hardware_version, tls_param_hardware_version); (bssid, tls_param_bssid); (ssid, tls_param_ssid);
   (channel_enable, U8); (channel, U8); (wireless_region, U8); (encry, U8); (wireless_protocol, U8);
   (auto_create_adhoc, U8); (auto_retrycnt, U8); (auto_roam, U8); (auto_powersave, U8);
   (ssid_broadcast_enable, U8); (channellist, U16); (key, tls_param_key); (wbgr, tls_param_bgr);
   (wps, tls_param_wps); (ipcfg, tls_param_ip); (local_dnsname, bytes 32); (local_device_name, bytes 32);
   (oray_client_setting, tls_param_oray_client); (upnp_enable, U8); (always_online, U8); (user_port_mode, U8);
   (res_2, U8); (uart_cfg, tls_param_uart); (auto_mode, U8); (res_3, U8); (transparent_trigger_length, U16);
   (transparent_trigger_period, U16); (remote_socket_cfg, tls_param_socket); (debug_mode, U32); (res_4, Arr 2 U32);
   (EscapeChar, U8); (EscReserved, U8); (EscapePeriod, U16); (IoMode, U8); (CmdMode, U8); (PassWord, bytes 6);
   (WebsCfg, tls_webs_cfg); (oneshotflag, U8); (oneshotres, bytes 2); (psk, tls_param_sha1);
   (original_key, tls_param_original_key); (original_ssid, tls_param_ssid); (auto_reconnect, U8); (res_5, bytes 3);
   (quick_connect, tls_param_quick_connect); (key_changed, U8); (ssid_changed, U8); (apsta_ssid, tls_param_ssid);
   (apsta_psk, tls_param_sha1); (res_6, bytes 1); (channel4softap, U8); (encry4softap, U8);
   (key4softap, tls_param_key); (ipcfg4softap, tls_param_ip); (wbgr4softap, tls_param_bgr);
   (sntp_service1, bytes 32); (sntp_service2, bytes 32); (sntp_service3, bytes 32);
   (params_tem, tls_param_tem_offset); (adapter_t, bt_adapter_t); (remote_device1, bt_remote_device_t);
   (remote_device2, bt_remote_device_t); (remote_device3, bt_remote_device_t);
   (remote_device4, bt_remote_device_t); (remote_device5, bt_remote_device_t)].

(** Offset and size of a member. *)
Fixpoint place_in {A} `{EqDecision A} (l : list (A * cty)) (off : Z) (f : A) : Z * Z :=
  match l with
  | [] => (0, 0)
  | (g, t) :: l =>
      let off := round_up off (calign t) in
      if decide (g = f) then (off, csize t) else place_in l (off + csize t) f
  end.
Definition place (f : pfield) : Z * Z := place_in tls_sys_param 0 f.
Definition offset_of (f : pfield) : Z := fst (place f).
Definition size_of (f : pfield) : Z := snd (place f).

Definition sizeof_sys_param : Z := csize (Struct (snd <$> tls_sys_param)).

(** ** [struct tls_param_flash] *)

Definition parameters_off : Z := 16.
Definition sizeof_param_flash : Z := csize (Struct [U32; U16; U16; U32; U16; U16; Struct (snd <$> tls_sys_param); U32]).

(** A scalar member of the header, read and assigned. *)
Definition get_le (off n : Z) (img : list Z) : Z := le_val (slice off n img).
Definition set_le (off n v : Z) (img : list Z) : list Z := memcpy_at off (le_bytes (Z.to_nat n) v) img.

Definition get_magic := get_le 0 4.
Definition get_partition_num := get_le 4 2.
Definition get_modify_count := get_le 6 2.
Definition get_length := get_le 14 2.
Definition get_crc (img : list Z) : Z := get_le (sizeof_param_flash - 4) 4 img.
Definition parameters (img : list Z) : list Z := slice parameters_off sizeof_sys_param img.

(** ** Copies between a member and the caller's memory *)

(** What [tls_param_set] and [tls_param_get] do for an id: copy the whole
    structure, copy a member of the size of its type, or copy a string. *)
Inductive paction := CopyAll | Copy (f : pfield) | CopyStr (f : pfield).

Definition param_action (id : Z) : option paction :=
  match id with
  | -1 => Some CopyAll
  | 0 => Some (Copy ssid) | 1 => Some (Copy encry) | 2 => Some (Copy key) | 3 => Some (Copy ipcfg)
  | 4 => Some (Copy auto_mode) | 5 => Some (Copy remote_socket_cfg) | 6 => Some (Copy bssid)
  | 7 => Some (Copy channel) | 8 => Some (Copy channel_enable) | 9 => Some (Copy wireless_region)
  | 10 => Some (Copy wireless_protocol) | 11 => Some (Copy auto_create_adhoc) | 12 => Some (Copy auto_roam)
  | 13 => Some (Copy auto_retrycnt) | 14 => Some (Copy wbgr) | 15 => Some (Copy user_port_mode)
  | 16 => Some (Copy transparent_trigger_length) | 17 => Some (Copy debug_mode) | 18 => Some (Copy hardware_version)
  | 19 => Some (Copy ssid_broadcast_enable) | 20 => Some (CopyStr local_dnsname) | 21 => Some (CopyStr local_device_name)
  | 22 => Some (Copy auto_powersave) | 23 => Some (Copy oray_client_setting) | 24 => Some (Copy upnp_enable)
  | 26 => Some (Copy uart_cfg) | 28 => Some (Copy transparent_trigger_period) | 29 => Some (Copy EscapeChar)
  | 30 => Some (Copy EscapePeriod) | 31 => Some (Copy IoMode) | 32 => Some (Copy CmdMode) | 33 => Some (Copy PassWord)
  | 34 => Some (Copy channellist) | 35 => Some (Copy WebsCfg) | 36 => Some (Copy oneshotflag) | 37 => Some (Copy psk)
  | 38 => Some (Copy original_key) | 39 => Some (Copy original_ssid) | 40 => Some (Copy auto_reconnect)
  | 41 => Some (Copy quick_connect) | 42 => Some (Copy key_changed) | 43 => Some (Copy ssid_changed)
  | 44 => Some (Copy apsta_ssid) | 45 => Some (Copy apsta_psk) | 46 => Some (Copy encry4softap)
  | 47 => Some (Copy key4softap) | 48 => Some (Copy ipcfg4softap) | 49 => Some (Copy channel4softap)
  | 50 => Some (Copy wbgr4softap) | 51 => Some (CopyStr sntp_service1) | 52 => Some (CopyStr sntp_service2)
  | 53 => Some (CopyStr sntp_service3) | 54 => Some (Copy params_tem) | 55 => Some (Copy adapter_t)
  | 56 => Some (Copy remote_device1) | 57 => Some (Copy remote_device2) | 58 => Some (Copy remote_device3)
  | 59 => Some (Copy remote_device4) | 60 => Some (Copy remote_device5)
  | _ => None
  end.

(** The C string at the start of some memory, with its terminator; nothing
    when the memory ends before one. *)
Fixpoint cstr (l : list Z) : option (list Z) :=
  match l with
  | [] => None
  | 0 :: _ => Some [0]
  | b :: l => cons b <$> cstr l
  end.

(** [MEMCPY(dst + off, src, n)]: nothing outside the two objects. *)
Definition copy_to (dst : list Z) (off : Z) (src : list Z) (n : Z) : option (list Z) :=
  if (n <=? zlen src) && (off + n <=? zlen dst) then Some (memcpy_at off (take (Z.to_nat n) src) dst) else None.

(** [strcpy(dst + off, src)]; [strncpy] with the length of the source and
    its terminator does the same. *)
Definition strcpy_to (dst : list Z) (off : Z) (src : list Z) : option (list Z) :=
  s ← cstr src; copy_to dst off s (zlen s).

(** The object [param] of [tls_param_set], whose structure starts at [base]
    of the image [img], after the copy for [a] from [argv]. *)
Definition action_set (a : paction) (base : Z) (img argv : list Z) : option (list Z) :=
  match a with
  | CopyAll => copy_to img base argv sizeof_sys_param
  | Copy f => copy_to img (base + offset_of f) argv (size_of f)
  | CopyStr f => strcpy_to img (base + offset_of f) argv
  end.

(** The caller's memory after the copy of [tls_param_get]. *)
Definition action_get (a : paction) (base : Z) (img argv : list Z) : option (list Z) :=
  match a with
  | CopyAll => copy_to argv 0 (drop (Z.to_nat base) img) sizeof_sys_param
  | Copy f => copy_to argv 0 (drop (Z.to_nat (base + offset_of f)) img) (size_of f)
  | CopyStr f => strcpy_to argv 0 (drop (Z.to_nat (base + offset_of f)) img)
  end.
