(* ===== verification/Param.v ===== *)
(** * The parameter manager ([wm_param.c])

    The parameters live in [flash_param], a [struct tls_param_flash], and in
    two partitions of the flash that hold copies of it.  A set with
    [to_flash] writes the partition that is not the current one; at start-up
    the newest intact partition is loaded and damaged ones are restored.
    The definitions follow the single-copy configuration
    ([USE_TWO_RAM_FOR_PARAMETER] is 0). *)
From S2P Require Import Prelude CMonad Checksum FlsDriver CrcHard Storage ParamData.

Definition TLS_PARAM_STATUS_OK : Z := 0.
Definition TLS_PARAM_STATUS_EINVALID : Z := 1.
Definition TLS_PARAM_STATUS_EMEM : Z := 2.
Definition TLS_PARAM_STATUS_EIO : Z := 3.
Definition TLS_PARAM_STATUS_EPERM : Z := 4.
Definition TLS_PARAM_STATUS_EINVALIDID : Z := 5.
Definition TLS_PARAM_MAGIC : Z := 0x4947414d.
Definition TLS_USER_MAGIC : Z := 0x574D3031.
Definition TLS_PARAM_ID_ALL : Z := -1.
Definition TLS_PARAM_ID_MAX : Z := 66.
Definition TLS_PARAM_PARTITION_NUM : Z := 2.

(** The module's variables, above a storage [F] and the crypto unit. *)
Record par (F : Type) := Par {
  store : F;
  crypto : gpsec;
  flash_param : list Z;
  sys_param_lock : option Z;
  user_default_param : option (Z * list Z);
  updp_mode : Z
}.
Arguments Par {F}.
Arguments store {F}.
Arguments crypto {F}.
Arguments flash_param {F}.
Arguments sys_param_lock {F}.
Arguments user_default_param {F}.
Arguments updp_mode {F}.

(** Where the linker and the compiler put [flash_param] and the local
    variables whose address is taken. *)
Class Statics := {
  flash_param_at : Z;
  locals_at : Z;
  flash_param_nonnull : flash_param_at <> 0;
  locals_nonnull : locals_at <> 0
}.

(** [TLS_FLASH_PARAM1_ADDR] for partition 0, else [TLS_FLASH_PARAM2_ADDR]. *)
Definition partition_addr (m : flash_map) (i : Z) : Z :=
  if i =? 0 then TLS_FLASH_PARAM1_ADDR m else TLS_FLASH_PARAM2_ADDR m.

Section param.
Context {F : Type} `{FlashStore F} `{CrcEngine} `{Statics}.
Abbreviation st := (par F).

Definition on_store {A} (m : M F A) : M st A :=
  zoom store (fun f s => Par f (crypto s) (flash_param s) (sys_param_lock s) (user_default_param s) (updp_mode s)) m.
Definition on_crypto {A} (m : M gpsec A) : M st A :=
  zoom crypto (fun c s => Par (store s) c (flash_param s) (sys_param_lock s) (user_default_param s) (updp_mode s)) m.
Definition set_flash_param (f : list Z -> list Z) : M st unit := modify (fun s =>
  Par (store s) (crypto s) (f (flash_param s)) (sys_param_lock s) (user_default_param s) (updp_mode s)).
Definition set_sys_param_lock (l : option Z) : M st unit := modify (fun s =>
  Par (store s) (crypto s) (flash_param s) l (user_default_param s) (updp_mode s)).
Definition set_user_default (u : option (Z * list Z)) : M st unit := modify (fun s =>
  Par (store s) (crypto s) (flash_param s) (sys_param_lock s) u (updp_mode s)).
Definition flash_addrs : M st flash_map := gets (fun s => fs_map (store s)).

(** [tls_os_sem_acquire(sys_param_lock, 0)] and its release. *)
Definition lock_param : M st unit :=
  l ← gets sys_param_lock;
  match l with
  | Some n => if 0 <? n then set_sys_param_lock (Some (n - 1)) else stuck
  | None => stuck
  end.
Definition unlock_param : M st unit :=
  l ← gets sys_param_lock;
  match l with
  | Some n => set_sys_param_lock (Some (n + 1))
  | None => stuck
  end.

(** A copy that must stay inside its objects. *)
Definition defined {S A} (o : option A) : M S A := match o with Some a => mret a | None => stuck end.

(** ** Writing the current partition *)

Definition param_flash_verify (data_addr : Z) (data_buffer : list Z) (len : Z) : M st Z :=
  b ← on_store (fs_alloc len);
  match b with
  | None => mret 0
  | Some (p, buffer) =>
      r ← on_store (fs_read data_addr p buffer len);
      let err :=
        if negb (fst r =? TLS_FLS_STATUS_OK) then 0
        else b2z (bool_decide (take (Z.to_nat len) (snd r) = take (Z.to_nat len) data_buffer)) in
      on_store (fs_free p) ;;
      mret err
  end.

(** The header fields that [param_to_flash] fills in, and the checksum. *)
Definition seal (modify_count partition_num : Z) (img : list Z) : list Z :=
  let img := set_le 0 4 TLS_PARAM_MAGIC img in
  let img := set_le 14 2 sizeof_param_flash img in
  let img := set_le 6 2 (if modify_count <? 0 then get_modify_count img + 1 else modify_count) img in
  let img := set_le 4 2 (if partition_num <? 0 then (get_partition_num img + 1) &&& 1 else partition_num) img in
  let img := set_le 12 2 0 (set_le 8 4 0 img) in
  set_le (sizeof_param_flash - 4) 4 (Crc32.get_crc32 (take (Z.to_nat (sizeof_param_flash - 4)) img)) img.

Definition param_to_flash (id modify_count partition_num : Z) : M st Z :=
  if (id <? TLS_PARAM_ID_ALL) || (TLS_PARAM_ID_MAX <=? id) then mret TLS_PARAM_STATUS_EINVALID
  else
    set_flash_param (seal modify_count partition_num) ;;
    img ← gets flash_param;
    m ← flash_addrs;
    let addr := partition_addr m (get_partition_num img) in
    err ← on_store (fs_write addr flash_param_at img sizeof_param_flash);
    if negb (err =? TLS_FLS_STATUS_OK) then mret TLS_PARAM_STATUS_EIO
    else
      ok ← param_flash_verify addr img sizeof_param_flash;
      if ok =? 1 then mret TLS_PARAM_STATUS_OK else mret TLS_PARAM_STATUS_EIO.

(** ** Factory defaults *)

Definition ascii_bytes (s : list Z) : list Z := s ++ [0].
Definition local_winnermicro : list Z :=
  ascii_bytes [108; 111; 99; 97; 108; 46; 119; 105; 110; 110; 101; 114; 109; 105; 99; 114; 111].
Definition w800 : list Z := ascii_bytes [119; 56; 48; 48].
Definition cn_ntp_org_cn : list Z := ascii_bytes [99; 110; 46; 110; 116; 112; 46; 111; 114; 103; 46; 99; 110].
Definition ntp_sjtu_edu_cn : list Z :=
  ascii_bytes [110; 116; 112; 46; 115; 106; 116; 117; 46; 101; 100; 117; 46; 99; 110].
Definition us_pool_ntp_org : list Z :=
  ascii_bytes [117; 115; 46; 112; 111; 111; 108; 46; 110; 116; 112; 46; 111; 114; 103].

Definition factory_default_hardware : list Z := [72; 1; 0; 0; 0; 0; 0; 0].

(** [param->f...[sub] = data], in order. *)
Definition assign (l : list (pfield * Z * list Z)) (param : list Z) : list Z :=
  fold_left (fun img '(f, sub, data) => memcpy_at (offset_of f + sub) data img) l param.

Definition factory_assignments : list (pfield * Z * list Z) :=
  [(hardware_version, 0, factory_default_hardware);
   (wireless_region, 0, [1]); (channel, 0, [1]); (channellist, 0, le_bytes 2 0x3FFF);
   (wbgr, 0, [2]); (wbgr, 1, [25]); (ssid_broadcast_enable, 0, [1]); (encry, 0, [0]);
   (wireless_protocol, 0, [1]);
   (auto_retrycnt, 0, [255]); (auto_roam, 0, [0]); (auto_powersave, 0, [0]); (auto_reconnect, 0, [0]);
   (auto_mode, 0, [0]); (transparent_trigger_length, 0, le_bytes 2 512);
   (uart_cfg, 0, le_bytes 4 115200); (uart_cfg, 4, [0]); (uart_cfg, 5, [0]);
   (user_port_mode, 0, [0]);
   (ipcfg, 0, [1]); (ipcfg, 4, [192; 168; 1; 1]); (ipcfg, 8, [255; 255; 255; 0]); (ipcfg, 12, [192; 168; 1; 1]);
   (ipcfg, 16, [192; 168; 1; 1]); (ipcfg, 20, [192; 168; 1; 1]);
   (local_dnsname, 0, local_winnermicro); (local_device_name, 0, w800);
   (remote_socket_cfg, 0, [0]); (remote_socket_cfg, 1, [1]); (remote_socket_cfg, 2, le_bytes 2 60000);
   (remote_socket_cfg, 4, replicate 32 0);
   (EscapeChar, 0, [0x2b]); (EscapePeriod, 0, le_bytes 2 200);
   (WebsCfg, 0, [1]); (WebsCfg, 2, le_bytes 2 80);
   (debug_mode, 0, le_bytes 4 0); (PassWord, 0, replicate 6 48);
   (channel4softap, 0, [11]); (encry4softap, 0, [0]);
   (ipcfg4softap, 0, [1]); (ipcfg4softap, 4, [192; 168; 0; 1]); (ipcfg4softap, 8, [255; 255; 255; 0]);
   (ipcfg4softap, 12, [192; 168; 0; 1]); (ipcfg4softap, 16, [192; 168; 0; 1]); (ipcfg4softap, 20, [0; 0; 0; 0]);
   (wbgr4softap, 0, [2]); (wbgr4softap, 1, [9]);
   (sntp_service1, 0, cn_ntp_org_cn); (sntp_service2, 0, ntp_sjtu_edu_cn); (sntp_service3, 0, us_pool_ntp_org)].

Definition factory_params : list Z := assign factory_assignments (replicate (Z.to_nat sizeof_sys_param) 0).

Definition tls_param_load_factory_default : M st unit := set_flash_param (memcpy_at parameters_off factory_params).

(** ** Start-up *)

(** The loop variables of [tls_param_init]. *)
Record scan := Scan {
  sc_i : Z;
  sc_damaged : Z;
  is_damage : list bool;
  tryrestore : Z;
  sc_flash : list Z
}.

Definition mark (i : Z) (l : list bool) : list bool := <[Z.to_nat i := true]> l.

(** [crckey = 0xFFFFFFFF; tls_crypto_crc_init(...); ..._update(&ctx, flash, flash->length - 4); ..._final] *)
Definition hw_crc (flash : list Z) (len : Z) : M st Z :=
  ctx ← on_crypto (tls_crypto_crc_update (tls_crypto_crc_init 0xFFFFFFFF CRYPTO_CRC_TYPE_32 3) flash len);
  mret (tls_crypto_crc_final ctx).

(** [*(u32 * )((u8 * )flash + flash->length - 4)] *)
Definition stored_crc (flash : list Z) : M st Z :=
  let off := get_length flash - 4 in
  if (0 <=? off) && (off + 4 <=? zlen flash) then mret (get_le off 4 flash) else stuck.

Definition zeros : list Z := replicate (Z.to_nat sizeof_param_flash) 0.

(** One round of the loop over the partitions; [fp] is the address of the
    buffer. *)
Definition scan_body (fp : Z) (x : scan) : M st (scan + scan) :=
  if negb (sc_i x <? TLS_PARAM_PARTITION_NUM) then mret (inr x)
  else
    m ← flash_addrs;
    r ← on_store (fs_read (partition_addr m (sc_i x)) fp (sc_flash x) sizeof_param_flash);
    let flash := snd r in
    let damage := Scan (sc_i x + 1) (u8 (sc_damaged x + 1)) (mark (sc_i x) (is_damage x)) (tryrestore x) flash in
    if negb (get_magic flash =? TLS_PARAM_MAGIC) then mret (inl damage)
    else
      crcvalue ← hw_crc flash (u32 (get_length flash - 4));
      stored ← stored_crc flash;
      if negb (u32 (Z.lnot crcvalue) =? stored) then mret (inl damage)
      else
        cur ← gets flash_param;
        (if (get_magic cur =? 0) || (get_modify_count cur <? get_modify_count flash) then
           if negb (get_length flash =? sizeof_param_flash)
           then set_flash_param (memcpy_at 0 (take (Z.to_nat (get_length flash - 4)) flash))
           else set_flash_param (fun _ => flash)
         else mret tt) ;;
        let flash := zeros in
        if (tryrestore x =? 0) && (TLS_PARAM_PARTITION_NUM <=? sc_damaged x) then
          set_flash_param (fun _ => zeros) ;;
          on_store (fs_erase (TLS_FLASH_PARAM_RESTORE_ADDR m / 4096)) ;;
          mret (inl (Scan 0 0 [false; false] 1 flash))
        else mret (inl (Scan (sc_i x + 1) (sc_damaged x) (is_damage x) (tryrestore x) flash)).

(** [for (i = 0; i < 2; i++) if (is_damage[i]) { err = param_to_flash(ALL, -1, i); if (err) { err = EIO; break; } }] *)
Fixpoint restore (is_damage : list bool) (i : Z) : M st Z :=
  match is_damage with
  | [] => mret TLS_PARAM_STATUS_OK
  | false :: l => restore l (i + 1)
  | true :: l =>
      err ← param_to_flash TLS_PARAM_ID_ALL (-1) i;
      if negb (err =? TLS_PARAM_STATUS_OK) then mret TLS_PARAM_STATUS_EIO else restore l (i + 1)
  end.

(** Both partitions damaged: the defaults are written to both. *)
Definition write_defaults : M st Z :=
  tls_param_load_factory_default ;;
  err ← param_to_flash TLS_PARAM_ID_ALL 1 0;
  if negb (err =? TLS_PARAM_STATUS_OK) then mret TLS_PARAM_STATUS_EIO
  else
    err ← param_to_flash TLS_PARAM_ID_ALL 1 1;
    if negb (err =? TLS_PARAM_STATUS_OK) then mret TLS_PARAM_STATUS_EIO else mret err.

Definition tls_param_init : M st Z :=
  img ← gets flash_param;
  if get_magic img =? TLS_PARAM_MAGIC then mret TLS_PARAM_STATUS_EPERM
  else
    ok ← on_store fs_sem_create;
    if negb ok then mret TLS_PARAM_STATUS_EMEM
    else
      set_sys_param_lock (Some 1) ;;
      lock_param ;;
      set_flash_param (fun _ => zeros) ;;
      b ← on_store (fs_alloc sizeof_param_flash);
      match b with
      | None => unlock_param ;; mret TLS_PARAM_STATUS_EMEM
      | Some (fp, _) =>
          x ← mloop 8 (scan_body fp) (Scan 0 0 [false; false] 0 zeros);
          err ← (if TLS_PARAM_PARTITION_NUM <=? sc_damaged x then write_defaults else restore (is_damage x) 0);
          unlock_param ;;
          on_store (fs_free fp) ;;
          mret err
      end.

(** ** Setting and getting *)

Definition tls_param_user_param_init : M st (option Z) :=
  u ← gets user_default_param;
  match u with
  | Some (p, _) => mret (Some p)
  | None =>
      b ← on_store (fs_alloc sizeof_sys_param);
      match b with
      | None => mret None
      | Some (p, _) => set_user_default (Some (p, replicate (Z.to_nat sizeof_sys_param) 0)) ;; mret (Some p)
      end
  end.

(** [argv] is the memory at the argument, [None] for NULL. *)
Definition tls_param_set (id : Z) (argv : option (list Z)) (to_flash : bool) : M st Z :=
  match argv with
  | None => mret TLS_PARAM_STATUS_EINVALID
  | Some argv =>
      if (id <? TLS_PARAM_ID_ALL) || (TLS_PARAM_ID_MAX <=? id) then mret TLS_PARAM_STATUS_EINVALID
      else
        up ← gets updp_mode;
        param ← (if negb (up =? 0) then tls_param_user_param_init else mret (Some flash_param_at));
        match param with
        | None => mret TLS_PARAM_STATUS_EMEM
        | Some _ =>
            lock_param ;;
            err ← match param_action id with
                  | None => mret TLS_PARAM_STATUS_EINVALIDID
                  | Some a =>
                      (if negb (up =? 0) then
                         u ← gets user_default_param;
                         match u with
                         | None => stuck
                         | Some (p, img) =>
                             img ← defined (action_set a 0 img argv);
                             set_user_default (Some (p, img))
                         end
                       else
                         img ← gets flash_param;
                         img ← defined (action_set a parameters_off img argv);
                         set_flash_param (fun _ => img)) ;;
                      if to_flash && (up =? 0) then param_to_flash id (-1) (-1) else mret TLS_PARAM_STATUS_OK
                  end;
            unlock_param ;;
            mret err
        end
  end.

(** The addresses of the remote devices; another id gives 0. *)
Definition tls_param_get_bt_param_address (id : Z) (from_flash : bool) : M st Z :=
  if (id <? TLS_PARAM_ID_ALL) || (TLS_PARAM_ID_MAX <=? id) then mret TLS_PARAM_STATUS_EINVALID
  else if from_flash then mret (-1)
  else
    lock_param ;;
    let addr_offset :=
      match id with
      | 56 => flash_param_at + parameters_off + offset_of remote_device1
      | 57 => flash_param_at + parameters_off + offset_of remote_device2
      | 58 => flash_param_at + parameters_off + offset_of remote_device3
      | 59 => flash_param_at + parameters_off + offset_of remote_device4
      | 60 => flash_param_at + parameters_off + offset_of remote_device5
      | _ => 0
      end in
    unlock_param ;;
    mret addr_offset.

(** The status and the caller's memory after the call. *)
Definition tls_param_get (id : Z) (argv : list Z) (from_flash : bool) : M st (Z * list Z) :=
  if (id <? TLS_PARAM_ID_ALL) || (TLS_PARAM_ID_MAX <=? id) then mret (TLS_PARAM_STATUS_EINVALID, argv)
  else
    cur ← gets flash_param;
    curflashparm ← (if from_flash then on_store (fs_alloc sizeof_param_flash) else mret None);
    src ← match curflashparm with
          | None => mret cur
          | Some (p, buf) =>
              m ← flash_addrs;
              r ← on_store (fs_read (partition_addr m (get_partition_num cur)) p buf sizeof_param_flash);
              mret (if fst r =? TLS_FLS_STATUS_OK then snd r else cur)
          end;
    lock_param ;;
    r ← match param_action id with
        | None => mret (TLS_PARAM_STATUS_EINVALIDID, argv)
        | Some a => argv ← defined (action_get a parameters_off src argv); mret (TLS_PARAM_STATUS_OK, argv)
        end;
    match curflashparm with Some (p, _) => on_store (fs_free p) | None => mret tt end ;;
    unlock_param ;;
    mret r.

(** Whether the current partition already holds the parameters. *)
Definition param_unchanged : M st bool :=
  cur ← gets flash_param;
  b ← on_store (fs_alloc sizeof_param_flash);
  match b with
  | None => mret false
  | Some (p, buf) =>
      m ← flash_addrs;
      r ← on_store (fs_read (partition_addr m (get_partition_num cur)) p buf sizeof_param_flash);
      let same := (fst r =? TLS_FLS_STATUS_OK) && bool_decide (parameters (snd r) = parameters cur) in
      on_store (fs_free p) ;;
      mret same
  end.

Definition tls_param_to_flash (id : Z) : M st Z :=
  lock_param ;;
  same ← (if TLS_PARAM_ID_ALL =? id then param_unchanged else mret false);
  if (same : bool) then unlock_param ;; mret TLS_PARAM_STATUS_OK
  else
    err ← param_to_flash id (-1) (-1);
    unlock_param ;;
    mret err.

Definition tls_param_to_default : M st Z :=
  tls_param_load_factory_default ;;
  err ← param_to_flash TLS_PARAM_ID_ALL 1 0;
  if negb (err =? 0) then mret err
  else
    err ← param_to_flash TLS_PARAM_ID_ALL 1 1;
    set_flash_param (set_le 0 4 0) ;;
    mret err.

(** ** User defaults *)

(** [tls_param_load_user(param)]: the parameters read and the status;
    [magic] and [crc32] are what the two local variables happen to hold. *)
Definition tls_param_load_user (param_at : Z) (param magic crc32 : list Z) : M st (Z * list Z) :=
  m ← flash_addrs;
  let offset := TLS_FLASH_PARAM_DEFAULT m in
  r ← on_store (fs_read offset locals_at magic 4);
  if negb (le_val (take 4 (snd r)) =? TLS_USER_MAGIC) then mret (TLS_PARAM_STATUS_EINVALID, param)
  else
    let offset := offset + 4 in
    let param := memcpy_at 0 (replicate (Z.to_nat sizeof_sys_param) 0) param in
    r ← on_store (fs_read offset param_at param sizeof_sys_param);
    let param := snd r in
    let offset := offset + sizeof_sys_param in
    r ← on_store (fs_read offset locals_at crc32 4);
    if negb (le_val (take 4 (snd r)) =? Crc32.get_crc32 (take (Z.to_nat sizeof_sys_param) param))
    then mret (TLS_PARAM_STATUS_EINVALID, param)
    else mret (TLS_PARAM_STATUS_OK, param).

Definition tls_param_save_user_default : M st Z :=
  u ← gets user_default_param;
  match u with
  | None => mret TLS_PARAM_STATUS_EMEM
  | Some (p, param) =>
      m ← flash_addrs;
      let offset := TLS_FLASH_PARAM_DEFAULT m in
      on_store (fs_write offset locals_at (le_bytes 4 TLS_USER_MAGIC) 4) ;;
      let offset := offset + 4 in
      on_store (fs_write offset p param sizeof_sys_param) ;;
      let offset := offset + sizeof_sys_param in
      let crc32 := Crc32.get_crc32 (take (Z.to_nat sizeof_sys_param) param) in
      on_store (fs_write offset locals_at (le_bytes 4 crc32) 4) ;;
      mret TLS_PARAM_STATUS_OK
  end.

(** [struct tls_user_param], its arrays as lists of bytes. *)
Record tls_user_param := UserParam {
  u_wireless_protocol : Z; u_auto_mode : Z; u_dhcp_enable : Z; u_user_port_mode : Z;
  u_ip : list Z; u_netmask : list Z; u_gateway : list Z; u_dns : list Z;
  u_baudrate : Z; u_socket_protocol : Z; u_socket_client_or_server : Z; u_socket_port_num : Z;
  u_socket_host : list Z; u_auto_powersave : Z; u_PassWord : list Z
}.

Definition user_assignments (u : tls_user_param) : list (pfield * Z * list Z) :=
  [(wireless_protocol, 0, [u_wireless_protocol u]); (auto_mode, 0, [u_auto_mode u]);
   (uart_cfg, 0, le_bytes 4 (u_baudrate u)); (user_port_mode, 0, [u_user_port_mode u]);
   (ipcfg, 0, [u_dhcp_enable u]); (auto_powersave, 0, [u_auto_powersave u]);
   (ipcfg, 4, take 4 (u_ip u)); (ipcfg, 8, take 4 (u_netmask u)); (ipcfg, 12, take 4 (u_gateway u));
   (ipcfg, 16, take 4 (u_dns u)); (ipcfg, 20, take 4 (u_dns u));
   (remote_socket_cfg, 0, [u_socket_protocol u]); (remote_socket_cfg, 1, [u_socket_client_or_server u]);
   (remote_socket_cfg, 2, le_bytes 2 (u_socket_port_num u)); (remote_socket_cfg, 4, take 32 (u_socket_host u));
   (PassWord, 0, take 6 (u_PassWord u));
   (hardware_version, 0, factory_default_hardware);
   (wireless_region, 0, [1]); (channel, 0, [1]); (channellist, 0, le_bytes 2 0x3FFF);
   (wbgr, 0, [0]); (wbgr, 1, [9]); (ssid_broadcast_enable, 0, [1]); (encry, 0, [0]);
   (auto_retrycnt, 0, [255]); (auto_roam, 0, [0]); (transparent_trigger_length, 0, le_bytes 2 512);
   (uart_cfg, 4, [0]); (uart_cfg, 5, [0]);
   (local_dnsname, 0, local_winnermicro); (local_device_name, 0, w800);
   (EscapeChar, 0, [0x2b]); (EscapePeriod, 0, le_bytes 2 200); (debug_mode, 0, le_bytes 4 0)].

Definition tls_param_save_user (user_param : tls_user_param) : M st Z :=
  p ← tls_param_user_param_init;
  match p with
  | None => mret TLS_PARAM_STATUS_EMEM
  | Some _ =>
      u ← gets user_default_param;
      match u with
      | None => stuck
      | Some (p, img) => set_user_default (Some (p, assign (user_assignments user_param) img))
      end ;;
      tls_param_save_user_default ;;
      mret TLS_PARAM_STATUS_OK
  end.

Definition tls_param_get_updp_mode : M st Z := gets updp_mode.
Definition tls_param_set_updp_mode (mode : Z) : M st unit := modify (fun s =>
  Par (store s) (crypto s) (flash_param s) (sys_param_lock s) (user_default_param s) mode).

End param.
