(* ===== verification/ParamImage.v ===== *)
(** * Facts about parameter images: members, copies, the sealed header *)
From S2P Require Import Prelude Checksum FlsDriver Storage ParamData Param.

(** ** Members of an image *)

Lemma slice_memcpy_in off l dst :
  0 <= off -> off + zlen l <= zlen dst -> slice off (zlen l) (memcpy_at off l dst) = l.
Proof.
  intros Ho Hl. apply byte_list_eq; [rewrite length_slice; rewrite ?length_memcpy_at; lia|].
  intros i Hi. rewrite length_slice in Hi by (rewrite ?length_memcpy_at; lia).
  rewrite byte_at_slice, byte_at_memcpy by lia.
  rewrite (proj2 (Z.leb_le _ _)), (proj2 (Z.ltb_lt _ _)) by lia. simpl. f_equal. lia.
Qed.

Lemma slice_memcpy_out off l dst o n :
  0 <= off -> off + zlen l <= zlen dst -> 0 <= o -> 0 <= n -> o + n <= zlen dst ->
  o + n <= off \/ off + zlen l <= o -> slice o n (memcpy_at off l dst) = slice o n dst.
Proof.
  intros Ho Hl Hoo Hn Hon Hd. apply byte_list_eq; [rewrite !length_slice; rewrite ?length_memcpy_at; lia|].
  intros i Hi. rewrite length_slice in Hi by (rewrite ?length_memcpy_at; lia).
  rewrite !byte_at_slice, byte_at_memcpy by lia.
  destruct (Z.leb_spec off (o + i)), (Z.ltb_spec (o + i) (off + zlen l)); simpl; lia || done.
Qed.

Lemma length_set_le off n v img : length (set_le off n v img) = length img.
Proof. apply length_memcpy_at. Qed.

Lemma set_le_ok off n v img : bytes_ok img -> bytes_ok (set_le off n v img).
Proof. intros Hi. apply memcpy_bytes_ok; [apply le_bytes_ok|done]. Qed.

Lemma get_set_same off n v img :
  0 <= off -> 0 <= n -> off + n <= zlen img -> get_le off n (set_le off n v img) = v mod 2 ^ (8 * n).
Proof.
  intros Ho Hn Hl. unfold get_le, set_le.
  assert (Hz : zlen (le_bytes (Z.to_nat n) v) = n) by (rewrite length_le_bytes; lia).
  rewrite <- Hz at 1. rewrite slice_memcpy_in by lia. rewrite le_val_bytes. do 2 f_equal. lia.
Qed.

Lemma slice_set_out off n v img o m :
  0 <= off -> 0 <= n -> off + n <= zlen img -> 0 <= o -> 0 <= m -> o + m <= zlen img ->
  o + m <= off \/ off + n <= o -> slice o m (set_le off n v img) = slice o m img.
Proof.
  intros. unfold set_le. apply slice_memcpy_out; rewrite ?length_le_bytes; lia.
Qed.

Lemma get_set_out off n v img o m :
  0 <= off -> 0 <= n -> off + n <= zlen img -> 0 <= o -> 0 <= m -> o + m <= zlen img ->
  o + m <= off \/ off + n <= o -> get_le o m (set_le off n v img) = get_le o m img.
Proof. intros. unfold get_le. by rewrite slice_set_out. Qed.

Lemma get_le_bounds off n img :
  0 <= n -> bytes_ok img -> 0 <= get_le off n img < 2 ^ (8 * n).
Proof.
  intros Hn Hb. pose proof (le_val_bounds (slice off n img) (slice_bytes_ok _ _ _ Hb)) as Hv.
  split; [apply Hv|]. eapply Z.lt_le_trans; [apply Hv|]. apply Z.pow_le_mono_r; [lia|].
  unfold slice. rewrite length_take. lia.
Qed.

(** ** Sizes *)

Lemma sizeof_sys_param_eq : sizeof_sys_param = 2016.
Proof. vm_compute. reflexivity. Qed.

Lemma sizeof_param_flash_eq : sizeof_param_flash = 2036.
Proof. vm_compute. reflexivity. Qed.

Create Rewrite HintDb sizes.
#[export] Hint Rewrite sizeof_sys_param_eq sizeof_param_flash_eq : sizes.

(** An image of [struct tls_param_flash]. *)
Definition img_ok (l : list Z) : Prop := length l = 2036%nat /\ bytes_ok l.

Lemma zeros_ok : img_ok zeros.
Proof.
  unfold zeros. rewrite sizeof_param_flash_eq. split; [apply length_replicate|].
  apply Forall_replicate. unfold byte_ok. lia.
Qed.

(** ** Intact images *)

Definition intact (l : list Z) : Prop :=
  get_magic l = TLS_PARAM_MAGIC /\ get_length l = sizeof_param_flash /\
  get_crc l = Crc32.get_crc32 (take (Z.to_nat (sizeof_param_flash - 4)) l).

(** What [tls_param_init] tests, and the images on which its test stays
    inside the buffer. *)
Definition accepts (l : list Z) : bool :=
  (get_magic l =? TLS_PARAM_MAGIC) &&
  (Crc32.get_crc32 (take (Z.to_nat (get_length l - 4)) l) =? get_le (get_length l - 4) 4 l).

Definition readable (l : list Z) : Prop := get_magic l = TLS_PARAM_MAGIC -> 4 <= get_length l <= sizeof_param_flash.

Lemma intact_accepts l : intact l -> accepts l = true /\ readable l.
Proof.
  intros (Hm & Hl & Hc). unfold accepts, readable. rewrite Hm, Hl, Z.eqb_refl. unfold get_crc in Hc.
  rewrite Hc, Z.eqb_refl. rewrite sizeof_param_flash_eq. split; [reflexivity|lia].
Qed.

(** ** The sealed header *)

Section seal.
Variables (mc pn : Z) (img : list Z).
Hypothesis Hok : img_ok img.

Lemma seal_ok : img_ok (seal mc pn img).
Proof.
  unfold seal. cbv zeta. destruct Hok as [Hl Hb]. split; [by rewrite !length_set_le|].
  by repeat apply set_le_ok.
Qed.

Lemma img_len : zlen img = 2036.
Proof. destruct Hok as [Hl _]. lia. Qed.

Ltac members :=
  pose proof img_len; unfold seal; cbv zeta; rewrite ?sizeof_param_flash_eq;
  unfold get_magic, get_length, get_modify_count, get_partition_num, get_crc;
  repeat first [rewrite get_set_same by (rewrite ?length_set_le; lia)|rewrite get_set_out by (rewrite ?length_set_le; lia)].

Lemma seal_magic : get_magic (seal mc pn img) = TLS_PARAM_MAGIC.
Proof. members. reflexivity. Qed.

Lemma seal_length : get_length (seal mc pn img) = sizeof_param_flash.
Proof. members. reflexivity. Qed.

Lemma seal_count :
  get_modify_count (seal mc pn img) = u16 (if mc <? 0 then get_modify_count img + 1 else mc).
Proof. members. destruct (mc <? 0); [|done]. members. done. Qed.

Lemma seal_partition :
  get_partition_num (seal mc pn img) = if pn <? 0 then (get_partition_num img + 1) mod 2 else u16 pn.
Proof.
  members. destruct (pn <? 0); [|done]. members.
  change 1 with (Z.ones 1) at 2. rewrite Z.land_ones by lia. change (2 ^ 1) with 2. change (2 ^ (8 * 2)) with 65536.
  apply Z.mod_small. dlia.
Qed.

Lemma seal_parameters : parameters (seal mc pn img) = parameters img.
Proof.
  unfold parameters, parameters_off, seal. cbv zeta. rewrite sizeof_sys_param_eq, sizeof_param_flash_eq. destruct Hok as [Hl Hb].
  by repeat rewrite slice_set_out by (rewrite ?length_set_le; lia).
Qed.

Lemma seal_crc :
  get_crc (seal mc pn img) = Crc32.get_crc32 (take (Z.to_nat (sizeof_param_flash - 4)) (seal mc pn img)).
Proof.
  unfold seal. cbv zeta. rewrite sizeof_param_flash_eq. set (i0 := set_le 12 2 0 _).
  assert (H0 : img_ok i0). { destruct Hok as [Hl Hb]. split; [by unfold i0; rewrite !length_set_le|by repeat apply set_le_ok]. }
  destruct H0 as [Hl Hb]. unfold get_crc. rewrite sizeof_param_flash_eq, get_set_same by lia.
  change (2036 - 4) with 2032. change (2 ^ (8 * 4)) with (2 ^ 32).
  rewrite Z.mod_small by (apply Crc32Facts.get_crc32_bounds, Forall_take, Hb).
  f_equal. change (take (Z.to_nat 2032) i0) with (slice 0 2032 i0).
  change (take (Z.to_nat 2032) ?l) with (slice 0 2032 l). by rewrite slice_set_out by lia.
Qed.

Lemma seal_intact : intact (seal mc pn img).
Proof. split; [apply seal_magic|]. split; [apply seal_length|apply seal_crc]. Qed.

End seal.
