(* ===== verification/ParamSpec.v ===== *)
(** * What the parameter manager's operations do

    Specifications of sealing and writing a partition, of the scan at
    start-up and of [tls_param_init], over any storage that keeps the
    storage laws. *)
From S2P Require Import Prelude CMonad Checksum FlsDriver CrcHard Storage ParamData Param ParamImage.

(** The areas of the parameters: sectors of the storage, pairwise distinct. *)
Definition area_ok (size a : Z) : Prop :=
  0 <= a /\ a + 4096 < 2 ^ 32 /\ a mod 4096 = 0 /\ BOOT_SIZE <= a mod 2 ^ 27 /\ a mod 2 ^ 27 + 4096 <= size.

Record map_ok (m : flash_map) (size : Z) : Prop := {
  mk_area : area_ok size (TLS_FLASH_PARAM_DEFAULT m) /\ area_ok size (TLS_FLASH_PARAM1_ADDR m) /\
    area_ok size (TLS_FLASH_PARAM2_ADDR m);
  mk_distinct : TLS_FLASH_PARAM1_ADDR m mod 2 ^ 27 <> TLS_FLASH_PARAM2_ADDR m mod 2 ^ 27 /\
    TLS_FLASH_PARAM_DEFAULT m mod 2 ^ 27 <> TLS_FLASH_PARAM1_ADDR m mod 2 ^ 27 /\
    TLS_FLASH_PARAM_DEFAULT m mod 2 ^ 27 <> TLS_FLASH_PARAM2_ADDR m mod 2 ^ 27
}.

(** Offset and content of a partition. *)
Definition part_off (m : flash_map) (i : Z) : Z := partition_addr m i mod 2 ^ 27.
Definition part (f : Z -> Z) (m : flash_map) (i : Z) : list Z := range f (part_off m i) 2036.

Definition in_sector (off : Z) : Z -> Prop := fun a => off <= a < off + 4096.
Abbreviation nowhere := (fun _ : Z => False).

Section spec.
Context {F : Type} `{FlashStoreLaws F} `{CrcEngineLaws} `{Statics}.
Implicit Types s : par F.

Abbreviation bytes_of s := (fs_byte (store s)).
Abbreviation map_of s := (fs_map (store s)).
Abbreviation low s := (fs_low (store s)).

Lemma part_geometry m size i :
  map_ok m size ->
  0 <= partition_addr m i /\ partition_addr m i + 4096 < 2 ^ 32 /\ part_off m i mod 4096 = 0 /\
  BOOT_SIZE <= part_off m i /\ part_off m i + 4096 <= size.
Proof.
  intros [(_ & A1 & A2) _]. unfold part_off, partition_addr.
  destruct (i =? 0); [destruct A1 as (? & ? & ? & ? & ?)|destruct A2 as (? & ? & ? & ? & ?)];
    (split; [done|]; split; [done|]; split; [dlia|done]).
Qed.

(** Different partitions do not overlap. *)
Lemma part_disjoint m size i j :
  map_ok m size -> i = 0 -> j = 1 ->
  part_off m i + 4096 <= part_off m j \/ part_off m j + 4096 <= part_off m i.
Proof.
  intros Hm -> ->. pose proof (part_geometry m size 0 Hm) as (_ & _ & G0 & _).
  pose proof (part_geometry m size 1 Hm) as (_ & _ & G1 & _). destruct Hm as [_ [Hd _]].
  unfold part_off, partition_addr in *. simpl in *. dlia.
Qed.

(** The manager's variables are well formed over a storage at rest. *)
Record par_ok s : Prop := {
  pk_store : fs_ok (store s);
  pk_crypto : gpsec_ok (crypto s);
  pk_img : img_ok (flash_param s);
  pk_map : map_ok (map_of s) (fs_size (store s))
}.

(** From [s] to [s'] the storage changed within [S] at most; the lock, the
    user defaults and the mode not at all. *)
Record par_step (S : Z -> Prop) s s' : Prop := {
  ps_store : fs_step S (store s) (store s');
  ps_ok : par_ok s';
  ps_lock : sys_param_lock s' = sys_param_lock s;
  ps_user : user_default_param s' = user_default_param s;
  ps_updp : updp_mode s' = updp_mode s
}.

Lemma par_step_refl S s : par_ok s -> par_step S s s.
Proof. intros K. split; try done. apply fs_step_refl, K. Qed.

Lemma par_step_trans S s1 s2 s3 : par_step S s1 s2 -> par_step S s2 s3 -> par_step S s1 s3.
Proof. intros [? ? ? ? ?] [? ? ? ? ?]. split; [by eapply fs_step_trans|done|congruence..]. Qed.

Lemma par_step_mono (S T : Z -> Prop) s s' : (forall a, S a -> T a) -> par_step S s s' -> par_step T s s'.
Proof. intros HST [? ? ? ? ?]. split; [by eapply fs_step_mono|done..]. Qed.

Lemma par_step_nowhere S s s' : par_step nowhere s s' -> par_step S s s'.
Proof. apply par_step_mono. intros a []. Qed.

Lemma par_step_map S s s' : par_step S s s' -> map_of s' = map_of s.
Proof. intros [T _ _ _ _]. exact (st_map _ _ _ T). Qed.

Lemma par_step_quiet s s' : par_step nowhere s s' -> bytes_of s' ≡ₐ bytes_of s.
Proof. intros [T _ _ _ _] a. apply (st_out _ _ _ T). tauto. Qed.

Lemma par_step_low S s s' : par_step S s s' -> low s = true -> low s' = true.
Proof. intros [T _ _ _ _]. exact (st_low _ _ _ T). Qed.

(** Storage operations run from the manager. *)
Lemma on_store_spec {A} (m : M F A) S s (Q : A -> par F -> Prop) :
  par_ok s ->
  wp m (store s) (fun a f' => fs_step S (store s) f' /\
    (forall s', par_step S s s' -> store s' = f' -> flash_param s' = flash_param s -> Q a s')) ->
  wp (on_store m) s Q.
Proof.
  intros [K1 K2 K3 K4] (a & f' & Hm & Hs & HQ)%wp_run. unfold on_store. apply wp_zoom. rewrite Hm.
  apply HQ; try done. split; try done. split; try done; [apply Hs|]. simpl.
  by rewrite (st_map _ _ _ Hs), (st_size _ _ _ Hs).
Qed.

(** Assigning [flash_param]. *)
Lemma set_flash_param_spec g s (Q : unit -> par F -> Prop) :
  par_ok s -> img_ok (g (flash_param s)) ->
  (forall s', par_step nowhere s s' -> store s' = store s -> flash_param s' = g (flash_param s) -> Q tt s') ->
  wp (set_flash_param g) s Q.
Proof.
  intros [K1 K2 K3 K4] Hi HQ. apply wp_modify, HQ; try done. split; try done. by apply fs_step_refl.
Qed.

Lemma gets_spec {A} (f : par F -> A) s (Q : A -> par F -> Prop) : Q (f s) s -> wp (gets f) s Q.
Proof. apply wp_gets. Qed.

(** Reading a partition: its content, or the buffer as it was. *)
Lemma read_partition_spec i p buf s (Q : Z * list Z -> par F -> Prop) :
  par_ok s -> p <> 0 -> length buf = 2036%nat ->
  (forall l s', par_step nowhere s s' -> flash_param s' = flash_param s ->
     (l = part (bytes_of s) (map_of s) i \/ (l = buf /\ low s' = true)) ->
     Q (TLS_FLS_STATUS_OK, l) s') ->
  wp (on_store (fs_read (partition_addr (map_of s) i) p buf sizeof_param_flash)) s Q.
Proof.
  intros K Hp Hb HQ. destruct (part_geometry _ _ i (pk_map _ K)) as (? & ? & _ & ? & ?).
  rewrite sizeof_param_flash_eq. apply (on_store_spec _ nowhere); [done|].
  eapply wp_mono; [apply fs_read_spec; [apply K|done|done|lia|lia|fold (part_off (map_of s) i); lia]|].
  cbv beta. intros [e l] f' (Hs & He & Hl). simpl in He, Hl. subst e. split; [done|].
  intros s' Hst Hf Hfp. apply HQ; [done|done|]. destruct Hl as [->|[-> Hlow]]; [left|right; by rewrite Hf].
  apply memcpy_at_all. unfold part. rewrite length_range. done.
Qed.

Lemma range_all l f off : f ≡ₐ overlay f off l -> range f off (zlen l) = l.
Proof. intros Hf. rewrite Hf. apply range_overlay. Qed.

Lemma b2z_eqb b : (b2z b =? 1) = b.
Proof. by destruct b. Qed.

(** Reading back what was written. *)
Lemma param_flash_verify_spec i img s (Q : Z -> par F -> Prop) :
  par_ok s -> length img = 2036%nat -> part (bytes_of s) (map_of s) i = img ->
  (forall r s', par_step nowhere s s' -> flash_param s' = flash_param s -> (r = 1 \/ (r = 0 /\ low s' = true)) -> Q r s') ->
  wp (param_flash_verify (partition_addr (map_of s) i) img sizeof_param_flash) s Q.
Proof.
  intros K Hl Hp HQ. unfold param_flash_verify. apply wp_bind, (on_store_spec _ nowhere); [done|].
  eapply wp_mono; [apply fs_alloc_spec; [apply K|by rewrite sizeof_param_flash_eq]|].
  cbv beta. intros [[p buf]|] f1 [Hs1 Hr1]; (split; [done|]); intros s1 T1 Hf1 Hfp1.
  2: { apply wp_ret, HQ; [done|done|]. right. by rewrite Hf1. }
  destruct Hr1 as (Hp0 & Hlb & _). apply wp_bind. rewrite <- (par_step_map _ _ _ T1).
  apply read_partition_spec; [apply T1|done|by rewrite Hlb, sizeof_param_flash_eq|].
  intros l s2 T2 Hfp2 Hl2. cbn [fst snd]. change (TLS_FLS_STATUS_OK =? TLS_FLS_STATUS_OK) with true. cbn [negb].
  apply wp_bind, (on_store_spec _ nowhere); [apply T2|].
  eapply wp_mono; [apply fs_free_spec, T2|]. cbv beta. intros _ f3 Hs3. split; [done|].
  intros s3 T3 Hf3 Hfp3. apply wp_ret, HQ; [do 2 (eapply par_step_trans; [done|]); done|congruence|].
  destruct Hl2 as [->|[-> Hlow]].
  - left. assert (Hp1 : part (bytes_of s1) (map_of s1) i = img).
    { rewrite <- Hp, (par_step_map _ _ _ T1). unfold part. by rewrite (par_step_quiet _ _ T1). }
    by rewrite Hp1, bool_decide_true.
  - destruct (bool_decide _); [by left|right]. split; [done|]. by eapply par_step_low.
Qed.

(** ** The lock *)

Definition with_lock (l : option Z) s : par F :=
  Par (store s) (crypto s) (flash_param s) l (user_default_param s) (updp_mode s).

Lemma with_lock_ok l s : par_ok s -> par_ok (with_lock l s).
Proof. intros [? ? ? ?]. by split. Qed.

Lemma lock_param_spec s (Q : unit -> par F -> Prop) :
  sys_param_lock s = Some 1 -> Q tt (with_lock (Some 0) s) -> wp lock_param s Q.
Proof. intros Hl HQ. unfold lock_param. apply wp_bind, wp_gets. rewrite Hl. by apply wp_modify. Qed.

Lemma unlock_param_spec S s s1 (Q : unit -> par F -> Prop) :
  sys_param_lock s = Some 1 -> par_step S (with_lock (Some 0) s) s1 ->
  (forall s', par_step S s s' -> store s' = store s1 -> flash_param s' = flash_param s1 -> Q tt s') ->
  wp unlock_param s1 Q.
Proof.
  intros Hl [T1 T2 T3 T4 T5] HQ. unfold unlock_param. apply wp_bind, wp_gets. rewrite T3. cbn [with_lock sys_param_lock].
  apply wp_modify, HQ; [|reflexivity|reflexivity]. split; [exact T1| |by rewrite Hl|exact T4|exact T5].
  by apply (with_lock_ok (Some (0 + 1))) in T2.
Qed.

(** ** Writing a partition *)

Definition wrote (off : Z) (img : list Z) s (r : Z) s' : Prop :=
  (r = TLS_PARAM_STATUS_OK /\ bytes_of s' ≡ₐ overlay (bytes_of s) off img) \/
  (r = TLS_PARAM_STATUS_EIO /\ low s' = true /\
     (bytes_of s' ≡ₐ bytes_of s \/ bytes_of s' ≡ₐ overlay (bytes_of s) off img)).

Lemma sectors_of_part m size i a :
  map_ok m size -> sectors_of (part_off m i) 2036 a -> in_sector (part_off m i) a.
Proof.
  intros Hm Ha. destruct (part_geometry m size i Hm) as (_ & _ & Hal & _). unfold sectors_of, in_sector in *. dlia.
Qed.

Lemma param_to_flash_spec id mc pn s (Q : Z -> par F -> Prop) :
  let img := seal mc pn (flash_param s) in
  let off := part_off (map_of s) (get_partition_num img) in
  par_ok s -> -1 <= id < 66 ->
  (forall r s', par_step (in_sector off) s s' -> flash_param s' = img -> wrote off img s r s' -> Q r s') ->
  wp (param_to_flash id mc pn) s Q.
Proof.
  intros img off K Hid HQ. unfold param_to_flash, TLS_PARAM_ID_ALL, TLS_PARAM_ID_MAX.
  rewrite (proj2 (Z.ltb_ge _ _)), (proj2 (Z.leb_gt _ _)) by lia. cbn [orb].
  assert (Hi : img_ok img) by apply seal_ok, K.
  apply wp_bind, set_flash_param_spec; [done|exact Hi|]. intros s1 T1 Hf1 Hfp1. fold img in Hfp1.
  apply wp_bind, wp_gets, wp_bind, wp_gets. rewrite Hfp1. rewrite Hf1.
  destruct (part_geometry _ _ (get_partition_num img) (pk_map _ K)) as (Ga & Gw & Hal & Gb & Ge). fold off in Hal, Gb, Ge.
  assert (Hlen : zlen img = 2036) by (destruct Hi; lia).
  apply wp_bind, (on_store_spec _ (in_sector off)); [apply T1|]. rewrite Hf1.
  rewrite sizeof_param_flash_eq. eapply wp_mono.
  { apply (fs_write_spec _ _ flash_param_at img 2036); [apply K|apply flash_param_nonnull|apply Hi|lia|done|fold (part_off (map_of s) (get_partition_num img)); fold off; lia]. }
  cbv beta. fold (part_off (map_of s) (get_partition_num img)). fold off. intros r f2 [Hs2 Hr2].
  assert (Hs2' : fs_step (in_sector off) (store s) f2).
  { eapply fs_step_mono; [|exact Hs2]. intros a. apply (sectors_of_part (map_of s) (fs_size (store s))), K. }
  split; [done|]. intros s2 T2 Hf2 Hfp2.
  assert (T02 : par_step (in_sector off) s s2) by (eapply par_step_trans; [by apply par_step_nowhere|done]).
  assert (Hmap2 : map_of s2 = map_of s) by apply (par_step_map _ _ _ T02).
  rewrite take_ge in Hr2 by (destruct Hi; lia).
  destruct Hr2 as [(-> & _ & Hw)|(-> & Hlow & Hw)]; cbn [negb]; rewrite <- Hf2 in *.
  2: { apply wp_ret, HQ; [done|congruence|]. right. split; [done|]. split; [done|]. by left. }
  change (negb (TLS_FLS_STATUS_OK =? TLS_FLS_STATUS_OK)) with false. cbn iota.
  apply wp_bind. rewrite <- Hmap2, <- sizeof_param_flash_eq.
  apply param_flash_verify_spec; [apply T2|apply Hi| |].
  { unfold part. rewrite Hmap2, Hw. fold off. rewrite <- Hlen. apply range_overlay. }
  intros r s3 T3 Hfp3 Hr3.
  assert (T03 : par_step (in_sector off) s s3) by (eapply par_step_trans; [done|by apply par_step_nowhere]).
  assert (Hb3 : bytes_of s3 ≡ₐ overlay (bytes_of s) off img) by (rewrite (par_step_quiet _ _ T3); done).
  assert (Hfp : flash_param s3 = img) by congruence.
  destruct Hr3 as [->|[-> Hlow]]; apply wp_ret, HQ; try done; [by left|].
  right. split; [done|]. split; [done|]. by right.
Qed.

End spec.
