(* ===== verification/ParamInit.v ===== *)
(** * Start-up of the parameter manager: [tls_param_init]

    What a start-up loads from the two partitions and how it restores the
    damaged ones. *)
From S2P Require Import Prelude CMonad Checksum FlsDriver CrcHard Storage ParamData Param ParamImage ParamSpec.

(** The sizes and the checksum are not to be computed by conversion. *)
#[local] Opaque zeros sizeof_param_flash sizeof_sys_param Crc32.get_crc32 seal factory_params.

(** ** What start-up should do *)

(** Loading an image over the current one; an image of another length (an
    older or newer layout) is copied without its checksum. *)
Definition load (cur l : list Z) : list Z :=
  if get_length l =? sizeof_param_flash then l else memcpy_at 0 (take (Z.to_nat (get_length l - 4)) l) cur.

Definition newer (cur l : list Z) : bool := (get_magic cur =? 0) || (get_modify_count cur <? get_modify_count l).

Definition keep (cur l : list Z) : list Z := if accepts l && newer cur l then load cur l else cur.

Definition scanned (l0 l1 : list Z) : list Z := keep (keep zeros l0) l1.

(** A partition as this firmware leaves it, and one that is either that or
    recognisably damaged. *)
Definition own (i : Z) (l : list Z) : Prop := intact l /\ get_partition_num l = i.
Definition sane (i : Z) (l : list Z) : Prop := readable l /\ (accepts l = true -> own i l).

Definition boot_params (l0 l1 : list Z) : list Z :=
  match accepts l0, accepts l1 with
  | true, true => if get_modify_count l0 <? get_modify_count l1 then parameters l1 else parameters l0
  | true, false => parameters l0
  | false, true => parameters l1
  | false, false => factory_params
  end.

Lemma own_sane i l : own i l -> sane i l.
Proof. intros [Hi Hp]. split; [by apply intact_accepts|done]. Qed.

Lemma load_own i cur l : own i l -> load cur l = l.
Proof. intros [(_ & Hl & _) _]. unfold load. by rewrite Hl, Z.eqb_refl. Qed.

Lemma newer_zeros l : newer zeros l = true.
Proof. reflexivity. Qed.

Lemma newer_own i cur l : own i cur -> newer cur l = (get_modify_count cur <? get_modify_count l).
Proof. intros [(Hm & _ & _) _]. unfold newer. by rewrite Hm. Qed.

Lemma load_ok cur l : img_ok cur -> img_ok l -> img_ok (load cur l).
Proof.
  intros [Hc Hcb] [Hl Hlb]. unfold load. destruct (_ =? _); [done|].
  split; [by rewrite length_memcpy_at|]. apply memcpy_bytes_ok; [by apply Forall_take|done].
Qed.

Lemma keep_ok cur l : img_ok cur -> img_ok l -> img_ok (keep cur l).
Proof. intros Hc Hl. unfold keep. destruct (_ && _); [by apply load_ok|done]. Qed.

Lemma scanned_own l0 l1 :
  sane 0 l0 -> sane 1 l1 ->
  scanned l0 l1 =
    match accepts l0, accepts l1 with
    | true, true => if get_modify_count l0 <? get_modify_count l1 then l1 else l0
    | true, false => l0
    | false, true => l1
    | false, false => zeros
    end.
Proof.
  intros [_ H0] [_ H1]. unfold scanned, keep. rewrite newer_zeros, andb_true_r.
  destruct (accepts l0); destruct (accepts l1); cbn [andb]; rewrite ?newer_zeros;
    rewrite ?(load_own 0 zeros l0) by auto; rewrite ?(newer_own 0 l0) by auto;
    repeat rewrite ?(load_own 1 _ l1) by auto; done.
Qed.

Definition dmg (l : list Z) : Z := if accepts l then 0 else 1.

Section init.
Context {F : Type} `{FlashStoreLaws F} `{CrcEngineLaws} `{Statics}.
Implicit Types s : par F.

Abbreviation bytes_of s := (fs_byte (store s)).
Abbreviation map_of s := (fs_map (store s)).
Abbreviation low s := (fs_low (store s)).

(** ** The scan *)

Lemma on_crypto_spec {A} (m : M gpsec A) s (Q : A -> par F -> Prop) :
  par_ok s ->
  wp m (crypto s) (fun a c' => gpsec_ok c' /\
    (forall s', par_step nowhere s s' -> store s' = store s -> flash_param s' = flash_param s -> Q a s')) ->
  wp (on_crypto m) s Q.
Proof.
  intros [K1 K2 K3 K4] (a & c' & Hm & Hc & HQ)%wp_run. unfold on_crypto. apply wp_zoom. rewrite Hm.
  apply HQ; try done. split; try done. by apply fs_step_refl.
Qed.

(** The hardware CRC of a block is the software one. *)
Lemma hw_crc_spec l n s (Q : Z -> par F -> Prop) :
  par_ok s -> bytes_ok l -> 0 <= n <= 0xFFFF -> n <= zlen l ->
  (forall v s', par_step nowhere s s' -> store s' = store s -> flash_param s' = flash_param s ->
     u32 (Z.lnot v) = Crc32.get_crc32 (take (Z.to_nat n) l) -> Q v s') ->
  wp (hw_crc l n) s Q.
Proof.
  intros K Hb Hn Hl HQ. unfold hw_crc. apply wp_bind, on_crypto_spec; [done|].
  apply crc_update_spec; [apply K|lia|done|done|done|]. intros c' Hc' _. split; [done|].
  intros s' T Hst Hfp. apply wp_ret, HQ; [done|done|done|].
  assert (Hb' : bytes_ok (take (Z.to_nat n) l)) by by apply Forall_take.
  rewrite Crc32Facts.get_crc32_is_ref by done. apply Crc32Facts.u32_lnot, Crc32Facts.ref_reg_bounds; [lia|done].
Qed.

Lemma set_image_spec img s (Q : unit -> par F -> Prop) :
  par_ok s -> img_ok img ->
  (forall s', par_step nowhere s s' -> store s' = store s -> flash_param s' = img -> Q tt s') ->
  wp (set_flash_param (fun _ => img)) s Q.
Proof. intros K Hi HQ. by apply set_flash_param_spec. Qed.

Definition scan_next (x : scan) (l : list Z) : scan :=
  if accepts l then Scan (sc_i x + 1) (sc_damaged x) (is_damage x) (tryrestore x) zeros
  else Scan (sc_i x + 1) (sc_damaged x + 1) (mark (sc_i x) (is_damage x)) (tryrestore x) l.

Lemma scan_body_spec fp x s (Q : scan + scan -> par F -> Prop) :
  par_ok s -> fp <> 0 -> sc_i x < 2 -> 0 <= sc_damaged x < 2 -> img_ok (sc_flash x) -> readable (sc_flash x) ->
  readable (part (bytes_of s) (map_of s) (sc_i x)) ->
  (forall l s', par_step nowhere s s' -> img_ok l -> readable l ->
     (l = part (bytes_of s) (map_of s) (sc_i x) \/ low s' = true) ->
     flash_param s' = keep (flash_param s) l -> Q (inl (scan_next x l)) s') ->
  wp (scan_body fp x) s Q.
Proof.
  intros K Hfp Hi Hd [Hl Hb] Hrd Hrp HQ. unfold scan_body, TLS_PARAM_PARTITION_NUM.
  rewrite (proj2 (Z.ltb_lt _ _)) by done. cbn [negb]. apply wp_bind, wp_gets, wp_bind.
  apply read_partition_spec; [done|done|done|]. intros l s1 T1 Hfp1 Hl1. cbn [snd].
  assert (Hlok : img_ok l).
  { destruct Hl1 as [->|[-> _]]; [|done]. unfold part. split; [by rewrite length_range|].
    apply Forall_fmap, Forall_forall. intros a _. apply fs_byte_ok. }
  assert (Hread : readable l) by (destruct Hl1 as [->|[-> _]]; done).
  assert (Hor : l = part (bytes_of s) (map_of s) (sc_i x) \/ low s1 = true) by tauto.
  assert (Hbad : accepts l = false -> forall s2, par_step nowhere s s2 -> flash_param s2 = flash_param s ->
    (low s1 = true -> low s2 = true) ->
    Q (inl (Scan (sc_i x + 1) (u8 (sc_damaged x + 1)) (mark (sc_i x) (is_damage x)) (tryrestore x) l)) s2).
  { intros Ha s2 T2 Hfp2 Hlow. specialize (HQ l s2 T2 Hlok Hread). unfold scan_next, keep in HQ. rewrite Ha in HQ.
    replace (u8 (sc_damaged x + 1)) with (sc_damaged x + 1) by (symmetry; apply wrap_id; lia).
    apply HQ; [tauto|done]. }
  clear Hl1. unfold accepts in Hbad. destruct (Z.eqb_spec (get_magic l) TLS_PARAM_MAGIC) as [Hm|Hm]; cbn [negb].
  2: { apply wp_ret, Hbad; done. }
  specialize (Hread Hm) as Hlen. rewrite sizeof_param_flash_eq in Hlen. cbn [andb] in Hbad.
  assert (Hz : zlen l = 2036) by (destruct Hlok; lia).
  assert (Hu : u32 (get_length l - 4) = get_length l - 4) by (apply wrap_id; lia). rewrite Hu.
  apply wp_bind, hw_crc_spec; [apply T1|apply Hlok|lia|lia|]. intros v s2 T2 Hst2 Hfp2 Hv.
  assert (T02 : par_step nowhere s s2) by (by eapply par_step_trans).
  apply wp_bind. unfold stored_crc. rewrite (proj2 (Z.leb_le _ _)), (proj2 (Z.leb_le _ _)) by lia. cbn [andb].
  apply wp_ret. rewrite Hv.
  destruct (Z.eqb_spec (Crc32.get_crc32 (take (Z.to_nat (get_length l - 4)) l)) (get_le (get_length l - 4) 4 l)) as [Hc|Hc];
    cbn [negb]; [|apply wp_ret, Hbad; [done|done|congruence|by rewrite Hst2]].
  assert (Ha : accepts l = true) by (unfold accepts; by rewrite Hm, Hc, !Z.eqb_refl).
  assert (Hlow2 : l = part (bytes_of s) (map_of s) (sc_i x) \/ low s2 = true) by (rewrite Hst2; done).
  apply wp_bind, wp_gets, wp_bind. rewrite Hfp2, Hfp1. clear Hbad.
  assert (Hend : forall s3, par_step nowhere s2 s3 -> store s3 = store s2 -> flash_param s3 = keep (flash_param s) l ->
    wp (if (tryrestore x =? 0) && (2 <=? sc_damaged x) then
          set_flash_param (fun _ => zeros) ;;
          on_store (fs_erase (TLS_FLASH_PARAM_RESTORE_ADDR (map_of s) / 4096)) ;;
          mret (inl (Scan 0 0 [false; false] 1 zeros))
        else mret (inl (Scan (sc_i x + 1) (sc_damaged x) (is_damage x) (tryrestore x) zeros))) s3 Q).
  { intros s3 T3 Hst3 Hfp3. rewrite (proj2 (Z.leb_gt 2 _)) by lia. rewrite andb_false_r. apply wp_ret.
    specialize (HQ l s3 (par_step_trans _ _ _ _ T02 T3) Hlok Hread). unfold scan_next in HQ. rewrite Ha in HQ.
    apply HQ; [by rewrite Hst3|done]. }
  unfold keep in Hend. rewrite Ha in Hend. cbn [andb] in Hend. fold (newer (flash_param s) l).
  destruct (newer (flash_param s) l); [|apply wp_ret, Hend; [apply par_step_refl, T2|done|congruence]].
  unfold load in Hend. destruct (get_length l =? sizeof_param_flash) eqn:El; cbn [negb].
  - apply set_image_spec; [apply T2|done|]. intros s3 T3 Hst3 Hfp3. by apply Hend.
  - apply set_flash_param_spec; [apply T2| |].
    + rewrite Hfp2, Hfp1. pose proof (load_ok (flash_param s) l (pk_img _ K) Hlok) as Hlo. unfold load in Hlo.
      by rewrite El in Hlo.
    + intros s3 T3 Hst3 Hfp3. rewrite Hfp2, Hfp1 in Hfp3. by apply Hend.
Qed.

Lemma readable_zeros : readable zeros.
Proof. intros Hm. by vm_compute in Hm. Qed.

(** Both rounds: what was read, and what it led to. *)
Lemma scan_spec fp s (Q : scan -> par F -> Prop) :
  let l i := part (bytes_of s) (map_of s) i in
  par_ok s -> fp <> 0 -> readable (l 0) -> readable (l 1) -> flash_param s = zeros ->
  (forall l0 l1 x s', par_step nowhere s s' -> img_ok l0 -> img_ok l1 ->
     (low s' = true \/ (l0 = l 0 /\ l1 = l 1)) ->
     flash_param s' = scanned l0 l1 -> sc_damaged x = dmg l0 + dmg l1 ->
     is_damage x = [negb (accepts l0); negb (accepts l1)] -> Q x s') ->
  wp (mloop 8 (scan_body fp) (Scan 0 0 [false; false] 0 zeros)) s Q.
Proof.
  intros l K Hfp Rd0 Rd1 Hz HQ. cbn [mloop].
  apply wp_bind, scan_body_spec; [done|done|simpl; lia|simpl; lia|apply zeros_ok|apply readable_zeros|done|].
  intros l0 s1 T1 Hi0 Hr0 Hl0 Hfp1. cbn [sc_i] in Hl0. rewrite Hz in Hfp1. fold (l 0) in Hl0.
  set (x1 := scan_next _ l0). assert (Hx1 : sc_i x1 = 1 /\ sc_damaged x1 = dmg l0 /\ is_damage x1 = [negb (accepts l0); false] /\
    img_ok (sc_flash x1) /\ readable (sc_flash x1)).
  { unfold x1, scan_next, dmg. destruct (accepts l0); cbn [sc_i sc_damaged is_damage sc_flash];
      (split; [reflexivity|]; split; [reflexivity|]; split; [reflexivity|]).
    - split; [apply zeros_ok|apply readable_zeros].
    - by split. }
  destruct Hx1 as (Hxi & Hxd & Hxl & Hxf & Hxr).
  assert (Hp1 : part (bytes_of s1) (map_of s1) 1 = l 1).
  { unfold l, part. rewrite (par_step_map _ _ _ T1). by rewrite (par_step_quiet _ _ T1). }
  apply wp_bind, scan_body_spec; [apply T1|done|lia|rewrite Hxd; unfold dmg; destruct (accepts l0); lia|done|done
    |by rewrite Hxi, Hp1|].
  intros l1 s2 T2 Hi1 Hr1 Hl1 Hfp2. rewrite Hxi, Hp1 in Hl1.
  set (x2 := scan_next x1 l1). assert (Hx2 : sc_i x2 = 2 /\ sc_damaged x2 = dmg l0 + dmg l1 /\
    is_damage x2 = [negb (accepts l0); negb (accepts l1)]).
  { unfold x2, scan_next. rewrite Hxi, Hxd, Hxl. assert (Hd : dmg l1 = if accepts l1 then 0 else 1) by reflexivity.
    destruct (accepts l1); cbn [sc_i sc_damaged is_damage]; (split; [lia|]; split; [lia|reflexivity]). }
  destruct Hx2 as (Hx2i & Hx2d & Hx2l). apply wp_bind. unfold scan_body at 1. rewrite Hx2i. apply wp_ret, wp_ret.
  apply (HQ l0 l1); [by eapply par_step_trans|done|done| |by rewrite Hfp2, Hfp1|done|done].
  destruct Hl0 as [->|Hlow]; [|left; by eapply par_step_low]. destruct Hl1 as [->|Hlow]; auto.
Qed.

(** ** Writing partitions *)

Definition both (m : flash_map) : Z -> Prop := fun a => in_sector (part_off m 0) a \/ in_sector (part_off m 1) a.

Lemma both_part m i a : i = 0 \/ i = 1 -> in_sector (part_off m i) a -> both m a.
Proof. intros [-> | ->]; unfold both; auto. Qed.

Lemma part_same f g m i : (forall a, in_sector (part_off m i) a -> f a = g a) -> part f m i = part g m i.
Proof. intros He. apply range_ext. intros a Ha. apply He. unfold in_sector. lia. Qed.

(** Writing a partition puts the sealed image there and leaves the other
    partition alone. *)
Lemma put_partition_spec id mc pn i s (Q : Z -> par F -> Prop) :
  let img := seal mc pn (flash_param s) in
  par_ok s -> -1 <= id < 66 -> get_partition_num img = i -> i = 0 \/ i = 1 ->
  (forall r s', par_step (in_sector (part_off (map_of s) i)) s s' -> flash_param s' = img ->
     low s' = true \/ (r = TLS_PARAM_STATUS_OK /\ part (bytes_of s') (map_of s) i = img /\
       part (bytes_of s') (map_of s) (1 - i) = part (bytes_of s) (map_of s) (1 - i)) -> Q r s') ->
  wp (param_to_flash id mc pn) s Q.
Proof.
  intros img K Hid Hi H01 HQ. apply param_to_flash_spec; [done|done|]. fold img. rewrite Hi.
  intros r s' T Hfp Hw. apply HQ; [done|done|]. destruct Hw as [(-> & Hw)|(_ & Hlow & _)]; [right|by left].
  assert (Hlen : zlen img = 2036).
  { destruct (seal_ok mc pn (flash_param s) (pk_img _ K)) as [Hl _]. unfold img. lia. }
  split; [done|]. split.
  - unfold part. rewrite Hw, <- Hlen. apply range_overlay.
  - apply part_same. intros a Ha. destruct T as [T _ _ _ _]. apply (st_out _ _ _ T). intros Hb.
    pose proof (part_disjoint _ _ 0 1 (pk_map _ K) eq_refl eq_refl) as Hd. clear Hi HQ Hw.
    destruct H01 as [-> | ->]; [change (1 - 0) with 1 in Ha|change (1 - 1) with 0 in Ha]; unfold in_sector in *; lia.
Qed.

Lemma own_seal mc pn i img : img_ok img -> get_partition_num (seal mc pn img) = i -> own i (seal mc pn img).
Proof. intros Hi Hp. split; [by apply seal_intact|done]. Qed.

Lemma seal_at mc i img : img_ok img -> i = 0 \/ i = 1 -> get_partition_num (seal mc i img) = i.
Proof. intros Hi [-> | ->]; rewrite seal_partition by done; reflexivity. Qed.

Lemma factory_ok : bytes_ok factory_params /\ length factory_params = 2016%nat.
Proof.
  rewrite <- (Nat2Z.id 2016). split; [|by vm_compute].
  apply (bool_decide_unpack (bytes_ok factory_params)). by vm_compute.
Qed.

Lemma set_parameters_ok ps img :
  img_ok img -> bytes_ok ps -> length ps = 2016%nat ->
  img_ok (memcpy_at parameters_off ps img) /\ parameters (memcpy_at parameters_off ps img) = ps.
Proof.
  intros [Hl Hb] Hp Hpl. split; [split; [by rewrite length_memcpy_at|by apply memcpy_bytes_ok]|].
  unfold parameters, parameters_off. rewrite sizeof_sys_param_eq.
  replace 2016 with (zlen ps) by lia. apply slice_memcpy_in; lia.
Qed.

(** The current partition holds the current image, and it is the one that
    the next start-up takes. *)
Record synced s : Prop := {
  sy_ok : par_ok s;
  sy_own : forall i, i = 0 \/ i = 1 -> own i (part (bytes_of s) (map_of s) i);
  sy_current : exists i, (i = 0 \/ i = 1) /\ part (bytes_of s) (map_of s) i = flash_param s /\
    (parameters (part (bytes_of s) (map_of s) (1 - i)) = parameters (flash_param s) \/
     let other := get_modify_count (part (bytes_of s) (map_of s) (1 - i)) in
     if i =? 0 then other <= get_modify_count (flash_param s) else other < get_modify_count (flash_param s))
}.

Lemma synced_ext s s' :
  par_ok s' -> map_of s' = map_of s -> flash_param s' = flash_param s -> bytes_of s' ≡ₐ bytes_of s -> synced s -> synced s'.
Proof.
  intros K Hm Hfp Hb [_ Ho Hc].
  assert (Hp : forall i, part (bytes_of s') (map_of s') i = part (bytes_of s) (map_of s) i).
  { intros i. rewrite Hm. unfold part. by rewrite Hb. }
  split; [done| |].
  - intros i Hi. rewrite Hp. by apply Ho.
  - destruct Hc as (i & Hi). exists i. by rewrite !Hp, Hfp.
Qed.

Lemma synced_write mc i s s0 r s1 :
  i = 0 \/ i = 1 -> par_step (in_sector (part_off (map_of s0) i)) s0 s1 ->
  flash_param s1 = seal mc i (flash_param s) -> img_ok (flash_param s) ->
  part (bytes_of s1) (map_of s0) i = seal mc i (flash_param s) ->
  own (1 - i) (part (bytes_of s1) (map_of s0) (1 - i)) ->
  parameters (part (bytes_of s1) (map_of s0) (1 - i)) = parameters (flash_param s) ->
  r = TLS_PARAM_STATUS_OK -> synced s1.
Proof.
  intros Hi T Hfp Hok Hp Ho Hps _. assert (Hs : own i (seal mc i (flash_param s))) by (apply own_seal, seal_at; done).
  pose proof (par_step_map _ _ _ T) as Hm. split; [apply T| |].
  - intros j Hj. rewrite Hm. destruct (decide (j = i)) as [->|Hji]; [by rewrite Hp|].
    replace j with (1 - i) by lia. done.
  - exists i. rewrite Hm, Hp, Hfp. split; [done|]. split; [done|]. left. by rewrite Hps, seal_parameters.
Qed.

(** Factory defaults or others: the image is written to both partitions. *)
Definition write_both (ps : list Z) : M (par F) Z :=
  set_flash_param (memcpy_at parameters_off ps) ;;
  err ← param_to_flash TLS_PARAM_ID_ALL 1 0;
  if negb (err =? TLS_PARAM_STATUS_OK) then mret TLS_PARAM_STATUS_EIO
  else
    err ← param_to_flash TLS_PARAM_ID_ALL 1 1;
    if negb (err =? TLS_PARAM_STATUS_OK) then mret TLS_PARAM_STATUS_EIO else mret err.

Lemma write_both_spec ps s (Q : Z -> par F -> Prop) :
  par_ok s -> bytes_ok ps -> length ps = 2016%nat ->
  (forall r s', par_step (both (map_of s)) s s' ->
     low s' = true \/ (r = TLS_PARAM_STATUS_OK /\ synced s' /\ parameters (flash_param s') = ps) -> Q r s') ->
  wp (write_both ps) s Q.
Proof.
  intros K Hfb Hfl HQ. destruct (set_parameters_ok _ _ (pk_img _ K) Hfb Hfl) as [Hdok Hdp].
  apply wp_bind, set_flash_param_spec; [done|done|]. intros s1 T1 Hst1 Hfp1.
  assert (Hi0 : get_partition_num (seal 1 0 (flash_param s1)) = 0) by (rewrite Hfp1; apply seal_at; auto).
  apply wp_bind, (put_partition_spec _ _ _ 0); [apply T1|unfold TLS_PARAM_ID_ALL; lia|done|auto|].
  intros r s2 T2 Hfp2 Hr2.
  assert (T02 : par_step (both (map_of s)) s s2).
  { eapply par_step_trans; [by apply par_step_nowhere|].
    rewrite <- (par_step_map _ _ _ T1). eapply par_step_mono; [|exact T2]. intros a. apply both_part. auto. }
  destruct Hr2 as [Hlow|(-> & Hp0 & _)].
  { destruct (negb _); [apply wp_ret, HQ; [done|by left]|]. apply wp_bind, param_to_flash_spec; [apply T2|unfold TLS_PARAM_ID_ALL; lia|].
    intros r' s3 T3 Hfp3 _. assert (T03 : par_step (both (map_of s)) s s3).
    { eapply par_step_trans; [done|]. rewrite <- (par_step_map _ _ _ T02). eapply par_step_mono; [|exact T3].
      intros a. apply both_part. right. apply seal_at; [apply T2|auto]. }
    pose proof (par_step_low _ _ _ T3 Hlow) as Hl3.
    destruct (negb _); apply wp_ret, HQ; [done|by left|done|by left]. }
  change (negb (TLS_PARAM_STATUS_OK =? TLS_PARAM_STATUS_OK)) with false. cbn iota.
  assert (Hi1 : get_partition_num (seal 1 1 (flash_param s2)) = 1) by (apply seal_at; [apply T2|auto]).
  apply wp_bind, (put_partition_spec _ _ _ 1); [apply T2|unfold TLS_PARAM_ID_ALL; lia|done|auto|].
  intros r s3 T3 Hfp3 Hr3.
  assert (T03 : par_step (both (map_of s)) s s3).
  { eapply par_step_trans; [done|]. rewrite <- (par_step_map _ _ _ T02). eapply par_step_mono; [|exact T3].
    intros a. apply both_part. auto. }
  destruct Hr3 as [Hlow|(-> & Hp1 & Hpo)]; [destruct (negb _); apply wp_ret, HQ; [done|by left|done|by left]|].
  change (negb (TLS_PARAM_STATUS_OK =? TLS_PARAM_STATUS_OK)) with false. cbn iota.
  apply wp_ret, HQ; [done|]. right. split; [done|].
  assert (Hps2 : parameters (flash_param s2) = ps).
  { rewrite Hfp2, seal_parameters by apply T1. by rewrite Hfp1. }
  assert (Ho0 : part (bytes_of s3) (map_of s2) (1 - 1) = flash_param s2).
  { rewrite Hpo. change (1 - 1) with 0. rewrite (par_step_map _ _ _ T2), Hp0. by rewrite Hfp2. }
  split.
  - apply (synced_write 1 1 s2 s2 TLS_PARAM_STATUS_OK); [auto|done|done|apply T2|done| |by rewrite Ho0|done].
    rewrite Ho0, Hfp2. change (1 - 1) with 0. by apply own_seal; [apply T1|].
  - rewrite Hfp3, seal_parameters by apply T2. done.
Qed.

Lemma write_defaults_spec s (Q : Z -> par F -> Prop) :
  par_ok s ->
  (forall r s', par_step (both (map_of s)) s s' ->
     low s' = true \/ (r = TLS_PARAM_STATUS_OK /\ synced s' /\ parameters (flash_param s') = factory_params) -> Q r s') ->
  wp write_defaults s Q.
Proof. intros K HQ. apply (write_both_spec factory_params); [done|apply factory_ok|apply factory_ok|exact HQ]. Qed.

(** ** Restoring damaged partitions *)

Lemma restore_total l i s :
  par_ok s -> 0 <= i -> i + zlen l <= 2 -> wp (restore l i) s (fun _ s' => par_step (both (map_of s)) s s').
Proof.
  revert i s. induction l as [|[] l IH]; intros i s K Hi Hl; cbn [restore length] in *.
  - apply wp_ret. by apply par_step_refl.
  - apply wp_bind, param_to_flash_spec; [done|unfold TLS_PARAM_ID_ALL; lia|]. intros r s1 T1 _ _.
    assert (Hp : get_partition_num (seal (-1) i (flash_param s)) = i) by (apply seal_at; [apply K|lia]).
    rewrite Hp in T1. assert (T : par_step (both (map_of s)) s s1).
    { eapply par_step_mono; [|exact T1]. intros a. apply both_part. lia. }
    destruct (negb _); [by apply wp_ret|]. eapply wp_mono; [apply IH; [apply T|lia|lia]|].
    cbv beta. intros _ s2 T2. rewrite (par_step_map _ _ _ T) in T2. by eapply par_step_trans.
  - apply IH; [done|lia|lia].
Qed.

(** One damaged partition gets a copy of the other. *)
Lemma restore_one_spec i s (Q : Z -> par F -> Prop) :
  par_ok s -> i = 0 \/ i = 1 -> part (bytes_of s) (map_of s) (1 - i) = flash_param s -> own (1 - i) (flash_param s) ->
  (forall r s', par_step (both (map_of s)) s s' ->
     low s' = true \/ (r = TLS_PARAM_STATUS_OK /\ synced s' /\ parameters (flash_param s') = parameters (flash_param s)) ->
     Q r s') ->
  wp (param_to_flash TLS_PARAM_ID_ALL (-1) i) s Q.
Proof.
  intros K Hi Hp Ho HQ. apply (put_partition_spec _ _ _ i);
    [done|unfold TLS_PARAM_ID_ALL; lia|apply seal_at; [apply K|done]|done|].
  intros r s1 T1 Hfp1 Hr.
  apply HQ; [eapply par_step_mono; [|exact T1]; intros a; by apply both_part|].
  destruct Hr as [Hlow|(Hr & Hpi & Hpo)]; [by left|right]. split; [done|].
  rewrite Hp in Hpo. split.
  - apply (synced_write (-1) i s s r); [done|done|done|apply K|done|by rewrite Hpo|by rewrite Hpo|done].
  - rewrite Hfp1. apply seal_parameters, K.
Qed.

Lemma synced_both s :
  let l i := part (bytes_of s) (map_of s) i in
  par_ok s -> own 0 (l 0) -> own 1 (l 1) ->
  flash_param s = (if get_modify_count (l 0) <? get_modify_count (l 1) then l 1 else l 0) -> synced s.
Proof.
  intros l K Ho0 Ho1 Hfp. split; [done| |].
  - intros i [-> | ->]; done.
  - destruct (Z.ltb_spec (get_modify_count (l 0)) (get_modify_count (l 1))).
    + exists 1. fold (l 1). change (1 - 1) with 0. fold (l 0). rewrite Hfp. split; [by right|]. split; [reflexivity|]. by right.
    + exists 0. fold (l 0). change (1 - 0) with 1. fold (l 1). rewrite Hfp. split; [by left|]. split; [reflexivity|]. by right.
Qed.

Lemma restore_spec s (Q : Z -> par F -> Prop) :
  let l i := part (bytes_of s) (map_of s) i in
  par_ok s -> sane 0 (l 0) -> sane 1 (l 1) -> flash_param s = scanned (l 0) (l 1) ->
  accepts (l 0) = true \/ accepts (l 1) = true ->
  (forall r s', par_step (both (map_of s)) s s' ->
     low s' = true \/ (r = TLS_PARAM_STATUS_OK /\ synced s' /\ parameters (flash_param s') = boot_params (l 0) (l 1)) ->
     Q r s') ->
  wp (restore [negb (accepts (l 0)); negb (accepts (l 1))] 0) s Q.
Proof.
  intros l K S0 S1 Hfp Hor HQ. rewrite scanned_own in Hfp by done. unfold boot_params in HQ.
  destruct S0 as [_ S0], S1 as [_ S1].
  destruct (accepts (l 0)) eqn:A0, (accepts (l 1)) eqn:A1; cbn [negb restore].
  - apply wp_ret, HQ; [by apply par_step_refl|]. right. split; [reflexivity|]. split; [by apply synced_both; auto|].
    rewrite Hfp. by case_match.
  - apply wp_bind. apply restore_one_spec; [done|by right| |rewrite Hfp; by apply S0|].
    { change (0 + 1) with 1. change (1 - 1) with 0. by rewrite Hfp. }
    intros r s1 T1 Hr. rewrite Hfp in Hr.
    destruct Hr as [Hlow|(-> & Hsy & Hps)]; [destruct (negb _); apply wp_ret, HQ; [exact T1|by left|exact T1|by left]|].
    change (negb (TLS_PARAM_STATUS_OK =? TLS_PARAM_STATUS_OK)) with false. cbn iota. apply wp_ret, HQ; [exact T1|right; exact (conj eq_refl (conj Hsy Hps))].
  - apply wp_bind. apply restore_one_spec; [done|by left| |rewrite Hfp; by apply S1|].
    { change (1 - 0) with 1. by rewrite Hfp. }
    intros r s1 T1 Hr. rewrite Hfp in Hr.
    destruct Hr as [Hlow|(-> & Hsy & Hps)]; [destruct (negb _); apply wp_ret, HQ; [exact T1|by left|exact T1|by left]|].
    change (negb (TLS_PARAM_STATUS_OK =? TLS_PARAM_STATUS_OK)) with false. cbn iota. apply wp_ret, HQ; [exact T1|right; exact (conj eq_refl (conj Hsy Hps))].
  - by destruct Hor.
Qed.

(** ** The whole start-up *)

Definition boot_outcome s (r : Z) s' : Prop :=
  low s' = true \/
  (r = TLS_PARAM_STATUS_OK /\ synced s' /\
     parameters (flash_param s') = boot_params (part (bytes_of s) (map_of s) 0) (part (bytes_of s) (map_of s) 1)).

(** After the scan. *)
Lemma repair_spec l0 l1 x s (Q : Z -> par F -> Prop) :
  let l i := part (bytes_of s) (map_of s) i in
  par_ok s -> img_ok l0 -> img_ok l1 -> sane 0 (l 0) -> sane 1 (l 1) ->
  low s = true \/ (l0 = l 0 /\ l1 = l 1) -> flash_param s = scanned l0 l1 ->
  sc_damaged x = dmg l0 + dmg l1 -> is_damage x = [negb (accepts l0); negb (accepts l1)] ->
  (forall r s', par_step (both (map_of s)) s s' -> boot_outcome s r s' -> Q r s') ->
  wp (if TLS_PARAM_PARTITION_NUM <=? sc_damaged x then write_defaults else restore (is_damage x) 0) s Q.
Proof.
  intros l K I0 I1 S0 S1 Hor Hfp Hd Hi HQ. rewrite Hd, Hi. unfold TLS_PARAM_PARTITION_NUM. destruct Hor as [Hlow|[-> ->]].
  - destruct (_ <=? _).
    + apply write_defaults_spec; [done|]. intros r s' T _. apply HQ; [exact T|]. left. exact (par_step_low _ _ _ T Hlow).
    + eapply wp_mono; [apply restore_total; [done|lia|simpl; lia]|]. cbv beta. intros r s' T.
      apply HQ; [exact T|]. left. exact (par_step_low _ _ _ T Hlow).
  - destruct (accepts (l 0) || accepts (l 1)) eqn:Ha.
    + assert (Hlt : (2 <=? dmg (l 0) + dmg (l 1)) = false).
      { unfold dmg. apply Z.leb_gt. apply orb_true_iff in Ha as [-> | ->]; case_match; lia. }
      rewrite Hlt. apply restore_spec; [exact K|exact S0|exact S1|exact Hfp|by apply orb_true_iff|exact HQ].
    + apply orb_false_iff in Ha as [A0 A1]. unfold dmg. rewrite A0, A1. change (2 <=? 1 + 1) with true. cbn iota.
      apply write_defaults_spec; [exact K|]. intros r s' T Hr. apply HQ; [exact T|].
      unfold boot_outcome. fold (l 0) (l 1). unfold boot_params. rewrite A0, A1. exact Hr.
Qed.

Lemma tls_param_init_spec s (Q : Z -> par F -> Prop) :
  par_ok s -> get_magic (flash_param s) <> TLS_PARAM_MAGIC ->
  sane 0 (part (bytes_of s) (map_of s) 0) -> sane 1 (part (bytes_of s) (map_of s) 1) ->
  (forall r s', fs_step (both (map_of s)) (store s) (store s') -> par_ok s' ->
     (r = TLS_PARAM_STATUS_EMEM /\ flash_param s' = flash_param s /\ sys_param_lock s' = sys_param_lock s) \/
     (sys_param_lock s' = Some 1 /\ boot_outcome s r s') -> Q r s') ->
  wp tls_param_init s Q.
Proof.
  intros K Hz S0 S1 HQ. unfold tls_param_init. apply wp_bind, wp_gets. rewrite (proj2 (Z.eqb_neq _ _)) by exact Hz.
  apply wp_bind, (on_store_spec _ nowhere); [done|].
  eapply wp_mono; [apply fs_sem_spec, K|]. cbv beta. intros ok f1 Hs1. split; [done|]. intros s1 T1 Hst1 Hfp1.
  destruct ok; cbn [negb].
  2: { apply wp_ret, HQ; [eapply fs_step_mono; [|apply T1]; by intros a []|apply T1|].
       left. split; [reflexivity|]. split; [congruence|apply T1]. }
  apply wp_bind, wp_modify. fold (with_lock (Some 1) s1). set (s2 := with_lock (Some 1) s1).
  assert (K2 : par_ok s2) by apply with_lock_ok, T1.
  assert (Hm2 : map_of s2 = map_of s) by exact (par_step_map _ _ _ T1).
  assert (Hb2 : bytes_of s2 ≡ₐ bytes_of s) by exact (par_step_quiet _ _ T1).
  assert (Hfin : forall r s', par_step (both (map_of s)) s2 s' -> boot_outcome s r s' -> Q r s').
  { intros r s' [T' K' L' _ _] Hr. apply HQ; [|exact K'|right; split; [exact L'|exact Hr]].
    eapply fs_step_trans; [|exact T']. eapply fs_step_mono; [|apply T1]. by intros a []. }
  apply wp_bind, lock_param_spec; [reflexivity|]. set (s3 := with_lock (Some 0) s2).
  assert (K3 : par_ok s3) by by apply with_lock_ok.
  apply wp_bind, set_image_spec; [exact K3|apply zeros_ok|]. intros s4 T4 Hst4 Hfp4.
  apply wp_bind, (on_store_spec _ nowhere); [apply T4|].
  eapply wp_mono; [apply fs_alloc_spec; [apply T4|rewrite sizeof_param_flash_eq; lia]|].
  cbv beta. intros [[fp buf]|] f5 [Hs5 Hr5]; (split; [exact Hs5|]); intros s5 T5 Hst5 Hfp5;
    pose proof (par_step_trans _ _ _ _ T4 T5) as T35.
  2: { apply wp_bind, (unlock_param_spec nowhere s2); [reflexivity|exact T35|]. intros s6 T6 Hst6 _.
       apply wp_ret, Hfin; [by apply par_step_nowhere|]. left. rewrite Hst6, Hst5. exact Hr5. }
  destruct Hr5 as (Hfp0 & _ & _).
  assert (Hp5 : forall i, part (bytes_of s5) (map_of s5) i = part (bytes_of s) (map_of s) i).
  { intros i. rewrite (par_step_map _ _ _ T35). change (map_of s3) with (map_of s2). rewrite Hm2. unfold part.
    rewrite (par_step_quiet _ _ T35). change (bytes_of s3) with (bytes_of s2). by rewrite Hb2. }
  apply wp_bind, scan_spec; [apply T5|exact Hfp0|rewrite Hp5; apply S0|rewrite Hp5; apply S1|congruence|].
  intros l0 l1 x s6 T6 I0 I1 Hor Hfp6 Hxd Hxl.
  pose proof (par_step_trans _ _ _ _ T35 T6) as T36.
  assert (Hp6 : forall i, part (bytes_of s6) (map_of s6) i = part (bytes_of s) (map_of s) i).
  { intros i. rewrite (par_step_map _ _ _ T6), <- Hp5. unfold part. by rewrite (par_step_quiet _ _ T6). }
  apply wp_bind, (repair_spec l0 l1 x); rewrite ?Hp6;
    [apply T6|exact I0|exact I1|exact S0|exact S1|rewrite <- !Hp5; exact Hor|exact Hfp6|exact Hxd|exact Hxl|].
  intros r s7 T7 Hr7. unfold boot_outcome in Hr7. rewrite !Hp6 in Hr7.
  assert (T37 : par_step (both (map_of s)) s3 s7).
  { eapply par_step_trans; [apply par_step_nowhere; exact T36|]. rewrite <- Hm2.
    change (map_of s2) with (map_of s3). rewrite <- (par_step_map _ _ _ T36). exact T7. }
  apply wp_bind, (unlock_param_spec (both (map_of s)) s2); [reflexivity|exact T37|]. intros s8 T8 Hst8 Hfp8.
  apply wp_bind, (on_store_spec _ nowhere); [apply T8|]. eapply wp_mono; [apply fs_free_spec, T8|].
  cbv beta. intros _ f9 Hs9. split; [exact Hs9|]. intros s9 T9 Hst9 Hfp9.
  apply wp_ret, Hfin; [eapply par_step_trans; [exact T8|by apply par_step_nowhere]|].
  destruct Hr7 as [Hlow|(Hr & Hsy & Hps)].
  - left. apply (par_step_low _ _ _ T9). by rewrite Hst8.
  - right. split; [exact Hr|]. rewrite Hfp9, Hfp8. split; [|exact Hps].
    apply (synced_ext s7); [apply T9| |congruence| |exact Hsy].
    + by rewrite (par_step_map _ _ _ T9), Hst8.
    + intros a. by rewrite (par_step_quiet _ _ T9), Hst8.
Qed.

End init.
