(* ===== verification/ParamAccess.v ===== *)
(** * Setting and getting parameters: members do not interfere

    The layout facts of [struct tls_sys_param], and what [tls_param_set] and
    [tls_param_get] do to the image in memory. *)
From S2P Require Import Prelude CMonad Checksum FlsDriver CrcHard Storage ParamData Param ParamImage ParamSpec ParamInit.

#[local] Opaque zeros sizeof_param_flash sizeof_sys_param Crc32.get_crc32 seal factory_params.

(** ** Layout *)

Definition all_fields : list pfield := fst <$> tls_sys_param.

Lemma all_fields_complete f : f ∈ all_fields.
Proof. apply list_elem_of_In. destruct f; vm_compute; tauto. Qed.

Definition apart (f g : pfield) : bool :=
  bool_decide (f = g) || (offset_of f + size_of f <=? offset_of g) || (offset_of g + size_of g <=? offset_of f).
Definition inside (f : pfield) : bool := (0 <=? offset_of f) && (0 <? size_of f) && (offset_of f + size_of f <=? 2016).

Lemma layout_table : forallb (fun f => inside f && forallb (apart f) all_fields) all_fields = true.
Proof. vm_compute. reflexivity. Qed.

Lemma layout f : inside f = true /\ forallb (apart f) all_fields = true.
Proof.
  apply andb_true_iff. pose proof layout_table as Ht. rewrite forallb_forall in Ht.
  apply Ht, list_elem_of_In, all_fields_complete.
Qed.

Lemma field_bounds f : 0 <= offset_of f /\ 0 < size_of f /\ offset_of f + size_of f <= 2016.
Proof. destruct (layout f) as [Hi _]. unfold inside in Hi. rewrite !andb_true_iff in Hi. lia. Qed.

Lemma field_apart f g :
  f <> g -> offset_of f + size_of f <= offset_of g \/ offset_of g + size_of g <= offset_of f.
Proof.
  intros Hne. destruct (layout f) as [_ Ha]. rewrite forallb_forall in Ha.
  specialize (Ha g (proj1 (list_elem_of_In _ _) (all_fields_complete g))).
  unfold apart in Ha. rewrite bool_decide_false in Ha by done. apply orb_true_iff in Ha. lia.
Qed.

(** The bytes of a member in an image of [struct tls_param_flash]. *)
Definition member (f : pfield) (img : list Z) : list Z := slice (parameters_off + offset_of f) (size_of f) img.

(** ** Copies *)

Lemma copy_to_some dst off src n dst' :
  0 <= n -> copy_to dst off src n = Some dst' ->
  dst' = memcpy_at off (take (Z.to_nat n) src) dst /\ n <= zlen src /\ off + n <= zlen dst /\
  zlen (take (Z.to_nat n) src) = n.
Proof.
  intros Hn. unfold copy_to. destruct (Z.leb_spec n (zlen src)), (Z.leb_spec (off + n) (zlen dst)); simpl; try done.
  intros [= <-]. rewrite length_take. split; [done|]. lia.
Qed.

Lemma cstr_prefix l s : cstr l = Some s -> (exists rest, l = s ++ rest) /\ (0 < length s)%nat.
Proof.
  revert s. induction l as [|b l IH]; intros s; [done|]. simpl.
  assert (Hc : (cons b <$> cstr l) = Some s -> (exists rest, b :: l = s ++ rest) /\ (0 < length s)%nat).
  { destruct (cstr l) as [s'|]; [|done]. intros [= <-]. destruct (IH s' eq_refl) as [[rest ->] _].
    split; [by exists rest|simpl; lia]. }
  destruct b; [intros [= <-]|exact Hc|exact Hc]. split; [by exists l|simpl; lia].
Qed.

Lemma strcpy_to_some dst off src s dst' :
  cstr src = Some s -> strcpy_to dst off src = Some dst' ->
  dst' = memcpy_at off s dst /\ off + zlen s <= zlen dst.
Proof.
  intros Hs. unfold strcpy_to. rewrite Hs. simpl. intros (-> & _ & Hl & _)%copy_to_some; [|lia].
  split; [|done]. by rewrite take_ge by lia.
Qed.

(** The bytes that an action stores, and where. *)
Definition action_data (a : paction) (argv : list Z) : list Z :=
  match a with
  | CopyAll => take (Z.to_nat sizeof_sys_param) argv
  | Copy f => take (Z.to_nat (size_of f)) argv
  | CopyStr f => default [] (cstr argv)
  end.
Definition action_off (a : paction) : Z :=
  match a with CopyAll => 0 | Copy f => offset_of f | CopyStr f => offset_of f end.

Lemma action_off_pos a : 0 <= action_off a.
Proof. destruct a as [|f|f]; simpl; [lia|..]; pose proof (field_bounds f); lia. Qed.

Lemma action_set_some a base img argv img' :
  0 <= base -> action_set a base img argv = Some img' ->
  img' = memcpy_at (base + action_off a) (action_data a argv) img /\
  base + action_off a + zlen (action_data a argv) <= zlen img.
Proof.
  intros Hb. destruct a as [|f|f]; simpl.
  - intros (-> & H1 & H2 & H3)%copy_to_some; [|rewrite sizeof_sys_param_eq; lia]. rewrite H3, Z.add_0_r. split; [reflexivity|lia].
  - intros (-> & H1 & H2 & H3)%copy_to_some; [|pose proof (field_bounds f); lia]. rewrite H3. split; [reflexivity|lia].
  - destruct (cstr argv) as [s|] eqn:Es; [|unfold strcpy_to; by rewrite Es].
    intros (-> & Hl)%(strcpy_to_some _ _ _ _ _ Es). simpl. split; [reflexivity|lia].
Qed.

Lemma action_data_ok a argv : bytes_ok argv -> bytes_ok (action_data a argv).
Proof.
  intros Hb. destruct a as [|f|f]; simpl; [by apply Forall_take..|].
  destruct (cstr argv) as [s|] eqn:Es; simpl; [|constructor].
  destruct (cstr_prefix _ _ Es) as [[rest ->] _]. by apply Forall_app in Hb as [? _].
Qed.

(** The copy keeps an image an image, and does not reach the header. *)
Lemma action_set_img a img argv img' :
  img_ok img -> bytes_ok argv -> action_set a parameters_off img argv = Some img' ->
  img_ok img' /\ get_partition_num img' = get_partition_num img /\ get_modify_count img' = get_modify_count img.
Proof.
  intros [Hl Hb] Ha (-> & Hfit)%action_set_some; [|done]. pose proof (action_off_pos a). unfold parameters_off in *.
  split; [split; [by rewrite length_memcpy_at|apply memcpy_bytes_ok; [by apply action_data_ok|done]]|].
  unfold get_partition_num, get_modify_count, get_le. split; rewrite slice_memcpy_out by lia; done.
Qed.

Lemma param_action_range id a : param_action id = Some a -> -1 <= id < 66.
Proof. unfold param_action. repeat case_match; intros ?; simplify_eq; lia. Qed.


(** ** Operations in memory *)

Section access.
Context {F : Type} `{FlashStoreLaws F} `{CrcEngineLaws} `{Statics}.
Implicit Types s : par F.

Abbreviation bytes_of s := (fs_byte (store s)).
Abbreviation map_of s := (fs_map (store s)).
Abbreviation low s := (fs_low (store s)).

(** An id with a case in the switch, outside the mode that edits the user
    defaults: the copy, then the partition when asked for. *)
Lemma tls_param_set_spec id a argv img (to_flash : bool) s (Q : Z -> par F -> Prop) :
  par_ok s -> sys_param_lock s = Some 1 -> updp_mode s = 0 -> param_action id = Some a -> bytes_ok argv ->
  action_set a parameters_off (flash_param s) argv = Some img ->
  (forall s1, par_ok s1 -> store s1 = store s -> flash_param s1 = img -> par_step nowhere (with_lock (Some 0) s) s1 ->
     wp (if to_flash then param_to_flash id (-1) (-1) else mret TLS_PARAM_STATUS_OK) s1 (fun r s2 =>
       exists S, par_step S s1 s2 /\
       forall s', par_step S s s' -> store s' = store s2 -> flash_param s' = flash_param s2 -> Q r s')) ->
  wp (tls_param_set id (Some argv) to_flash) s Q.
Proof.
  intros K Hl Hu Ha Hb Hset HQ. destruct (param_action_range id a Ha). unfold tls_param_set, TLS_PARAM_ID_ALL, TLS_PARAM_ID_MAX.
  rewrite (proj2 (Z.ltb_ge _ _)), (proj2 (Z.leb_gt _ _)) by lia. cbn [orb].
  apply wp_bind, wp_gets. cbv beta. rewrite Hu. change (negb (0 =? 0)) with false. change (0 =? 0) with true. cbn iota.
  apply wp_bind, wp_ret. apply wp_bind, lock_param_spec; [exact Hl|]. rewrite Ha.
  destruct (action_set_img a _ argv img (pk_img _ K) Hb Hset) as (Hi & _).
  apply wp_bind, wp_bind, wp_bind, wp_gets. cbn [with_lock flash_param]. rewrite Hset. apply wp_bind, wp_ret.
  apply set_image_spec; [by apply with_lock_ok|exact Hi|]. intros s1 T1 Hst1 Hfp1.
  rewrite andb_true_r. eapply wp_mono; [apply HQ; [apply T1|exact Hst1|exact Hfp1|exact T1]|].
  cbv beta. intros r s2 (S & T2 & Hs2).
  apply wp_bind, (unlock_param_spec S s); [exact Hl|eapply par_step_trans; [by apply par_step_nowhere|exact T2]|].
  intros s3 T3 Hst3 Hfp3. apply wp_ret, Hs2; [exact T3|exact Hst3|exact Hfp3].
Qed.

Lemma tls_param_set_ram id a argv img s (Q : Z -> par F -> Prop) :
  par_ok s -> sys_param_lock s = Some 1 -> updp_mode s = 0 -> param_action id = Some a -> bytes_ok argv ->
  action_set a parameters_off (flash_param s) argv = Some img ->
  (forall s', par_step nowhere s s' -> store s' = store s -> flash_param s' = img -> Q TLS_PARAM_STATUS_OK s') ->
  wp (tls_param_set id (Some argv) false) s Q.
Proof.
  intros K Hl Hu Ha Hb Hset HQ. apply (tls_param_set_spec id a argv img); [done..|].
  intros s1 K1 Hst1 Hfp1 _. apply wp_ret. exists nowhere. split; [by apply par_step_refl|].
  intros s' T Hst Hfp. apply HQ; [exact T|congruence|congruence].
Qed.

(** Getting from memory copies the member out. *)
Lemma tls_param_get_ram id a out out' s (Q : Z * list Z -> par F -> Prop) :
  par_ok s -> sys_param_lock s = Some 1 -> param_action id = Some a ->
  action_get a parameters_off (flash_param s) out = Some out' ->
  (forall s', par_step nowhere s s' -> store s' = store s -> flash_param s' = flash_param s -> Q (TLS_PARAM_STATUS_OK, out') s') ->
  wp (tls_param_get id out false) s Q.
Proof.
  intros K Hl Ha Hget HQ. destruct (param_action_range id a Ha). unfold tls_param_get, TLS_PARAM_ID_ALL, TLS_PARAM_ID_MAX.
  rewrite (proj2 (Z.ltb_ge _ _)), (proj2 (Z.leb_gt _ _)) by lia. cbn [orb].
  apply wp_bind, wp_gets, wp_bind, wp_ret, wp_bind, wp_ret.
  apply wp_bind, lock_param_spec; [exact Hl|]. rewrite Ha, Hget. apply wp_bind, wp_bind, wp_ret, wp_ret.
  apply wp_bind, wp_ret. apply wp_bind, (unlock_param_spec nowhere s); [exact Hl| |].
  - apply par_step_refl. by apply with_lock_ok.
  - intros s' T Hst Hfp. apply wp_ret, HQ; [exact T|exact Hst|exact Hfp].
Qed.

End access.

(** A member read back, and the others after a copy. *)
Lemma member_set f img data :
  img_ok img -> zlen data = size_of f -> member f (memcpy_at (parameters_off + offset_of f) data img) = data.
Proof.
  intros [Hl _] Hd. pose proof (field_bounds f). unfold member, parameters_off in *. rewrite <- Hd.
  apply slice_memcpy_in; lia.
Qed.

Lemma member_other f g img data :
  img_ok img -> f <> g -> zlen data <= size_of f ->
  member g (memcpy_at (parameters_off + offset_of f) data img) = member g img.
Proof.
  intros [Hl _] Hne Hd. pose proof (field_bounds f). pose proof (field_bounds g). pose proof (field_apart f g Hne).
  unfold member, parameters_off in *. apply slice_memcpy_out; lia.
Qed.

Lemma drop_member f img :
  take (Z.to_nat (size_of f)) (drop (Z.to_nat (parameters_off + offset_of f)) img) = member f img.
Proof. reflexivity. Qed.

Lemma length_member f img : img_ok img -> length (member f img) = Z.to_nat (size_of f).
Proof.
  intros [Hl _]. pose proof (field_bounds f). unfold member, parameters_off. apply length_slice; lia.
Qed.

(** [tls_param_get] of a copied member. *)
Lemma action_get_member f img out :
  img_ok img -> size_of f <= zlen out ->
  action_get (Copy f) parameters_off img out = Some (memcpy_at 0 (member f img) out).
Proof.
  intros Hi Ho. pose proof (field_bounds f). destruct Hi as [Hl Hb]. cbn [action_get]. unfold copy_to, parameters_off.
  rewrite (proj2 (Z.leb_le _ _)) by (rewrite length_drop; lia). rewrite (proj2 (Z.leb_le _ _)) by lia. reflexivity.
Qed.

Lemma cstr_app l s rest : cstr l = Some s -> cstr (s ++ rest) = Some s.
Proof.
  revert s. induction l as [|b l IH]; intros s; [done|]. simpl.
  assert (Hc : (cons b <$> cstr l) = Some s -> b <> 0 -> cstr (s ++ rest) = Some s).
  { destruct (cstr l) as [s'|]; [|done]. intros [= <-] Hb. simpl. rewrite (IH s' eq_refl). by destruct b. }
  destruct b; [intros [= <-]; reflexivity|..]; intros He; by apply Hc.
Qed.

Lemma drop_memcpy off src dst :
  0 <= off -> off + zlen src <= zlen dst ->
  drop (Z.to_nat off) (memcpy_at off src dst) = src ++ drop (Z.to_nat (off + zlen src)) dst.
Proof.
  intros Ho Hf. apply byte_list_eq; [rewrite length_app, !length_drop, length_memcpy_at; lia|].
  intros i Hi. rewrite length_drop, length_memcpy_at in Hi.
  assert (Hb : forall (l : list Z) k, 0 <= k -> byte_at (drop (Z.to_nat k) l) i = byte_at l (k + i)).
  { intros l k Hk. unfold byte_at. rewrite !nth_lookup, lookup_drop. do 2 f_equal. lia. }
  rewrite Hb, byte_at_memcpy by lia. rewrite (proj2 (Z.leb_le _ _)) by lia. cbn [andb].
  unfold byte_at at 3. destruct (Z.ltb_spec (off + i) (off + zlen src)).
  - rewrite app_nth1 by lia. unfold byte_at. f_equal. lia.
  - rewrite app_nth2 by lia. replace (Z.to_nat i - length src)%nat with (Z.to_nat (i - zlen src)) by lia.
    fold (byte_at (drop (Z.to_nat (off + zlen src)) dst) (i - zlen src)).
    unfold byte_at. rewrite !nth_lookup, lookup_drop. do 2 f_equal. lia.
Qed.

(** ** One member, whole or as a string *)

(** The copy is of the single member [f], from an object that is large
    enough: the whole member, or a string that fits. *)
Definition one_member (a : paction) (f : pfield) (argv : list Z) : Prop :=
  (a = Copy f /\ size_of f <= zlen argv) \/ (a = CopyStr f /\ cstr argv <> None /\ zlen (action_data a argv) <= size_of f).

Lemma member_front f v img :
  img_ok img -> zlen v <= size_of f -> take (length v) (member f (memcpy_at (parameters_off + offset_of f) v img)) = v.
Proof.
  intros [Hl _] Hv. pose proof (field_bounds f). unfold member, slice, parameters_off in *.
  rewrite drop_memcpy, take_take, Nat.min_l by lia. apply take_app_length.
Qed.

Lemma one_member_set a f argv img :
  img_ok img -> one_member a f argv ->
  action_set a parameters_off img argv = Some (memcpy_at (parameters_off + offset_of f) (action_data a argv) img) /\
  zlen (action_data a argv) <= size_of f.
Proof.
  intros [Hl _]. pose proof (field_bounds f). unfold parameters_off. intros [[-> Hs]|(-> & Hs & Hv)]; cbn [action_set action_data] in *.
  - unfold copy_to. rewrite !(proj2 (Z.leb_le _ _)) by lia. split; [done|]. rewrite length_take. lia.
  - unfold strcpy_to. destruct (cstr argv) as [str|]; [|done]. cbn in Hv |- *. unfold copy_to.
    rewrite !(proj2 (Z.leb_le _ _)) by lia. cbn [andb]. by rewrite take_ge by lia.
Qed.

Lemma one_member_get a f argv img out :
  img_ok img -> one_member a f argv -> zlen (action_data a argv) <= zlen out ->
  action_get a parameters_off (memcpy_at (parameters_off + offset_of f) (action_data a argv) img) out =
    Some (memcpy_at 0 (action_data a argv) out).
Proof.
  intros Hi Hc Ho. destruct (one_member_set a f argv img Hi Hc) as [_ Hvf]. pose proof Hi as [Hl Hb]. pose proof (field_bounds f).
  destruct Hc as [[-> Hs]|(-> & Hs & Hv)]; cbn [action_data] in *.
  - assert (Hz : zlen (take (Z.to_nat (size_of f)) argv) = size_of f) by (rewrite length_take; lia).
    cbn [action_get]. unfold copy_to, parameters_off in *.
    rewrite drop_memcpy, !(proj2 (Z.leb_le _ _)) by (rewrite ?length_app; lia). cbn [andb].
    rewrite take_app_le by lia. by rewrite (take_ge (take _ _)) by lia.
  - destruct (cstr argv) as [str|] eqn:Es; [|done]. cbn [default] in *. cbn [action_get]. unfold parameters_off in *.
    rewrite drop_memcpy by (cbn in *; lia). unfold strcpy_to. cbn. rewrite (cstr_app argv str) by exact Es. cbn. unfold copy_to. cbn in *.
    rewrite !(proj2 (Z.leb_le _ _)) by (rewrite ?length_app; lia). cbn [andb].
    by rewrite take_ge by lia.
Qed.
