(* ===== verification/ParamProps.v ===== *)
(** * Properties of the parameter manager *)
From S2P Require Import Prelude CMonad HostEnv Checksum FlashChip FlsHw FlsDriver FlsWrite CrcHard Storage FlsStore.
From S2P Require Import ParamData Param ParamImage ParamSpec ParamInit ParamAccess.

#[local] Opaque zeros sizeof_param_flash sizeof_sys_param Crc32.get_crc32 seal factory_params.

Section lemmas.
Context {F : Type} `{FlashStoreLaws F} `{CrcEngineLaws} `{Statics}.
Implicit Types s : par F.

Abbreviation bytes_of s := (fs_byte (store s)).
Abbreviation map_of s := (fs_map (store s)).
Abbreviation low s := (fs_low (store s)).

(** A machine switched on with [f] in its flash. *)
Definition reboots (f : Z -> Z) (m : flash_map) s : Prop :=
  par_ok s /\ flash_param s = zeros /\ map_of s = m /\ bytes_of s ≡ₐ f.

Lemma reboots_part f m s i : reboots f m s -> part (bytes_of s) (map_of s) i = part f m i.
Proof. intros (_ & _ & -> & Hb). unfold part. by rewrite Hb. Qed.

(** What start-up may end in: no memory, no semaphore, or done with the
    parameters [ps]. *)
Definition started (ps : list Z) (r : Z) s : Prop :=
  low s = true \/ r = TLS_PARAM_STATUS_EMEM \/
  (r = TLS_PARAM_STATUS_OK /\ synced s /\ sys_param_lock s = Some 1 /\ parameters (flash_param s) = ps).

Lemma reboot_spec f m s :
  reboots f m s -> sane 0 (part f m 0) -> sane 1 (part f m 1) ->
  wp tls_param_init s (started (boot_params (part f m 0) (part f m 1))).
Proof.
  intros R S0 S1. pose proof R as (K & Hz & _ & _).
  apply tls_param_init_spec; [exact K|rewrite Hz; by vm_compute|by rewrite (reboots_part f m)|by rewrite (reboots_part f m)|].
  intros r s' _ _ [(Hr & _)|[Hl Ho]]; [right; by left|]. unfold boot_outcome in Ho. rewrite !(reboots_part f m) in Ho by exact R.
  destruct Ho as [Hlow|(Hr & Hsy & Hps)]; [by left|right; right].
  split; [exact Hr|]. split; [exact Hsy|]. split; [exact Hl|exact Hps].
Qed.

Lemma own_count l : img_ok l -> 0 <= get_modify_count l < 65536.
Proof. intros [_ Hb]. unfold get_modify_count. apply (get_le_bounds 6 2); [lia|done]. Qed.

Lemma own_accepts i l : own i l -> accepts l = true.
Proof. intros [Hi _]. by apply intact_accepts. Qed.

(** The next start-up of a synchronised storage takes the current image. *)
Lemma synced_boot s :
  synced s -> boot_params (part (bytes_of s) (map_of s) 0) (part (bytes_of s) (map_of s) 1) = parameters (flash_param s).
Proof.
  intros [_ Ho (i & Hi & Hp & Hn)]. unfold boot_params.
  rewrite !(own_accepts 0 (part _ _ 0)), !(own_accepts 1 (part _ _ 1)) by (apply Ho; auto).
  destruct Hi as [-> | ->]; [change (1 - 0) with 1 in Hn|change (1 - 1) with 0 in Hn]; cbn [Z.eqb] in Hn; rewrite <- Hp in *.
  - destruct (Z.ltb_spec (get_modify_count (part (bytes_of s) (map_of s) 0)) (get_modify_count (part (bytes_of s) (map_of s) 1)));
      [|reflexivity]. destruct Hn as [Hn|Hn]; [exact Hn|lia].
  - destruct (Z.ltb_spec (get_modify_count (part (bytes_of s) (map_of s) 0)) (get_modify_count (part (bytes_of s) (map_of s) 1)));
      [reflexivity|]. destruct Hn as [Hn|Hn]; [exact Hn|lia].
Qed.

(** A set with [to_flash]: the new image goes to the partition that is not
    current. *)
Lemma set_flash_spec id a argv img s (Q : Z -> par F -> Prop) :
  synced s -> sys_param_lock s = Some 1 -> updp_mode s = 0 -> param_action id = Some a -> bytes_ok argv ->
  action_set a parameters_off (flash_param s) argv = Some img ->
  (forall i r s', i = 0 \/ i = 1 -> part (bytes_of s) (map_of s) i = flash_param s ->
     par_step (in_sector (part_off (map_of s) (1 - i))) s s' ->
     flash_param s' = seal (-1) (-1) img -> own (1 - i) (flash_param s') ->
     get_modify_count (flash_param s') = u16 (get_modify_count (flash_param s) + 1) ->
     parameters (flash_param s') = parameters img ->
     low s' = true \/ (r = TLS_PARAM_STATUS_OK /\ part (bytes_of s') (map_of s) (1 - i) = flash_param s' /\
       part (bytes_of s') (map_of s) i = flash_param s) -> Q r s') ->
  wp (tls_param_set id (Some argv) true) s Q.
Proof.
  intros Hsy Hl Hu Ha Hb Hset HQ. pose proof Hsy as [K Ho (i & Hi & Hp & _)].
  destruct (action_set_img a _ argv img (pk_img _ K) Hb Hset) as (Hio & Hpn & Hmc).
  assert (Hpi : get_partition_num img = i) by (rewrite Hpn, <- Hp; by apply Ho).
  apply (tls_param_set_spec id a argv img); [exact K|exact Hl|exact Hu|exact Ha|exact Hb|exact Hset|].
  intros s1 K1 Hst1 Hfp1 _.
  assert (Hseal : get_partition_num (seal (-1) (-1) (flash_param s1)) = 1 - i).
  { rewrite Hfp1, seal_partition by exact Hio. rewrite Hpi. by destruct Hi as [-> | ->]. }
  apply (put_partition_spec _ _ _ (1 - i)); [exact K1|by apply (param_action_range id a)|exact Hseal|lia|].
  intros r s2 T2 Hfp2 Hr. rewrite Hst1 in *. exists (in_sector (part_off (map_of s) (1 - i))). split; [exact T2|].
  intros s' T Hst Hfp. rewrite Hfp1 in Hfp2. replace (1 - (1 - i)) with i in Hr by lia.
  apply (HQ i); [exact Hi|exact Hp|exact T|congruence| | | |].
  - rewrite Hfp, Hfp2. apply own_seal; [exact Hio|]. by rewrite <- Hfp1.
  - rewrite Hfp, Hfp2, seal_count by exact Hio. by rewrite Hmc.
  - rewrite Hfp, Hfp2. by apply seal_parameters.
  - rewrite Hst, Hfp, Hfp2. destruct Hr as [Hlow|(Hr & Hr1 & Hr2)]; [by left|right].
    split; [exact Hr|]. rewrite Hfp1 in Hr1. split; [exact Hr1|]. by rewrite Hr2, Hp.
Qed.

(** After a set both partitions are this firmware's own. *)
Lemma set_flash_own i s s' :
  synced s -> i = 0 \/ i = 1 -> part (bytes_of s) (map_of s) i = flash_param s -> own (1 - i) (flash_param s') ->
  part (bytes_of s') (map_of s) (1 - i) = flash_param s' -> part (bytes_of s') (map_of s) i = flash_param s ->
  forall j, j = 0 \/ j = 1 -> own j (part (bytes_of s') (map_of s) j).
Proof.
  intros [_ Ho _] Hi Hp Hown Hnew Hold j Hj. destruct (decide (j = i)) as [->|Hne].
  - rewrite Hold, <- Hp. by apply Ho.
  - replace j with (1 - i) by lia. by rewrite Hnew.
Qed.

(** After a set whose count did not wrap, the storage is synchronised. *)
Lemma set_flash_synced i s s' :
  synced s -> i = 0 \/ i = 1 -> part (bytes_of s) (map_of s) i = flash_param s ->
  par_step (in_sector (part_off (map_of s) (1 - i))) s s' -> own (1 - i) (flash_param s') ->
  get_modify_count (flash_param s') = u16 (get_modify_count (flash_param s) + 1) ->
  part (bytes_of s') (map_of s) (1 - i) = flash_param s' -> part (bytes_of s') (map_of s) i = flash_param s ->
  get_modify_count (flash_param s) < 65535 -> synced s'.
Proof.
  intros Hsy Hi Hp T Hown Hmc Hnew Hold Hlt. pose proof (par_step_map _ _ _ T) as Hm.
  pose proof (own_count _ (pk_img _ (sy_ok _ Hsy))) as Hb.
  assert (Hc : get_modify_count (flash_param s') = get_modify_count (flash_param s) + 1).
  { rewrite Hmc. apply wrap_id. lia. }
  split; [apply T|rewrite Hm; exact (set_flash_own i s s' Hsy Hi Hp Hown Hnew Hold)|].
  exists (1 - i). split; [lia|]. rewrite Hm. split; [exact Hnew|]. right. cbv zeta.
  replace (1 - (1 - i)) with i by lia. rewrite Hold, Hc. case_match; lia.
Qed.

(** When the count wraps to 0, start-up takes the partition with 65535. *)
Lemma wrapped_boot i f m l l' :
  i = 0 \/ i = 1 -> (forall j, j = 0 \/ j = 1 -> own j (part f m j)) ->
  part f m i = l -> part f m (1 - i) = l' -> get_modify_count l = 65535 -> get_modify_count l' = 0 ->
  boot_params (part f m 0) (part f m 1) = parameters l.
Proof.
  intros Hi Ho Hold Hnew Hmax Hmc. unfold boot_params.
  rewrite !(own_accepts 0 (part _ _ 0)), !(own_accepts 1 (part _ _ 1)) by (apply Ho; auto).
  destruct Hi as [-> | ->]; [change (1 - 0) with 1 in Hnew|change (1 - 1) with 0 in Hnew];
    rewrite Hnew, Hold, Hmax, Hmc; reflexivity.
Qed.

End lemmas.

(** ** Properties *)

Section properties.
Context {F : Type} `{FlashStoreLaws F} `{CrcEngineLaws} `{Statics}.
Implicit Types s : par F.

Abbreviation bytes_of s := (fs_byte (store s)).
Abbreviation map_of s := (fs_map (store s)).
Abbreviation low s := (fs_low (store s)).

(** C12. Start-up with two partitions that are each [sane]: either as this
    firmware writes them, or recognisably damaged - without the magic number,
    or with it, a length within the structure, and a CRC that is wrong.
    [tls_param_init] returns; unless memory or the semaphore is missing it
    succeeds, loads the partition with the greater count (the first on a tie),
    the only intact one, or the factory defaults when both are damaged, and
    leaves both partitions intact with the current one chosen by the next
    start-up.  It changes nothing outside the sectors of the two partitions:
    the erasure of the restore sector that its loop contains is never reached.
    (Left out are partitions with the magic number and a length outside the
    structure, which the code takes unchecked for the place of the CRC, and
    partitions with a right CRC under another length or partition number,
    which this firmware never writes.) *)
Theorem param_init_recovers s :
  let l0 := part (bytes_of s) (map_of s) 0 in let l1 := part (bytes_of s) (map_of s) 1 in
  par_ok s -> get_magic (flash_param s) <> TLS_PARAM_MAGIC -> sane 0 l0 -> sane 1 l1 ->
  wp tls_param_init s (fun r s' =>
    fs_step (both (map_of s)) (store s) (store s') /\
    started (match accepts l0, accepts l1 with
             | true, true => if get_modify_count l0 <? get_modify_count l1 then parameters l1 else parameters l0
             | true, false => parameters l0
             | false, true => parameters l1
             | false, false => factory_params
             end) r s').
Proof.
  intros l0 l1 K Hz S0 S1. apply tls_param_init_spec; [exact K|exact Hz|exact S0|exact S1|].
  intros r s' T _ Hr. split; [exact T|]. destruct Hr as [(Hr & _)|[Hl [Hlow|(Hr & Hsy & Hps)]]];
    [right; by left|by left|right; right].
  split; [exact Hr|]. split; [exact Hsy|]. split; [exact Hl|exact Hps].
Qed.

(** C5. Durability.  A parameter set with [to_flash] whose copy stays inside
    the structure - outside the mode that edits the user defaults, where
    nothing is written - on a synchronised storage returns; it either runs out of memory or reports success, and the
    parameters in memory have the new value.  If the count of modifications
    was below 65535, the storage is synchronised again and every later
    start-up from this flash loads the parameters with the new value.  At
    65535 the 16-bit count wraps, and although success is reported every later
    start-up loads the parameters from before the set. *)
Theorem param_set_survives_reboot s id a argv img :
  synced s -> sys_param_lock s = Some 1 -> updp_mode s = 0 -> param_action id = Some a -> bytes_ok argv ->
  action_set a parameters_off (flash_param s) argv = Some img ->
  let wraps := get_modify_count (flash_param s) =? 65535 in
  wp (tls_param_set id (Some argv) true) s (fun r s' =>
    low s' = true \/
    (r = TLS_PARAM_STATUS_OK /\ sys_param_lock s' = Some 1 /\ parameters (flash_param s') = parameters img /\
     (wraps = false -> synced s') /\
     forall s2, reboots (bytes_of s') (map_of s') s2 ->
       wp tls_param_init s2 (started (if wraps then parameters (flash_param s) else parameters img)))).
Proof.
  intros Hsy Hl Hu Ha Hb Hset wraps. apply (set_flash_spec id a argv img); [done..|].
  intros i r s' Hi Hp T Hfp Hown Hmc Hps [Hlow|(Hr & Hnew & Hold)]; [by left|right].
  pose proof (own_count _ (pk_img _ (sy_ok _ Hsy))) as Hcount. pose proof (set_flash_own i s s' Hsy Hi Hp Hown Hnew Hold) as Howns.
  assert (Hsy' : wraps = false -> synced s').
  { intros Hw%Z.eqb_neq. apply (set_flash_synced i s s' Hsy Hi Hp T Hown Hmc Hnew Hold). lia. }
  split; [exact Hr|]. split; [by rewrite (ps_lock _ _ _ T)|]. split; [exact Hps|]. split; [exact Hsy'|].
  intros s2 R. destruct wraps eqn:Hw.
  - apply Z.eqb_eq in Hw. rewrite Hw in Hmc. rewrite (par_step_map _ _ _ T) in R.
    rewrite <- (wrapped_boot i _ _ _ _ Hi Howns Hold Hnew Hw Hmc).
    apply (reboot_spec (bytes_of s') (map_of s)); [exact R|apply own_sane, Howns; auto..].
  - specialize (Hsy' eq_refl). rewrite <- Hps, <- (synced_boot s' Hsy').
    apply (reboot_spec (bytes_of s') (map_of s')); [exact R|apply own_sane, Hsy'; auto..].
Qed.


(** C30. Setting and getting a parameter in memory ([to_flash] and [from_flash]
    false, and outside the mode that edits the user defaults), for every id of
    a single member: one that copies the whole member, or one that copies a
    string, if the string with its terminator is no longer than the member.
    The get delivers the bytes that were set, the member holds them, and no
    other member of the structure changes.  (TLS_PARAM_ID_ALL copies the whole
    structure; what longer strings do is stated by [param_name_copy].) *)
Theorem param_set_get s id a f argv out :
  let v := action_data a argv in
  par_ok s -> sys_param_lock s = Some 1 -> updp_mode s = 0 -> param_action id = Some a -> bytes_ok argv ->
  one_member a f argv -> zlen v <= zlen out ->
  wp (r ← tls_param_set id (Some argv) false; g ← tls_param_get id out false; mret (r, g)) s (fun x s' =>
    x = (TLS_PARAM_STATUS_OK, (TLS_PARAM_STATUS_OK, memcpy_at 0 v out)) /\
    take (length v) (member f (flash_param s')) = v /\
    forall g, g <> f -> member g (flash_param s') = member g (flash_param s)).
Proof.
  intros v K Hl Hu Ha Hb Hcase Hout. pose proof (pk_img _ K) as Hi.
  destruct (one_member_set a f argv (flash_param s) Hi Hcase) as [Hset Hvf].
  apply wp_bind, (tls_param_set_ram id a argv (memcpy_at (parameters_off + offset_of f) v (flash_param s)) s); [done|done|done|done|done|exact Hset|]. intros s1 T1 _ Hfp1.
  apply wp_bind, (tls_param_get_ram id a out (memcpy_at 0 v out));
    [apply T1|by rewrite (ps_lock _ _ _ T1)|exact Ha|rewrite Hfp1; by apply one_member_get|].
  intros s2 _ _ Hfp2. apply wp_ret. rewrite Hfp2, Hfp1. split; [reflexivity|]. split; [by apply member_front|].
  intros g Hg. apply member_other; [exact Hi|congruence|exact Hvf].
Qed.

(** The names.  A string of at most 32 bytes with its terminator is read
    back as it was set, and no other member changes.  A longer one is copied
    all the same: its tail overwrites what follows the member. *)
Theorem param_name_copy s id f argv str out :
  par_ok s -> sys_param_lock s = Some 1 -> updp_mode s = 0 -> param_action id = Some (CopyStr f) ->
  bytes_ok argv -> cstr argv = Some str -> parameters_off + offset_of f + zlen str <= 2036 -> zlen str <= zlen out ->
  wp (r ← tls_param_set id (Some argv) false; g ← tls_param_get id out false; mret (r, g)) s (fun x s' =>
    x = (TLS_PARAM_STATUS_OK, (TLS_PARAM_STATUS_OK, memcpy_at 0 str out)) /\
    (zlen str <= size_of f -> forall g, g <> f -> member g (flash_param s') = member g (flash_param s)) /\
    (size_of f < zlen str ->
       slice (parameters_off + offset_of f + size_of f) (zlen str - size_of f) (flash_param s') =
       drop (Z.to_nat (size_of f)) str)).
Proof.
  intros K Hl Hu Ha Hb Hstr Hfit Hout. pose proof (field_bounds f) as Hfb. destruct (pk_img _ K) as [Hil Hib].
  assert (Hoff : 0 <= parameters_off + offset_of f) by (unfold parameters_off; lia).
  set (img := memcpy_at (parameters_off + offset_of f) str (flash_param s)).
  assert (Hset : action_set (CopyStr f) parameters_off (flash_param s) argv = Some img).
  { cbn [action_set]. unfold strcpy_to. rewrite Hstr. simpl. unfold copy_to.
    rewrite !(proj2 (Z.leb_le _ _)) by lia. simpl. by rewrite take_ge by lia. }
  apply wp_bind, (tls_param_set_ram id (CopyStr f) argv img); [done..|]. intros s1 T1 Hst1 Hfp1.
  assert (Hget : action_get (CopyStr f) parameters_off (flash_param s1) out = Some (memcpy_at 0 str out)).
  { cbn [action_get]. rewrite Hfp1. unfold img. rewrite drop_memcpy by lia. unfold strcpy_to.
    rewrite (cstr_app argv str) by exact Hstr. simpl. unfold copy_to.
    rewrite !(proj2 (Z.leb_le _ _)) by lia. simpl. by rewrite take_ge by lia. }
  apply wp_bind, (tls_param_get_ram id (CopyStr f) out (memcpy_at 0 str out));
    [apply T1|by rewrite (ps_lock _ _ _ T1)|exact Ha|exact Hget|].
  intros s2 T2 Hst2 Hfp2. apply wp_ret. rewrite Hfp2, Hfp1. split; [reflexivity|]. split.
  - intros Hs g Hg. apply member_other; [done|congruence|lia].
  - intros Hs. unfold slice, img. assert (Heq : Z.to_nat (parameters_off + offset_of f + size_of f) =
      (Z.to_nat (parameters_off + offset_of f) + Z.to_nat (size_of f))%nat) by lia.
    rewrite Heq. rewrite <- drop_drop, drop_memcpy by lia. rewrite drop_app_le by lia.
    rewrite take_app_le by (rewrite length_drop; lia). apply take_ge. rewrite length_drop. lia.
Qed.

(** Arguments that [tls_param_set] and [tls_param_get] refuse: a NULL
    value and an id outside the table are answered with EINVALID, an id
    without a case with EINVALIDID; nothing is changed. *)
Theorem param_bad_ids s id argv out to_flash from_flash :
  tls_param_set id None to_flash s = Some (TLS_PARAM_STATUS_EINVALID, s) /\
  ((id < -1 \/ 66 <= id) ->
     tls_param_set id (Some argv) to_flash s = Some (TLS_PARAM_STATUS_EINVALID, s) /\
     tls_param_get id out from_flash s = Some ((TLS_PARAM_STATUS_EINVALID, out), s)) /\
  (-1 <= id < 66 -> param_action id = None -> par_ok s -> sys_param_lock s = Some 1 -> updp_mode s = 0 ->
     wp (tls_param_set id (Some argv) to_flash) s (fun r s' => r = TLS_PARAM_STATUS_EINVALIDID /\ s' = s)).
Proof.
  split; [reflexivity|]. split.
  - intros Hid. unfold tls_param_set, tls_param_get, TLS_PARAM_ID_ALL, TLS_PARAM_ID_MAX.
    assert (Hb : (id <? -1) || (66 <=? id) = true) by (apply orb_true_iff; lia). by rewrite Hb.
  - intros Hid Hn K Hl Hu. unfold tls_param_set, TLS_PARAM_ID_ALL, TLS_PARAM_ID_MAX.
    rewrite (proj2 (Z.ltb_ge _ _)), (proj2 (Z.leb_gt _ _)) by lia. cbn [orb].
    apply wp_bind, wp_gets. cbv beta. rewrite Hu. change (negb (0 =? 0)) with false. cbn iota.
    apply wp_bind, wp_ret. apply wp_bind, lock_param_spec; [exact Hl|]. rewrite Hn. apply wp_bind, wp_ret.
    apply wp_bind. unfold unlock_param. apply wp_bind, wp_gets. cbn [with_lock sys_param_lock].
    apply wp_modify, wp_ret. split; [reflexivity|]. destruct s. simpl in *. by subst.
Qed.

End properties.

(** ** Sample states *)

#[export] Instance sample_statics : Statics := {| flash_param_at := 0x20001000; locals_at := 0x20010000;
  flash_param_nonnull := ltac:(done); locals_nonnull := ltac:(done) |}.

Import SoftCrc.
Abbreviation machine := (par (fls BumpHost.bump NorChip.nor)).

(** A fresh machine with a blank flash. *)
Definition blank_par : machine := Par sample_fls idle_gpsec zeros None None 0.

Lemma default_map_ok : map_ok flash_map_default 0x200000.
Proof. split; [repeat split; vm_compute; congruence|vm_compute; repeat split; congruence]. Qed.

Lemma blank_ok : par_ok blank_par.
Proof. split; [exact sample_store|reflexivity|apply zeros_ok|exact default_map_ok]. Qed.

Lemma blank_part i : part (fs_byte (store blank_par)) (fs_map (store blank_par)) i = replicate 2036 255.
Proof.
  unfold part. apply byte_list_eq; [by rewrite length_range, length_replicate|].
  intros j Hj. rewrite length_range in Hj. rewrite byte_at_range by lia. unfold byte_at.
  rewrite nth_lookup, lookup_replicate_2 by lia. reflexivity.
Qed.

Lemma blank_sane i j : sane i (part (fs_byte (store blank_par)) (fs_map (store blank_par)) j).
Proof.
  rewrite blank_part. split; [intros Hm; by vm_compute in Hm|]. unfold accepts.
  assert (Hm : (get_magic (replicate 2036 255) =? TLS_PARAM_MAGIC) = false) by (vm_compute; reflexivity). by rewrite Hm.
Qed.

(** Both partitions hold the factory parameters with count [mc], the second
    is current. *)
Definition default_image : list Z := memcpy_at parameters_off factory_params zeros.
Definition full_flash (mc : Z) : Z -> Z :=
  let m := flash_map_default in
  overlay (overlay (fun _ => 255) (part_off m 0) (seal mc 0 default_image)) (part_off m 1) (seal mc 1 default_image).
Definition full_chip (mc : Z) : NorChip.nor := NorChip.set_arr (full_flash mc) (NorChip.blank SPIFLASH_MID_GD).
Definition full_fls (mc : Z) : fls BumpHost.bump NorChip.nor :=
  Fls (Hw 0 0 1 0 (replicate 1024 0) (full_chip mc) []) BumpHost.roomy false (Some (sample_inside SPIFLASH_MID_GD)) None 0
    flash_map_default.
Definition full_par (mc : Z) : machine := Par (full_fls mc) idle_gpsec (seal mc 1 default_image) (Some 1) None 0.

Lemma default_image_ok : img_ok default_image /\ parameters default_image = factory_params.
Proof. apply set_parameters_ok; [apply zeros_ok|apply factory_ok..]. Qed.

Lemma full_ok mc : par_ok (full_par mc).
Proof.
  split; [|reflexivity|apply seal_ok, default_image_ok|exact default_map_ok].
  split; [exists (sample_inside SPIFLASH_MID_GD)|reflexivity].
  split; [reflexivity|reflexivity|split; [reflexivity|split; [|simpl; lia]]|reflexivity|split; [reflexivity|simpl; lia]].
  apply Forall_replicate. unfold byte_ok. lia.
Qed.

Lemma full_part mc i :
  i = 0 \/ i = 1 -> part (fs_byte (store (full_par mc))) (fs_map (store (full_par mc))) i = seal mc i default_image.
Proof.
  intros Hi. destruct default_image_ok as [Hd _]. assert (Hlen : forall j, zlen (seal mc j default_image) = 2036).
  { intros j. destruct (seal_ok mc j default_image Hd). lia. }
  assert (Hf : range (full_flash mc) (part_off flash_map_default i) 2036 = seal mc i default_image).
  { unfold full_flash. destruct Hi as [-> | ->].
    - rewrite range_overlay_out by (left; vm_compute; congruence). rewrite <- (Hlen 0) at 1. apply range_overlay.
    - rewrite <- (Hlen 1) at 1. apply range_overlay. }
  rewrite <- Hf. unfold part. apply range_ext. intros a Ha.
  change (u8 (full_flash mc a) = full_flash mc a). apply wrap_id.
  assert (Hb : byte_at (range (full_flash mc) (part_off flash_map_default i) 2036) (a - part_off flash_map_default i) = full_flash mc a).
  { rewrite byte_at_range by (change (part_off (fs_map (store (full_par mc))) i) with (part_off flash_map_default i) in Ha; lia).
    f_equal. lia. }
  rewrite <- Hb, Hf. apply byte_at_ok, seal_ok, Hd.
Qed.

Lemma full_synced mc : synced (full_par mc).
Proof.
  destruct default_image_ok as [Hd _]. split; [apply full_ok| |].
  - intros i Hi. rewrite full_part by exact Hi. apply own_seal; [exact Hd|]. by apply seal_at.
  - exists 1. rewrite !full_part by auto. split; [by right|]. split; [reflexivity|]. left.
    change (flash_param (full_par mc)) with (seal mc 1 default_image). by rewrite !seal_parameters by exact Hd.
Qed.

(** Setting the channel (id 7) to 6. *)
Definition channel_image (mc : Z) : list Z :=
  memcpy_at (parameters_off + offset_of channel) [6] (seal mc 1 default_image).

Lemma channel_set mc :
  action_set (Copy channel) parameters_off (flash_param (full_par mc)) [6] = Some (channel_image mc).
Proof.
  destruct (seal_ok mc 1 default_image (proj1 default_image_ok)) as [Hl _].
  assert (Hs : size_of channel = 1 /\ offset_of channel = 53) by (vm_compute; auto). destruct Hs as [Hs Ho].
  cbn [action_set]. unfold copy_to, channel_image, parameters_off. rewrite Hs, Ho.
  change (flash_param (full_par mc)) with (seal mc 1 default_image). rewrite Hl. reflexivity.
Qed.

Lemma six_ok : bytes_ok [6].
Proof. constructor; [unfold byte_ok; lia|constructor]. Qed.

Lemma full_count mc : 0 <= mc < 65536 -> get_modify_count (flash_param (full_par mc)) = mc.
Proof.
  intros Hmc. change (flash_param (full_par mc)) with (seal mc 1 default_image).
  rewrite seal_count by apply default_image_ok. rewrite (proj2 (Z.ltb_ge _ _)) by lia. by apply wrap_id.
Qed.

Lemma param_init_recovers_witness :
  wp tls_param_init blank_par (fun r s' =>
    fs_step (both (fs_map (store blank_par))) (store blank_par) (store s') /\
    started (match accepts (part (fs_byte (store blank_par)) (fs_map (store blank_par)) 0), accepts (part (fs_byte (store blank_par)) (fs_map (store blank_par)) 1) with
             | true, true =>
                 if get_modify_count (part (fs_byte (store blank_par)) (fs_map (store blank_par)) 0) <?
                    get_modify_count (part (fs_byte (store blank_par)) (fs_map (store blank_par)) 1)
                 then parameters (part (fs_byte (store blank_par)) (fs_map (store blank_par)) 1)
                 else parameters (part (fs_byte (store blank_par)) (fs_map (store blank_par)) 0)
             | true, false => parameters (part (fs_byte (store blank_par)) (fs_map (store blank_par)) 0)
             | false, true => parameters (part (fs_byte (store blank_par)) (fs_map (store blank_par)) 1)
             | false, false => factory_params
             end) r s').
Proof.
  apply (param_init_recovers blank_par); [exact blank_ok|vm_compute; congruence|apply blank_sane|apply blank_sane].
Defined.

Lemma param_set_survives_reboot_witness :
  Forall (fun mc =>
    let wraps := get_modify_count (flash_param (full_par mc)) =? 65535 in
    wraps = (mc =? 65535) /\
    wp (tls_param_set 7 (Some [6]) true) (full_par mc) (fun r s' =>
      fs_low (store s') = true \/
      (r = TLS_PARAM_STATUS_OK /\ sys_param_lock s' = Some 1 /\ parameters (flash_param s') = parameters (channel_image mc) /\
       (wraps = false -> synced s') /\
       forall s2 : machine, reboots (fs_byte (store s')) (fs_map (store s')) s2 ->
         wp tls_param_init s2 (started (if wraps then parameters (flash_param (full_par mc)) else parameters (channel_image mc)))))) [1; 65535].
Proof.
  apply Forall_forall. intros mc Hmc. rewrite !elem_of_cons, elem_of_nil in Hmc. split.
  - by rewrite full_count by lia.
  - apply (param_set_survives_reboot (full_par mc) 7 (Copy channel) [6] (channel_image mc));
      [exact (full_synced mc)|reflexivity|reflexivity|reflexivity|exact six_ok|exact (channel_set mc)].
Defined.


(** The channel, and the device name as a string of two letters. *)
Definition short_name : list Z := [97; 98; 0; 99].

Lemma short_name_ok : bytes_ok short_name.
Proof. repeat (constructor; [unfold byte_ok; lia|]). constructor. Qed.

Lemma param_set_get_witness :
  (wp (r ← tls_param_set 7 (Some [6]) false; g ← tls_param_get 7 [0; 9] false; mret (r, g)) (full_par 1) (fun x s' =>
    x = (TLS_PARAM_STATUS_OK, (TLS_PARAM_STATUS_OK, memcpy_at 0 (action_data (Copy channel) [6]) [0; 9])) /\
    take (length (action_data (Copy channel) [6])) (member channel (flash_param s')) = action_data (Copy channel) [6] /\
    forall g, g <> channel -> member g (flash_param s') = member g (flash_param (full_par 1)))) /\
  wp (r ← tls_param_set 21 (Some short_name) false; g ← tls_param_get 21 (replicate 9 0) false; mret (r, g)) (full_par 1) (fun x s' =>
    x = (TLS_PARAM_STATUS_OK, (TLS_PARAM_STATUS_OK, memcpy_at 0 (action_data (CopyStr local_device_name) short_name) (replicate 9 0))) /\
    take (length (action_data (CopyStr local_device_name) short_name)) (member local_device_name (flash_param s')) =
      action_data (CopyStr local_device_name) short_name /\
    forall g, g <> local_device_name -> member g (flash_param s') = member g (flash_param (full_par 1))).
Proof.
  split.
  - apply (param_set_get (full_par 1) 7 (Copy channel) channel [6] [0; 9]);
      [exact (full_ok 1)|reflexivity|reflexivity|reflexivity|exact six_ok|left; by vm_compute|vm_compute; congruence].
  - apply (param_set_get (full_par 1) 21 (CopyStr local_device_name) local_device_name short_name (replicate 9 0));
      [exact (full_ok 1)|reflexivity|reflexivity|reflexivity|exact short_name_ok|right|vm_compute; congruence].
    split; [reflexivity|]. split; vm_compute; congruence.
Defined.

(** A device name of 40 letters. *)
Definition long_name : list Z := replicate 40 97 ++ [0].

Lemma param_name_copy_witness :
  wp (r ← tls_param_set 21 (Some long_name) false; g ← tls_param_get 21 (replicate 41 0) false; mret (r, g)) (full_par 1)
    (fun x s' =>
    x = (TLS_PARAM_STATUS_OK, (TLS_PARAM_STATUS_OK, memcpy_at 0 long_name (replicate 41 0))) /\
    (zlen long_name <= size_of local_device_name ->
       forall g, g <> local_device_name -> member g (flash_param s') = member g (flash_param (full_par 1))) /\
    (size_of local_device_name < zlen long_name ->
       slice (parameters_off + offset_of local_device_name + size_of local_device_name)
         (zlen long_name - size_of local_device_name) (flash_param s') =
       drop (Z.to_nat (size_of local_device_name)) long_name)).
Proof.
  apply (param_name_copy (full_par 1) 21 local_device_name long_name long_name (replicate 41 0));
    [exact (full_ok 1)|reflexivity|reflexivity|reflexivity| |reflexivity|vm_compute; congruence|vm_compute; congruence].
  apply Forall_app. split; [apply Forall_replicate; unfold byte_ok; lia|constructor; [unfold byte_ok; lia|constructor]].
Defined.

Lemma param_bad_ids_witness :
  wp (tls_param_set 25 (Some [6]) true) (full_par 1) (fun r s' => r = TLS_PARAM_STATUS_EINVALIDID /\ s' = full_par 1).
Proof.
  destruct (param_bad_ids (full_par 1) 25 [6] [0] true false) as (_ & _ & Hx).
  apply Hx; [lia|reflexivity|exact (full_ok 1)|reflexivity|reflexivity].
Defined.
