(* ===== verification/ParamUser.v ===== *)
(** * User defaults, restoring the factory settings, and superfluous writes *)
From S2P Require Import Prelude CMonad HostEnv Checksum FlashChip FlsHw FlsDriver FlsWrite CrcHard Storage FlsStore.
From S2P Require Import ParamData Param ParamImage ParamSpec ParamInit ParamAccess ParamProps.

#[local] Opaque zeros sizeof_param_flash sizeof_sys_param Crc32.get_crc32 seal factory_params.

Section user.
Context {F : Type} `{FlashStoreLaws F} `{CrcEngineLaws} `{Statics}.
Implicit Types s : par F.

Abbreviation bytes_of s := (fs_byte (store s)).
Abbreviation map_of s := (fs_map (store s)).
Abbreviation low s := (fs_low (store s)).
Abbreviation user_off s := (TLS_FLASH_PARAM_DEFAULT (map_of s) mod 2 ^ 27).

(** ** The sector of the user defaults *)

Lemma user_place s k n :
  par_ok s -> 0 <= k -> 0 <= n -> k + n <= 4096 ->
  let a := TLS_FLASH_PARAM_DEFAULT (map_of s) in
  0 <= a + k /\ a + k + n < 2 ^ 32 /\ (a + k) mod 2 ^ 27 = user_off s + k /\ user_off s mod 4096 = 0 /\
  BOOT_SIZE <= user_off s /\ user_off s + 4096 <= fs_size (store s).
Proof.
  intros K Hk Hn Hkn. cbv zeta. destruct (mk_area _ _ (pk_map _ K)) as ((Ha & Hw & Hal & Hb & He) & _).
  pose proof (fs_size_ok _ (pk_store _ K)). split; [lia|]. split; [lia|]. split; [|split; [dlia|done]].
  rewrite <- (Z.mod_small (user_off s + k) (2 ^ 27)) by (unfold BOOT_SIZE in *; lia). by rewrite Zplus_mod_idemp_l.
Qed.

Lemma write_user_spec k p l n s (Q : Z -> par F -> Prop) :
  par_ok s -> p <> 0 -> bytes_ok l -> n = zlen l -> 0 < n -> 0 <= k -> k + n <= 4096 ->
  (forall r s', par_step (in_sector (user_off s)) s s' -> user_default_param s' = user_default_param s ->
     (low s' = true \/ bytes_of s' ≡ₐ overlay (bytes_of s) (user_off s + k) l) -> Q r s') ->
  wp (on_store (fs_write (TLS_FLASH_PARAM_DEFAULT (map_of s) + k) p l n)) s Q.
Proof.
  intros K Hp Hb Hn Hn0 Hk Hkn HQ. destruct (user_place s k n K) as (? & ? & Hm & Hal & ? & ?); [lia..|].
  apply (on_store_spec _ (in_sector (user_off s))); [done|].
  eapply wp_mono; [apply fs_write_spec; [apply K|done|done|lia|rewrite Hm; lia|rewrite Hm; lia]|].
  cbv beta. rewrite Hm. intros r f' [Hs Hr]. split.
  { eapply fs_step_mono; [|exact Hs]. intros a. unfold sectors_of, in_sector. dlia. }
  intros s' T Hst _. apply HQ; [exact T|apply T|]. rewrite take_ge in Hr by lia.
  destruct Hr as [(_ & _ & Hr)|(_ & Hl & _)]; [right|left]; by rewrite Hst.
Qed.

Lemma read_user_spec k p l n s (Q : Z * list Z -> par F -> Prop) :
  par_ok s -> p <> 0 -> n = zlen l -> 0 < n -> 0 <= k -> k + n <= 4096 ->
  (forall l' s', par_step nowhere s s' -> length l' = length l ->
     (low s' = true \/ l' = range (bytes_of s) (user_off s + k) n) -> Q (TLS_FLS_STATUS_OK, l') s') ->
  wp (on_store (fs_read (TLS_FLASH_PARAM_DEFAULT (map_of s) + k) p l n)) s Q.
Proof.
  intros K Hp Hn Hn0 Hk Hkn HQ. destruct (user_place s k n K) as (? & ? & Hm & Hal & ? & ?); [lia..|].
  apply (on_store_spec _ nowhere); [done|].
  eapply wp_mono; [apply fs_read_spec; [apply K|done|lia|lia|lia|rewrite Hm; lia]|].
  cbv beta. rewrite Hm. intros [e l'] f' (Hs & He & Hl). simpl in He, Hl. subst e. split; [done|].
  intros s' T Hst _. apply HQ; [done| |].
  - destruct Hl as [->|[-> _]]; [by rewrite length_memcpy_at|done].
  - destruct Hl as [->|[_ Hl]]; [right|left; by rewrite Hst]. apply memcpy_at_all. rewrite length_range. lia.
Qed.

(** The record of the user defaults: magic number, parameters, CRC. *)
Definition user_record (param : list Z) : list Z :=
  le_bytes 4 TLS_USER_MAGIC ++ param ++ le_bytes 4 (Crc32.get_crc32 param).

Lemma save_user_default_spec p param s (Q : Z -> par F -> Prop) :
  par_ok s -> user_default_param s = Some (p, param) -> p <> 0 -> length param = 2016%nat -> bytes_ok param ->
  (forall s', par_step (in_sector (user_off s)) s s' ->
     (low s' = true \/ bytes_of s' ≡ₐ overlay (bytes_of s) (user_off s) (user_record param)) -> Q TLS_PARAM_STATUS_OK s') ->
  wp tls_param_save_user_default s Q.
Proof.
  intros K Hu Hp Hl Hb HQ. unfold tls_param_save_user_default. apply wp_bind, wp_gets. rewrite Hu.
  apply wp_bind, wp_gets. rewrite sizeof_sys_param_eq. rewrite take_ge by lia.
  set (crc := le_bytes 4 (Crc32.get_crc32 param)).
  apply wp_bind. rewrite <- (Z.add_0_r (TLS_FLASH_PARAM_DEFAULT _)) at 1.
  apply write_user_spec; [done|apply locals_nonnull|apply le_bytes_ok|done|lia|lia|lia|].
  intros r1 s1 T1 _ B1. pose proof (par_step_map _ _ _ T1) as M1.
  apply wp_bind. rewrite <- M1. apply write_user_spec; [apply T1|done|done|lia|lia|lia|lia|].
  intros r2 s2 T2 _ B2. pose proof (par_step_map _ _ _ T2) as M2. rewrite M1 in T2, B2, M2.
  apply wp_bind. rewrite M1, <- M2, <- Z.add_assoc. change (4 + 2016) with 2020.
  apply write_user_spec; [apply T2|apply locals_nonnull|apply le_bytes_ok|done|lia|lia|lia|].
  intros r3 s3 T3 _ B3. rewrite M2 in T3, B3. apply wp_ret, HQ.
  { eapply par_step_trans; [exact T1|]. by eapply par_step_trans. }
  destruct B3 as [L3|B3]; [by left|].
  destruct B2 as [L2|B2]; [left; exact (par_step_low _ _ _ T3 L2)|].
  destruct B1 as [L1|B1]; [left; exact (par_step_low _ _ _ T3 (par_step_low _ _ _ T2 L1))|right].
  rewrite B3, B2, B1. unfold user_record. rewrite <- overlay_app.
  rewrite Z.add_0_r. change (zlen (le_bytes 4 TLS_USER_MAGIC)) with 4.
  rewrite <- overlay_app. replace (user_off s + 4 + zlen param) with (user_off s + 2020) by lia. reflexivity.
Qed.

(** Loading returns whatever the sector holds. *)
Lemma load_user_total q buf mg c s :
  par_ok s -> q <> 0 -> length buf = 2016%nat -> length mg = 4%nat -> length c = 4%nat ->
  wp (tls_param_load_user q buf mg c) s (fun _ s' => par_step nowhere s s').
Proof.
  intros K Hq Hbuf Hmg Hc. unfold tls_param_load_user. apply wp_bind, wp_gets. rewrite sizeof_sys_param_eq.
  apply wp_bind. rewrite <- (Z.add_0_r (TLS_FLASH_PARAM_DEFAULT _)) at 1.
  apply read_user_spec; [done|apply locals_nonnull|lia|lia|lia|lia|]. intros l1 s1 T1 Hl1 _. cbn [snd].
  destruct (negb _); [by apply wp_ret|]. apply wp_bind. rewrite <- (par_step_map _ _ _ T1).
  apply read_user_spec; [apply T1|done|rewrite length_memcpy_at; lia|lia|lia|lia|].
  intros l2 s2 T2 _ _. apply wp_bind. rewrite <- Z.add_assoc, <- (par_step_map _ _ _ T2).
  change (4 + 2016) with 2020. apply read_user_spec; [apply T2|apply locals_nonnull|lia|lia|lia|lia|].
  intros l3 s3 T3 _ _. pose proof (par_step_trans _ _ _ _ T1 (par_step_trans _ _ _ _ T2 T3)) as T13.
  destruct (negb _); by apply wp_ret.
Qed.

(** Loading what is there: the parameters, when magic number and CRC fit. *)
Lemma load_user_spec q buf mg c s param (Q : Z * list Z -> par F -> Prop) :
  par_ok s -> q <> 0 -> length buf = 2016%nat -> length mg = 4%nat -> length c = 4%nat ->
  length param = 2016%nat -> bytes_ok param ->
  range (bytes_of s) (user_off s) (zlen (user_record param)) = user_record param ->
  (forall x s', par_step nowhere s s' -> low s' = true \/ x = (TLS_PARAM_STATUS_OK, param) -> Q x s') ->
  wp (tls_param_load_user q buf mg c) s Q.
Proof.
  intros K Hq Hbuf Hmg Hc Hl Hb Hrec HQ. unfold tls_param_load_user. apply wp_bind, wp_gets.
  rewrite sizeof_sys_param_eq.
  assert (Hz : zlen (user_record param) = 2024).
  { unfold user_record. rewrite !length_app, !length_le_bytes. lia. }
  rewrite Hz in Hrec.
  assert (Hpart : forall k n, 0 <= k -> 0 <= n -> k + n <= 2024 ->
    range (bytes_of s) (user_off s + k) n = slice k n (user_record param)).
  { intros k n ? ? ?. rewrite <- Hrec. symmetry. apply slice_range; lia. }
  assert (Hmagic : range (bytes_of s) (user_off s + 0) 4 = le_bytes 4 TLS_USER_MAGIC).
  { rewrite Hpart by lia. reflexivity. }
  assert (Hparam : range (bytes_of s) (user_off s + 4) 2016 = param).
  { rewrite Hpart by lia. unfold slice, user_record. change (drop (Z.to_nat 4) (le_bytes 4 TLS_USER_MAGIC ++ ?x)) with x.
    by rewrite take_app_le, take_ge by lia. }
  assert (Hcrc : range (bytes_of s) (user_off s + 2020) 4 = le_bytes 4 (Crc32.get_crc32 param)).
  { rewrite Hpart by lia. unfold slice, user_record.
    replace (Z.to_nat 2020) with (4 + 2016)%nat by lia. rewrite <- drop_drop.
    change (drop 4 (le_bytes 4 TLS_USER_MAGIC ++ ?x)) with x. rewrite <- Hl, drop_app_length.
    apply take_ge. rewrite length_le_bytes. lia. }
  apply wp_bind. rewrite <- (Z.add_0_r (TLS_FLASH_PARAM_DEFAULT _)) at 1.
  apply read_user_spec; [done|apply locals_nonnull|lia|lia|lia|lia|]. intros l1 s1 T1 Hl1 R1. cbn [snd].
  pose proof (par_step_map _ _ _ T1) as M1. pose proof (par_step_quiet _ _ T1) as B1.
  destruct R1 as [L1| ->].
  { destruct (negb _); [apply wp_ret, HQ; [exact T1|by left]|].
    apply wp_bind. rewrite <- M1. apply read_user_spec; [apply T1|done|rewrite length_memcpy_at; lia|lia|lia|lia|].
    intros l2 s2 T2 _ _. pose proof (par_step_map _ _ _ T2) as M2. apply wp_bind. rewrite <- Z.add_assoc, <- M2.
    change (4 + 2016) with 2020. apply read_user_spec; [apply T2|apply locals_nonnull|lia|lia|lia|lia|].
    intros l3 s3 T3 _ _. pose proof (par_step_trans _ _ _ _ T1 (par_step_trans _ _ _ _ T2 T3)) as T13.
    pose proof (par_step_low _ _ _ T3 (par_step_low _ _ _ T2 L1)) as L3.
    destruct (negb _); apply wp_ret, HQ; [exact T13|by left|exact T13|by left]. }
  rewrite Hmagic. change (take 4 (le_bytes 4 TLS_USER_MAGIC)) with (le_bytes 4 TLS_USER_MAGIC).
  change (negb (le_val (le_bytes 4 TLS_USER_MAGIC) =? TLS_USER_MAGIC)) with false. cbn iota.
  apply wp_bind. rewrite <- M1. apply read_user_spec; [apply T1|done|rewrite length_memcpy_at; lia|lia|lia|lia|].
  intros l2 s2 T2 Hl2 R2. pose proof (par_step_map _ _ _ T2) as M2. pose proof (par_step_quiet _ _ T2) as B2.
  apply wp_bind. rewrite <- Z.add_assoc, <- M2. change (4 + 2016) with 2020. cbn [snd].
  apply read_user_spec; [apply T2|apply locals_nonnull|lia|lia|lia|lia|]. intros l3 s3 T3 Hl3 R3. cbn [snd].
  pose proof (par_step_trans _ _ _ _ T1 (par_step_trans _ _ _ _ T2 T3)) as T13.
  assert (Hlow : low s3 = true -> forall r l, Q (r, l) s3) by (intros L r l; apply HQ; [exact T13|by left]).
  destruct R2 as [L2|R2].
  { pose proof (par_step_low _ _ _ T3 L2) as L3. destruct (negb _); apply wp_ret; by apply Hlow. }
  destruct R3 as [L3|R3]; [destruct (negb _); apply wp_ret; by apply Hlow|].
  rewrite M1, B1, Hparam in R2. rewrite M2, M1, B2, B1, Hcrc in R3. subst l2 l3.
  rewrite !take_ge by (rewrite ?length_le_bytes; lia). rewrite le_val_bytes.
  change (2 ^ (8 * Z.of_nat 4)) with (2 ^ 32). rewrite Z.mod_small by by apply Crc32Facts.get_crc32_bounds.
  rewrite Z.eqb_refl. apply wp_ret, HQ; [exact T13|by right].
Qed.

(** ** Writing only what changed *)

Lemma param_unchanged_spec i s (Q : bool -> par F -> Prop) :
  par_ok s -> get_partition_num (flash_param s) = i -> part (bytes_of s) (map_of s) i = flash_param s ->
  (forall b s', par_step nowhere s s' -> flash_param s' = flash_param s -> low s' = true \/ b = true -> Q b s') ->
  wp param_unchanged s Q.
Proof.
  intros K Hi Hp HQ. unfold param_unchanged. apply wp_bind, wp_gets, wp_bind, (on_store_spec _ nowhere); [done|].
  eapply wp_mono; [apply fs_alloc_spec; [apply K|rewrite sizeof_param_flash_eq; lia]|].
  cbv beta. intros [[p buf]|] f1 [Hs1 Hr1]; (split; [done|]); intros s1 T1 Hf1 Hfp1.
  2: { apply wp_ret, HQ; [done|done|]. left. by rewrite Hf1. }
  destruct Hr1 as (Hp0 & Hlb & _). pose proof (par_step_map _ _ _ T1) as M1.
  apply wp_bind, wp_gets, wp_bind. rewrite Hi.
  apply read_partition_spec; [apply T1|done|by rewrite Hlb, sizeof_param_flash_eq|].
  intros l s2 T2 Hfp2 Hl2. cbn [fst snd]. change (TLS_FLS_STATUS_OK =? TLS_FLS_STATUS_OK) with true. cbn [andb].
  apply wp_bind, (on_store_spec _ nowhere); [apply T2|].
  eapply wp_mono; [apply fs_free_spec, T2|]. cbv beta. intros _ f3 Hs3. split; [done|].
  intros s3 T3 Hf3 Hfp3.
  apply wp_ret, HQ; [exact (par_step_trans _ _ _ _ T1 (par_step_trans _ _ _ _ T2 T3))|congruence|].
  destruct Hl2 as [->|[_ Hlow]]; [right|left; exact (par_step_low _ _ _ T3 Hlow)].
  apply bool_decide_true. f_equal. rewrite M1, <- Hp. unfold part. by rewrite (par_step_quiet _ _ T1).
Qed.

(** ** Back to the factory settings *)

Lemma boot_params_same l0 l1 ps :
  own 0 l0 -> own 1 l1 -> parameters l0 = ps -> parameters l1 = ps -> boot_params l0 l1 = ps.
Proof.
  intros H0' H1' <- Hp. unfold boot_params. rewrite (own_accepts 0 l0), (own_accepts 1 l1), Hp by done. by case_match.
Qed.

Lemma tls_param_to_default_spec s (Q : Z -> par F -> Prop) :
  par_ok s ->
  (forall r s', fs_step (both (map_of s)) (store s) (store s') -> par_ok s' ->
     low s' = true \/
     (r = TLS_PARAM_STATUS_OK /\ get_magic (flash_param s') = 0 /\
        let img i := seal 1 i (memcpy_at parameters_off factory_params (flash_param s)) in
        part (bytes_of s') (map_of s') 0 = img 0 /\
        part (bytes_of s') (map_of s') 1 = seal 1 1 (img 0)) -> Q r s') ->
  wp tls_param_to_default s Q.
Proof.
  intros K HQ. destruct factory_ok as [Hfb Hfl].
  destruct (set_parameters_ok _ _ (pk_img _ K) Hfb Hfl) as [Hdok _]. clear Hfb Hfl. revert HQ Hdok.
  unfold tls_param_to_default, tls_param_load_factory_default. generalize factory_params as ps. intros ps HQ Hdok.
  apply wp_bind, set_flash_param_spec; [done|exact Hdok|]. intros s1 T1 Hst1 Hfp1.
  assert (Hi0 : get_partition_num (seal 1 0 (flash_param s1)) = 0) by (rewrite Hfp1; apply seal_at; auto).
  apply wp_bind, (put_partition_spec _ _ _ 0); [apply T1|unfold TLS_PARAM_ID_ALL; lia|done|auto|].
  intros r s2 T2 Hfp2 Hr2.
  assert (T02 : par_step (both (map_of s)) s s2).
  { eapply par_step_trans; [by apply par_step_nowhere|].
    rewrite <- (par_step_map _ _ _ T1). eapply par_step_mono; [|exact T2]. intros a. apply both_part. auto. }
  destruct (Z.eqb_spec r 0) as [->|Hne]; cbn [negb].
  2: { apply wp_ret, HQ; [apply T02|apply T02|]. destruct Hr2 as [Hlow|(-> & _)]; [by left|]. by destruct Hne. }
  assert (Hi1 : get_partition_num (seal 1 1 (flash_param s2)) = 1) by (apply seal_at; [apply T2|auto]).
  apply wp_bind, (put_partition_spec _ _ _ 1); [apply T2|unfold TLS_PARAM_ID_ALL; lia|done|auto|].
  intros r s3 T3 Hfp3 Hr3.
  assert (T03 : par_step (both (map_of s)) s s3).
  { eapply par_step_trans; [exact T02|]. rewrite <- (par_step_map _ _ _ T02). eapply par_step_mono; [|exact T3].
    intros a. apply both_part. auto. }
  assert (Hz : img_ok (set_le 0 4 0 (flash_param s3))).
  { destruct (pk_img _ (ps_ok _ _ _ T03)) as [Hl Hb]. split; [by rewrite length_set_le|by apply set_le_ok]. }
  apply wp_bind, set_flash_param_spec; [apply T3|exact Hz|]. intros s4 T4 Hst4 Hfp4.
  apply wp_ret, HQ; [rewrite Hst4; apply T03|apply T4|]. rewrite Hst4.
  destruct Hr2 as [Hlow|(_ & Hp0 & _)]; [left; exact (par_step_low _ _ _ T3 Hlow)|].
  destruct Hr3 as [Hlow|(-> & Hp1 & Hpo)]; [by left|right]. split; [reflexivity|]. split.
  { rewrite Hfp4. unfold get_magic. rewrite get_set_same; [reflexivity|lia|lia|].
    destruct (pk_img _ (ps_ok _ _ _ T03)) as [Hl _]. lia. }
  rewrite (par_step_map _ _ _ T3). change (1 - 1) with 0 in Hpo.
  rewrite (par_step_map _ _ _ T2) in *. rewrite Hpo, Hp0, Hp1, Hfp2, Hfp1. by split.
Qed.

End user.

(** ** Properties *)

Section properties.
Context {F : Type} `{FlashStoreLaws F} `{CrcEngineLaws} `{Statics}.
Implicit Types s : par F.

Abbreviation bytes_of s := (fs_byte (store s)).
Abbreviation map_of s := (fs_map (store s)).
Abbreviation low s := (fs_low (store s)).

(** The user defaults come back as they were saved:
    [tls_param_save_user_default] followed by [tls_param_load_user] delivers
    the parameters with status OK, unless an allocation failed on the way.
    The save reports success in every case, also when it could not write. *)
Theorem user_default_roundtrip s p param q buf mg c :
  par_ok s -> user_default_param s = Some (p, param) -> p <> 0 -> length param = 2016%nat -> bytes_ok param ->
  q <> 0 -> length buf = 2016%nat -> length mg = 4%nat -> length c = 4%nat ->
  wp (r ← tls_param_save_user_default; x ← tls_param_load_user q buf mg c; mret (r, x)) s (fun y s' =>
    fst y = TLS_PARAM_STATUS_OK /\
    (low s' = true \/ snd y = (TLS_PARAM_STATUS_OK, param)) /\
    forall a, ~ in_sector (TLS_FLASH_PARAM_DEFAULT (map_of s) mod 2 ^ 27) a -> bytes_of s' a = bytes_of s a).
Proof.
  intros K Hu Hp Hl Hb Hq Hbuf Hmg Hc. apply wp_bind, (save_user_default_spec p param); [done..|].
  intros s1 T1 B1. pose proof (par_step_map _ _ _ T1) as M1.
  assert (Hout : forall a, ~ in_sector (TLS_FLASH_PARAM_DEFAULT (map_of s) mod 2 ^ 27) a -> bytes_of s1 a = bytes_of s a).
  { intros a Ha. apply (st_out _ _ _ (ps_store _ _ _ T1)), Ha. }
  destruct B1 as [L1|B1].
  - apply wp_bind. eapply wp_mono; [apply (load_user_total q buf mg c); [apply T1|done..]|].
    cbv beta. intros x s2 T2. apply wp_ret. split; [reflexivity|].
    split; [left; exact (par_step_low _ _ _ T2 L1)|]. intros a Ha. rewrite (par_step_quiet _ _ T2). by apply Hout.
  - apply wp_bind, (load_user_spec q buf mg c s1 param); [apply T1|done..| |].
    + rewrite M1, B1. apply range_overlay.
    + intros x s2 T2 Hx. apply wp_ret. split; [reflexivity|]. split; [exact Hx|].
      intros a Ha. rewrite (par_step_quiet _ _ T2). by apply Hout.
Qed.

(** Writing all parameters of a synchronised storage writes nothing: the
    current partition is read back, found equal, and OK returned with the
    flash as it was (or an allocation failed). *)
Theorem param_to_flash_unchanged s :
  synced s -> sys_param_lock s = Some 1 ->
  wp (tls_param_to_flash TLS_PARAM_ID_ALL) s (fun r s' =>
    sys_param_lock s' = Some 1 /\
    (low s' = true \/ (r = TLS_PARAM_STATUS_OK /\ flash_param s' = flash_param s /\ bytes_of s' ≡ₐ bytes_of s))).
Proof.
  intros [K Ho (i & Hi & Hp & _)] Hl. assert (Hpi : get_partition_num (flash_param s) = i) by (rewrite <- Hp; by apply Ho).
  unfold tls_param_to_flash. apply wp_bind, lock_param_spec; [exact Hl|]. rewrite Z.eqb_refl.
  apply wp_bind, (param_unchanged_spec i); [by apply with_lock_ok|exact Hpi|exact Hp|].
  intros b s1 T1 Hfp1 Hb. destruct b.
  - apply wp_bind, (unlock_param_spec nowhere s); [exact Hl|exact T1|]. intros s2 T2 Hst2 Hfp2. apply wp_ret.
    split; [by rewrite (ps_lock _ _ _ T2)|]. right. split; [reflexivity|].
    split; [by rewrite Hfp2, Hfp1|]. exact (par_step_quiet _ _ T2).
  - destruct Hb as [Hlow|]; [|done]. apply wp_bind, param_to_flash_spec; [apply T1|unfold TLS_PARAM_ID_ALL; lia|].
    intros r s2 T2 _ _. apply wp_bind. eapply (unlock_param_spec _ s); [exact Hl| |].
    { eapply par_step_trans; [apply par_step_nowhere; exact T1|exact T2]. }
    intros s3 T3 Hst3 _. apply wp_ret. split; [by rewrite (ps_lock _ _ _ T3)|]. left.
    rewrite Hst3. exact (par_step_low _ _ _ T2 Hlow).
Qed.

(** [tls_param_to_default] writes the factory parameters to both
    partitions and clears the magic number in memory, so that a new
    [tls_param_init] is not refused and loads them. *)
Theorem param_to_default_restarts s :
  par_ok s ->
  wp tls_param_to_default s (fun r s' =>
    low s' = true \/ (r = TLS_PARAM_STATUS_OK /\ wp tls_param_init s' (started factory_params))).
Proof.
  intros K. apply tls_param_to_default_spec; [exact K|]. cbv zeta. intros r s1 S1 K1 Hr.
  destruct factory_ok as [Hfb Hfl]. destruct (set_parameters_ok _ _ (pk_img _ K) Hfb Hfl) as [Hdok Hdp].
  destruct Hr as [Hlow|(-> & Hm & Hp0 & Hp1)]; [by left|right]. split; [reflexivity|].
  set (d := memcpy_at _ _ _) in *. pose proof (seal_ok 1 0 d Hdok) as Hs0.
  pose proof (own_seal 1 0 0 d Hdok (seal_at 1 0 d Hdok (or_introl eq_refl))) as Ho0.
  pose proof (own_seal 1 1 1 _ Hs0 (seal_at 1 1 _ Hs0 (or_intror eq_refl))) as Ho1.
  apply tls_param_init_spec; [exact K1|rewrite Hm; by vm_compute|rewrite Hp0; exact (own_sane _ _ Ho0)|rewrite Hp1; exact (own_sane _ _ Ho1)|].
  intros r2 s2 _ _ [(Hr2 & _)|[Hl [Hlow|(Hr2 & Hsy & Hps)]]]; [right; by left|by left|right; right].
  split; [exact Hr2|]. split; [exact Hsy|]. split; [exact Hl|]. rewrite Hps, Hp0, Hp1.
  apply boot_params_same; [exact Ho0|exact Ho1|rewrite (seal_parameters _ _ _ Hdok); exact Hdp|].
  rewrite (seal_parameters _ _ _ Hs0), (seal_parameters _ _ _ Hdok). exact Hdp.
Qed.

End properties.

Import SoftCrc.

(** A machine whose user defaults are the factory parameters. *)
Definition user_par : machine :=
  Par (full_fls 1) idle_gpsec (seal 1 1 default_image) (Some 1) (Some (0x20002000, factory_params)) 0.

Lemma user_ok : par_ok user_par.
Proof. destruct (full_ok 1) as [? ? ? ?]. by split. Qed.

Lemma user_default_roundtrip_witness :
  wp (r ← tls_param_save_user_default;
      x ← tls_param_load_user 0x20003000 (replicate 2016 0) (replicate 4 0) (replicate 4 0); mret (r, x)) user_par (fun y s' =>
    fst y = TLS_PARAM_STATUS_OK /\
    (fs_low (store s') = true \/ snd y = (TLS_PARAM_STATUS_OK, factory_params)) /\
    forall a, ~ in_sector (TLS_FLASH_PARAM_DEFAULT (fs_map (store user_par)) mod 2 ^ 27) a ->
      fs_byte (store s') a = fs_byte (store user_par) a).
Proof.
  destruct factory_ok as [Hb Hl].
  apply (user_default_roundtrip user_par 0x20002000 factory_params 0x20003000 (replicate 2016 0));
    [exact user_ok|reflexivity|lia|exact Hl|exact Hb|lia|apply length_replicate|reflexivity|reflexivity].
Defined.

Lemma param_to_flash_unchanged_witness :
  wp (tls_param_to_flash TLS_PARAM_ID_ALL) (full_par 1) (fun r s' =>
    sys_param_lock s' = Some 1 /\
    (fs_low (store s') = true \/
     (r = TLS_PARAM_STATUS_OK /\ flash_param s' = flash_param (full_par 1) /\
      fs_byte (store s') ≡ₐ fs_byte (store (full_par 1))))).
Proof. apply (param_to_flash_unchanged (full_par 1)); [exact (full_synced 1)|reflexivity]. Defined.

Lemma param_to_default_restarts_witness :
  wp tls_param_to_default (full_par 1) (fun r s' =>
    fs_low (store s') = true \/ (r = TLS_PARAM_STATUS_OK /\ wp tls_param_init s' (started factory_params))).
Proof. apply (param_to_default_restarts (full_par 1)). exact (full_ok 1). Defined.
