(* ===== verification/Efuse.v ===== *)
(** * The factory records ([wm_efuse.c])

    MAC addresses, radio calibration and frequency error are kept in a
    record in the two boot sectors of the flash: a backup copy at
    [FT_MAGICNUM_ADDR], which the factory writes, and a run-time copy at
    [FT_PARAM_RUNTIME_ADDR].  Each has two CRCs, one for the basic part and
    one for an extension that older records do not have.  The module's only
    variable is the record in memory, [gftParamVer1]; it is modelled as the
    bytes it occupies, since the program copies and sums it as bytes. *)
From S2P Require Import Prelude CMonad FlsDriver CrcHard Storage ParamData.

(** ** [wm_efuse.h] *)

Definition TLS_EFUSE_STATUS_OK : Z := 0.
Definition TLS_EFUSE_STATUS_EINVALID : Z := 1.

Definition CMD_WIFI_MAC : Z := 1.
Definition CMD_BT_MAC : Z := 2.
Definition CMD_TX_DC : Z := 3.
Definition CMD_RX_DC : Z := 4.
Definition CMD_TX_IQ_GAIN : Z := 5.
Definition CMD_RX_IQ_GAIN : Z := 6.
Definition CMD_TX_IQ_PHASE : Z := 7.
Definition CMD_RX_IQ_PHASE : Z := 8.
Definition CMD_TX_GAIN : Z := 9.
Definition CMD_TX_ADC_CAL : Z := 10.
Definition CMD_FREQ_ERR : Z := 11.
Definition CMD_RF_CAL_FLAG : Z := 12.

Definition FT_MAGICNUM_ADDR : Z := FLASH_BASE_ADDR.
Definition FT_PARAM_RUNTIME_ADDR : Z := FT_MAGICNUM_ADDR + 0x1000.
Definition FT_GAIN_LEN : Z := 84.
Definition TX_GAIN_LEN : Z := 28 * 3.
Definition FREQERR_LEN : Z := 4.
Definition CAL_FLAG_LEN : Z := 4.
Definition INPUT_REFLECT : Z := 2.

(** ** The structures *)

Inductive ftfield :=
  | magic_no | checksum | wifi_mac_addr | version_no | bt_mac_addr | ext_param_len | tx_dcoffset | rx_dcoffset
  | tx_iq_gain | rx_iq_gain | tx_iq_phase | rx_iq_phase | tx_gain
  | ext_checksum
  | rf_freq_err | rf_cal_flag | adc_cal_param | temp_cal_param
  | reversed.

#[export] Instance ftfield_eq_dec : EqDecision ftfield.
Proof. solve_decision. Defined.

(** [FT_PARAM_ST]; [FT_ADC_CAL_ST] with its two floats as words;
    [FT_PARAM_ST_EXT_1]; the members of [FT_PARAM_ST_VER1], whose inner
    structures are aligned like words. *)
Definition FT_PARAM : list (ftfield * cty) := [
  (magic_no, U32); (checksum, U32); (wifi_mac_addr, bytes 6); (version_no, U16); (bt_mac_addr, bytes 6);
  (ext_param_len, U16); (tx_dcoffset, U32); (rx_dcoffset, U32); (tx_iq_gain, U32); (rx_iq_gain, U32);
  (tx_iq_phase, U32); (rx_iq_phase, U32); (tx_gain, bytes 84)].
Definition FT_ADC_CAL_ST : cty := Struct [U32; Arr 6 (Struct [U16; U16]); U32; U32].
Definition FT_TEMP_CAL_ST : cty := Struct [U32; U32].
Definition FT_PARAM_EXT_1 : list (ftfield * cty) := [
  (rf_freq_err, U32); (rf_cal_flag, U32); (adc_cal_param, FT_ADC_CAL_ST); (temp_cal_param, FT_TEMP_CAL_ST)].
Definition FT_PARAM_EXT_REVERSED_LEN : Z := 32.
Definition FT_PARAM_VER1 : list (ftfield * cty) :=
  FT_PARAM ++ [(ext_checksum, U32)] ++ FT_PARAM_EXT_1 ++ [(reversed, bytes FT_PARAM_EXT_REVERSED_LEN)].

Definition sizeof_ft : Z := csize (Struct (snd <$> FT_PARAM)).
Definition sizeof_ext1 : Z := csize (Struct (snd <$> FT_PARAM_EXT_1)).
Definition sizeof_ver1 : Z := csize (Struct (snd <$> FT_PARAM_VER1)).

Definition ft_at (f : ftfield) : Z := fst (place_in FT_PARAM_VER1 0 f).
Definition ft_size (f : ftfield) : Z := snd (place_in FT_PARAM_VER1 0 f).

(** A scalar member, read and assigned. *)
Definition ft_get (f : ftfield) (g : list Z) : Z := get_le (ft_at f) (ft_size f) g.
Definition ft_put (f : ftfield) (v : Z) (g : list Z) : list Z := set_le (ft_at f) (ft_size f) v g.

(** [FREQERR_ADDR], [CAL_FLAG_ADDR]: where records without extension have
    these values. *)
Definition FREQERR_ADDR : Z := FT_MAGICNUM_ADDR + sizeof_ft.
Definition CAL_FLAG_ADDR : Z := FT_MAGICNUM_ADDR + sizeof_ft + 4.

Definition default_mac : list Z := [0x00; 0x25; 0x08; 0x09; 0x01; 0x0F].

(** A [FT_PARAM_ST_VER1] after [memset(.., 0xFF, ..)]. *)
Definition blank_ft : list Z := replicate (Z.to_nat sizeof_ver1) 0xFF.

(** The module's variable, above a storage [F] and the crypto unit. *)
Record ft (F : Type) := Ft { ft_store : F; ft_crypto : gpsec; gftParamVer1 : list Z }.
Arguments Ft {F}.
Arguments ft_store {F}.
Arguments ft_crypto {F}.
Arguments gftParamVer1 {F}.

Definition _ft_ext1_valid (pft : list Z) : bool :=
  (0 <? ft_get version_no pft) && (ft_get version_no pft <? 0xFFFF) &&
  (sizeof_ext1 <=? ft_get ext_param_len pft) &&
  (ft_get ext_param_len pft <=? sizeof_ext1 + FT_PARAM_EXT_REVERSED_LEN).

(** What [tls_ft_param_set] does first to a record without extension. *)
Definition add_ext1 (g : list Z) : list Z :=
  let g := ft_put ext_param_len sizeof_ext1 (ft_put version_no 1 g) in
  memcpy_at (ft_at rf_freq_err) (replicate (Z.to_nat (ft_get ext_param_len g)) 0xFF) g.

(** The [switch] of [tls_ft_param_set]: the member copied to, and how many
    bytes; nothing for an unknown number. *)
Definition set_copy (opnum len : Z) : option (Z * Z) :=
  if opnum =? CMD_FREQ_ERR then Some (ft_at rf_freq_err, FREQERR_LEN)
  else if opnum =? CMD_RF_CAL_FLAG then Some (ft_at rf_cal_flag, CAL_FLAG_LEN)
  else if opnum =? CMD_TX_ADC_CAL then Some (ft_at adc_cal_param, len)
  else if opnum =? CMD_WIFI_MAC then Some (ft_at wifi_mac_addr, len)
  else if opnum =? CMD_BT_MAC then Some (ft_at bt_mac_addr, len)
  else if opnum =? CMD_TX_DC then Some (ft_at tx_dcoffset, 4)
  else if opnum =? CMD_RX_DC then Some (ft_at rx_dcoffset, 4)
  else if opnum =? CMD_TX_IQ_GAIN then Some (ft_at tx_iq_gain, 4)
  else if opnum =? CMD_RX_IQ_GAIN then Some (ft_at rx_iq_gain, 4)
  else if opnum =? CMD_TX_IQ_PHASE then Some (ft_at tx_iq_phase, 4)
  else if opnum =? CMD_RX_IQ_PHASE then Some (ft_at rx_iq_phase, 4)
  else if opnum =? CMD_TX_GAIN then Some (ft_at tx_gain, if FT_GAIN_LEN <=? len then FT_GAIN_LEN else len)
  else None.

Section efuse.
Context {F : Type} `{FlashStore F} `{!FlashBoot F} `{CrcEngine}.
Abbreviation st := (ft F).

Definition on_store {A} (m : M F A) : M st A := zoom ft_store (fun f s => Ft f (ft_crypto s) (gftParamVer1 s)) m.
Definition on_crypto {A} (m : M gpsec A) : M st A := zoom ft_crypto (fun c s => Ft (ft_store s) c (gftParamVer1 s)) m.
Definition set_gft (g : list Z) : M st unit := modify (fun s => Ft (ft_store s) (ft_crypto s) g).

(** [tls_crypto_init]; the interrupts it enables are taken to be enabled. *)
Definition tls_crypto_init : M st Z :=
  lock ← gets (fun s => gpsec_lock (ft_crypto s));
  match lock with
  | Some _ => mret 0
  | None =>
      ok ← on_store fs_sem_create;
      if (ok : bool) then
        modify (fun s => let g := ft_crypto s in
          Ft (ft_store s) (Gpsec (Some 1) (gpsec_complete g) (clock_open g) (HR_CRYPTO_SEC_CFG g) (HR_CRYPTO_CRC_KEY g)
            (HR_CRYPTO_CRC_RESULT g)) (gftParamVer1 s)) ;;
        mret 0
      else mret (-1)
  end.

(** [tls_crypto_crc_init], [_update] with [len] bytes at [data], [_final]. *)
Definition crc_of (data : list Z) (len : Z) : M st Z :=
  ctx ← on_crypto (tls_crypto_crc_update
    (tls_crypto_crc_init 0xFFFFFFFF CRYPTO_CRC_TYPE_32 (INPUT_REFLECT ||| OUTPUT_REFLECT)) data len);
  mret (tls_crypto_crc_final ctx).

(** The block [pft] at [p] is the caller's; the result comes with what it
    holds afterwards. *)
Definition _ft_param_init (ft_addr p : Z) (pft : list Z) : M st (Z * list Z) :=
  r ← on_store (fs_read ft_addr p pft sizeof_ver1);
  let pft := snd r in
  if ft_get magic_no pft =? SIGNATURE_WORD then
    _ ← tls_crypto_init;
    crcvalue ← crc_of (drop 8 pft) (sizeof_ft - 8);
    if negb (ft_get checksum pft =? crcvalue) then mret (0, pft)
    else if _ft_ext1_valid pft then
      crcvalue ← crc_of (drop (Z.to_nat (ft_at rf_freq_err)) pft) (ft_get ext_param_len pft);
      if ft_get ext_checksum pft =? crcvalue then mret (1, pft) else mret (0, pft)
    else mret (2, ft_put ext_param_len 0xFFFF (ft_put version_no 0xFFFF pft))
  else mret (0, pft).

Definition tls_ft_param_init : M st Z :=
  g ← gets gftParamVer1;
  if ft_get magic_no g =? SIGNATURE_WORD then mret 1
  else
    set_gft blank_ft ;;
    b ← on_store (fs_alloc sizeof_ver1);
    match b with
    | None => mret 0
    | Some (p, _) =>
        r ← _ft_param_init FT_PARAM_RUNTIME_ADDR p blank_ft;
        r ← (if fst r =? 0 then _ft_param_init FT_MAGICNUM_ADDR p blank_ft else mret r);
        g ← gets gftParamVer1;
        (if fst r =? 1 then set_gft (memcpy_at 0 (snd r) g)
         else if fst r =? 2 then set_gft (memcpy_at 0 (take (Z.to_nat sizeof_ft) (snd r)) g)
         else mret tt) ;;
        on_store (fs_free p) ;;
        _ ← on_store boot_unlock;
        mret (fst r)
    end.

(** [memcpy(data, &member, n)], the member being at [off] of the record. *)
Definition fetch (off n : Z) (data : list Z) : M st (Z * list Z) :=
  g ← gets gftParamVer1;
  d ← must (copy_to data 0 (drop (Z.to_nat off) g) n);
  mret (0, d).

(** A value that older records keep behind the record in the flash. *)
Definition fetch_ext (f : ftfield) (addr datap n : Z) (data : list Z) : M st (Z * list Z) :=
  g ← gets gftParamVer1;
  if _ft_ext1_valid g then fetch (ft_at f) n data
  else
    r ← on_store (fs_read addr datap data n);
    if negb (fst r =? 0) then mret (-1, snd r) else mret (0, snd r).

(** [data] is the caller's memory at [datap]. *)
Definition tls_ft_param_get (opnum datap : Z) (data : list Z) (rdlen : Z) : M st (Z * list Z) :=
  g ← gets gftParamVer1;
  if opnum =? CMD_FREQ_ERR then fetch_ext rf_freq_err FREQERR_ADDR datap FREQERR_LEN data
  else if opnum =? CMD_RF_CAL_FLAG then fetch_ext rf_cal_flag CAL_FLAG_ADDR datap CAL_FLAG_LEN data
  else if opnum =? CMD_TX_ADC_CAL then
    if _ft_ext1_valid g then fetch (ft_at adc_cal_param) rdlen data else mret (-1, data)
  else if opnum =? CMD_WIFI_MAC then
    let mac := slice (ft_at wifi_mac_addr) 6 g in
    if negb (byte_at mac 0 &&& 1 =? 0) || (fold_left Z.lor mac 0 =? 0) then
      d ← must (copy_to data 0 default_mac rdlen); mret (0, d)
    else fetch (ft_at wifi_mac_addr) rdlen data
  else if opnum =? CMD_BT_MAC then
    let mac := slice (ft_at bt_mac_addr) 6 g in
    if bool_decide (mac = replicate 6 0xFF) || bool_decide (mac = replicate 6 0) then
      d ← must (copy_to data 0 default_mac rdlen);
      (if 6 <=? zlen d then
         let d := memcpy_at 5 [u8 (byte_at d 5 + 1)] d in
         mret (0, memcpy_at 0 [byte_at d 0 ||| 0xC0] d)
       else stuck)
    else fetch (ft_at bt_mac_addr) rdlen data
  else if opnum =? CMD_TX_DC then fetch (ft_at tx_dcoffset) 4 data
  else if opnum =? CMD_RX_DC then fetch (ft_at rx_dcoffset) 4 data
  else if opnum =? CMD_TX_IQ_GAIN then fetch (ft_at tx_iq_gain) 4 data
  else if opnum =? CMD_RX_IQ_GAIN then fetch (ft_at rx_iq_gain) 4 data
  else if opnum =? CMD_TX_IQ_PHASE then fetch (ft_at tx_iq_phase) 4 data
  else if opnum =? CMD_RX_IQ_PHASE then fetch (ft_at rx_iq_phase) 4 data
  else if opnum =? CMD_TX_GAIN then
    if rdlen <? FT_GAIN_LEN then fetch (ft_at tx_gain) rdlen data else fetch (ft_at tx_gain) FT_GAIN_LEN data
  else mret (-1, data).

(** The record is intact at an address and equal to the one in memory:
    [memset(pft, 0xFF, ..)], [_ft_param_init] and the comparison. *)
Definition copy_is_current (ft_addr p : Z) : M st bool :=
  r ← _ft_param_init ft_addr p blank_ft;
  g ← gets gftParamVer1;
  mret (negb (fst r =? 0) && bool_decide (snd r = g)).

(** [tls_fls_write] of the record and the check that it is there. *)
Definition write_copy (ft_addr gp p : Z) : M st bool :=
  g ← gets gftParamVer1;
  _ ← on_store (fs_write ft_addr gp g sizeof_ver1);
  copy_is_current ft_addr p.

(** The two checksums. *)
Definition seal_record : M st unit :=
  g ← gets gftParamVer1;
  ext ← crc_of (drop (Z.to_nat (ft_at rf_freq_err)) g) (ft_get ext_param_len g);
  let g := ft_put magic_no SIGNATURE_WORD (ft_put ext_checksum ext g) in
  sum ← crc_of (drop 8 g) (sizeof_ft - 8);
  set_gft (ft_put checksum sum g).

(** What [tls_ft_param_set] does before and after it changes the record.
    [gp] is the address of [gftParamVer1].  First: when there is a run-time
    copy, the backup is brought up to the record in memory. *)
Definition sync_backup (gp p : Z) : M st bool :=
  r ← _ft_param_init FT_PARAM_RUNTIME_ADDR p blank_ft;
  if negb (fst r =? 0) then
    ok ← copy_is_current FT_MAGICNUM_ADDR p;
    if (ok : bool) then mret true
    else
      _ ← on_store boot_unlock;
      write_copy FT_MAGICNUM_ADDR gp p
  else mret true.

(** Last: the run-time copy is written, then the backup. *)
Definition store_copies (gp p : Z) : M st bool :=
  _ ← on_store boot_unlock;
  ok ← write_copy FT_PARAM_RUNTIME_ADDR gp p;
  if (ok : bool) then write_copy FT_MAGICNUM_ADDR gp p else mret false.

Definition tls_ft_param_set (gp opnum datap : Z) (data : list Z) (len : Z) : M st Z :=
  if (datap =? 0) || (len =? 0) then mret (-1)
  else
    b ← on_store (fs_alloc sizeof_ver1);
    match b with
    | None => mret (-1)
    | Some (p, _) =>
        synced ← sync_backup gp p;
        if negb synced then on_store (fs_free p) ;; mret (-1)
        else
          g ← gets gftParamVer1;
          set_gft (if _ft_ext1_valid g then g else add_ext1 g) ;;
          match set_copy opnum len with
          | None => on_store (fs_free p) ;; mret (-1)
          | Some (off, n) =>
              g ← gets gftParamVer1;
              g ← must (copy_to g off data n);
              set_gft g ;;
              _ ← tls_crypto_init;
              seal_record ;;
              ok ← store_copies gp p;
              on_store (fs_free p) ;;
              mret (if (ok : bool) then 0 else -1)
          end
    end.

(** ** The accessors *)

Definition tls_get_mac_addr (macp : Z) (mac : list Z) : M st (Z * list Z) := tls_ft_param_get CMD_WIFI_MAC macp mac 6.
Definition tls_set_mac_addr (gp macp : Z) (mac : list Z) : M st Z := tls_ft_param_set gp CMD_WIFI_MAC macp mac 6.
Definition tls_get_bt_mac_addr (macp : Z) (mac : list Z) : M st (Z * list Z) := tls_ft_param_get CMD_BT_MAC macp mac 6.
Definition tls_set_bt_mac_addr (gp macp : Z) (mac : list Z) : M st Z := tls_ft_param_set gp CMD_BT_MAC macp mac 6.
Definition tls_get_tx_lo (p : Z) (txlo : list Z) : M st (Z * list Z) := tls_ft_param_get CMD_TX_DC p txlo 4.
Definition tls_set_tx_lo (gp p : Z) (txlo : list Z) : M st Z := tls_ft_param_set gp CMD_TX_DC p txlo 4.
Definition tls_get_tx_iq_gain (p : Z) (txGain : list Z) : M st (Z * list Z) := tls_ft_param_get CMD_TX_IQ_GAIN p txGain 4.
Definition tls_set_tx_iq_gain (gp p : Z) (txGain : list Z) : M st Z := tls_ft_param_set gp CMD_TX_IQ_GAIN p txGain 4.
Definition tls_get_rx_iq_gain (p : Z) (rxGain : list Z) : M st (Z * list Z) := tls_ft_param_get CMD_RX_IQ_GAIN p rxGain 4.
Definition tls_set_rx_iq_gain (gp p : Z) (rxGain : list Z) : M st Z := tls_ft_param_set gp CMD_RX_IQ_GAIN p rxGain 4.
Definition tls_get_tx_iq_phase (p : Z) (txPhase : list Z) : M st (Z * list Z) := tls_ft_param_get CMD_TX_IQ_PHASE p txPhase 4.
Definition tls_set_tx_iq_phase (gp p : Z) (txPhase : list Z) : M st Z := tls_ft_param_set gp CMD_TX_IQ_PHASE p txPhase 4.
Definition tls_get_rx_iq_phase (p : Z) (rxPhase : list Z) : M st (Z * list Z) := tls_ft_param_get CMD_RX_IQ_PHASE p rxPhase 4.
Definition tls_set_rx_iq_phase (gp p : Z) (rxPhase : list Z) : M st Z := tls_ft_param_set gp CMD_RX_IQ_PHASE p rxPhase 4.
Definition tls_get_tx_gain (p : Z) (txgain : list Z) : M st (Z * list Z) := tls_ft_param_get CMD_TX_GAIN p txgain TX_GAIN_LEN.
Definition tls_set_tx_gain (gp p : Z) (txgain : list Z) : M st Z := tls_ft_param_set gp CMD_TX_GAIN p txgain TX_GAIN_LEN.
Definition tls_get_adc_cal_param (p : Z) (adc_cal : list Z) : M st (Z * list Z) :=
  tls_ft_param_get CMD_TX_ADC_CAL p adc_cal (csize FT_ADC_CAL_ST).
Definition tls_set_adc_cal_param (gp p : Z) (adc_cal : list Z) : M st Z :=
  tls_ft_param_set gp CMD_TX_ADC_CAL p adc_cal (csize FT_ADC_CAL_ST).

(** A result of 0 becomes OK, anything else EINVALID. *)
Definition efuse_status (ret : Z) : Z := if ret =? 0 then TLS_EFUSE_STATUS_OK else TLS_EFUSE_STATUS_EINVALID.

Definition tls_freq_err_op (gp p : Z) (freqerr : list Z) (flag : Z) : M st (Z * list Z) :=
  if negb (flag =? 0) then
    ret ← tls_ft_param_set gp CMD_FREQ_ERR p freqerr FREQERR_LEN;
    mret (efuse_status ret, freqerr)
  else
    r ← tls_ft_param_get CMD_FREQ_ERR p freqerr FREQERR_LEN;
    let freqerr := snd r in
    if fst r =? 0 then
      let value := s32 (get_le 0 4 freqerr) in
      if 200000 <? value then mret (efuse_status 0, memcpy_at 0 (le_bytes 4 200000) freqerr)
      else if value <? -200000 then mret (efuse_status 0, memcpy_at 0 (le_bytes 4 (-200000)) freqerr)
      else mret (efuse_status 0, freqerr)
    else mret (efuse_status (fst r), freqerr).

Definition tls_rf_cal_finish_op (gp p : Z) (calflag : list Z) (flag : Z) : M st (Z * list Z) :=
  if negb (flag =? 0) then
    ret ← tls_ft_param_set gp CMD_RF_CAL_FLAG p calflag CAL_FLAG_LEN;
    mret (efuse_status ret, calflag)
  else
    r ← tls_ft_param_get CMD_RF_CAL_FLAG p calflag CAL_FLAG_LEN;
    mret (efuse_status (fst r), snd r).

End efuse.
