(* ===== verification/EfuseSpec.v ===== *)
(** * What the operations on the factory records do

    A record is decoded by pure functions ([ft_decode], [ft_boot]); over any
    storage that keeps the storage laws and whose boot sectors can be opened,
    the module reads, checks, seals and writes records accordingly. *)
From S2P Require Import Prelude CMonad Checksum FlsDriver CrcHard Storage ParamData Param ParamImage Efuse.

Abbreviation nowhere := (fun _ : Z => False).

(** ** Records *)

Definition rec_ok (l : list Z) : Prop := length l = 220%nat /\ bytes_ok l.

(** The value both CRCs of a record are compared with. *)
Definition crc_reg (l : list Z) : Z := Crc32.ref_reg 0xFFFFFFFF l.

(** What [_ft_param_init] makes of the bytes it finds: 1 for a record with
    extension, 2 for one without, 0 for none. *)
Definition ft_decode (l : list Z) : Z * list Z :=
  if ft_get magic_no l =? SIGNATURE_WORD then
    if negb (ft_get checksum l =? crc_reg (slice 8 124 l)) then (0, l)
    else if _ft_ext1_valid l then
      if ft_get ext_checksum l =? crc_reg (slice 136 (ft_get ext_param_len l) l) then (1, l) else (0, l)
    else (2, ft_put ext_param_len 0xFFFF (ft_put version_no 0xFFFF l))
  else (0, l).

Definition RUNTIME : Z := 0x1000.
Definition BACKUP : Z := 0.
Definition copy_of (img : Z -> Z) (off : Z) : list Z := range img off 220.

(** What start-up finds in the flash, and the record it leaves in memory. *)
Definition ft_boot (img : Z -> Z) : Z * list Z :=
  let r := ft_decode (copy_of img RUNTIME) in
  if fst r =? 0 then ft_decode (copy_of img BACKUP) else r.

Definition ft_loaded (r : Z * list Z) : list Z :=
  if fst r =? 1 then snd r
  else if fst r =? 2 then memcpy_at 0 (take 132 (snd r)) blank_ft
  else blank_ft.

(** A record with both checksums. *)
Definition ft_seal (g : list Z) : list Z :=
  let ext := crc_reg (slice 136 (ft_get ext_param_len g) g) in
  let g := ft_put magic_no SIGNATURE_WORD (ft_put ext_checksum ext g) in
  ft_put checksum (crc_reg (slice 8 124 g)) g.

Lemma sizeof_ft_eq : sizeof_ft = 132. Proof. vm_compute. reflexivity. Qed.
Lemma sizeof_ext1_eq : sizeof_ext1 = 52. Proof. vm_compute. reflexivity. Qed.
Lemma sizeof_ver1_eq : sizeof_ver1 = 220. Proof. vm_compute. reflexivity. Qed.

(** Offset and size of every member. *)
Definition ft_place (f : ftfield) : Z * Z :=
  match f with
  | magic_no => (0, 4) | checksum => (4, 4) | wifi_mac_addr => (8, 6) | version_no => (14, 2) | bt_mac_addr => (16, 6)
  | ext_param_len => (22, 2) | tx_dcoffset => (24, 4) | rx_dcoffset => (28, 4) | tx_iq_gain => (32, 4)
  | rx_iq_gain => (36, 4) | tx_iq_phase => (40, 4) | rx_iq_phase => (44, 4) | tx_gain => (48, 84)
  | ext_checksum => (132, 4) | rf_freq_err => (136, 4) | rf_cal_flag => (140, 4) | adc_cal_param => (144, 36)
  | temp_cal_param => (180, 8) | reversed => (188, 32)
  end.

Lemma ft_place_eq f : ft_at f = fst (ft_place f) /\ ft_size f = snd (ft_place f).
Proof. by destruct f. Qed.
Lemma ft_at_eq f : ft_at f = fst (ft_place f).
Proof. apply ft_place_eq. Qed.
Lemma ft_size_eq f : ft_size f = snd (ft_place f).
Proof. apply ft_place_eq. Qed.

Ltac places := rewrite ?ft_at_eq, ?ft_size_eq; cbn [ft_place fst snd].

Lemma blank_ft_ok : rec_ok blank_ft.
Proof.
  unfold blank_ft. rewrite sizeof_ver1_eq. split; [apply length_replicate|]. by apply Forall_replicate.
Qed.

Lemma copy_ok img off : (forall a, byte_ok (img a)) -> rec_ok (copy_of img off).
Proof.
  intros Hb. unfold copy_of. split; [by rewrite length_range|]. apply Forall_fmap, Forall_true. intros a. apply Hb.
Qed.

Lemma ft_put_ok f v g : rec_ok g -> rec_ok (ft_put f v g).
Proof. intros [Hl Hb]. split; [by unfold ft_put; rewrite length_set_le|by apply set_le_ok]. Qed.

Lemma memcpy_rec_ok off l g : rec_ok g -> bytes_ok l -> rec_ok (memcpy_at off l g).
Proof. intros [Hl Hb] Hs. split; [by rewrite length_memcpy_at|by apply memcpy_bytes_ok]. Qed.

Lemma add_ext1_ok g : rec_ok g -> rec_ok (add_ext1 g).
Proof. intros Hg. apply memcpy_rec_ok; [by repeat apply ft_put_ok|by apply Forall_replicate]. Qed.

Lemma ft_seal_ok g : rec_ok g -> rec_ok (ft_seal g).
Proof. intros Hg. by repeat apply ft_put_ok. Qed.

Lemma ft_decode_ok l : rec_ok l -> rec_ok (snd (ft_decode l)).
Proof. intros Hl. unfold ft_decode. repeat case_match; simpl; try done. by repeat apply ft_put_ok. Qed.

Lemma ft_decode_result l : fst (ft_decode l) = 0 \/ ft_decode l = (1, l) \/ (fst (ft_decode l) = 2 /\ _ft_ext1_valid l = false).
Proof. unfold ft_decode. repeat case_match; auto. Qed.

Lemma ft_decode_one l g : ft_decode l = (1, g) -> l = g.
Proof. intros Hd. destruct (ft_decode_result l) as [E|[E|[E _]]]; rewrite Hd in E; simpl in E; congruence. Qed.

Lemma ft_decode_valid l : ft_decode l = (1, l) -> _ft_ext1_valid l = true.
Proof. unfold ft_decode. repeat case_match; congruence. Qed.

(** What was never written is no record. *)
Lemma ft_decode_blank : ft_decode blank_ft = (0, blank_ft).
Proof. vm_compute. reflexivity. Qed.

(** Reading a member or a range after another member was assigned. *)
Ltac ft_members :=
  unfold ft_get, ft_put; places;
  repeat first [ rewrite get_set_same by (rewrite ?length_set_le; lia)
               | rewrite get_set_out by (rewrite ?length_set_le; lia)
               | rewrite slice_set_out by (rewrite ?length_set_le; lia) ].

Lemma ft_get_bounds f l : rec_ok l -> 0 <= ft_get f l < 2 ^ (8 * ft_size f).
Proof. intros [_ Hb]. apply get_le_bounds; [|done]. places. by destruct f. Qed.

(** A record without extension is marked as such. *)
Lemma ft_decode_two l : rec_ok l -> fst (ft_decode l) = 2 -> _ft_ext1_valid (snd (ft_decode l)) = false.
Proof.
  intros [Hl Hb]. unfold ft_decode. repeat case_match; try done. intros _. cbn [snd]. unfold _ft_ext1_valid.
  replace (ft_get version_no _) with 0xFFFF by (ft_members; done). done.
Qed.

(** A valid extension ends with the record. *)
Lemma ext_valid_fits l : _ft_ext1_valid l = true -> 52 <= ft_get ext_param_len l <= 84.
Proof.
  unfold _ft_ext1_valid. rewrite sizeof_ext1_eq, !andb_true_iff, !Z.leb_le. unfold FT_PARAM_EXT_REVERSED_LEN. lia.
Qed.

Lemma crc_reg_bounds l : bytes_ok l -> 0 <= crc_reg l < 2 ^ 32.
Proof. intros Hl. apply Crc32Facts.ref_reg_bounds; [lia|done]. Qed.

(** A sealed record with a valid extension is found again as it is. *)
Lemma ft_decode_seal g : rec_ok g -> _ft_ext1_valid g = true -> ft_decode (ft_seal g) = (1, ft_seal g).
Proof.
  intros [Hl Hb] Hv. pose proof (ext_valid_fits g Hv) as Hn. set (n := ft_get ext_param_len g) in *.
  unfold ft_decode.
  assert (E1 : ft_get magic_no (ft_seal g) = SIGNATURE_WORD) by (unfold ft_seal; ft_members; done).
  assert (E2 : ft_get ext_param_len (ft_seal g) = n) by (unfold ft_seal, n; ft_members; done).
  assert (E3 : ft_get version_no (ft_seal g) = ft_get version_no g) by (unfold ft_seal; ft_members; done).
  assert (E4 : slice 136 n (ft_seal g) = slice 136 n g) by (unfold ft_seal; ft_members; done).
  assert (E5 : ft_get ext_checksum (ft_seal g) = crc_reg (slice 136 n g)).
  { unfold ft_seal. fold n. ft_members. apply Z.mod_small, crc_reg_bounds. by apply slice_bytes_ok. }
  assert (E6 : ft_get checksum (ft_seal g) = crc_reg (slice 8 124 (ft_seal g))).
  { unfold ft_seal. fold n. cbv zeta. set (g2 := ft_put magic_no _ _).
    assert (Hg2 : rec_ok g2) by (by repeat apply ft_put_ok). destruct Hg2 as [Hl2 Hb2].
    ft_members. apply Z.mod_small, crc_reg_bounds. by apply slice_bytes_ok. }
  assert (E7 : _ft_ext1_valid (ft_seal g) = true) by (unfold _ft_ext1_valid in *; by rewrite E2, E3).
  rewrite E1, E2, E4, E5, E6, E7. rewrite !Z.eqb_refl. done.
Qed.

(** ** The module over its storage *)

Section spec.
Context {F : Type} `{FlashStoreLaws F} `{!FlashBoot F} `{!FlashBootLaws F} `{CrcEngineLaws}.
Implicit Types s : ft F.

Abbreviation img s := (fs_byte (ft_store s)).
Abbreviation low s := (fs_low (ft_store s)).
Abbreviation rec s := (gftParamVer1 s).

(** At rest, over a storage that has the two sectors and whose protection
    can be lifted. *)
Record ft_ok s : Prop := {
  fk_store : fs_ok (ft_store s);
  fk_crypto : gpsec_ok (ft_crypto s);
  fk_size : 0x2000 <= fs_size (ft_store s);
  fk_boot : boot_lockable (ft_store s);
  fk_rec : rec_ok (rec s)
}.

(** From [s] to [s'] the storage changed within [S] at most. *)
Record ft_step (S : Z -> Prop) s s' : Prop := {
  fp_store : fs_step S (ft_store s) (ft_store s');
  fp_ok : ft_ok s';
  fp_open : boot_open (ft_store s) -> boot_open (ft_store s')
}.

Lemma ft_step_refl S s : ft_ok s -> ft_step S s s.
Proof. intros K. split; try done. apply fs_step_refl, K. Qed.

Lemma ft_step_trans S s1 s2 s3 : ft_step S s1 s2 -> ft_step S s2 s3 -> ft_step S s1 s3.
Proof. intros [? ? ?] [? ? ?]. split; [by eapply fs_step_trans|done|auto]. Qed.

Lemma ft_step_mono (S T : Z -> Prop) s s' : (forall a, S a -> T a) -> ft_step S s s' -> ft_step T s s'.
Proof. intros HST [? ? ?]. split; [by eapply fs_step_mono|done|done]. Qed.

Lemma ft_step_nowhere S s s' : ft_step nowhere s s' -> ft_step S s s'.
Proof. apply ft_step_mono. intros a []. Qed.

Lemma ft_step_quiet s s' : ft_step nowhere s s' -> img s' ≡ₐ img s.
Proof. intros [T _ _] a. apply (st_out _ _ _ T). tauto. Qed.

Lemma ft_step_low S s s' : ft_step S s s' -> low s = true -> low s' = true.
Proof. intros [T _ _]. apply (st_low _ _ _ T). Qed.

(** Nothing was lost for want of memory later, so nothing was before. *)
Lemma ft_step_high S s s' : ft_step S s s' -> low s' <> true -> low s <> true.
Proof. intros T Hl Hs. by apply Hl, (ft_step_low _ _ _ T). Qed.

(** Storage operations run from the module. *)
Lemma ft_on_store {A} (m : M F A) S s (Q : A -> ft F -> Prop) :
  ft_ok s ->
  wp m (ft_store s) (fun a f' => fs_step S (ft_store s) f' /\ boot_same (ft_store s) f' /\
    (forall s', ft_step S s s' -> ft_store s' = f' -> rec s' = rec s -> Q a s')) ->
  wp (on_store m) s Q.
Proof.
  intros [K1 K2 K3 K4 K5] (a & f' & Hm & Hs & Hb & HQ)%wp_run. unfold on_store. apply wp_zoom. rewrite Hm.
  apply HQ; try done. split; [done| |by apply boot_same_open].
  split; try done; simpl; [apply Hs|by rewrite (st_size _ _ _ Hs)|by eapply boot_same_lockable].
Qed.

Lemma ft_alloc_spec n s (Q : option (Z * list Z) -> ft F -> Prop) :
  ft_ok s -> 0 <= n ->
  (forall r s', ft_step nowhere s s' -> rec s' = rec s ->
     match r with Some (p, _) => p <> 0 | None => low s' = true end -> Q r s') ->
  wp (on_store (fs_alloc n)) s Q.
Proof.
  intros K Hn HQ. apply (ft_on_store _ nowhere); [done|].
  eapply wp_mono; [apply wp_and; [apply fs_alloc_spec|apply boot_alloc_same]; [apply K|done|apply K|done]|].
  cbv beta. intros r f' [[Hs Hr] Hb]. split; [done|]. split; [done|]. intros s' T Hst Hg.
  apply HQ; [done|done|]. destruct r as [[p l]|]; [apply Hr|by rewrite Hst].
Qed.

Lemma ft_free_spec p s (Q : unit -> ft F -> Prop) :
  ft_ok s -> (forall s', ft_step nowhere s s' -> rec s' = rec s -> Q tt s') -> wp (on_store (fs_free p)) s Q.
Proof.
  intros K HQ. apply (ft_on_store _ nowhere); [done|].
  eapply wp_mono; [apply wp_and; [apply fs_free_spec|apply boot_free_same]; apply K|].
  cbv beta. intros [] f' [Hs Hb]. split; [done|]. split; [done|]. intros s' T _ Hg. by apply HQ.
Qed.

Lemma ft_unlock_spec s (Q : Z -> ft F -> Prop) :
  ft_ok s ->
  (forall r s', ft_step nowhere s s' -> rec s' = rec s -> boot_open (ft_store s') -> Q r s') ->
  wp (on_store boot_unlock) s Q.
Proof.
  intros [K1 K2 K3 K4 K5] HQ. unfold on_store. apply wp_zoom.
  pose proof (boot_unlock_spec (ft_store s) K1 K4) as (r & f' & Hm & Hs & _ & Ho & Hl)%wp_run. rewrite Hm.
  apply HQ; [|done|done]. split; [done| |done]. split; try done; simpl; [apply Hs|by rewrite (st_size _ _ _ Hs)].
Qed.

Lemma set_gft_spec g s (Q : unit -> ft F -> Prop) :
  ft_ok s -> rec_ok g ->
  (forall s', ft_step nowhere s s' -> ft_store s' = ft_store s -> rec s' = g -> Q tt s') -> wp (set_gft g) s Q.
Proof.
  intros [K1 K2 K3 K4 K5] Hg HQ. apply wp_modify, HQ; try done. split; try done. by apply fs_step_refl.
Qed.

Lemma crypto_init_spec s (Q : Z -> ft F -> Prop) :
  ft_ok s -> (forall r s', ft_step nowhere s s' -> rec s' = rec s -> Q r s') -> wp tls_crypto_init s Q.
Proof.
  intros K HQ. unfold tls_crypto_init. apply wp_bind, wp_gets.
  destruct (gpsec_lock (ft_crypto s)) as [n|] eqn:El; [by apply wp_ret, HQ; [apply ft_step_refl|]|].
  apply wp_bind, (ft_on_store _ nowhere); [done|].
  eapply wp_mono; [apply wp_and; [apply fs_sem_spec|apply boot_sem_same]; apply K|].
  cbv beta. intros ok f' [Hs Hb]. split; [done|]. split; [done|]. intros s1 T1 _ Hg.
  destruct ok; [|by apply wp_ret, HQ].
  apply wp_bind, wp_modify, wp_ret, HQ; [|done]. eapply ft_step_trans; [exact T1|].
  destruct (fp_ok _ _ _ T1) as [K1 K2 K3 K4 K5]. by split; [apply fs_step_refl|split|].
Qed.

Lemma crc_of_spec data n s (Q : Z -> ft F -> Prop) :
  ft_ok s -> bytes_ok data -> 0 <= n <= 0xFFFF -> n <= zlen data ->
  (forall s', ft_step nowhere s s' -> rec s' = rec s -> Q (crc_reg (take (Z.to_nat n) data)) s') ->
  wp (crc_of data n) s Q.
Proof.
  intros [K1 K2 K3 K4 K5] Hd Hn Hl HQ. unfold crc_of, on_crypto. apply wp_bind, wp_zoom.
  change (tls_crypto_crc_init _ _ _) with (crc32_ctx 0xFFFFFFFF).
  assert (Hu : wp (tls_crypto_crc_update (crc32_ctx 0xFFFFFFFF) data n) (ft_crypto s)
    (fun ctx g' => gpsec_ok g' /\ ctx = crc32_ctx (crc_reg (take (Z.to_nat n) data)))).
  { by apply crc_update_spec; [done|lia|done|done|done|]. }
  apply wp_run in Hu as (ctx & g' & -> & Hg & ->). apply wp_ret, HQ; [|done].
  by split; [apply fs_step_refl|split|].
Qed.

(** The first [n] bytes from [off] on, as the CRC unit is given them. *)
Lemma crc_of_slice off n g s (Q : Z -> ft F -> Prop) :
  ft_ok s -> bytes_ok g -> 0 <= off -> 0 <= n <= 0xFFFF -> off + n <= zlen g ->
  (forall s', ft_step nowhere s s' -> rec s' = rec s -> Q (crc_reg (slice off n g)) s') ->
  wp (crc_of (drop (Z.to_nat off) g) n) s Q.
Proof.
  intros K Hg Ho Hn Hl HQ. apply crc_of_spec; [done|by apply Forall_drop|done|rewrite length_drop; lia|]. apply HQ.
Qed.

Lemma ft_img_ok s a : byte_ok (img s a).
Proof. apply fs_byte_ok. Qed.

(** ** Reading a copy *)

(** The two addresses and the sectors they are in. *)
Definition copy_addr (a off : Z) : Prop := (a = FT_MAGICNUM_ADDR /\ off = BACKUP) \/ (a = FT_PARAM_RUNTIME_ADDR /\ off = RUNTIME).

Lemma copy_addr_geometry a off :
  copy_addr a off -> 0 <= a /\ a + 220 < 2 ^ 32 /\ a mod 2 ^ 27 = off /\ 0 <= off /\ off + 220 <= 0x2000.
Proof. intros [[-> ->]|[-> ->]]; repeat split; vm_compute; congruence. Qed.

(** The checks on the bytes that were read. *)
Lemma record_checks l s (Q : Z * list Z -> ft F -> Prop) :
  ft_ok s -> rec_ok l ->
  (forall s', ft_step nowhere s s' -> rec s' = rec s -> Q (ft_decode l) s') ->
  wp (if ft_get magic_no l =? SIGNATURE_WORD then
        _ ← tls_crypto_init;
        crcvalue ← crc_of (drop 8 l) (sizeof_ft - 8);
        if negb (ft_get checksum l =? crcvalue) then mret (0, l)
        else if _ft_ext1_valid l then
          crcvalue ← crc_of (drop (Z.to_nat (ft_at rf_freq_err)) l) (ft_get ext_param_len l);
          if ft_get ext_checksum l =? crcvalue then mret (1, l) else mret (0, l)
        else mret (2, ft_put ext_param_len 0xFFFF (ft_put version_no 0xFFFF l))
      else mret (0, l)) s Q.
Proof.
  intros K [Hl Hb] HQ. unfold ft_decode in HQ. destruct (ft_get magic_no l =? SIGNATURE_WORD); [|by apply wp_ret, HQ; [apply ft_step_refl|]].
  apply wp_bind, crypto_init_spec; [done|]. intros _ s1 T1 R1.
  apply wp_bind. rewrite sizeof_ft_eq. apply (crc_of_slice 8 (132 - 8)); [apply T1|done|lia|lia|lia|]. intros s2 T2 R2.
  assert (T12 : ft_step nowhere s s2) by (by eapply ft_step_trans). change (132 - 8) with 124.
  destruct (ft_get checksum l =? crc_reg (slice 8 124 l)); cbn [negb] in *; [|apply wp_ret, HQ; [done|congruence]].
  destruct (_ft_ext1_valid l) eqn:Ev; [|apply wp_ret, HQ; [done|congruence]].
  pose proof (ext_valid_fits l Ev). change (ft_at rf_freq_err) with 136.
  apply wp_bind, (crc_of_slice 136); [apply T2|done|lia|lia|lia|]. intros s3 T3 R3.
  assert (T13 : ft_step nowhere s s3) by (by eapply ft_step_trans).
  case_match; apply wp_ret, HQ; (done || congruence).
Qed.

Lemma _ft_param_init_spec a off p s (Q : Z * list Z -> ft F -> Prop) :
  ft_ok s -> copy_addr a off -> p <> 0 ->
  (forall r s', ft_step nowhere s s' -> rec s' = rec s ->
     r = ft_decode (copy_of (img s) off) \/ (r = ft_decode blank_ft /\ low s' = true) -> Q r s') ->
  wp (_ft_param_init a p blank_ft) s Q.
Proof.
  intros K Ha Hp HQ. pose proof (copy_addr_geometry a off Ha) as (G1 & G2 & G3 & G4 & G5).
  destruct blank_ft_ok as [Bl Bb]. pose proof (fk_size _ K).
  unfold _ft_param_init. apply wp_bind, (ft_on_store _ nowhere); [done|]. rewrite sizeof_ver1_eq.
  eapply wp_mono; [apply wp_and; [apply fs_read_spec|apply boot_read_same];
    first [apply K|exact Hp|exact G1|exact G2|rewrite Bl; lia|rewrite G3; lia]|].
  cbv beta zeta. rewrite G3. intros r f' [(Hs & _ & Hr) Hb]. split; [done|]. split; [done|]. intros s1 T1 Hst R1.
  assert (Hd : snd r = copy_of (img s) off \/ (snd r = blank_ft /\ low s1 = true)).
  { rewrite Hst. destruct Hr as [->|Hr]; [left|by right]. apply memcpy_at_all. unfold copy_of. by rewrite Bl, length_range. }
  apply record_checks; [apply T1| |].
  { destruct Hd as [->|[-> _]]; [apply copy_ok, ft_img_ok|by apply blank_ft_ok]. }
  intros s2 T2 R2. apply HQ; [by eapply ft_step_trans|congruence|].
  destruct Hd as [->|[-> Hl]]; [by left|right; split; [done|by eapply ft_step_low]].
Qed.

(** The copy holds the record [g]. *)
Definition current (l g : list Z) : bool := negb (fst (ft_decode l) =? 0) && bool_decide (snd (ft_decode l) = g).

Lemma current_one l g : rec_ok l -> ft_decode g = (1, g) -> current l g = true -> l = g.
Proof.
  intros Hl Hg [Hr Hd%bool_decide_eq_true]%andb_prop. apply negb_true_iff, Z.eqb_neq in Hr.
  destruct (ft_decode_result l) as [E|[E|[E _]]]; [done|by rewrite E in Hd|].
  pose proof (ft_decode_two l Hl E) as Hv. rewrite Hd in Hv. apply ft_decode_valid in Hg. congruence.
Qed.

Lemma current_refl g : ft_decode g = (1, g) -> current g g = true.
Proof. intros Hg. unfold current. rewrite Hg. by apply bool_decide_eq_true. Qed.

Lemma current_blank g : current blank_ft g = false.
Proof. unfold current. by rewrite ft_decode_blank. Qed.

Lemma copy_is_current_spec a off p s (Q : bool -> ft F -> Prop) :
  ft_ok s -> copy_addr a off -> p <> 0 ->
  (forall b s', ft_step nowhere s s' -> rec s' = rec s ->
     (b = true -> current (copy_of (img s) off) (rec s) = true) ->
     (low s' <> true -> b = current (copy_of (img s) off) (rec s)) -> Q b s') ->
  wp (copy_is_current a p) s Q.
Proof.
  intros K Ha Hp HQ. unfold copy_is_current. apply wp_bind, (_ft_param_init_spec _ off); [done..|].
  intros r s1 T1 R1 Hr. apply wp_bind, wp_gets, wp_ret. rewrite R1.
  destruct Hr as [->|[-> Hl]]; by apply HQ.
Qed.

(** ** Writing a copy *)

Definition sector_of (off : Z) : Z -> Prop := fun a => off <= a < off + 4096.

Lemma sectors_of_copy a off : copy_addr a off -> forall x, sectors_of off 220 x -> sector_of off x.
Proof. intros [[_ ->]|[_ ->]] x; unfold sectors_of, sector_of, BACKUP, RUNTIME; dlia. Qed.

Lemma copy_proper f g off : f ≡ₐ g -> copy_of f off = copy_of g off.
Proof. intros Hfg. unfold copy_of. by rewrite Hfg. Qed.

Lemma copy_step S s s' off :
  ft_step S s s' -> (forall a, S a -> a < off \/ off + 220 <= a) -> copy_of (img s') off = copy_of (img s) off.
Proof. intros [T _ _] Hd. apply range_ext. intros a Ha. apply (st_out _ _ _ T). intros Hs%Hd. lia. Qed.

Lemma write_copy_spec a off gp p s (Q : bool -> ft F -> Prop) :
  ft_ok s -> copy_addr a off -> gp <> 0 -> p <> 0 -> boot_open (ft_store s) ->
  (forall b s', ft_step (sector_of off) s s' -> rec s' = rec s ->
     (b = true -> current (copy_of (img s') off) (rec s) = true) ->
     (low s' <> true -> copy_of (img s') off = rec s /\ b = current (rec s) (rec s)) -> Q b s') ->
  wp (write_copy a gp p) s Q.
Proof.
  intros K Ha Hgp Hp Ho HQ. pose proof (copy_addr_geometry a off Ha) as (G1 & G2 & G3 & G4 & G5).
  destruct (fk_rec _ K) as [Rl Rb]. pose proof (fk_size _ K).
  unfold write_copy. apply wp_bind, wp_gets, wp_bind, (ft_on_store _ (sector_of off)); [done|]. rewrite sizeof_ver1_eq.
  eapply wp_mono; [apply boot_write_spec; [apply K|exact Ho|exact Hgp|exact Rb|rewrite Rl; lia|rewrite G3; lia]|].
  cbv beta zeta. rewrite G3. intros r f' (Hs & Hb & Hr).
  split; [eapply fs_step_mono; [by eapply sectors_of_copy|exact Hs]|]. split; [done|]. intros s1 T1 Hst R1.
  apply (copy_is_current_spec _ off); [apply T1|done|done|]. intros b s2 T2 R2 Hb1 Hb2. rewrite R1 in Hb1, Hb2.
  rewrite <- (copy_proper _ _ off (ft_step_quiet _ _ T2)) in Hb1, Hb2.
  apply HQ; [eapply ft_step_trans; [exact T1|by apply ft_step_nowhere]|congruence|done|].
  intros Hl. assert (Hc : copy_of (img s2) off = rec s); [|by rewrite Hc in Hb2; auto].
  pose proof (ft_step_high _ _ _ T2 Hl) as Hl1.
  rewrite (copy_proper _ _ off (ft_step_quiet _ _ T2)), Hst.
  destruct Hr as [(_ & _ & Hby)|(_ & Hlow & _)]; [|by rewrite Hst in Hl1]. rewrite (copy_proper _ _ off Hby).
  change (Z.to_nat 220) with 220%nat. rewrite take_ge by lia.
  unfold copy_of. replace 220 with (zlen (rec s)) by (rewrite Rl; done). apply range_overlay.
Qed.

(** Afterwards, if there was memory and a run-time copy, the backup holds the
    record. *)
Lemma sync_backup_spec gp p s (Q : bool -> ft F -> Prop) :
  ft_ok s -> gp <> 0 -> p <> 0 ->
  (forall b s', ft_step (sector_of BACKUP) s s' -> rec s' = rec s ->
     (low s' <> true -> if fst (ft_decode (copy_of (img s) RUNTIME)) =? 0 then b = true /\ ft_step nowhere s s'
        else (b = true -> current (copy_of (img s') BACKUP) (rec s) = true) /\ (current (rec s) (rec s) = true -> b = true)) ->
     Q b s') ->
  wp (sync_backup gp p) s Q.
Proof.
  intros K Hgp Hp HQ. assert (Hrt : copy_addr FT_PARAM_RUNTIME_ADDR RUNTIME) by (by right).
  assert (Hbk : copy_addr FT_MAGICNUM_ADDR BACKUP) by (by left).
  unfold sync_backup. apply wp_bind, (_ft_param_init_spec _ RUNTIME); [done..|]. intros r s1 T1 R1 Hr.
  pose proof (ft_step_nowhere (sector_of BACKUP) _ _ T1) as T1'.
  set (d := ft_decode (copy_of (img s) RUNTIME)) in *. destruct (fst r =? 0) eqn:Er; cbn [negb].
  { apply wp_ret, HQ; [done|done|]. intros Hl. destruct Hr as [->|[_ Hl']]; [|done]. by rewrite Er. }
  assert (Hd : fst d =? 0 = false).
  { destruct Hr as [->|[-> _]]; [done|]. by rewrite ft_decode_blank in Er. }
  apply wp_bind, (copy_is_current_spec _ BACKUP); [apply T1|done|done|]. intros ok s2 T2 R2 Hok Hok'. rewrite R1 in *.
  assert (T12 : ft_step (sector_of BACKUP) s s2) by (eapply ft_step_trans; [done|by apply ft_step_nowhere]).
  destruct ok.
  { apply wp_ret, HQ; [done|congruence|]. intros Hl. rewrite Hd. split; [|done]. intros _.
    rewrite (copy_proper _ _ BACKUP (ft_step_quiet _ _ T2)). by apply Hok. }
  apply wp_bind, ft_unlock_spec; [apply T2|]. intros _ s3 T3 R3 Ho.
  apply (write_copy_spec _ BACKUP); [apply T3|done|done|done|done|]. intros b s4 T4 R4 Hb Hb'. rewrite R3, R2 in *.
  apply HQ; [|done|].
  - eapply ft_step_trans; [exact T12|]. eapply ft_step_trans; [by apply ft_step_nowhere|done].
  - intros Hl. rewrite Hd. split; [done|]. intros Hc. destruct (Hb' Hl) as [_ ->]. done.
Qed.

Lemma seal_record_spec s (Q : unit -> ft F -> Prop) :
  ft_ok s -> ft_get ext_param_len (rec s) <= 84 ->
  (forall s', ft_step nowhere s s' -> rec s' = ft_seal (rec s) -> Q tt s') ->
  wp seal_record s Q.
Proof.
  intros K Hn HQ. pose proof (ft_get_bounds ext_param_len _ (fk_rec _ K)) as [Hn0 _]. destruct (fk_rec _ K) as [Rl Rb].
  unfold seal_record. apply wp_bind, wp_gets. change (ft_at rf_freq_err) with 136. rewrite sizeof_ft_eq. change (132 - 8) with 124.
  apply wp_bind, (crc_of_slice 136); [done|done|lia|lia|lia|]. intros s1 T1 R1. cbv zeta. set (g2 := ft_put magic_no _ _).
  assert (Hg2 : rec_ok g2) by (by repeat apply ft_put_ok).
  apply wp_bind, (crc_of_slice 8); [apply T1|apply Hg2|lia|lia|destruct Hg2 as [-> _]; lia|]. intros s2 T2 R2.
  apply set_gft_spec; [apply T2|by apply ft_put_ok|]. intros s3 T3 _ R3.
  apply HQ; [|by rewrite R3]. eapply ft_step_trans; [exact T1|by eapply ft_step_trans].
Qed.

(** First the run-time copy, then the backup. *)
Lemma store_copies_spec gp p s (Q : bool -> ft F -> Prop) :
  ft_ok s -> gp <> 0 -> p <> 0 ->
  (forall b s1 s', ft_step (sector_of RUNTIME) s s1 -> ft_step (sector_of BACKUP) s1 s' -> rec s' = rec s ->
     (b = true -> current (copy_of (img s') RUNTIME) (rec s) = true /\ current (copy_of (img s') BACKUP) (rec s) = true) ->
     (low s' <> true -> copy_of (img s1) RUNTIME = rec s /\ b = current (rec s) (rec s)) -> Q b s') ->
  wp (store_copies gp p) s Q.
Proof.
  intros K Hgp Hp HQ. assert (Hrt : copy_addr FT_PARAM_RUNTIME_ADDR RUNTIME) by (by right).
  assert (Hbk : copy_addr FT_MAGICNUM_ADDR BACKUP) by (by left).
  unfold store_copies. apply wp_bind, ft_unlock_spec; [done|]. intros _ s0 T0 R0 Ho.
  apply wp_bind, (write_copy_spec _ RUNTIME); [apply T0|done|done|done|done|]. intros b1 s1 T1 R1 Hb1 Hl1. rewrite R0 in *.
  assert (T01 : ft_step (sector_of RUNTIME) s s1) by (eapply ft_step_trans; [by apply ft_step_nowhere|done]).
  destruct b1.
  - apply (write_copy_spec _ BACKUP); [apply T1|done|done|done|by apply T1|]. intros b2 s2 T2 R2 Hb2 Hl2. rewrite R1 in *.
    assert (Hsame : copy_of (img s2) RUNTIME = copy_of (img s1) RUNTIME).
    { apply (copy_step _ _ _ _ T2). unfold sector_of, BACKUP, RUNTIME. lia. }
    apply (HQ b2 s1); [done|done|done| |].
    + intros ->. rewrite Hsame. auto.
    + intros Hl. destruct (Hl2 Hl) as [_ ->]. split; [|done]. apply Hl1. by eapply ft_step_high.
  - apply wp_ret, (HQ false s1); [done|by apply ft_step_refl, T1|done|done|done].
Qed.

End spec.
