(* ===== verification/EfuseProps.v ===== *)
(** * Properties of the factory records *)
From S2P Require Import Prelude CMonad Checksum FlsDriver CrcHard Storage ParamData ParamImage Efuse EfuseSpec.

(** What [tls_ft_param_set] makes of the record in memory before it is
    sealed. *)
Definition ft_edit (opnum len : Z) (data g : list Z) : option (list Z) :=
  '(off, n) ← set_copy opnum len;
  copy_to (if _ft_ext1_valid g then g else add_ext1 g) off data n.

(** The operations with the lengths of their members. *)
Definition ft_ops : list (Z * Z) := [
  (CMD_WIFI_MAC, 6); (CMD_BT_MAC, 6); (CMD_TX_DC, 4); (CMD_RX_DC, 4); (CMD_TX_IQ_GAIN, 4); (CMD_RX_IQ_GAIN, 4);
  (CMD_TX_IQ_PHASE, 4); (CMD_RX_IQ_PHASE, 4); (CMD_TX_GAIN, 84); (CMD_TX_ADC_CAL, 36); (CMD_FREQ_ERR, 4);
  (CMD_RF_CAL_FLAG, 4)].

(** Addresses that are delivered as they are stored. *)
Definition mac_usable (mac : list Z) : bool := (byte_at mac 0 &&& 1 =? 0) && negb (fold_left Z.lor mac 0 =? 0).
Definition bt_usable (mac : list Z) : bool :=
  negb (bool_decide (mac = replicate 6 0xFF)) && negb (bool_decide (mac = replicate 6 0)).
Definition acceptable (opnum : Z) (data : list Z) : bool :=
  if opnum =? CMD_WIFI_MAC then mac_usable data else if opnum =? CMD_BT_MAC then bt_usable data else true.

(** Case analysis over the operations. *)
Ltac each_op H :=
  unfold ft_ops in H; rewrite !elem_of_cons in H;
  repeat match type of H with
  | _ \/ _ => destruct H as [[= -> ->]|H]
  end; [..|by apply elem_of_nil in H].

(** Where an operation goes: inside the sealed parts of the record, clear of
    the members that say what the record is. *)
Lemma op_place opnum len :
  (opnum, len) ∈ ft_ops ->
  exists off, set_copy opnum len = Some (off, len) /\ 0 < len /\
    ((8 <= off /\ off + len <= 14) \/ (16 <= off /\ off + len <= 22) \/ (24 <= off /\ off + len <= 132) \/
     (136 <= off /\ off + len <= 188)) /\
    (opnum <> CMD_FREQ_ERR -> off + len <= 136 \/ 140 <= off).
Proof.
  intros Ho. each_op Ho; eexists; (split; [vm_compute; reflexivity|]); repeat split; try lia;
    vm_compute; intuition congruence.
Qed.

Lemma valid_add_ext1 g : rec_ok g -> _ft_ext1_valid (add_ext1 g) = true /\ slice 136 4 (add_ext1 g) = replicate 4 0xFF.
Proof.
  intros [Hl Hb]. unfold add_ext1. set (g1 := ft_put ext_param_len _ _). cbv zeta.
  assert (Hl1 : length g1 = 220%nat) by (unfold g1, ft_put; rewrite !length_set_le; done).
  assert (E1 : ft_get ext_param_len g1 = 52) by (unfold g1; rewrite sizeof_ext1_eq; ft_members; done).
  assert (E2 : ft_get version_no g1 = 1) by (unfold g1; rewrite sizeof_ext1_eq; ft_members; done).
  rewrite E1. change (Z.to_nat 52) with 52%nat. change (ft_at rf_freq_err) with 136.
  assert (Hin : forall o n, 0 <= o -> 0 <= n -> o + n <= 136 ->
    slice o n (memcpy_at 136 (replicate 52 0xFF) g1) = slice o n g1).
  { intros o n Ho Hn Hon. apply slice_memcpy_out; rewrite ?length_replicate; lia. }
  split.
  - unfold _ft_ext1_valid, ft_get, get_le in *. revert E1 E2. places. intros E1 E2.
    rewrite !Hin, E1, E2 by lia. vm_compute. reflexivity.
  - replace (slice 136 4 _) with (take 4 (slice 136 52 (memcpy_at 136 (replicate 52 0xFF) g1))).
    + change 52 with (zlen (replicate 52 0xFF)) at 1. rewrite slice_memcpy_in; [done|lia|rewrite length_replicate; lia].
    + unfold slice. rewrite take_take. done.
Qed.

(** An ordinary edit changes its member and leaves the extension valid. *)
Lemma edit_member opnum len data g :
  (opnum, len) ∈ ft_ops -> rec_ok g -> bytes_ok data -> zlen data = len ->
  exists off g2, set_copy opnum len = Some (off, len) /\ ft_edit opnum len data g = Some g2 /\ rec_ok g2 /\
    _ft_ext1_valid g2 = true /\ slice off len g2 = data /\ 8 <= off /\
    (off + len <= 132 \/ (136 <= off /\ off + len <= 188)) /\
    (opnum <> CMD_FREQ_ERR -> slice 136 4 g2 = slice 136 4 (if _ft_ext1_valid g then g else add_ext1 g)).
Proof.
  intros Ho Hg Hb Hlen. destruct (op_place _ _ Ho) as (off & Hc & Hpos & Hin & Hfreq).
  set (g1 := if _ft_ext1_valid g then g else add_ext1 g).
  assert (Hg1 : rec_ok g1) by (unfold g1; case_match; [done|by apply add_ext1_ok]).
  assert (Hv1 : _ft_ext1_valid g1 = true).
  { unfold g1. destruct (_ft_ext1_valid g) eqn:Ev; [done|]. by apply valid_add_ext1. }
  destruct Hg1 as [Hl1 Hb1]. exists off, (memcpy_at off data g1).
  assert (Hkeep : forall o n, 0 <= o -> 0 <= n -> o + n <= 220 -> o + n <= off \/ off + len <= o ->
    slice o n (memcpy_at off data g1) = slice o n g1).
  { intros o n ? ? ? ?. apply slice_memcpy_out; lia. }
  split; [done|]. split.
  { unfold ft_edit. rewrite Hc. cbn. fold g1. unfold copy_to.
    rewrite (proj2 (Z.leb_le _ _)), (proj2 (Z.leb_le _ _)) by lia. cbn [andb]. by rewrite take_ge by lia. }
  split; [by apply memcpy_rec_ok|]. split.
  { revert Hv1. unfold _ft_ext1_valid, ft_get, get_le. places. rewrite !Hkeep by lia. done. }
  split; [rewrite <- Hlen; apply slice_memcpy_in; lia|]. split; [lia|]. split; [lia|].
  intros Hne%Hfreq. apply Hkeep; lia.
Qed.

(** Sealing changes checksums and mark only. *)
Lemma slice_seal g off n :
  rec_ok g -> 8 <= off -> 0 <= n -> off + n <= 132 \/ (136 <= off /\ off + n <= 220) ->
  slice off n (ft_seal g) = slice off n g.
Proof.
  intros [Hl _] Ho Hn Hin. unfold ft_seal, ft_put. places.
  by rewrite !slice_set_out by (rewrite ?length_set_le; lia).
Qed.

Lemma valid_seal g : rec_ok g -> _ft_ext1_valid (ft_seal g) = _ft_ext1_valid g.
Proof. intros Hg. unfold _ft_ext1_valid, ft_get, get_le. places. by rewrite !slice_seal by (done || lia). Qed.

Section properties.
Context {F : Type} `{FlashStoreLaws F} `{!FlashBoot F} `{!FlashBootLaws F} `{CrcEngineLaws}.
Implicit Types s : ft F.

Abbreviation img s := (fs_byte (ft_store s)).
Abbreviation low s := (fs_low (ft_store s)).
Abbreviation rec s := (gftParamVer1 s).

(** ** Start-up *)

Lemma ft_loaded_ok r : rec_ok (snd r) -> rec_ok (ft_loaded r).
Proof.
  intros Hr. unfold ft_loaded. case_match; [done|]. pose proof blank_ft_ok. case_match; [|done].
  apply memcpy_rec_ok; [done|by apply Forall_take, Hr].
Qed.

Lemma ft_boot_ok s : rec_ok (snd (ft_boot (img s))).
Proof. unfold ft_boot. case_match; apply ft_decode_ok, copy_ok, ft_img_ok. Qed.

(** The two readings of start-up. *)
Lemma boot_reading p s (Q : Z * list Z -> ft F -> Prop) :
  ft_ok s -> p <> 0 ->
  (forall r s', ft_step nowhere s s' -> rec s' = rec s -> rec_ok (snd r) -> (low s' <> true -> r = ft_boot (img s)) -> Q r s') ->
  wp (r ← _ft_param_init FT_PARAM_RUNTIME_ADDR p blank_ft;
      if fst r =? 0 then _ft_param_init FT_MAGICNUM_ADDR p blank_ft else mret r) s Q.
Proof.
  intros K Hp HQ. assert (Hd : forall r i s', r = ft_decode (copy_of (img s) i) \/ (r = ft_decode blank_ft /\ low s' = true) -> rec_ok (snd r)).
  { intros r i s' [->|[-> _]]; [apply ft_decode_ok, copy_ok, ft_img_ok|apply blank_ft_ok]. }
  apply wp_bind, (_ft_param_init_spec _ RUNTIME); [done|by right|done|]. intros r s1 T1 R1 Hr.
  unfold ft_boot in HQ. destruct (fst r =? 0) eqn:Er.
  - apply (_ft_param_init_spec _ BACKUP); [apply T1|by left|done|]. intros r2 s2 T2 R2 Hr2.
    rewrite (copy_proper _ _ BACKUP (ft_step_quiet _ _ T1)) in Hr2.
    apply HQ; [by eapply ft_step_trans|congruence|by eapply Hd|]. intros Hl.
    destruct Hr as [->|[_ Hl1]]; [|by apply (ft_step_low _ _ _ T2) in Hl1].
    rewrite Er. by destruct Hr2 as [->|[_ Hl2]].
  - apply wp_ret, HQ; [done|done|by eapply Hd|]. intros Hl. destruct Hr as [->|[_ Hl1]]; [|done]. by rewrite Er.
Qed.

(** Taking over what was read. *)
Lemma ft_load_spec r s :
  ft_ok s -> rec s = blank_ft -> rec_ok (snd r) ->
  wp (if fst r =? 1 then set_gft (memcpy_at 0 (snd r) blank_ft)
      else if fst r =? 2 then set_gft (memcpy_at 0 (take (Z.to_nat sizeof_ft) (snd r)) blank_ft)
      else mret tt) s (fun _ s' => ft_step nowhere s s' /\ rec s' = ft_loaded r).
Proof.
  intros K Hrec Hr. pose proof (ft_loaded_ok r Hr) as Hok. revert Hok. unfold ft_loaded. rewrite sizeof_ft_eq.
  destruct blank_ft_ok as [Bl _]. destruct (fst r =? 1); [|destruct (fst r =? 2)]; intros Hok.
  - rewrite memcpy_at_all by (destruct Hr; congruence). by apply set_gft_spec.
  - by apply set_gft_spec.
  - apply wp_ret. split; [by apply ft_step_refl|done].
Qed.

Lemma tls_ft_param_init_spec s (Q : Z -> ft F -> Prop) :
  ft_ok s -> ft_get magic_no (rec s) <> SIGNATURE_WORD ->
  (forall r s', ft_step nowhere s s' ->
     (low s' <> true -> r = fst (ft_boot (img s)) /\ rec s' = ft_loaded (ft_boot (img s)) /\ boot_open (ft_store s')) ->
     Q r s') ->
  wp tls_ft_param_init s Q.
Proof.
  intros K Hm HQ. unfold tls_ft_param_init. apply wp_bind, wp_gets. rewrite (proj2 (Z.eqb_neq _ _) Hm).
  apply wp_bind, set_gft_spec; [done|apply blank_ft_ok|]. intros s1 T1 E1 R1.
  apply wp_bind, ft_alloc_spec; [apply T1|by rewrite sizeof_ver1_eq|]. intros [[p l]|] s2 T2 R2 Hp;
    (assert (T12 : ft_step nowhere s s2) by (by eapply ft_step_trans)).
  2: { apply wp_ret, HQ; [done|congruence]. }
  assert (Hread := boot_reading p s2 (fun r s3 => ft_step nowhere s2 s3 /\ rec s3 = rec s2 /\ rec_ok (snd r) /\
    (low s3 <> true -> r = ft_boot (img s2))) (fp_ok _ _ _ T2) Hp ltac:(cbv beta; tauto)). apply wp_bind_inv in Hread.
  apply wp_bind. eapply wp_mono; [exact Hread|]. cbv beta. intros r0 sr Hr0.
  apply wp_bind. eapply wp_mono; [exact Hr0|]. cbv beta. intros r s3 (T3 & R3 & Hok & Hr).
  assert (T13 : ft_step nowhere s s3) by (by eapply ft_step_trans).
  apply wp_bind, wp_gets. rewrite R3, R2, R1.
  apply wp_bind. eapply wp_mono; [by apply ft_load_spec; [apply T3|congruence|]|]. cbv beta. intros [] s4 (T4 & R4).
  apply wp_bind, ft_free_spec; [apply T4|]. intros s5 T5 R5.
  apply wp_bind, ft_unlock_spec; [apply T5|]. intros x s6 T6 R6 Ho.
  assert (T36 : ft_step nowhere s3 s6) by (eapply ft_step_trans; [exact T4|by eapply ft_step_trans]).
  apply wp_ret, HQ; [by eapply ft_step_trans|]. intros Hl. pose proof (ft_step_high _ _ _ T36 Hl) as Hl3.
  rewrite (Hr Hl3) in *. assert (Hb : ft_boot (img s2) = ft_boot (img s)).
  { unfold ft_boot. by rewrite !(copy_proper _ _ _ (ft_step_quiet _ _ T12)). }
  rewrite Hb in *. split; [done|]. split; [congruence|done].
Qed.

(** ** Setting a parameter *)

(** What setting promises before it touches the run-time copy. *)
Definition backed_up s s1 : Prop :=
  if fst (ft_decode (copy_of (img s) RUNTIME)) =? 0 then ft_step nowhere s s1
  else current (copy_of (img s1) BACKUP) (rec s) = true.

Lemma tls_ft_param_set_spec gp opnum datap data len s g2 (Q : Z -> ft F -> Prop) :
  ft_ok s -> gp <> 0 -> datap <> 0 -> len <> 0 -> ft_edit opnum len data (rec s) = Some g2 -> rec_ok g2 ->
  ft_get ext_param_len g2 <= 84 ->
  (forall r s1 s2 s', ft_step (sector_of BACKUP) s s1 -> ft_step (sector_of RUNTIME) s1 s2 -> ft_step (sector_of BACKUP) s2 s' ->
     r = 0 \/ r = -1 ->
     (r = 0 -> rec s' = ft_seal g2 /\ current (copy_of (img s') RUNTIME) (ft_seal g2) = true /\
        current (copy_of (img s') BACKUP) (ft_seal g2) = true) ->
     (low s' <> true -> fst (ft_decode (copy_of (img s) RUNTIME)) = 0 \/ current (rec s) (rec s) = true ->
        current (ft_seal g2) (ft_seal g2) = true ->
        r = 0 /\ backed_up s s1 /\ copy_of (img s2) RUNTIME = ft_seal g2) -> Q r s') ->
  wp (tls_ft_param_set gp opnum datap data len) s Q.
Proof.
  intros K Hgp Hdp Hlen Hed Hg2 Hn HQ. unfold tls_ft_param_set.
  rewrite (proj2 (Z.eqb_neq _ _) Hdp), (proj2 (Z.eqb_neq _ _) Hlen). cbn [orb].
  apply wp_bind, ft_alloc_spec; [done|by rewrite sizeof_ver1_eq|]. intros [[p l]|] s1 T1 R1 Hp.
  2: { apply wp_ret, (HQ _ s1 s1); [by apply ft_step_nowhere|apply ft_step_refl, T1|apply ft_step_refl, T1|by right|done|congruence]. }
  apply wp_bind, sync_backup_spec; [apply T1|done|done|]. intros b s2 T2 R2 Hb. rewrite R1 in *.
  assert (T12 : ft_step (sector_of BACKUP) s s2) by (eapply ft_step_trans; [by apply ft_step_nowhere|done]).
  rewrite (copy_proper _ _ RUNTIME (ft_step_quiet _ _ T1)) in Hb.
  destruct b; cbn [negb].
  2: { apply wp_bind, ft_free_spec; [apply T2|]. intros s3 T3 R3.
       apply wp_ret, (HQ _ s2 s2); [done|apply ft_step_refl, T2|by apply ft_step_nowhere|by right|done|].
       intros Hl Hsy _. pose proof (Hb (ft_step_high _ _ _ T3 Hl)) as Hf. destruct (Z.eqb_spec (fst (ft_decode (copy_of (img s) RUNTIME))) 0) as [E|E].
       - by destruct Hf.
       - destruct Hf as [_ Hc], Hsy as [|Hsy]; [done|]. by apply Hc in Hsy. }
  unfold ft_edit in Hed. destruct (set_copy opnum len) as [[off n]|]; cbn in Hed; [|discriminate Hed].
  apply wp_bind, wp_gets. rewrite R2. set (g1 := if _ft_ext1_valid _ then _ else _) in *.
  assert (Hg1 : rec_ok g1) by (unfold g1; destruct (_ft_ext1_valid _); [apply K|apply add_ext1_ok, K]).
  apply wp_bind, set_gft_spec; [apply T2|done|]. intros s3 T3 _ R3.
  apply wp_bind, wp_gets, wp_bind. rewrite R3. eapply wp_must; [exact Hed|].
  apply wp_bind, set_gft_spec; [apply T3|done|]. intros s4 T4 _ R4.
  apply wp_bind, crypto_init_spec; [apply T4|]. intros _ s5 T5 R5. rewrite R4 in R5.
  apply wp_bind, seal_record_spec; [apply T5|by rewrite R5|]. intros s6 T6 R6. rewrite R5 in R6.
  apply wp_bind, store_copies_spec; [apply T6|done|done|]. intros ok s7 s8 T7 T8 R8 Hok Hl8. rewrite R6 in *.
  apply wp_bind, ft_free_spec; [apply T8|]. intros s9 T9 R9.
  assert (T26 : ft_step nowhere s2 s6) by (eapply ft_step_trans; [exact T3|eapply ft_step_trans; [exact T4|by eapply ft_step_trans]]).
  assert (T27 : ft_step (sector_of RUNTIME) s2 s7) by (eapply ft_step_trans; [by apply ft_step_nowhere|done]).
  apply wp_ret, (HQ _ s2 s7); [done|done|eapply ft_step_trans; [done|by apply ft_step_nowhere]|destruct ok; auto| |].
  - destruct ok; cbn; [intros _|intros [=]]. rewrite !(copy_proper _ _ _ (ft_step_quiet _ _ T9)).
    split; [congruence|by apply Hok].
  - intros Hl Hsy Hc. pose proof (ft_step_high _ _ _ T9 Hl) as Hlow8. destruct (Hl8 Hlow8) as [Hcopy ->]. rewrite Hc.
    split; [done|]. split; [|done]. unfold backed_up.
    pose proof (Hb (ft_step_high _ _ _ T27 (ft_step_high _ _ _ T8 Hlow8))) as Hf. case_match.
    + destruct Hf as [_ Hf]. by eapply ft_step_trans.
    + by apply Hf.
Qed.

(** An unknown number: the record in memory may have changed all the same. *)
Lemma tls_ft_param_set_unknown gp opnum datap data len s (Q : Z -> ft F -> Prop) :
  ft_ok s -> gp <> 0 -> datap <> 0 -> len <> 0 -> set_copy opnum len = None ->
  (forall s', ft_step (sector_of BACKUP) s s' ->
     (low s' <> true -> fst (ft_decode (copy_of (img s) RUNTIME)) = 0 ->
        ft_step nowhere s s' /\ rec s' = if _ft_ext1_valid (rec s) then rec s else add_ext1 (rec s)) -> Q (-1) s') ->
  wp (tls_ft_param_set gp opnum datap data len) s Q.
Proof.
  intros K Hgp Hdp Hlen Hc HQ. unfold tls_ft_param_set.
  rewrite (proj2 (Z.eqb_neq _ _) Hdp), (proj2 (Z.eqb_neq _ _) Hlen). cbn [orb].
  apply wp_bind, ft_alloc_spec; [done|by rewrite sizeof_ver1_eq|]. intros [[p l]|] s1 T1 R1 Hp.
  2: { apply wp_ret, HQ; [by apply ft_step_nowhere|intros Hl; congruence]. }
  apply wp_bind, sync_backup_spec; [apply T1|done|done|]. intros b s2 T2 R2 Hb.
  assert (T12 : ft_step (sector_of BACKUP) s s2) by (eapply ft_step_trans; [by apply ft_step_nowhere|done]).
  rewrite (copy_proper _ _ RUNTIME (ft_step_quiet _ _ T1)) in Hb.
  destruct b; cbn [negb].
  2: { apply wp_bind, ft_free_spec; [apply T2|]. intros s3 T3 R3.
       apply wp_ret, HQ; [eapply ft_step_trans; [done|by apply ft_step_nowhere]|].
       intros Hl Hz. pose proof (Hb (ft_step_high _ _ _ T3 Hl)) as Hf. rewrite Hz in Hf. by destruct Hf. }
  apply wp_bind, wp_gets. rewrite R2, R1. set (g1 := if _ft_ext1_valid _ then _ else _).
  assert (Hg1 : rec_ok g1) by (unfold g1; destruct (_ft_ext1_valid _); [apply K|apply add_ext1_ok, K]).
  apply wp_bind, set_gft_spec; [apply T2|done|]. intros s3 T3 _ R3. rewrite Hc.
  apply wp_bind, ft_free_spec; [apply T3|]. intros s4 T4 R4.
  assert (T24 : ft_step nowhere s2 s4) by (by eapply ft_step_trans).
  apply wp_ret, HQ; [eapply ft_step_trans; [done|by apply ft_step_nowhere]|].
  intros Hl Hz. pose proof (Hb (ft_step_high _ _ _ T24 Hl)) as Hf. rewrite Hz in Hf. destruct Hf as [_ Hf].
  split; [|by rewrite R4, R3]. eapply ft_step_trans; [exact T1|by eapply ft_step_trans].
Qed.

(** ** Images of the flash *)

Lemma boot_cases i g :
  ft_boot i = (1, g) ->
  ft_decode g = (1, g) /\
  (copy_of i RUNTIME = g \/ (fst (ft_decode (copy_of i RUNTIME)) = 0 /\ copy_of i BACKUP = g)).
Proof.
  unfold ft_boot. intros Hb. destruct (Z.eqb_spec (fst (ft_decode (copy_of i RUNTIME))) 0) as [E|E];
    pose proof (ft_decode_one _ _ Hb) as Hc; rewrite Hc in Hb; auto.
Qed.

Lemma boot_runtime i g : ft_decode g = (1, g) -> copy_of i RUNTIME = g -> ft_boot i = (1, g).
Proof. intros Hg Hc. unfold ft_boot. by rewrite Hc, Hg. Qed.

Lemma boot_same_copies i j :
  copy_of i RUNTIME = copy_of j RUNTIME -> copy_of i BACKUP = copy_of j BACKUP -> ft_boot i = ft_boot j.
Proof. unfold ft_boot. by intros -> ->. Qed.

(** The run-time copy passes the checks although it is neither of two
    records, while the backup still holds the first. *)
Definition collides (g g' : list Z) (i : Z -> Z) : Prop :=
  copy_of i BACKUP = g /\ fst (ft_decode (copy_of i RUNTIME)) <> 0 /\ copy_of i RUNTIME <> g /\ copy_of i RUNTIME <> g'.

Lemma boot_backup i g g' :
  ft_decode g = (1, g) -> ft_decode g' = (1, g') -> copy_of i BACKUP = g ->
  ft_boot i = (1, g) \/ ft_boot i = (1, g') \/ collides g g' i.
Proof.
  intros Hg Hg' Hb. destruct (decide (copy_of i RUNTIME = g)) as [E|E]; [left; by apply boot_runtime|].
  destruct (decide (copy_of i RUNTIME = g')) as [E'|E']; [right; left; by apply boot_runtime|].
  destruct (Z.eqb_spec (fst (ft_decode (copy_of i RUNTIME))) 0) as [Ez|Ez]; [left|by right; right].
  unfold ft_boot. by rewrite Ez, Hb.
Qed.

(** What the power cuts of a step leave of a copy it does not touch. *)
Lemma step_cuts S s s' :
  ft_step S s s' ->
  exists cuts, fs_cuts (ft_store s') = fs_cuts (ft_store s) ++ cuts /\
    Forall (fun i => forall off, (forall a, S a -> a < off \/ off + 220 <= a) -> copy_of i off = copy_of (img s) off) cuts.
Proof.
  intros [[_ _ _ _ _ (cuts & Ec & Fc)] _ _]. exists cuts. split; [done|].
  eapply Forall_impl; [exact Fc|]. intros i Hi off Hd. apply range_ext. intros a Ha. apply Hi. intros Hs%Hd. lia.
Qed.

(** The state of the flash and the memory agree: there is no record, or the
    one in memory is the one start-up would load. *)
Definition in_sync s : Prop := fst (ft_boot (img s)) = 0 \/ ft_boot (img s) = (1, rec s).

Lemma in_sync_current s :
  in_sync s -> fst (ft_decode (copy_of (img s) RUNTIME)) = 0 \/ current (rec s) (rec s) = true.
Proof.
  intros [Hz|Hb].
  - left. unfold ft_boot in Hz. destruct (Z.eqb_spec (fst (ft_decode (copy_of (img s) RUNTIME))) 0); [done|congruence].
  - right. by apply current_refl, (boot_cases (img s)).
Qed.

(** The three writes of a successful set, cut anywhere. *)
Lemma set_cuts g' s s1 s2 s' :
  ft_boot (img s) = (1, rec s) -> ft_decode g' = (1, g') ->
  ft_step (sector_of BACKUP) s s1 -> ft_step (sector_of RUNTIME) s1 s2 -> ft_step (sector_of BACKUP) s2 s' ->
  backed_up s s1 -> copy_of (img s2) RUNTIME = g' ->
  exists cuts, fs_cuts (ft_store s') = fs_cuts (ft_store s) ++ cuts /\
    Forall (fun i => ft_boot i = (1, rec s) \/ ft_boot i = (1, g') \/ collides (rec s) g' i) cuts.
Proof.
  intros Hb Hg' T1 T2 T3 Hbk Hrt. pose proof (boot_cases _ _ Hb) as [Hg Hc].
  assert (HRB : forall a, sector_of BACKUP a -> a < RUNTIME \/ RUNTIME + 220 <= a) by (intros a; unfold sector_of, BACKUP, RUNTIME; lia).
  assert (HBR : forall a, sector_of RUNTIME a -> a < BACKUP \/ BACKUP + 220 <= a) by (intros a; unfold sector_of, BACKUP, RUNTIME; lia).
  assert (Hone : exists cuts, fs_cuts (ft_store s1) = fs_cuts (ft_store s) ++ cuts /\ Forall (fun i => ft_boot i = (1, rec s)) cuts).
  { unfold backed_up in Hbk. destruct (Z.eqb_spec (fst (ft_decode (copy_of (img s) RUNTIME))) 0) as [E|E].
    - destruct (step_cuts _ _ _ Hbk) as (cuts & Ec & Fc). exists cuts. split; [done|]. eapply Forall_impl; [exact Fc|].
      intros i Hi. rewrite <- Hb. by apply boot_same_copies; apply Hi.
    - destruct (step_cuts _ _ _ T1) as (cuts & Ec & Fc). exists cuts. split; [done|]. eapply Forall_impl; [exact Fc|].
      intros i Hi. apply boot_runtime; [done|]. rewrite (Hi RUNTIME HRB). by destruct Hc as [|[? _]]. }
  assert (Hback : copy_of (img s1) BACKUP = rec s).
  { unfold backed_up in Hbk. destruct (Z.eqb_spec (fst (ft_decode (copy_of (img s) RUNTIME))) 0) as [E|E].
    - rewrite (copy_proper _ _ BACKUP (ft_step_quiet _ _ Hbk)). destruct Hc as [Hc|[_ Hc]]; [|done]. by rewrite Hc, Hg in E.
    - apply current_one; [apply copy_ok, ft_img_ok|done|done]. }
  destruct Hone as (c1 & E1 & F1), (step_cuts _ _ _ T2) as (c2 & E2 & F2), (step_cuts _ _ _ T3) as (c3 & E3 & F3).
  exists (c1 ++ c2 ++ c3). split; [by rewrite E3, E2, E1, !app_assoc|].
  apply Forall_app. split; [eapply Forall_impl; [exact F1|]; auto|]. apply Forall_app. split.
  - eapply Forall_impl; [exact F2|]. intros i Hi. apply boot_backup; [done|done|]. by rewrite (Hi BACKUP HBR).
  - eapply Forall_impl; [exact F3|]. intros i Hi. right. left. apply boot_runtime; [done|]. by rewrite (Hi RUNTIME HRB).
Qed.

(** ** Getting a parameter *)

Lemma fetch_spec off n data s (Q : Z * list Z -> ft F -> Prop) :
  rec_ok (rec s) -> 0 <= off -> 0 <= n -> off + n <= 220 -> zlen data = n ->
  Q (0, slice off n (rec s)) s -> wp (fetch off n data) s Q.
Proof.
  intros [Hl _] Ho Hn Hf Hd HQ. unfold fetch. apply wp_bind, wp_gets, wp_bind. eapply wp_must; [|apply wp_ret, HQ].
  unfold copy_to. rewrite length_drop, (proj2 (Z.leb_le _ _)), (proj2 (Z.leb_le _ _)) by lia. cbn [andb].
  fold (slice off n (rec s)). f_equal. apply memcpy_at_all. rewrite length_slice; lia.
Qed.

(** A value of the extension, or what the flash has behind the record. *)
Lemma fetch_ext_spec f addr p data s (Q : Z * list Z -> ft F -> Prop) :
  ft_ok s -> p <> 0 -> zlen data = 4 ->
  (f = rf_freq_err /\ addr = FREQERR_ADDR) \/ (f = rf_cal_flag /\ addr = CAL_FLAG_ADDR) ->
  (_ft_ext1_valid (rec s) = true -> Q (0, slice (ft_at f) 4 (rec s)) s) ->
  (_ft_ext1_valid (rec s) = false -> forall d s', ft_step nowhere s s' -> rec s' = rec s -> zlen d = 4 ->
     d = range (img s) (ft_at f - 4) 4 \/ low s' = true -> Q (0, d) s') ->
  wp (fetch_ext f addr p 4 data) s Q.
Proof.
  intros K Hp Hd Hf HQ1 HQ2. unfold fetch_ext. apply wp_bind, wp_gets. destruct (_ft_ext1_valid (rec s)).
  - apply fetch_spec; [apply K| |done| |done|by apply HQ1]; places; destruct Hf as [[-> _]|[-> _]]; cbn; lia.
  - assert (Ha : 0 <= addr /\ addr + 4 < 2 ^ 32 /\ addr mod 2 ^ 27 = ft_at f - 4 /\ addr mod 2 ^ 27 + 4 <= 0x2000).
    { destruct Hf as [[-> ->]|[-> ->]]; repeat split; vm_compute; congruence. }
    destruct Ha as (A1 & A2 & A3 & A4). pose proof (fk_size _ K).
    apply wp_bind, (ft_on_store _ nowhere); [done|].
    eapply wp_mono; [apply wp_and; [apply fs_read_spec|apply boot_read_same];
      first [apply K|exact Hp|exact A1|exact A2|rewrite Hd; lia|lia]|].
    cbv beta zeta. intros [r d] f' [(Hs & Hr & Hb) Hbs]. cbn [fst snd] in *. split; [done|]. split; [done|]. intros s1 T1 Hst R1.
    rewrite Hr. cbn. apply wp_ret, HQ2; [done|done|done| |].
    + destruct Hb as [->|[-> _]]; [by rewrite length_memcpy_at|done].
    + rewrite Hst. destruct Hb as [->|[_ Hl]]; [left|by right]. rewrite A3. apply memcpy_at_all. rewrite length_range. lia.
Qed.

Ltac run_op :=
  unfold CMD_WIFI_MAC, CMD_BT_MAC, CMD_TX_DC, CMD_RX_DC, CMD_TX_IQ_GAIN, CMD_RX_IQ_GAIN, CMD_TX_IQ_PHASE,
    CMD_RX_IQ_PHASE, CMD_TX_GAIN, CMD_TX_ADC_CAL, CMD_FREQ_ERR, CMD_RF_CAL_FLAG in *; cbn [Z.eqb Pos.eqb].

(** The address to use when there is none. *)
Lemma default_copy data n : zlen data = 6 -> n = 6 -> copy_to data 0 default_mac n = Some default_mac.
Proof.
  intros Hd ->. do 6 (destruct data as [|? data]; [cbn in Hd; lia|]). destruct data; [done|cbn in Hd; lia].
Qed.

(** A get always returns; on a record with extension it delivers the member. *)
Lemma op_get_spec opnum p len data s (Q : Z * list Z -> ft F -> Prop) :
  ft_ok s -> p <> 0 -> (opnum, len) ∈ ft_ops -> zlen data = len ->
  (forall r s', ft_step nowhere s s' -> rec s' = rec s ->
     (forall off, set_copy opnum len = Some (off, len) -> _ft_ext1_valid (rec s) = true ->
        acceptable opnum (slice off len (rec s)) = true -> r = (0, slice off len (rec s))) -> Q r s') ->
  wp (tls_ft_param_get opnum p data len) s Q.
Proof.
  intros K Hp Ho Hd HQ. unfold tls_ft_param_get. apply wp_bind, wp_gets.
  assert (Hword : forall f off n, set_copy opnum len = Some (off, len) -> f = off -> n = len -> 0 <= off -> off + len <= 220 ->
    wp (fetch f n data) s Q).
  { intros f off n Hc -> -> Ho0 Hf. apply fetch_spec; [apply K|done|lia|done|done|]. apply HQ; [by apply ft_step_refl|done|].
    intros off' Hc' _ _. congruence. }
  assert (Hext : forall f addr, set_copy opnum len = Some (ft_at f, len) -> len = 4 ->
    (f = rf_freq_err /\ addr = FREQERR_ADDR) \/ (f = rf_cal_flag /\ addr = CAL_FLAG_ADDR) -> wp (fetch_ext f addr p 4 data) s Q).
  { intros f addr Hc -> Hf. apply fetch_ext_spec; [done|done|done|done| |].
    - intros _. apply HQ; [by apply ft_step_refl|done|]. intros off' Hc' _ _. congruence.
    - intros Hv d s' T R _ _. apply HQ; [done|done|]. intros off' _ Hv'. congruence. }
  assert (Hquiet : forall r, (forall off, set_copy opnum len = Some (off, len) -> _ft_ext1_valid (rec s) = true ->
    acceptable opnum (slice off len (rec s)) = true -> r = (0, slice off len (rec s))) -> Q r s).
  { intros r Hr. by apply HQ; [apply ft_step_refl|done|]. }
  clear HQ. each_op Ho; run_op;
    try (eapply Hword; [vm_compute; reflexivity|reflexivity|reflexivity|vm_compute; congruence|vm_compute; congruence]).
  - destruct (_ || _) eqn:Eb.
    + apply wp_bind. eapply wp_must; [by apply default_copy|]. apply wp_ret, Hquiet.
      intros off [= <-] _ Ha. exfalso. unfold acceptable, mac_usable in Ha. cbn -[fold_left slice Z.land byte_at] in Ha, Eb.
      apply andb_prop in Ha as [Ha1 Ha2%negb_true_iff]. change (ft_at wifi_mac_addr) with 8 in *. by rewrite Ha1, Ha2 in Eb.
    + eapply Hword; [vm_compute; reflexivity|reflexivity|reflexivity|vm_compute; congruence|vm_compute; congruence].
  - destruct (_ || _) eqn:Eb.
    + apply wp_bind. eapply wp_must; [by apply default_copy|]. cbn -[slice bool_decide]. apply wp_ret, Hquiet.
      intros off [= <-] _ Ha. exfalso. unfold acceptable, bt_usable in Ha. cbn -[slice bool_decide] in Ha, Eb.
      apply andb_prop in Ha as [Ha1%negb_true_iff Ha2%negb_true_iff]. change (ft_at bt_mac_addr) with 16 in *. by rewrite Ha1, Ha2 in Eb.
    + eapply Hword; [vm_compute; reflexivity|reflexivity|reflexivity|vm_compute; congruence|vm_compute; congruence].
  - destruct (_ft_ext1_valid (rec s)) eqn:Ev.
    + eapply Hword; [vm_compute; reflexivity|reflexivity|reflexivity|vm_compute; congruence|vm_compute; congruence].
    + apply wp_ret, Hquiet. congruence.
  - by apply Hext; [|done|left].
  - by apply Hext; [|done|right].
Qed.

(** ** Theorems *)

(** C15. Start-up over any contents of the two sectors: it always ends, changes
    nothing in the flash, and loads the run-time copy if that is intact, else
    the backup, else blanks; its result says which kind of record it found.
    Whatever it finds, it leaves the boot sectors writable. *)
Theorem efuse_init_loads s :
  ft_ok s -> ft_get magic_no (rec s) <> SIGNATURE_WORD ->
  wp tls_ft_param_init s (fun r s' =>
    ft_ok s' /\ img s' ≡ₐ img s /\
    (low s' = true \/
     (r = fst (ft_boot (img s)) /\ rec s' = ft_loaded (ft_boot (img s)) /\ boot_open (ft_store s')))).
Proof.
  intros K Hm. apply tls_ft_param_init_spec; [done|done|]. intros r s' T HQ.
  split; [apply T|]. split; [by apply ft_step_quiet|]. destruct (low s'); [by left|right; by apply HQ].
Qed.

(** The module's variables at power-up. *)
Definition ft_restart : M (ft F) unit := set_gft (replicate 220 0).

(** C13. Every parameter survives.  On a module whose memory and flash agree
    ([in_sync]: the flash holds no record, or the one in memory is the one
    start-up would load), a set of a whole member followed by a restart ends,
    unless the flash driver ran out of memory on the way, with both calls
    successful and with the edited record in both copies in the flash and
    again in memory, so that memory and flash agree as before.  A get then
    delivers the bytes that were set, if they are [acceptable] - for a station
    or Bluetooth address that is no usable address a get answers with a
    built-in one. *)
Theorem efuse_set_survives_restart gp p opnum len data s :
  ft_ok s -> in_sync s -> gp <> 0 -> p <> 0 -> (opnum, len) ∈ ft_ops -> bytes_ok data -> zlen data = len ->
  wp (r ← tls_ft_param_set gp opnum p data len;
      ft_restart ;;
      e ← tls_ft_param_init;
      g ← tls_ft_param_get opnum p (replicate (length data) 0) len;
      mret (r, e, g)) s (fun '(r, e, g) s' =>
    low s' = true \/
    (r = 0 /\ e = 1 /\ in_sync s' /\
     (exists off g2, set_copy opnum len = Some (off, len) /\ ft_edit opnum len data (rec s) = Some g2 /\
        slice off len (ft_seal g2) = data /\ rec s' = ft_seal g2 /\
        copy_of (img s') RUNTIME = ft_seal g2 /\ copy_of (img s') BACKUP = ft_seal g2) /\
     (acceptable opnum data = true -> g = (0, data)))).
Proof.
  intros K Hsy Hgp Hp Ho Hb Hlen.
  destruct (edit_member opnum len data (rec s) Ho (fk_rec _ K) Hb Hlen) as (off & g2 & Hc & He & Hg2 & Hv2 & Hsl & Hoff & Hin & _).
  pose proof (ft_decode_seal g2 Hg2 Hv2) as Hd. destruct (op_place _ _ Ho) as (_ & _ & Hpos & _).
  apply wp_bind, (tls_ft_param_set_spec gp opnum p data len s g2); [done|done|done|lia|done|done|by apply ext_valid_fits| ].
  intros r s1 s2 s3 T1 T2 T3 _ Hr Hlow.
  apply wp_bind, set_gft_spec; [apply T3|split; [done|by apply Forall_replicate]|]. intros s4 T4 E4 R4.
  apply wp_bind, tls_ft_param_init_spec; [apply T4|rewrite R4; vm_compute; congruence|]. intros e s5 T5 H5.
  apply wp_bind, op_get_spec; [apply T5|done|done|rewrite length_replicate; lia|]. intros g s6 T6 R6 Hg.
  apply wp_ret. destruct (low s6) eqn:Hl6; [by left|right].
  assert (Hl5 : low s5 <> true) by (apply (ft_step_high _ _ _ T6); congruence).
  assert (Hl3 : low s3 <> true) by (rewrite <- E4; by apply (ft_step_high _ _ _ T5)).
  destruct (Hlow Hl3 (in_sync_current s Hsy) (current_refl _ Hd)) as (-> & _ & _).
  destruct (Hr eq_refl) as (_ & Hrt & Hbk). apply current_one in Hrt; [|apply copy_ok, ft_img_ok|done].
  apply current_one in Hbk; [|apply copy_ok, ft_img_ok|done].
  assert (Hquiet : forall o, copy_of (img s6) o = copy_of (img s3) o).
  { intros o. by rewrite (copy_proper _ _ o (ft_step_quiet _ _ T6)), (copy_proper _ _ o (ft_step_quiet _ _ T5)), E4. }
  assert (Hboot : ft_boot (img s4) = (1, ft_seal g2)) by (rewrite E4; by apply boot_runtime).
  destruct (H5 Hl5) as (-> & R5 & _). rewrite Hboot in R5 |- *. cbn in R5.
  assert (Hs : slice off len (ft_seal g2) = data) by (by rewrite slice_seal by (done || lia)).
  split; [done|]. split; [done|]. split; [|split].
  - right. rewrite R6, R5. apply boot_runtime; [done|by rewrite Hquiet].
  - exists off, g2. by rewrite R6, R5, !Hquiet.
  - intros Ha. rewrite (Hg off), R5, Hs; try done; rewrite R5, ?Hs; [|done]. by rewrite valid_seal.
Qed.

(** C14. Power cuts: cut the power after any command of a set, and the next
    start-up finds the old record or the new one - unless the half-written
    run-time copy happens to pass both checksums. *)
Theorem efuse_set_power_cut gp p opnum len data s :
  ft_ok s -> ft_boot (img s) = (1, rec s) -> gp <> 0 -> p <> 0 -> (opnum, len) ∈ ft_ops -> bytes_ok data -> zlen data = len ->
  wp (tls_ft_param_set gp opnum p data len) s (fun r s' =>
    low s' = true \/
    (r = 0 /\ exists cuts, fs_cuts (ft_store s') = fs_cuts (ft_store s) ++ cuts /\
       Forall (fun i => ft_boot i = (1, rec s) \/ ft_boot i = (1, rec s') \/ collides (rec s) (rec s') i) cuts)).
Proof.
  intros K Hb Hgp Hp Ho Hdata Hlen.
  destruct (edit_member opnum len data (rec s) Ho (fk_rec _ K) Hdata Hlen) as (off & g2 & Hc & He & Hg2 & Hv2 & _).
  pose proof (ft_decode_seal g2 Hg2 Hv2) as Hd. destruct (op_place _ _ Ho) as (_ & _ & Hpos & _).
  apply (tls_ft_param_set_spec gp opnum p data len s g2); [done|done|done|lia|done|done|by apply ext_valid_fits| ].
  intros r s1 s2 s' T1 T2 T3 _ Hr Hlow. destruct (low s') eqn:Hl; [by left|right].
  destruct (Hlow ltac:(congruence) (in_sync_current s ltac:(by right)) (current_refl _ Hd)) as (-> & Hbk & Hrt).
  split; [done|]. destruct (Hr eq_refl) as (-> & _). by apply (set_cuts _ s s1 s2 s').
Qed.

(** C40. The record in memory keeps its type - 220 bytes - and the module its
    invariant under every set of a whole member, whatever the outcome, and
    nothing behind the boot sectors changes. *)
Theorem efuse_set_typed gp p opnum len data s :
  ft_ok s -> gp <> 0 -> p <> 0 -> (opnum, len) ∈ ft_ops -> bytes_ok data -> zlen data = len ->
  wp (tls_ft_param_set gp opnum p data len) s (fun r s' =>
    (r = 0 \/ r = -1) /\ ft_ok s' /\ length (rec s') = 220%nat /\ bytes_ok (rec s') /\
    forall a, 0x2000 <= a -> img s' a = img s a).
Proof.
  intros K Hgp Hp Ho Hdata Hlen.
  destruct (edit_member opnum len data (rec s) Ho (fk_rec _ K) Hdata Hlen) as (off & g2 & Hc & He & Hg2 & Hv2 & _).
  destruct (op_place _ _ Ho) as (_ & _ & Hpos & _).
  apply (tls_ft_param_set_spec gp opnum p data len s g2); [done|done|done|lia|done|done|by apply ext_valid_fits| ].
  intros r s1 s2 s' T1 T2 T3 Hr _ _. split; [done|]. split; [apply T3|].
  destruct (fk_rec _ (fp_ok _ _ _ T3)) as [-> Hb]. split; [done|]. split; [done|]. intros a Ha.
  destruct T1 as [T1 _ _], T2 as [T2 _ _], T3 as [T3 _ _]. unfold sector_of, BACKUP, RUNTIME in *.
  rewrite (st_out _ _ _ T3), (st_out _ _ _ T2), (st_out _ _ _ T1); lia || done.
Qed.

Lemma get_freq_spec p data s (Q : Z * list Z -> ft F -> Prop) :
  ft_ok s -> p <> 0 -> zlen data = 4 ->
  (_ft_ext1_valid (rec s) = true -> Q (0, slice 136 4 (rec s)) s) ->
  (_ft_ext1_valid (rec s) = false -> forall d s', ft_step nowhere s s' -> rec s' = rec s -> zlen d = 4 ->
     d = range (img s) 132 4 \/ low s' = true -> Q (0, d) s') ->
  wp (tls_ft_param_get CMD_FREQ_ERR p data FREQERR_LEN) s Q.
Proof.
  intros K Hp Hd HQ1 HQ2. unfold tls_ft_param_get. apply wp_bind, wp_gets. rewrite Z.eqb_refl.
  apply fetch_ext_spec; [done|done|done|by left|done|]. intros Hv d s' T R Hd' Hr. by apply HQ2.
Qed.

(** Any set on a record without extension, over a flash without run-time
    copy. *)
Lemma set_any_spec gp p opnum len data s (Q : Z -> ft F -> Prop) :
  ft_ok s -> fst (ft_decode (copy_of (img s) RUNTIME)) = 0 -> _ft_ext1_valid (rec s) = false ->
  gp <> 0 -> p <> 0 -> len <> 0 -> bytes_ok data ->
  set_copy opnum len = None \/ ((opnum, len) ∈ ft_ops /\ opnum <> CMD_FREQ_ERR /\ zlen data = len) ->
  (forall r s', ft_ok s' -> (low s = true -> low s' = true) ->
     (low s' <> true -> r = (if set_copy opnum len then 0 else -1) /\ _ft_ext1_valid (rec s') = true /\
        slice 136 4 (rec s') = [0xFF; 0xFF; 0xFF; 0xFF]) -> Q r s') ->
  wp (tls_ft_param_set gp opnum p data len) s Q.
Proof.
  intros K Hz Hv Hgp Hp Hn Hdata Hop HQ. pose proof (valid_add_ext1 _ (fk_rec _ K)) as [Hv1 Hs1].
  destruct Hop as [Hc|(Ho & Hne & Hlen)].
  - apply tls_ft_param_set_unknown; [done..|]. intros s' T Hlow.
    apply HQ; [apply T|apply (ft_step_low _ _ _ T)|]. intros Hl. destruct (Hlow Hl Hz) as [_ Hr]. rewrite Hc.
    rewrite Hv in Hr. by rewrite Hr.
  - destruct (edit_member opnum len data (rec s) Ho (fk_rec _ K) Hdata Hlen) as (off & g2 & Hc & He & Hg2 & Hv2 & _ & _ & _ & Hf).
    rewrite Hc in HQ. rewrite Hv in Hf. pose proof (ft_decode_seal g2 Hg2 Hv2) as Hd.
    apply (tls_ft_param_set_spec gp opnum p data len s g2); [done|done|done|done|done|done|by apply ext_valid_fits| ].
    intros r s1 s2 s' T1 T2 T3 _ Hr Hlow. apply HQ; [apply T3| |].
    + intros Hl. by apply (ft_step_low _ _ _ T3), (ft_step_low _ _ _ T2), (ft_step_low _ _ _ T1).
    + intros Hl. destruct (Hlow Hl (or_introl Hz) (current_refl _ Hd)) as (-> & _ & _).
      destruct (Hr eq_refl) as (-> & _). split; [done|]. rewrite valid_seal, slice_seal, Hf by (done || lia). done.
Qed.

(** A record from before the extension keeps the frequency error behind it in
    the flash, and a get finds it there.  Setting any other parameter - even
    asking for an unknown one, which is refused - makes every later get
    answer 0xFFFFFFFF instead: the value is lost. *)
Theorem efuse_old_record_loses_freq_err gp p opnum len data s :
  ft_ok s -> fst (ft_decode (copy_of (img s) RUNTIME)) = 0 -> _ft_ext1_valid (rec s) = false ->
  gp <> 0 -> p <> 0 -> len <> 0 -> bytes_ok data ->
  set_copy opnum len = None \/ ((opnum, len) ∈ ft_ops /\ opnum <> CMD_FREQ_ERR /\ zlen data = len) ->
  wp (before ← tls_ft_param_get CMD_FREQ_ERR p (replicate 4 0) FREQERR_LEN;
      r ← tls_ft_param_set gp opnum p data len;
      after ← tls_ft_param_get CMD_FREQ_ERR p (replicate 4 0) FREQERR_LEN;
      mret (before, r, after)) s (fun '(before, r, after) s' =>
    low s' = true \/
    (before = (0, range (img s) 132 4) /\ r = (if set_copy opnum len then 0 else -1) /\
     after = (0, [0xFF; 0xFF; 0xFF; 0xFF]))).
Proof.
  intros K Hz Hv Hgp Hp Hn Hdata Hop.
  apply wp_bind, get_freq_spec; [done|done|done|congruence|]. intros _ before s1 T1 R1 _ Hbef.
  apply wp_bind, set_any_spec; [apply T1|by rewrite (copy_proper _ _ _ (ft_step_quiet _ _ T1))|congruence|done..|].
  intros r s2 K2 Hlow Hset. apply wp_bind, get_freq_spec; [done|done|done| |].
  - intros _. apply wp_ret. destruct (low s2) eqn:El; [by left|right].
    destruct (Hset ltac:(congruence)) as (-> & _ & ->). split; [|done]. destruct Hbef as [->|Hl1%Hlow]; [done|congruence].
  - intros Hv2 d s3 T3 _ _ _. apply wp_ret. left. apply (ft_step_low _ _ _ T3).
    destruct (low s2) eqn:El; [done|]. destruct (Hset ltac:(congruence)) as (_ & Hv2' & _). congruence.
Qed.

(** Whatever the record in memory holds, the station's address is a unicast
    address other than zero - the built-in one if need be - and the Bluetooth
    address is neither all zeros nor all ones. *)
Theorem efuse_mac_usable p buf s :
  rec_ok (rec s) -> zlen buf = 6 ->
  wp (tls_get_mac_addr p buf) s (fun '(e, out) s' =>
    s' = s /\ e = 0 /\ mac_usable out = true /\
    out = (let mac := slice 8 6 (rec s) in if mac_usable mac then mac else default_mac)) /\
  wp (tls_get_bt_mac_addr p buf) s (fun '(e, out) s' =>
    s' = s /\ e = 0 /\ bt_usable out = true /\
    out = (let mac := slice 16 6 (rec s) in if bt_usable mac then mac else [0xC0; 0x25; 0x08; 0x09; 0x01; 0x10])).
Proof.
  intros Hr Hb. split; unfold tls_get_mac_addr, tls_get_bt_mac_addr, tls_ft_param_get; apply wp_bind, wp_gets; run_op;
    cbv zeta; change (ft_at wifi_mac_addr) with 8; change (ft_at bt_mac_addr) with 16.
  - unfold mac_usable at 2. destruct (_ &&& 1 =? 0) eqn:E1, (fold_left _ _ _ =? 0) eqn:E2; cbn [negb orb andb];
      try (apply wp_bind; eapply wp_must; [by apply default_copy|]; by apply wp_ret).
    apply fetch_spec; [done|done|done|done|done|]. unfold mac_usable. by rewrite E1, E2.
  - unfold bt_usable at 2. destruct (bool_decide (_ = replicate 6 255)) eqn:E1, (bool_decide (_ = replicate 6 0)) eqn:E2; cbn [negb orb andb];
      try (apply wp_bind; eapply wp_must; [by apply default_copy|]; by apply wp_ret).
    apply fetch_spec; [done|done|done|done|done|]. unfold bt_usable. by rewrite E1, E2.
Qed.

(** The frequency error that is read is always within 200 kHz: a stored value
    beyond is replaced by the limit. *)
Theorem efuse_freq_err_clamped gp p buf s :
  ft_ok s -> p <> 0 -> zlen buf = 4 ->
  let stored := s32 (le_val (if _ft_ext1_valid (rec s) then slice 136 4 (rec s) else range (img s) 132 4)) in
  wp (tls_freq_err_op gp p buf 0) s (fun '(status, out) s' =>
    status = TLS_EFUSE_STATUS_OK /\ -200000 <= s32 (get_le 0 4 out) <= 200000 /\
    (low s' = true \/ s32 (get_le 0 4 out) = Z.max (-200000) (Z.min 200000 stored))).
Proof.
  intros K Hp Hb stored.
  assert (Hclamp : forall d s', zlen d = 4 -> low s' = true \/ stored = s32 (get_le 0 4 d) ->
    wp (let value := s32 (get_le 0 4 d) in
        if 200000 <? value then mret (efuse_status 0, memcpy_at 0 (le_bytes 4 200000) d)
        else if value <? -200000 then mret (efuse_status 0, memcpy_at 0 (le_bytes 4 (-200000)) d)
        else mret (efuse_status 0, d)) s' (fun '(status, out) s' =>
      status = TLS_EFUSE_STATUS_OK /\ -200000 <= s32 (get_le 0 4 out) <= 200000 /\
      (low s' = true \/ s32 (get_le 0 4 out) = Z.max (-200000) (Z.min 200000 stored)))).
  { intros d s' Hd Hst. cbv zeta. assert (Hput : forall v, -2 ^ 31 <= v < 2 ^ 31 -> s32 (get_le 0 4 (memcpy_at 0 (le_bytes 4 v) d)) = v).
    { intros v Hv. change (memcpy_at 0 (le_bytes 4 v) d) with (set_le 0 4 v d). rewrite get_set_same by lia. unfold s32. dlia. }
    destruct (Z.ltb_spec 200000 (s32 (get_le 0 4 d))); [|destruct (Z.ltb_spec (s32 (get_le 0 4 d)) (-200000))];
      apply wp_ret; rewrite ?Hput by lia; (split; [done|]); (split; [lia|]); (destruct Hst as [|Hst]; [by left|right; lia]). }
  unfold tls_freq_err_op. cbn [negb Z.eqb].
  assert (Hall : forall l, zlen l = 4 -> slice 0 4 l = l) by (intros l Hl; by apply slice_all).
  apply wp_bind, get_freq_spec; [done|done|done| |].
  - intros Hv. cbn [fst snd]. apply Hclamp; [destruct (fk_rec _ K) as [Hl _]; rewrite length_slice; lia|]. right. unfold stored, get_le. rewrite Hv.
    rewrite Hall; [done|]. destruct (fk_rec _ K) as [Hl _]. rewrite length_slice; lia.
  - intros Hv d s' T R Hd Hr. cbn [fst snd]. apply Hclamp; [done|]. destruct Hr as [->|Hl]; [right|by left].
    unfold stored, get_le. rewrite Hv. rewrite Hall; [done|]. rewrite length_range. lia.
Qed.

End properties.
