(* ===== verification/EfuseWitness.v ===== *)
(** * The theorems on factory records at concrete inputs

    The board of the flash driver's examples, with nothing, a record, or a
    record of the old kind in its boot sectors. *)
From S2P Require Import Prelude CMonad Checksum HostEnv FlashChip FlsHw FlsDriver FlsWrite CrcHard Storage FlsStore FlsBoot ParamData ParamImage Efuse EfuseSpec EfuseProps.
Import SoftCrc.

Definition board_fls (cells : Z -> Z) : fls BumpHost.bump NorChip.nor :=
  Fls (Hw 0 0 1 0 (replicate 1024 0) (NorChip.set_arr cells (NorChip.blank SPIFLASH_MID_GD)) []) BumpHost.roomy false
    (Some (sample_inside SPIFLASH_MID_GD)) None 0 flash_map_default.
Definition board_ft (cells : Z -> Z) (g : list Z) : ft (fls BumpHost.bump NorChip.nor) := Ft (board_fls cells) idle_gpsec g.

Lemma board_ok cells g : rec_ok g -> ft_ok (board_ft cells g).
Proof.
  intros Hg. split; [|reflexivity|vm_compute; discriminate| |done].
  - split; [exists (sample_inside SPIFLASH_MID_GD)|intros a _; reflexivity].
    split; [done|done| |done|done]. split; [done|]. split; [|done]. by apply Forall_replicate.
  - eexists. split; [reflexivity|]. split; [by split|reflexivity].
Qed.

(** A record with extension, in both places; one without, in the backup,
    followed by a frequency error of 1234 Hz. *)
Definition erased : Z -> Z := fun _ => 255.
Definition new_rec : list Z := Eval vm_compute in ft_seal (add_ext1 (replicate 220 0)).
Definition both_cells : Z -> Z := overlay (overlay erased BACKUP new_rec) RUNTIME new_rec.
Definition old_rec : list Z := Eval vm_compute in
  let g := ft_put magic_no SIGNATURE_WORD (replicate 132 0) in ft_put checksum (crc_reg (slice 8 124 g)) g.
Definition old_cells : Z -> Z := overlay erased BACKUP (old_rec ++ le_bytes 4 1234).

Lemma bytes_ok_dec l : forallb (fun b => (0 <=? b) && (b <? 256)) l = true -> bytes_ok l.
Proof.
  intros Hl. apply Forall_forall. intros b Hb%list_elem_of_In. rewrite forallb_forall in Hl.
  specialize (Hl b Hb). unfold byte_ok. lia.
Qed.

Lemma new_rec_ok : rec_ok new_rec.
Proof. split; [reflexivity|apply bytes_ok_dec; reflexivity]. Qed.

Lemma zeros220_ok : rec_ok (replicate 220 0).
Proof. split; [reflexivity|by apply Forall_replicate]. Qed.

Lemma both_boot : ft_boot (fs_byte (board_fls both_cells)) = (1, new_rec).
Proof. vm_compute. reflexivity. Qed.

Lemma efuse_init_loads_witness :
  let s := board_ft both_cells (replicate 220 0) in
  wp tls_ft_param_init s (fun r s' =>
    ft_ok s' /\ fs_byte (ft_store s') ≡ₐ fs_byte (ft_store s) /\
    (fs_low (ft_store s') = true \/
     (r = fst (ft_boot (fs_byte (ft_store s))) /\ gftParamVer1 s' = ft_loaded (ft_boot (fs_byte (ft_store s))) /\
      boot_open (ft_store s')))).
Proof. apply efuse_init_loads; [apply board_ok, zeros220_ok|vm_compute; discriminate]. Defined.

Definition sample_mac : list Z := [0x28; 0x6D; 0xCD; 1; 2; 3].

Lemma efuse_set_survives_restart_witness :
  let s := board_ft both_cells new_rec in
  wp (r ← tls_ft_param_set 0x20000100 CMD_WIFI_MAC 0x20001000 sample_mac 6;
      ft_restart ;;
      e ← tls_ft_param_init;
      g ← tls_ft_param_get CMD_WIFI_MAC 0x20001000 (replicate (length sample_mac) 0) 6;
      mret (r, e, g)) s (fun '(r, e, g) s' =>
    fs_low (ft_store s') = true \/
    (r = 0 /\ e = 1 /\ in_sync s' /\
     (exists off g2, set_copy CMD_WIFI_MAC 6 = Some (off, 6) /\ ft_edit CMD_WIFI_MAC 6 sample_mac new_rec = Some g2 /\
        slice off 6 (ft_seal g2) = sample_mac /\ gftParamVer1 s' = ft_seal g2 /\
        copy_of (fs_byte (ft_store s')) RUNTIME = ft_seal g2 /\ copy_of (fs_byte (ft_store s')) BACKUP = ft_seal g2) /\
     (acceptable CMD_WIFI_MAC sample_mac = true -> g = (0, sample_mac)))).
Proof.
  apply (efuse_set_survives_restart 0x20000100 0x20001000 CMD_WIFI_MAC 6 sample_mac);
    [apply board_ok, new_rec_ok|right; exact both_boot|lia|lia|left|apply bytes_ok_dec; reflexivity|reflexivity].
Defined.

Lemma efuse_set_power_cut_witness :
  let s := board_ft both_cells new_rec in
  wp (tls_ft_param_set 0x20000100 CMD_WIFI_MAC 0x20001000 sample_mac 6) s (fun r s' =>
    fs_low (ft_store s') = true \/
    (r = 0 /\ exists cuts, fs_cuts (ft_store s') = fs_cuts (ft_store s) ++ cuts /\
       Forall (fun i => ft_boot i = (1, gftParamVer1 s) \/ ft_boot i = (1, gftParamVer1 s') \/
         collides (gftParamVer1 s) (gftParamVer1 s') i) cuts)).
Proof.
  apply efuse_set_power_cut;
    [apply board_ok, new_rec_ok|exact both_boot|lia|lia|left|apply bytes_ok_dec; reflexivity|reflexivity].
Defined.

Lemma efuse_set_typed_witness :
  let s := board_ft erased (replicate 220 0) in
  wp (tls_ft_param_set 0x20000100 CMD_WIFI_MAC 0x20001000 sample_mac 6) s (fun r s' =>
    (r = 0 \/ r = -1) /\ ft_ok s' /\ length (gftParamVer1 s') = 220%nat /\ bytes_ok (gftParamVer1 s') /\
    forall a, 0x2000 <= a -> fs_byte (ft_store s') a = fs_byte (ft_store s) a).
Proof.
  apply efuse_set_typed; [apply board_ok, zeros220_ok|lia|lia|left|apply bytes_ok_dec; reflexivity|reflexivity].
Defined.

(** The record of the old kind as start-up loads it. *)
Definition old_loaded : list Z := Eval vm_compute in ft_loaded (ft_boot (fs_byte (board_fls old_cells))).

Lemma efuse_old_record_loses_freq_err_witness :
  let s := board_ft old_cells old_loaded in
  range (fs_byte (ft_store s)) 132 4 = le_bytes 4 1234 /\
  wp (before ← tls_ft_param_get CMD_FREQ_ERR 0x20001000 (replicate 4 0) FREQERR_LEN;
      r ← tls_ft_param_set 0x20000100 CMD_TX_DC 0x20001000 [5; 0; 0; 0] 4;
      after ← tls_ft_param_get CMD_FREQ_ERR 0x20001000 (replicate 4 0) FREQERR_LEN;
      mret (before, r, after)) s (fun '(before, r, after) s' =>
    fs_low (ft_store s') = true \/
    (before = (0, range (fs_byte (ft_store s)) 132 4) /\ r = (if set_copy CMD_TX_DC 4 then 0 else -1) /\
     after = (0, [0xFF; 0xFF; 0xFF; 0xFF]))).
Proof.
  split; [vm_compute; reflexivity|].
  apply (efuse_old_record_loses_freq_err 0x20000100 0x20001000 CMD_TX_DC 4 [5; 0; 0; 0]);
    [apply board_ok; split; [reflexivity|apply bytes_ok_dec; reflexivity]|vm_compute; reflexivity|vm_compute; reflexivity|lia|lia|lia
    |apply bytes_ok_dec; reflexivity|right; split; [do 2 right; left|split; [discriminate|reflexivity]]].
Defined.

Lemma efuse_mac_usable_witness :
  let s := board_ft erased (replicate 220 0) in
  wp (tls_get_mac_addr 0x20001000 (replicate 6 0)) s (fun '(e, out) s' =>
    s' = s /\ e = 0 /\ mac_usable out = true /\
    out = (let mac := slice 8 6 (gftParamVer1 s) in if mac_usable mac then mac else default_mac)) /\
  wp (tls_get_bt_mac_addr 0x20001000 (replicate 6 0)) s (fun '(e, out) s' =>
    s' = s /\ e = 0 /\ bt_usable out = true /\
    out = (let mac := slice 16 6 (gftParamVer1 s) in if bt_usable mac then mac else [0xC0; 0x25; 0x08; 0x09; 0x01; 0x10])).
Proof. apply efuse_mac_usable; [exact zeros220_ok|reflexivity]. Defined.

Lemma efuse_freq_err_clamped_witness :
  let s := board_ft old_cells old_loaded in
  let stored := s32 (le_val (if _ft_ext1_valid (gftParamVer1 s) then slice 136 4 (gftParamVer1 s)
    else range (fs_byte (ft_store s)) 132 4)) in
  wp (tls_freq_err_op 0x20000100 0x20001000 (replicate 4 0) 0) s (fun '(status, out) s' =>
    status = TLS_EFUSE_STATUS_OK /\ -200000 <= s32 (get_le 0 4 out) <= 200000 /\
    (fs_low (ft_store s') = true \/ s32 (get_le 0 4 out) = Z.max (-200000) (Z.min 200000 stored))).
Proof.
  apply efuse_freq_err_clamped;
    [apply board_ok; split; [reflexivity|apply bytes_ok_dec; reflexivity]|lia|reflexivity].
Defined.
