(* ===== verification/Fwup.v ===== *)
(** * Firmware update: image header and reception of the image ([wm_fwup.c])

    An image arrives as a stream of bytes cut into requests: a header of 64
    bytes, the code, and a signature of 128 bytes when the header announces
    one.  The header is collected in [booter] and checked, then everything is
    streamed to the update area; when all of it is there the code is read
    back and its CRC compared with the one in the header, and the boot
    loader's flag is written.  This file is what the update task does with
    one request; [FwupTask] is the queue, the task and the entry points. *)
From S2P Require Import Prelude CMonad FlsDriver CrcHard Storage ParamData Param.

Definition IMG_TYPE_FLASHBIN0 : Z := 1.
Definition IMAGE_START_ADDR_MSK : Z := 0x400.
Definition CODE_UPD_START_ADDR : Z := 0x8010000.
Definition CODE_RUN_START_ADDR : Z := 0x80D0000.
Definition USER_ADDR_START : Z := 0x81E0000.

Definition TLS_FWUP_REQ_STATUS_IDLE : Z := 0.
Definition TLS_FWUP_REQ_STATUS_BUSY : Z := 1.
Definition TLS_FWUP_REQ_STATUS_SUCCESS : Z := 2.
Definition TLS_FWUP_REQ_STATUS_FIO : Z := 3.
Definition TLS_FWUP_REQ_STATUS_FSIGNATURE : Z := 4.
Definition TLS_FWUP_REQ_STATUS_FMEM : Z := 5.
Definition TLS_FWUP_REQ_STATUS_FCRC : Z := 6.
Definition TLS_FWUP_REQ_STATUS_FCOMPLETE : Z := 7.

Definition TLS_FWUP_STATE_UNDEF : Z := 0xffff.
Definition TLS_FWUP_STATE_BUSY : Z := 1 ≪ 0.
Definition TLS_FWUP_STATE_COMPLETE : Z := 1 ≪ 1.
Definition TLS_FWUP_STATE_ERROR_IO : Z := 1 ≪ 2.
Definition TLS_FWUP_STATE_ERROR_SIGNATURE : Z := 1 ≪ 3.
Definition TLS_FWUP_STATE_ERROR_MEM : Z := 1 ≪ 4.
Definition TLS_FWUP_STATE_ERROR_CRC : Z := 1 ≪ 5.
Definition TLS_FWUP_STATE_ERROR : Z :=
  TLS_FWUP_STATE_ERROR_IO ||| TLS_FWUP_STATE_ERROR_SIGNATURE ||| TLS_FWUP_STATE_ERROR_MEM ||| TLS_FWUP_STATE_ERROR_CRC.

(** ** [IMAGE_HEADER_PARAM_ST] *)

Definition sizeof_header : Z := 64.

Definition magic_no (h : list Z) : Z := get_le 0 4 h.
Definition img_attr (h : list Z) : Z := get_le 4 4 h.
Definition img_addr (h : list Z) : Z := get_le 8 4 h.
Definition img_len (h : list Z) : Z := get_le 12 4 h.
Definition img_header_addr (h : list Z) : Z := get_le 16 4 h.
Definition upgrade_img_addr (h : list Z) : Z := get_le 20 4 h.
Definition org_checksum (h : list Z) : Z := get_le 24 4 h.
Definition hd_checksum (h : list Z) : Z := get_le 60 4 h.

(** The bit fields of [img_attr]. *)
Definition img_type (h : list Z) : Z := img_attr h &&& 15.
Definition code_encrypt (h : list Z) : Z := (img_attr h ≫ 4) &&& 1.
Definition signature (h : list Z) : Z := (img_attr h ≫ 8) &&& 1.

(** ** [struct tls_fwup] (its list head is a node of [FwupTask]) *)

Inductive tls_fwup_image_src :=
  | TLS_FWUP_IMAGE_SRC_LUART
  | TLS_FWUP_IMAGE_SRC_HUART
  | TLS_FWUP_IMAGE_SRC_HSPI
  | TLS_FWUP_IMAGE_SRC_WEB.

Definition src_num (s : tls_fwup_image_src) : Z :=
  match s with
  | TLS_FWUP_IMAGE_SRC_LUART => 0
  | TLS_FWUP_IMAGE_SRC_HUART => 1
  | TLS_FWUP_IMAGE_SRC_HSPI => 2
  | TLS_FWUP_IMAGE_SRC_WEB => 3
  end.

Record tls_fwup := Fwup {
  list_lock : Z;
  busy : bool;
  current_image_src : tls_fwup_image_src;
  current_state : Z;
  current_session_id : Z;
  received_len : Z;
  total_len : Z;
  updated_len : Z;
  program_base : Z;
  program_offset : Z;
  received_number : Z
}.

Definition set_state (v : Z) (c : tls_fwup) : tls_fwup :=
  Fwup (list_lock c) (busy c) (current_image_src c) (u16 v) (current_session_id c) (received_len c) (total_len c)
    (updated_len c) (program_base c) (program_offset c) (received_number c).
Definition set_received_len (v : Z) (c : tls_fwup) : tls_fwup :=
  Fwup (list_lock c) (busy c) (current_image_src c) (current_state c) (current_session_id c) (u32 v) (total_len c)
    (updated_len c) (program_base c) (program_offset c) (received_number c).
Definition set_total_len (v : Z) (c : tls_fwup) : tls_fwup :=
  Fwup (list_lock c) (busy c) (current_image_src c) (current_state c) (current_session_id c) (received_len c) (u32 v)
    (updated_len c) (program_base c) (program_offset c) (received_number c).
Definition set_updated_len (v : Z) (c : tls_fwup) : tls_fwup :=
  Fwup (list_lock c) (busy c) (current_image_src c) (current_state c) (current_session_id c) (received_len c) (total_len c)
    (u32 v) (program_base c) (program_offset c) (received_number c).
Definition set_program_base (v : Z) (c : tls_fwup) : tls_fwup :=
  Fwup (list_lock c) (busy c) (current_image_src c) (current_state c) (current_session_id c) (received_len c) (total_len c)
    (updated_len c) (u32 v) (program_offset c) (received_number c).
Definition set_program_offset (v : Z) (c : tls_fwup) : tls_fwup :=
  Fwup (list_lock c) (busy c) (current_image_src c) (current_state c) (current_session_id c) (received_len c) (total_len c)
    (updated_len c) (program_base c) (u32 v) (received_number c).

(** [fwup->current_state |= bits] *)
Definition or_state (bits : Z) (c : tls_fwup) : tls_fwup := set_state (current_state c ||| bits) c.
(** [fwup->current_state & bits] as a condition. *)
Definition in_state (c : tls_fwup) (bits : Z) : bool := negb (current_state c &&& bits =? 0).

(** What the task works on with one request: the parameter manager with the
    flash and the crypto unit below it, [*fwup], and its local [booter]. *)
Record upd (F : Type) := Upd { pars : par F; ctl : tls_fwup; booter : list Z }.
Arguments Upd {F}.
Arguments pars {F}.
Arguments ctl {F}.
Arguments booter {F}.

(** What the local [run_param] holds before it is read. *)
Class FwupLocals := { run_param_junk : list Z; run_param_size : length run_param_junk = 64%nat }.

Section fwup.
Context {F : Type} `{FlashStore F} `{!FlashBurst F} `{CrcEngine} `{Statics} `{FwupLocals}.
Abbreviation st := (upd F).

Definition on_pars {A} (m : M (par F) A) : M st A := zoom pars (fun p s => Upd p (ctl s) (booter s)) m.
Definition on_flash {A} (m : M F A) : M st A := on_pars (on_store m).
Definition set_ctl (f : tls_fwup -> tls_fwup) : M st unit := modify (fun s => Upd (pars s) (f (ctl s)) (booter s)).
Definition set_booter (f : list Z -> list Z) : M st unit := modify (fun s => Upd (pars s) (ctl s) (f (booter s))).

(** ** The header *)

(** [crccallen/4] updates of four bytes each. *)
Definition header_crc (img_param : list Z) : M st Z :=
  let crccallen := sizeof_header - 4 in
  ctx ← on_pars (on_crypto (crc_updates (tls_crypto_crc_init 0xFFFFFFFF CRYPTO_CRC_TYPE_32 3)
    ((fun i => slice (i * 4) 4 img_param) <$> seqZ 0 (crccallen / 4))));
  mret (tls_crypto_crc_final ctx).

(** One attribute is set and the other is not. *)
Definition differ (a b : Z) : bool := (negb (a =? 0) && (b =? 0)) || ((a =? 0) && negb (b =? 0)).

Definition tls_fwup_img_header_check (img_param : list Z) : M st bool :=
  if negb (magic_no img_param =? SIGNATURE_WORD) then mret false
  else if negb (img_type img_param =? IMG_TYPE_FLASHBIN0) then mret false
  else
    r ← on_flash (fs_read (img_header_addr img_param) locals_at run_param_junk sizeof_header);
    let run_param := snd r in
    if differ (signature run_param) (signature img_param) then mret false
    else if differ (code_encrypt run_param) (code_encrypt img_param) then mret false
    else if negb (img_addr img_param mod IMAGE_START_ADDR_MSK =? 0) then mret false
    else if USER_ADDR_START <=? (img_addr img_param ||| FLASH_BASE_ADDR) then mret false
    else if USER_ADDR_START <=? u32 ((img_addr img_param ||| FLASH_BASE_ADDR) + img_len img_param) then mret false
    else if ((upgrade_img_addr img_param ||| FLASH_BASE_ADDR) <? CODE_UPD_START_ADDR) ||
            (CODE_RUN_START_ADDR <=? u32 ((upgrade_img_addr img_param ||| FLASH_BASE_ADDR) + img_len img_param))
    then mret false
    else
      crcvalue ← header_crc img_param;
      mret (hd_checksum img_param =? crcvalue).

(** ** One request *)

(** The failure a request in the waiting list gets once the update has
    failed; [status] is what it has so far. *)
Definition discard_status (c : tls_fwup) (status : Z) : Z :=
  if in_state c TLS_FWUP_STATE_ERROR_IO then TLS_FWUP_REQ_STATUS_FIO
  else if in_state c TLS_FWUP_STATE_ERROR_SIGNATURE then TLS_FWUP_REQ_STATUS_FSIGNATURE
  else if in_state c TLS_FWUP_STATE_ERROR_MEM then TLS_FWUP_REQ_STATUS_FMEM
  else if in_state c TLS_FWUP_STATE_ERROR_CRC then TLS_FWUP_REQ_STATUS_FCRC
  else status.

(** [request->status = status; fwup->current_state |= bits; goto request_finish;] *)
Definition fail_with (bits status : Z) : M st Z := set_ctl (or_state bits) ;; mret status.

(** The header is complete: check it, take over its numbers and write it.
    [None]: go on. *)
Definition header_complete : M st (option Z) :=
  b ← gets booter;
  ok ← tls_fwup_img_header_check b;
  if negb ok then status ← fail_with TLS_FWUP_STATE_ERROR_IO TLS_FWUP_REQ_STATUS_FIO; mret (Some status)
  else
    set_ctl (set_program_base (upgrade_img_addr b ||| FLASH_BASE_ADDR)) ;;
    set_ctl (set_program_offset 0) ;;
    set_ctl (set_total_len (img_len b + sizeof_header)) ;;
    (if negb (signature b =? 0) then set_ctl (fun c => set_total_len (total_len c + 128) c) else mret tt) ;;
    c ← gets ctl;
    err ← on_flash (fb_write (u32 (program_base c + program_offset c)) locals_at b sizeof_header);
    if negb (err =? TLS_FLS_STATUS_OK)
    then status ← fail_with TLS_FWUP_STATE_ERROR_IO TLS_FWUP_REQ_STATUS_FIO; mret (Some status)
    else
      set_ctl (set_updated_len sizeof_header) ;;
      set_ctl (set_program_offset sizeof_header) ;;
      mret None.

(** The part of the request that belongs to the header.  A result of [inl] is the
    status of a request that is finished; otherwise the rest of the buffer,
    its address and [request->data_len]. *)
Definition take_header (data : Z) (buffer : list Z) (data_len : Z) : M st (Z + Z * list Z * Z) :=
  c ← gets ctl;
  if received_len c <? sizeof_header then
    let len := sizeof_header - received_len c in
    let len := if data_len <? len then data_len else len in
    set_booter (memcpy_at (received_len c) (take (Z.to_nat len) buffer)) ;;
    set_ctl (set_received_len (received_len c + len)) ;;
    c ← gets ctl;
    r ← (if received_len c =? sizeof_header then header_complete else mret None);
    mret (match r with
          | Some status => inl status
          | None => inr (data + len, drop (Z.to_nat len) buffer, data_len - len)
          end)
  else mret (inr (data, buffer, data_len)).

(** One round of [while (left > 0)]: read a piece of the code back and add
    it to the CRC.  The loop variables are [offset], [left], the contents of
    [buffer_t] and the CRC context. *)
Definition verify_body (p : Z) (x : Z * Z * list Z * psCrcContext_t) :
    M st (Z * Z * list Z * psCrcContext_t + option Z) :=
  let '(offset, left_, buffer_t, crcContext) := x in
  if negb (0 <? left_) then mret (inr (Some (tls_crypto_crc_final crcContext)))
  else
    let len := if 1024 <? left_ then 1024 else left_ in
    c ← gets ctl;
    r ← on_flash (fs_read (u32 (program_base c + offset)) p buffer_t len);
    if negb (fst r =? TLS_FLS_STATUS_OK) then mret (inr None)
    else
      crcContext ← on_pars (on_crypto (tls_crypto_crc_update crcContext (snd r) len));
      mret (inl (u32 (offset + len), u32 (left_ - len), snd r, crcContext)).

(** Everything has been received: the status and whether the image is good.
    The buffer is not freed when a read fails. *)
Definition verify_image : M st Z :=
  on_flash fb_destroy ;;
  r ← on_flash (fs_alloc 1024);
  match r with
  | None => fail_with TLS_FWUP_STATE_ERROR_MEM TLS_FWUP_REQ_STATUS_FMEM
  | Some (p, buffer_t) =>
      b ← gets booter;
      c ← gets ctl;
      let left_ := if negb (signature b =? 0) then u32 (total_len c - 128 - sizeof_header)
                  else u32 (total_len c - sizeof_header) in
      crc ← mloop (Z.to_nat (left_ / 1024 + 2)) (verify_body p)
        (sizeof_header, left_, buffer_t, tls_crypto_crc_init 0xFFFFFFFF CRYPTO_CRC_TYPE_32 3);
      match crc with
      | None => fail_with TLS_FWUP_STATE_ERROR_IO TLS_FWUP_REQ_STATUS_FIO
      | Some image_checksum =>
          on_flash (fs_free p) ;;
          if negb (org_checksum b =? image_checksum)
          then fail_with TLS_FWUP_STATE_ERROR_CRC TLS_FWUP_REQ_STATUS_FCRC
          else
            m ← gets (fun s => fs_map (store (pars s)));
            on_flash (fs_write (TLS_FLASH_OTA_FLAG_ADDR m) locals_at (slice 24 4 b) 4) ;;
            set_ctl (or_state TLS_FWUP_STATE_COMPLETE) ;;
            mret TLS_FWUP_REQ_STATUS_SUCCESS
      end
  end.

(** [if (request->data_len > 0) ...]: program the rest of the request. *)
Definition program (buf : Z) (buffer : list Z) (data_len : Z) : M st Z :=
  if negb (0 <? data_len) then mret TLS_FWUP_REQ_STATUS_SUCCESS
  else
    c ← gets ctl;
    err ← on_flash (fb_write (u32 (program_base c + program_offset c)) buf buffer data_len);
    if negb (err =? TLS_FLS_STATUS_OK) then fail_with TLS_FWUP_STATE_ERROR_IO TLS_FWUP_REQ_STATUS_FIO
    else
      set_ctl (fun c => set_program_offset (program_offset c + data_len) c) ;;
      set_ctl (fun c => set_updated_len (updated_len c + data_len) c) ;;
      c ← gets ctl;
      if total_len c <=? updated_len c then verify_image else mret TLS_FWUP_REQ_STATUS_SUCCESS.

(** The body of the loop up to [request_finish], for a request whose data
    are the bytes [buffer] at [data], of which [data_len] must be there: the
    request's status. *)
Definition fwup_request (data : Z) (buffer : list Z) (data_len : Z) : M st Z :=
  c ← gets ctl;
  if zlen buffer <? data_len then stuck
  else if in_state c TLS_FWUP_STATE_ERROR then mret (discard_status c TLS_FWUP_REQ_STATUS_BUSY)
  else if in_state c TLS_FWUP_STATE_COMPLETE then mret TLS_FWUP_REQ_STATUS_FCOMPLETE
  else
    r ← (if src_num (current_image_src c) <=? src_num TLS_FWUP_IMAGE_SRC_WEB then
           r ← take_header data buffer data_len;
           match r with
           | inl status => mret (inl status)
           | inr (buf, buffer, data_len) =>
               set_ctl (fun c => set_received_len (received_len c + data_len) c) ;;
               mret (inr (buf, buffer, data_len))
           end
         else mret (inr (0, [], data_len)));
    match r with
    | inl status => mret status
    | inr (buf, buffer, data_len) => program buf buffer data_len
    end.

End fwup.
