(* ===== verification/FwupHeader.v ===== *)
(** * The check of an image header

    [header_accepts] is the condition of [tls_fwup_img_header_check] on the
    header and on the header of the running image; what it guarantees about
    the areas the image will occupy, and where its 32-bit sums wrap. *)
From S2P Require Import Prelude CMonad Checksum FlsDriver CrcHard Storage ParamData Param ParamImage ParamSpec ParamInit Fwup.
Import Crc32 Crc32Facts.

Definition header_accepts (run h : list Z) : bool :=
  (magic_no h =? SIGNATURE_WORD) && (img_type h =? IMG_TYPE_FLASHBIN0) &&
  negb (differ (signature run) (signature h)) && negb (differ (code_encrypt run) (code_encrypt h)) &&
  (img_addr h mod IMAGE_START_ADDR_MSK =? 0) &&
  negb (USER_ADDR_START <=? (img_addr h ||| FLASH_BASE_ADDR)) &&
  negb (USER_ADDR_START <=? u32 ((img_addr h ||| FLASH_BASE_ADDR) + img_len h)) &&
  negb ((upgrade_img_addr h ||| FLASH_BASE_ADDR) <? CODE_UPD_START_ADDR) &&
  negb (CODE_RUN_START_ADDR <=? u32 ((upgrade_img_addr h ||| FLASH_BASE_ADDR) + img_len h)) &&
  (hd_checksum h =? ref_reg 0xFFFFFFFF (take 60 h)).

Definition header_ok (h : list Z) : Prop := length h = 64%nat /\ bytes_ok h.

(** The header of the running image lies in the flash. *)
Definition run_header_at (size : Z) (h : list Z) : Prop :=
  img_header_addr h + 64 < 2 ^ 32 /\ img_header_addr h mod 2 ^ 27 + 64 <= size.

Lemma header_words h : length h = 64%nat -> concat ((fun i => slice (i * 4) 4 h) <$> seqZ 0 15) = take 60 h.
Proof. intros Hl. do 64 (destruct h as [|? h]; [done|]). reflexivity. Qed.

Lemma ref_reg_range r l : 0 <= r < 2 ^ 32 -> bytes_ok l -> 0 <= ref_reg r l < 2 ^ 32.
Proof. intros Hr Hl. by apply ref_reg_bounds. Qed.

Lemma get_le_u32 off h : bytes_ok h -> 0 <= get_le off 4 h < 2 ^ 32.
Proof. intros Hb. exact (get_le_bounds off 4 h ltac:(lia) Hb). Qed.

Section header.
Context {F : Type} `{FlashStoreLaws F} `{!FlashBurst F} `{!FlashBurstLaws F} `{CrcEngineLaws} `{Statics} `{FwupLocals}.
Implicit Types u : upd F.

Abbreviation bytes_of u := (fs_byte (store (pars u))).
Abbreviation low u := (fs_low (store (pars u))).

(** ** Running operations of the layers below *)

Definition with_pars (p : par F) u : upd F := Upd p (ctl u) (booter u).

Lemma on_pars_spec {A} (m : M (par F) A) u (Q : A -> upd F -> Prop) :
  wp m (pars u) (fun a p => Q a (with_pars p u)) -> wp (on_pars m) u Q.
Proof. intros Hm. apply wp_zoom. unfold wp in Hm. destruct (m (pars u)) as [[a p]|]; [exact Hm|done]. Qed.

Lemma on_flash_spec {A} (m : M F A) S u (Q : A -> upd F -> Prop) :
  par_ok (pars u) ->
  wp m (store (pars u)) (fun a f => fs_step S (store (pars u)) f /\
    (forall p, par_step S (pars u) p -> store p = f -> Q a (with_pars p u))) ->
  wp (on_flash m) u Q.
Proof.
  intros K Hm. apply on_pars_spec, (on_store_spec _ S); [done|]. eapply wp_mono; [exact Hm|].
  cbv beta. intros a f [Hs HQ]. split; [done|]. auto.
Qed.

(** The same, measured from an earlier state [p0]. *)
Lemma on_flash_from {A} (m : M F A) S S' p0 u (Q : A -> upd F -> Prop) :
  par_step S p0 (pars u) ->
  wp m (store (pars u)) (fun a f => fs_step S' (store p0) f /\
    (forall p, par_step S' p0 p -> store p = f -> Q a (with_pars p u))) ->
  wp (on_flash m) u Q.
Proof.
  intros [T [K1 K2 K3 K4] L U M] Hm. apply on_pars_spec. unfold on_store. apply wp_zoom.
  unfold wp in Hm. destruct (m (store (pars u))) as [[a f]|]; [|done]. destruct Hm as [Hs HQ].
  apply HQ; [|done]. split; [exact Hs| |done|done|done]. split; [apply Hs|done|done|]. simpl.
  rewrite (st_map _ _ _ T), (st_size _ _ _ T) in K4. by rewrite (st_map _ _ _ Hs), (st_size _ _ _ Hs).
Qed.

(** An operation that changes neither the flash nor the session. *)
Record quiet (p p' : par F) : Prop := {
  qt_step : par_step nowhere p p';
  qt_same : (fb_idle (store p) -> fb_idle (store p')) /\ (fb_open (store p) -> fb_open (store p')) /\
    (fs_low (store p') = fs_low (store p) ->
     forall s0 a0 len l, fb_stream s0 a0 len l (store p) -> fb_stream s0 a0 len l (store p'))
}.

Lemma quiet_refl p : par_ok p -> quiet p p.
Proof. intros K. split; [by apply par_step_refl|done]. Qed.

Lemma quiet_trans p1 p2 p3 : quiet p1 p2 -> quiet p2 p3 -> quiet p1 p3.
Proof.
  intros [T1 (? & ? & S1)] [T2 (? & ? & S2)]. split; [by eapply par_step_trans|]. split; [auto|]. split; [auto|].
  intros Hlow s0 a0 len l Hs. pose proof (par_step_low _ _ _ T1). pose proof (par_step_low _ _ _ T2).
  assert (fs_low (store p2) = fs_low (store p1)).
  { destruct (fs_low (store p1)), (fs_low (store p2)), (fs_low (store p3)); intuition congruence. }
  apply S2; [congruence|]. by apply S1.
Qed.

Lemma quiet_store p p' : par_step nowhere p p' -> store p' = store p -> quiet p p'.
Proof. intros T E. split; [done|]. by rewrite E. Qed.

Lemma quiet_bytes p p' : quiet p p' -> fs_byte (store p') ≡ₐ fs_byte (store p).
Proof. intros [T _]. by apply par_step_quiet. Qed.

Lemma quiet_same p p' :
  par_step nowhere p p' -> fb_same (store p) (store p') -> quiet p p'.
Proof.
  intros T Hs. split; [done|]. split; [intros Hi; by eapply fb_same_idle|].
  split; [intros Hi; by eapply fb_same_open|]. intros Hl s0 a0 len l. by apply fb_same_stream.
Qed.

(** The header's CRC, computed four bytes at a time. *)
Lemma header_crc_spec h u (Q : Z -> upd F -> Prop) :
  par_ok (pars u) -> header_ok h ->
  (forall p, quiet (pars u) p -> Q (ref_reg 0xFFFFFFFF (take 60 h)) (with_pars p u)) ->
  wp (header_crc h) u Q.
Proof.
  intros K [Hl Hb] HQ. unfold header_crc. apply wp_bind, on_pars_spec, on_crypto_spec; [done|].
  apply crc_updates_spec; [apply K|lia| |].
  - apply Forall_forall. intros b (i & -> & Hi)%list_elem_of_fmap. apply elem_of_seqZ in Hi.
    split; [by apply slice_bytes_ok|]. unfold slice. rewrite length_take. lia.
  - intros c Hc. split; [done|]. intros p T E _. apply wp_ret.
    change ((sizeof_header - 4) / 4) with 15. rewrite header_words by done. apply HQ. by apply quiet_store.
Qed.

(** What the check reads of the running image. *)
Definition run_header u (h : list Z) : list Z := range (bytes_of u) (img_header_addr h mod 2 ^ 27) 64.

Lemma read_run_spec h u (Q : Z * list Z -> upd F -> Prop) :
  par_ok (pars u) -> bytes_ok h -> run_header_at (fs_size (store (pars u))) h ->
  (forall e run p, quiet (pars u) p ->
     run = run_header u h \/ (run = run_param_junk /\ fs_low (store p) = true) -> Q (e, run) (with_pars p u)) ->
  wp (on_flash (fs_read (img_header_addr h) locals_at run_param_junk sizeof_header)) u Q.
Proof.
  intros K Hb [Hw Hfit] HQ. apply (on_flash_spec _ nowhere); [done|].
  pose proof (get_le_u32 16 h Hb) as Ha. change (get_le 16 4 h) with (img_header_addr h) in Ha.
  pose proof run_param_size as Hj. assert (Hn : 0 < sizeof_header <= zlen run_param_junk) by (rewrite Hj; done).
  eapply wp_mono.
  { apply wp_and; [apply fs_read_spec|apply fb_read_same];
      [apply K|apply locals_nonnull|lia|exact Hw|exact Hn|exact Hfit|apply K|apply locals_nonnull|lia|exact Hw|exact Hn|exact Hfit]. }
  cbv beta. intros [e run] f [(Hs & _ & Hr) Hsame]. split; [done|]. intros p T <-.
  apply HQ; [by apply quiet_same|]. cbn [snd] in Hr. destruct Hr as [->|[-> ?]]; [left|by right].
  apply memcpy_at_all. rewrite Hj. apply length_range.
Qed.

(** The result of the check. *)
Lemma header_check_spec h u (Q : bool -> upd F -> Prop) :
  par_ok (pars u) -> header_ok h -> (magic_no h = SIGNATURE_WORD -> run_header_at (fs_size (store (pars u))) h) ->
  (forall run p, quiet (pars u) p ->
     run = run_header u h \/ (run = run_param_junk /\ fs_low (store p) = true) -> Q (header_accepts run h) (with_pars p u)) ->
  wp (tls_fwup_img_header_check h) u Q.
Proof.
  intros K Hh Hrun HQ. unfold tls_fwup_img_header_check.
  assert (Hno : header_accepts (run_header u h) h = false -> wp (mret false) u Q).
  { intros Hf. apply wp_ret. rewrite <- Hf. destruct u. apply (HQ _ _ (quiet_refl _ K)). by left. }
  destruct (Z.eqb_spec (magic_no h) SIGNATURE_WORD) as [Hm|Hm]; cbn [negb].
  2: { apply Hno. unfold header_accepts. by rewrite (proj2 (Z.eqb_neq _ _) Hm). }
  destruct (Z.eqb_spec (img_type h) IMG_TYPE_FLASHBIN0) as [Ht|Ht]; cbn [negb].
  2: { apply Hno. unfold header_accepts. by rewrite (proj2 (Z.eqb_neq _ _) Ht), andb_false_r. }
  apply wp_bind, read_run_spec; [done|apply Hh|by apply Hrun|]. intros e run p Hq Hr. cbn [snd].
  assert (Hacc : forall b, header_accepts run h = b -> wp (mret b) (with_pars p u) Q).
  { intros b <-. apply wp_ret. by apply HQ. }
  assert (Heq : forall p', quiet p p' -> header_accepts run h = (hd_checksum h =? ref_reg 0xFFFFFFFF (take 60 h)) ->
    Q (hd_checksum h =? ref_reg 0xFFFFFFFF (take 60 h)) (with_pars p' (with_pars p u))).
  { intros p' Hq' <-. apply HQ; [by eapply quiet_trans|]. destruct Hr as [?|[? ?]]; [by left|right].
    split; [done|]. by eapply par_step_low; [apply Hq'|]. }
  unfold header_accepts in Hacc, Heq. rewrite Hm, Ht, !Z.eqb_refl in Hacc, Heq.
  destruct (differ (signature run) (signature h)); [by apply Hacc|].
  destruct (differ (code_encrypt run) (code_encrypt h)); [by apply Hacc|]. cbn [andb negb] in *.
  destruct (img_addr h mod IMAGE_START_ADDR_MSK =? 0); cbn [andb negb] in *; [|by apply Hacc].
  destruct (USER_ADDR_START <=? (img_addr h ||| FLASH_BASE_ADDR)); cbn [andb negb] in *; [by apply Hacc|].
  destruct (USER_ADDR_START <=? u32 _); cbn [andb negb] in *; [by apply Hacc|].
  destruct ((upgrade_img_addr h ||| FLASH_BASE_ADDR) <? CODE_UPD_START_ADDR); cbn [andb negb orb] in *; [by apply Hacc|].
  destruct (CODE_RUN_START_ADDR <=? u32 _); cbn [andb negb] in *; [by apply Hacc|].
  apply wp_bind, header_crc_spec; [apply Hq|done|]. intros p' Hq'. apply wp_ret. by apply Heq.
Qed.
End header.
