(* ===== verification/FwupSpec.v ===== *)
(** * What the update task does with one request

    The bytes received so far determine the state of a session
    ([receiving]); a request extends them and is answered by [judge]: more
    to come, a bad header, or everything there - and then the image is read
    back, its CRC decides, and the boot loader's flag is written. *)
From S2P Require Import Prelude CMonad Checksum FlsDriver CrcHard Storage ParamData Param ParamImage ParamSpec ParamInit Fwup FwupHeader.
Import Crc32 Crc32Facts.

Definition base_of (h : list Z) : Z := upgrade_img_addr h ||| FLASH_BASE_ADDR.

(** Header, code and signature. *)
Definition total_of (h : list Z) : Z := img_len h + 64 + (if signature h =? 0 then 0 else 128).

(** The session has room for [len] bytes of this image, whose length does
    not wrap. *)
Definition image_fits (size len : Z) (h : list Z) : Prop :=
  burst_fits size (base_of h) len /\ img_len h + 192 < 2 ^ 32 /\ 64 < total_of h.

Inductive verdict := More | Bad_header | Verify.

(** [ok]: the header was accepted. *)
Definition judge (ok : bool) (l : list Z) : verdict :=
  if zlen l <? 64 then More
  else if negb ok then Bad_header
  else if zlen l <? total_of (take 64 l) then More
  else Verify.

(** The CRC over the code agrees with the header. *)
Definition image_good (l : list Z) : bool :=
  org_checksum (take 64 l) =? ref_reg 0xFFFFFFFF (slice 64 (img_len (take 64 l)) l).

Lemma range_sub f off l i n :
  range f off (zlen l) = l -> 0 <= i -> 0 <= n -> i + n <= zlen l -> range f (off + i) n = slice i n l.
Proof.
  intros Hf Hi Hn Hl. rewrite <- (slice_range f off (zlen l)) by lia. by rewrite Hf.
Qed.

(** Extending the part of a buffer that is filled. *)
Lemma take_memcpy_next (l x b : list Z) :
  take (length l) b = l -> zlen l + zlen x <= zlen b ->
  take (length l + length x) (memcpy_at (zlen l) x b) = l ++ x.
Proof.
  intros Hl Hf. apply byte_list_eq; [rewrite length_take, length_memcpy_at, length_app; lia|].
  rewrite length_take, length_memcpy_at. intros i Hi.
  assert (Ht : forall m (y : list Z), 0 <= i < Z.of_nat m -> byte_at (take m y) i = byte_at y i).
  { intros m y Hm. unfold byte_at. rewrite !nth_lookup, lookup_take_lt by lia. done. }
  rewrite Ht, byte_at_memcpy by lia. unfold byte_at at 3.
  destruct (Z.leb_spec (zlen l) i); cbn [andb].
  - rewrite (proj2 (Z.ltb_lt _ _)) by lia. rewrite app_nth2 by lia. unfold byte_at. f_equal. lia.
  - rewrite app_nth1 by lia. rewrite <- (Ht (length l) b) by lia. by rewrite Hl.
Qed.

Section spec.
Context {F : Type} `{FlashStoreLaws F} `{!FlashBurst F} `{!FlashBurstLaws F} `{CrcEngineLaws} `{Statics} `{FwupLocals}.
Implicit Types u : upd F.
Implicit Types p : par F.

Abbreviation bytes_of u := (fs_byte (store (pars u))).
Abbreviation low u := (fs_low (store (pars u))).

(** The sectors an image of at most [len] bytes with header [h] may change. *)
Definition area (h : list Z) (len : Z) : Z -> Prop := burst_region (base_of h mod 2 ^ 27) len.

(** The header of the running image that a new header refers to. *)
Definition real_run p0 (h : list Z) : list Z := range (fs_byte (store p0)) (img_header_addr h mod 2 ^ 27) 64.

(** [l] has been received since [p0], where the session was opened. *)
Record receiving p0 (len : Z) (l : list Z) u : Prop := {
  rc_state : current_state (ctl u) = 0 \/ current_state (ctl u) = 1;
  rc_received : received_len (ctl u) = zlen l;
  rc_bytes : bytes_ok l /\ zlen l <= len /\ 0 <= len < 2 ^ 31;
  rc_booter : header_ok (booter u) /\ take (length (take 64 l)) (booter u) = take 64 l;
  rc_flash :
    if zlen l <? 64 then quiet p0 (pars u) /\ updated_len (ctl u) = 0
    else
      let h := take 64 l in
      (exists run, header_accepts run h = true) /\ zlen l < total_of h /\
      (true = header_accepts (real_run p0 h) h \/ low u = true) /\
      (exists p1, quiet p0 p1 /\ par_step (area h len) p1 (pars u) /\
         fb_stream (store p1) (base_of h) len l (store (pars u))) /\
      program_base (ctl u) = base_of h /\ program_offset (ctl u) = zlen l /\ updated_len (ctl u) = zlen l /\
      total_len (ctl u) = total_of h
}.

Lemma receiving_ok p0 len l u : receiving p0 len l u -> par_ok (pars u).
Proof.
  intros [_ _ _ _ R]. destruct (zlen l <? 64); [destruct R as [[T _] _]; apply T|].
  destruct R as (_ & _ & _ & (p1 & _ & T & _) & _). apply T.
Qed.

(** Failing. *)
Lemma fail_with_spec bits status u (Q : Z -> upd F -> Prop) :
  Q status (Upd (pars u) (or_state bits (ctl u)) (booter u)) -> wp (fail_with bits status) u Q.
Proof. intros HQ. by apply wp_bind, wp_modify, wp_ret. Qed.

(** ** Reading the image back *)

Section verify.
Variables (u0 : upd F) (l : list Z) (bp len : Z).
#[local] Abbreviation h := (take 64 l).
#[local] Abbreviation off := (base_of h mod 2 ^ 27).
Hypothesis Hb : bytes_ok l.
Hypothesis Hbp : bp <> 0.
Hypothesis Hfits : image_fits (fs_size (store (pars u0))) len h.
Hypothesis Hlen : total_of h <= zlen l <= len.
Hypothesis Hok : par_ok (pars u0).
Hypothesis Hflash : range (bytes_of u0) off (zlen l) = l.
Hypothesis Hbase : program_base (ctl u0) = base_of h.

#[local] Abbreviation code := (slice 64 (img_len h) l).

Lemma image_bounds :
  0 <= img_len h /\ img_len h + 64 <= zlen l /\ 0 <= base_of h < 2 ^ 28 /\ base_of h + zlen l < 2 ^ 32 /\
  off + zlen l <= fs_size (store (pars u0)) /\ length code = Z.to_nat (img_len h) /\
  forall k, 0 <= k <= zlen l -> (base_of h + k) mod 2 ^ 27 = off + k.
Proof.
  destruct Hfits as ((Ha & Hr & Hl & Hboot & Hfit) & Hw & Hpos).
  pose proof (get_le_u32 12 h (Forall_take _ _ _ Hb)) as Hi. change (get_le 12 4 h) with (img_len h) in Hi.
  unfold total_of in *. pose proof (fs_size_ok _ (pk_store _ Hok)) as [_ Hs].
  assert (Hz : 0 <= zlen l) by lia. assert (img_len h + 64 <= zlen l) by (destruct (signature h =? 0); lia).
  split; [lia|]. split; [done|]. split; [done|]. split; [dlia|]. split; [dlia|]. split; [by rewrite length_slice by lia|].
  intros k Hk. rewrite <- (Z.mod_small (off + k) (2 ^ 27)) by dlia. by rewrite Zplus_mod_idemp_l.
Qed.

(** [k] bytes of the code have been read and summed up as [data]. *)
Definition verify_inv (x : Z * Z * list Z * psCrcContext_t) u : Prop :=
  let '(offset, left_, b, ctx) := x in
  exists k data, 0 <= k <= img_len h /\ offset = 64 + k /\ left_ = img_len h - k /\ length b = 1024%nat /\ bytes_ok b /\
    bytes_ok data /\ ctx = crc32_ctx (ref_reg 0xFFFFFFFF data) /\
    par_step nowhere (pars u0) (pars u) /\ ctl u = ctl u0 /\ booter u = booter u0 /\
    (data = take (Z.to_nat k) code \/ low u = true).

Lemma verify_read x u (Q : Z * Z * list Z * psCrcContext_t + option Z -> upd F -> Prop) :
  let '(offset, left_, b, ctx) := x in
  verify_inv x u -> 0 < left_ ->
  (forall x' u', verify_inv x' u' -> snd (fst (fst x')) = left_ - Z.min 1024 left_ -> Q (inl x') u') ->
  wp (verify_body bp x) u Q.
Proof.
  destruct x as [[[offset left_] b] ctx].
  intros (k & data & Hk & -> & -> & Hbl & Hbb & Hdb & -> & T & Hc & Hbo & Hd) Hleft HQ.
  destruct image_bounds as (Hi & Hil & Hbr & Hbz & Hfit & Hcl & Hmod).
  unfold verify_body. rewrite (proj2 (Z.ltb_lt _ _)) by done. cbn [negb].
  set (n := Z.min 1024 (img_len h - k)).
  replace (if 1024 <? img_len h - k then 1024 else img_len h - k) with n by (unfold n; case_match; lia). cbv zeta.
  apply wp_bind, wp_gets. rewrite Hc, Hbase. replace (u32 (base_of h + (64 + k))) with (base_of h + (64 + k))
    by (symmetry; apply wrap_id; lia).
  pose proof (par_step_quiet _ _ T) as Hq. assert (Hsz : fs_size (store (pars u)) = fs_size (store (pars u0))) by apply T.
  apply wp_bind, (on_flash_spec _ nowhere); [apply T|].
  eapply wp_mono; [apply fs_read_spec; [apply T|exact Hbp|lia|lia|lia|rewrite Hmod, Hsz by lia; lia]|].
  cbv beta. intros [e b'] f (Hs & He & Hr). cbn [fst snd] in *. subst e. split; [done|]. intros p Tp Hst.
  change (TLS_FLS_STATUS_OK =? TLS_FLS_STATUS_OK) with true. cbn [negb].
  rewrite Hmod in Hr by lia. replace (off + (64 + k)) with (off + (64 + k)) in Hr by done.
  assert (Hx : range (bytes_of u) (off + (64 + k)) n = slice (64 + k) n l).
  { rewrite <- (range_sub (bytes_of u0) off) by (done || lia). by rewrite Hq. }
  rewrite Hx in Hr. assert (Hxl : length (slice (64 + k) n l) = Z.to_nat n) by (rewrite length_slice; lia).
  assert (Hb' : length b' = 1024%nat /\ bytes_ok b').
  { destruct Hr as [->|[-> _]]; [|done]. split; [by rewrite length_memcpy_at|].
    apply memcpy_bytes_ok; [by apply slice_bytes_ok|done]. }
  destruct Hb' as [Hbl' Hbb'].
  apply wp_bind, on_pars_spec, on_crypto_spec; [apply Tp|].
  apply crc_update_spec; [apply Tp|apply ref_reg_bounds; [lia|done]|done|lia|lia|].
  intros c' Hc' _. split; [done|]. intros p' Tp' Est _. apply wp_ret. rewrite <- ref_reg_app.
  apply HQ; [|cbn [fst snd]; rewrite wrap_id by lia; unfold n; lia].
  exists (k + n), (data ++ take (Z.to_nat n) b'). split; [lia|]. split; [rewrite wrap_id by lia; lia|].
  split; [rewrite wrap_id by lia; lia|]. split; [done|]. split; [done|].
  split; [apply Forall_app; split; [done|by apply Forall_take]|]. split; [done|].
  split; [do 2 (eapply par_step_trans; [eassumption|]); exact Tp'|]. split; [done|]. split; [done|].
  change (pars (with_pars p' (with_pars p u))) with p'. rewrite Est. change (pars (with_pars p u)) with p. rewrite Hst.
  assert (Hlow : low u = true -> fs_low f = true) by apply Hs.
  destruct Hd as [Hd|Hd]; [|right; by apply Hlow]. destruct Hr as [Hr|[_ Hr]]; [left|by right].
  rewrite Hr, Hd. rewrite take_memcpy_at by lia. unfold slice.
  rewrite (Z2Nat.inj_add k n), (Z2Nat.inj_add 64 k), <- drop_drop by lia.
  rewrite !take_take, !Nat.min_l by lia. apply take_take_drop.
Qed.

Lemma verify_loop_spec b u (Q : option Z -> upd F -> Prop) :
  length b = 1024%nat -> bytes_ok b -> par_step nowhere (pars u0) (pars u) -> ctl u = ctl u0 -> booter u = booter u0 ->
  (forall data u', par_step nowhere (pars u0) (pars u') -> ctl u' = ctl u0 -> booter u' = booter u0 ->
     data = code \/ low u' = true -> Q (Some (ref_reg 0xFFFFFFFF data)) u') ->
  wp (mloop (Z.to_nat (img_len h / 1024 + 2)) (verify_body bp)
        (sizeof_header, img_len h, b, tls_crypto_crc_init 0xFFFFFFFF CRYPTO_CRC_TYPE_32 3)) u Q.
Proof.
  intros Hbl Hbb T Hc Hbo HQ. destruct image_bounds as (Hi & _ & _ & _ & _ & Hcl & _).
  apply (wp_loop verify_inv (fun '(_, left_, _, _) => Z.to_nat ((left_ + 1023) / 1024))).
  - dlia.
  - exists 0, []. split; [lia|]. split; [done|]. split; [lia|]. do 4 (split; [done|]). split; [done|]. split; [done|].
    split; [done|]. by left.
  - intros [[[offset left_] b'] ctx] u' Hinv. destruct (Z.ltb_spec 0 left_) as [Hpos|Hdone].
    + apply (verify_read (offset, left_, b', ctx)); [done|done|]. intros [[[o' l'] b2] c2] u2 Hinv2 Hl'. cbn [fst snd] in Hl'.
      split; [dlia|done].
    + destruct Hinv as (k & data & Hk & -> & -> & _ & _ & _ & -> & T' & Hc' & Hbo' & Hd).
      unfold verify_body. rewrite (proj2 (Z.ltb_ge _ _)) by done. cbn [negb]. apply wp_ret.
      apply HQ; [done|done|done|]. rewrite take_ge in Hd by lia. exact Hd.
Qed.
End verify.

(** ** The end of the reception *)

(** Where the boot loader's flag lives: outside the update area. *)
Definition ota_off (p : par F) : Z := TLS_FLASH_OTA_FLAG_ADDR (fs_map (store p)) mod 2 ^ 27.
Definition ota_apart (p : par F) (h : list Z) (len : Z) : Prop :=
  BOOT_SIZE <= ota_off p /\ ota_off p + 4 <= fs_size (store p) /\
  forall a, sectors_of (ota_off p) 4 a -> ~ area h len a.

(** Everything has been received since [p0]: [status] and the state say what
    became of it. *)
Definition concluded p0 (len : Z) (l : list Z) (status : Z) u : Prop :=
  let h := take 64 l in
  let received := range (bytes_of u) (base_of h mod 2 ^ 27) (zlen l) in
  updated_len (ctl u) = zlen l /\ total_len (ctl u) = total_of h /\ zlen l < 2 ^ 32 /\
  ((status = TLS_FWUP_REQ_STATUS_SUCCESS /\ in_state (ctl u) TLS_FWUP_STATE_COMPLETE = true /\
      par_step (fun a => area h len a \/ sectors_of (ota_off p0) 4 a) p0 (pars u) /\
      (low u = true \/ (image_good l = true /\ received = l /\
         range (bytes_of u) (ota_off p0) 4 = slice 24 4 h))) \/
   (status = TLS_FWUP_REQ_STATUS_FCRC /\ in_state (ctl u) TLS_FWUP_STATE_ERROR_CRC = true /\
      par_step (area h len) p0 (pars u) /\ (low u = true \/ (image_good l = false /\ received = l))) \/
   (status = TLS_FWUP_REQ_STATUS_FMEM /\ in_state (ctl u) TLS_FWUP_STATE_ERROR_MEM = true /\
      par_step (area h len) p0 (pars u) /\ low u = true)).

Lemma fits_size p p' S len h : par_step S p p' -> image_fits (fs_size (store p)) len h -> image_fits (fs_size (store p')) len h.
Proof. intros [T _ _ _ _]. by rewrite (st_size _ _ _ T). Qed.

Lemma quiet_step S p p' : quiet p p' -> par_step S p p'.
Proof. intros Hq. apply par_step_nowhere, Hq. Qed.

Lemma sectors_in off a : off <= a < off + 4 -> sectors_of off 4 a.
Proof. unfold sectors_of. dlia. Qed.

(** The flag is written, whether or not there is memory for it. *)
Lemma write_flag_spec p0 l len u (Q : Z -> upd F -> Prop) :
  let h := take 64 l in
  par_step (area h len) p0 (pars u) -> bytes_ok l -> 64 <= zlen l -> ota_apart p0 h len ->
  range (bytes_of u) (base_of h mod 2 ^ 27) (zlen l) = l -> zlen l <= len ->
  (forall r u', par_step (fun a => area h len a \/ sectors_of (ota_off p0) 4 a) p0 (pars u') -> ctl u' = ctl u ->
     low u' = true \/ (low u' = low u /\ range (bytes_of u') (base_of h mod 2 ^ 27) (zlen l) = l /\
       range (bytes_of u') (ota_off p0) 4 = slice 24 4 h) -> Q r u') ->
  wp (on_flash (fs_write (TLS_FLASH_OTA_FLAG_ADDR (fs_map (store (pars u)))) locals_at (slice 24 4 h) 4)) u Q.
Proof.
  intros h T Hb Hl (Hboot & Hfit & Hap) Hrec Hll HQ.
  assert (Hm : fs_map (store (pars u)) = fs_map (store p0)) by apply T.
  assert (Hsz : fs_size (store (pars u)) = fs_size (store p0)) by apply T. rewrite Hm.
  assert (Hh : length (slice 24 4 h) = 4%nat) by (unfold h; rewrite length_slice; rewrite ?length_take; lia).
  apply (on_flash_spec _ (sectors_of (ota_off p0) 4)); [apply T|].
  eapply wp_mono.
  { apply fs_write_spec; [apply T|apply locals_nonnull|apply slice_bytes_ok; by apply Forall_take|rewrite Hh; lia
      |exact Hboot|rewrite Hsz; exact Hfit]. }
  cbv beta. intros r f [Hs Hr]. split; [exact Hs|]. intros p Tp Hst.
  rewrite take_ge in Hr by (rewrite Hh; lia). apply HQ; [|done|].
  - eapply par_step_trans; [eapply par_step_mono; [|exact T]; intros a; by left|].
    eapply par_step_mono; [|exact Tp]. intros a; by right.
  - change (pars (with_pars p u)) with p. rewrite Hst. destruct Hr as [(_ & Ho & Hw)|(_ & Ho & _)]; [right|by left].
    split; [exact Ho|]. rewrite Hw. split.
    + rewrite <- Hrec at 2. apply range_ext. intros a Ha. apply overlay_out. rewrite Hh.
      destruct (decide (ota_off p0 <= a < ota_off p0 + 4)) as [Hin|Hout]; [|unfold ota_off in *; lia].
      destruct (Hap a); [by apply sectors_in|]. unfold area, burst_region. dlia.
    + pose proof (range_overlay (bytes_of u) (ota_off p0) (slice 24 4 h)) as Hx. rewrite Hh in Hx. exact Hx.
Qed.

(** A state bit that has just been set. *)
Lemma in_state_set (c c' : tls_fwup) bits :
  current_state c = 0 \/ current_state c = 1 -> current_state c' = u16 (current_state c ||| bits) ->
  forallb (fun s => negb (u16 (s ||| bits) &&& bits =? 0)) [0; 1] = true -> in_state c' bits = true.
Proof.
  intros Hs Hc Hb. simpl in Hb. unfold in_state. rewrite Hc.
  apply andb_prop in Hb as [H0' [H1' _]%andb_prop]. by destruct Hs as [-> | ->].
Qed.

(** The decision once the CRC is known. *)
Lemma decide_spec p0 l len data u (Q : Z -> upd F -> Prop) :
  let h := take 64 l in
  par_step (area h len) p0 (pars u) -> bytes_ok l -> zlen l <= len < 2 ^ 31 -> 64 <= zlen l -> ota_apart p0 h len ->
  current_state (ctl u) = 0 \/ current_state (ctl u) = 1 -> updated_len (ctl u) = zlen l -> total_len (ctl u) = total_of h ->
  range (bytes_of u) (base_of h mod 2 ^ 27) (zlen l) = l -> data = slice 64 (img_len h) l \/ low u = true ->
  (forall status u', concluded p0 len l status u' -> (low u = true -> low u' = true) -> Q status u') ->
  wp (if negb (org_checksum h =? ref_reg 0xFFFFFFFF data)
      then fail_with TLS_FWUP_STATE_ERROR_CRC TLS_FWUP_REQ_STATUS_FCRC
      else
        m ← gets (fun s => fs_map (store (pars s)));
        on_flash (fs_write (TLS_FLASH_OTA_FLAG_ADDR m) locals_at (slice 24 4 h) 4) ;;
        set_ctl (or_state TLS_FWUP_STATE_COMPLETE) ;;
        mret TLS_FWUP_REQ_STATUS_SUCCESS) u Q.
Proof.
  intros h T Hb Hll H64 Hota Hst Hupd Htl Hrec Hdata HQ.
  assert (Hgood : image_good l = (org_checksum h =? ref_reg 0xFFFFFFFF data) \/ low u = true).
  { destruct Hdata as [->|Hlow]; [by left|by right]. }
  destruct (org_checksum h =? ref_reg 0xFFFFFFFF data); cbn [negb].
  2: { apply fail_with_spec, HQ; [|done]. split; [exact Hupd|]. split; [exact Htl|]. split; [lia|]. right; left.
       split; [done|]. split; [eapply in_state_set; [exact Hst|reflexivity|reflexivity]|]. split; [exact T|].
       destruct Hgood as [Hg|Hg]; [right; split; [exact Hg|exact Hrec]|left; exact Hg]. }
  apply wp_bind, wp_gets. apply wp_bind, (write_flag_spec p0 l len u); [exact T|done|done|exact Hota|exact Hrec|lia|].
  intros r u6 T6 Hc6 Hw6. apply wp_bind, wp_modify, wp_ret, HQ.
  2: { intros Hl. destruct Hw6 as [Hw|(Hlow & _)]; [exact Hw|]. cbn. by rewrite Hlow. }
  split; [cbn; by rewrite Hc6|]. split; [cbn; by rewrite Hc6|]. split; [lia|]. left. split; [done|].
  split; [eapply (in_state_set (ctl u6)); [by rewrite Hc6|reflexivity|reflexivity]|]. split; [exact T6|].
  destruct Hw6 as [Hw|(Hlow & Hr & Hf)]; [left; exact Hw|]. destruct Hgood as [Hg|Hg].
  - right. split; [exact Hg|]. split; [exact Hr|exact Hf].
  - left. cbn. by rewrite Hlow.
Qed.

Lemma verify_image_spec p0 p1 l len u (Q : Z -> upd F -> Prop) :
  let h := take 64 l in
  quiet p0 p1 -> par_step (area h len) p1 (pars u) -> fb_stream (store p1) (base_of h) len l (store (pars u)) ->
  bytes_ok l -> zlen l <= len < 2 ^ 31 -> 64 <= zlen l -> total_of h <= zlen l -> image_fits (fs_size (store p0)) len h -> ota_apart p0 h len ->
  current_state (ctl u) = 0 \/ current_state (ctl u) = 1 ->
  program_base (ctl u) = base_of h -> updated_len (ctl u) = zlen l -> total_len (ctl u) = total_of h -> booter u = h ->
  (forall status u', concluded p0 len l status u' -> (low u = true -> low u' = true) -> Q status u') ->
  wp verify_image u Q.
Proof.
  intros h Hq T Hstr Hb Hll H64 Htot Hfits Hota Hst Hbase Hupd Htl Hbo HQ. unfold verify_image.
  apply wp_bind, (on_flash_from _ (area h len) (area h len) p1); [exact T|].
  eapply wp_mono; [apply fb_destroy_spec; [exact Hstr|destruct l; [simpl in H64; lia|done]]|].
  cbv beta. intros _ f1 (Hs1 & Hlow1 & Hrec). split; [exact Hs1|]. intros p2 T2 Hst2. rewrite <- Hst2 in Hrec, Hlow1.
  rewrite <- (proj2 (fb_stream_step _ _ _ _ _ Hstr)) in Hlow1.
  set (u2 := with_pars p2 u).
  assert (T02 : par_step (area h len) p0 p2) by (eapply par_step_trans; [by apply quiet_step|exact T2]).
  apply wp_bind, (on_flash_spec _ nowhere); [apply T2|].
  eapply wp_mono; [apply fs_alloc_spec; [apply T2|lia]|]. cbv beta. intros [[bp b]|] f3 [Hs3 Hr3]; (split; [exact Hs3|]);
    intros p3 T3 Hst3; (assert (T03 : par_step (area h len) p0 p3) by (eapply par_step_trans; [exact T02|by apply par_step_nowhere])).
  2: { assert (Hl3 : fs_low (store p3) = true) by by rewrite Hst3.
       apply fail_with_spec, HQ; [|intros _; exact Hl3]. split; [exact Hupd|]. split; [exact Htl|]. split; [lia|]. right; right.
       split; [done|]. split; [eapply in_state_set; [exact Hst|reflexivity|reflexivity]|]. split; [exact T03|exact Hl3]. }
  destruct Hr3 as (Hbp & Hbl & Hbb). set (u3 := with_pars p3 u2).
  apply wp_bind, wp_gets, wp_bind, wp_gets. change (booter u3) with (booter u). rewrite Hbo.
  change (ctl u3) with (ctl u). rewrite Htl.
  assert (Hfits3 : image_fits (fs_size (store p3)) len h) by by eapply fits_size.
  assert (Hrec3 : range (bytes_of u3) (base_of h mod 2 ^ 27) (zlen l) = l).
  { rewrite <- Hrec at 2. apply range_ext. intros a _. by apply par_step_quiet. }
  destruct (image_bounds u3 l len Hb Hfits3 (conj Htot (proj1 Hll)) (ps_ok _ _ _ T03) Hrec3 Hbase) as (Hi & Hil & _). fold h in Hi, Hil.
  replace (if negb (signature h =? 0) then u32 (total_of h - 128 - sizeof_header) else u32 (total_of h - sizeof_header))
    with (img_len h).
  2: { destruct Hfits as (_ & Hw & _). unfold total_of, sizeof_header. destruct (signature h =? 0); cbn [negb]; rewrite wrap_id; lia. }
  cbv zeta. apply wp_bind, (verify_loop_spec u3 l bp len Hb Hbp Hfits3 (conj Htot (proj1 Hll)) (ps_ok _ _ _ T03) Hrec3 Hbase);
    [by rewrite Hbl|exact Hbb|by apply par_step_refl, T03|done|done|].
  intros data u4 T4 Hc4 Hbo4 Hdata. apply wp_bind, (on_flash_spec _ nowhere); [apply T4|].
  eapply wp_mono; [apply fs_free_spec, T4|]. cbv beta. intros _ f5 Hs5. split; [exact Hs5|]. intros p5 T5 Hst5.
  assert (T35 : par_step nowhere p3 p5) by (eapply par_step_trans; [exact T4|exact T5]).
  assert (Hrec5 : range (fs_byte (store p5)) (base_of h mod 2 ^ 27) (zlen l) = l).
  { rewrite <- Hrec3 at 2. apply range_ext. intros a _. by apply par_step_quiet. }
  apply (decide_spec p0 l len data (with_pars p5 u4)); cbn [ctl pars with_pars]; rewrite ?Hc4; try assumption.
  - eapply par_step_trans; [exact T03|by apply par_step_nowhere].
  - destruct Hdata as [->|Hlow]; [by left|right]. exact (par_step_low _ _ _ T5 Hlow).
  - intros status u' Hcon Hl. apply HQ; [done|]. intros Hlu. apply Hl, (par_step_low _ _ _ T35), (par_step_low _ _ _ T3).
    change (fs_low (store p2) = true). by rewrite Hlow1.
Qed.

(** ** One request *)

(** What a request that extends the bytes received to [l] leads to. *)
Definition answered p0 (len : Z) (l : list Z) (status : Z) u : Prop :=
  exists ok,
    (64 <= zlen l -> ok = header_accepts (real_run p0 (take 64 l)) (take 64 l) \/
       low u = true) /\
    match judge ok l with
    | More => status = TLS_FWUP_REQ_STATUS_SUCCESS /\ receiving p0 len l u
    | Bad_header =>
        status = TLS_FWUP_REQ_STATUS_FIO /\ in_state (ctl u) TLS_FWUP_STATE_ERROR_IO = true /\ quiet p0 (pars u)
    | Verify => concluded p0 len l status u
    end.

(** The bytes behind the header. *)
Lemma program_spec p0 l x len bp u (Q : Z -> upd F -> Prop) :
  let l' := l ++ x in let h := take 64 l in
  receiving p0 len l u -> 64 <= zlen l -> bytes_ok x -> bp <> 0 -> zlen l' <= len ->
  image_fits (fs_size (store p0)) len h -> ota_apart p0 h len ->
  (forall status u', match judge true l' with
     | More => status = TLS_FWUP_REQ_STATUS_SUCCESS /\ receiving p0 len l' u'
     | _ => concluded p0 len l' status u'
     end -> (low u = true -> low u' = true) -> Q status u') ->
  wp (set_ctl (fun c => set_received_len (received_len c + zlen x) c) ;; program bp x (zlen x)) u Q.
Proof.
  intros l' h R H64 Hx Hbp Hlen Hfits Hota HQ.
  pose proof R as [Rs Rr (Rb & Rl & Rlen) Rboot Rf]. rewrite (proj2 (Z.ltb_ge _ _)) in Rf by done.
  destruct Rf as (Racc & Rtl & Rag & (p1 & Q1 & T1 & S1) & Rbase & Roff & Rupd & Rtot). fold h in Racc, Rtl, Rag, T1, S1, Rbase, Rtot.
  assert (Hl' : zlen l' = zlen l + zlen x) by (unfold l'; rewrite length_app; lia).
  assert (Hh : take 64 l' = h) by (unfold l', h; rewrite take_app_le by lia; done).
  apply wp_bind, wp_modify. unfold program.
  set (c1 := set_received_len _ _). set (u1 := Upd _ _ _).
  assert (Hrec : received_len c1 = zlen l') by (cbn [c1 set_received_len received_len]; rewrite Rr, wrap_id; lia).
  unfold judge in HQ. rewrite (proj2 (Z.ltb_ge (zlen l') 64)) in HQ by lia. cbn [negb] in HQ. rewrite Hh in HQ.
  destruct (decide (x = [])) as [->|Hne].
  { cbn [negb Z.ltb Z.compare length Z.of_nat]. apply wp_ret, HQ. assert (El : l' = l) by apply app_nil_r.
    rewrite (proj2 (Z.ltb_lt _ _)) by (by rewrite El). 2: done. split; [done|]. rewrite El in *. destruct R as [? ? ? ? Rf'].
    split; [done|done|done|done|exact Rf']. }
  assert (Hpos : 0 < zlen x) by (destruct x; [done|simpl; lia]).
  rewrite (proj2 (Z.ltb_lt _ _)) by done. cbn [negb]. apply wp_bind, wp_gets.
  change (program_base (ctl u1)) with (program_base (ctl u)). change (program_offset (ctl u1)) with (program_offset (ctl u)).
  rewrite Rbase, Roff. destruct Hfits as [Hfit Hwrap]. pose proof Hfit as (_ & Hb28 & _).
  rewrite (wrap_id 32) by lia. apply wp_bind, (on_flash_from _ (area h len) (area h len) p1); [exact T1|].
  eapply wp_mono; [apply (fb_write_spec (store p1) (base_of h) len l); [exact S1|exact Hbp|exact Hx|done|lia]|].
  cbv beta. intros r f2 [-> S2]. destruct (fb_stream_step _ _ _ _ _ S2) as [Hs2 Hl2]. split; [exact Hs2|].
  assert (Hlow2 : low u = true -> fs_low f2 = true).
  { destruct (fb_stream_step _ _ _ _ _ S1) as [_ Hl1]. by rewrite Hl2, <- Hl1. }
  intros p2 T2 <-. change (negb (TLS_FLS_STATUS_OK =? TLS_FLS_STATUS_OK)) with false. cbn iota.
  apply wp_bind, wp_modify, wp_bind, wp_modify, wp_bind, wp_gets. cbn [ctl pars booter with_pars].
  set (c3 := set_updated_len _ _).
  assert (Hupd : updated_len c3 = zlen l') by (change (u32 (updated_len (ctl u) + zlen x) = zlen l'); rewrite Rupd, wrap_id; lia).
  assert (Htot : total_len c3 = total_of h) by exact Rtot. rewrite Hupd, Htot.
  assert (Hoff : program_offset c3 = zlen l') by (change (u32 (program_offset (ctl u) + zlen x) = zlen l'); rewrite Roff, wrap_id; lia).
  destruct Rboot as [Rboot1 Rboot2].
  assert (Hbt : booter u = h).
  { destruct Rboot1 as [Hbl _]. unfold h. rewrite <- Rboot2. symmetry. apply take_ge. rewrite length_take. lia. }
  destruct (Z.leb_spec (total_of h) (zlen l')) as [Hall|Hmore].
  - rewrite (proj2 (Z.ltb_ge (zlen l') _)) in HQ by done. rewrite <- Hh in *.
    apply (verify_image_spec p0 p1 l' len); [exact Q1|exact T2|exact S2|by apply Forall_app|lia|lia|done|by split|done
      |exact Rs|exact Rbase|exact Hupd|exact Htot|exact Hbt|].
    intros status u' Hcon Hl. apply HQ; [exact Hcon|]. intros Hlu. by apply Hl, Hlow2.
  - rewrite (proj2 (Z.ltb_lt (zlen l') _)) in HQ by done. apply wp_ret, HQ; [|exact Hlow2]. split; [done|].
    split; [exact Rs|exact Hrec|split; [by apply Forall_app|lia]| |].
    + rewrite Hh. split; [exact Rboot1|]. exact Rboot2.
    + rewrite (proj2 (Z.ltb_ge (zlen l') 64)) by lia. rewrite Hh. split; [exact Racc|]. split; [done|].
      split; [destruct Rag as [?|Hl]; [by left|right; by apply Hlow2]|]. split; [by exists p1|done].
Qed.

(** What must be known of a header once it is complete: where the header of
    the running image is, and that an accepted image has its place. *)
Definition header_known p0 (len : Z) (h : list Z) : Prop :=
  (magic_no h = SIGNATURE_WORD -> run_header_at (fs_size (store p0)) h) /\
  (forall run, header_accepts run h = true -> image_fits (fs_size (store p0)) len h /\ ota_apart p0 h len).

Lemma judged_run p0 u h run p :
  quiet p0 (pars u) -> quiet (pars u) p ->
  run = run_header u h \/ (run = run_param_junk /\ fs_low (store p) = true) ->
  header_accepts run h = header_accepts (real_run p0 h) h \/
  fs_low (store p) = true.
Proof.
  intros Q0 Qp [->|[_ ?]]; [left|by right]. unfold run_header, real_run. by rewrite (quiet_bytes _ _ Q0).
Qed.

(** The header has been collected. *)
Lemma header_complete_spec p0 len u (Q : option Z -> upd F -> Prop) :
  let h := booter u in
  let agreed ok u' := ok = header_accepts (real_run p0 h) h \/ low u' = true in
  quiet p0 (pars u) -> fb_open (store p0) -> header_ok h -> header_known p0 len h ->
  current_state (ctl u) = 0 \/ current_state (ctl u) = 1 -> received_len (ctl u) = 64 -> 64 <= len < 2 ^ 31 ->
  (forall u', agreed false u' -> in_state (ctl u') TLS_FWUP_STATE_ERROR_IO = true -> quiet p0 (pars u') ->
     Q (Some TLS_FWUP_REQ_STATUS_FIO) u') ->
  (forall u' run, header_accepts run h = true -> agreed true u' -> receiving p0 len h u' -> Q None u') ->
  wp header_complete u Q.
Proof.
  intros h agreed Hq Hopen Hh [Hrun Hfit] Hst Hrl Hlen Hno Hyes. unfold header_complete.
  apply wp_bind, wp_gets. fold h. apply wp_bind, header_check_spec; [apply Hq|done| |].
  { intros Hm. assert (E : fs_size (store (pars u)) = fs_size (store p0)) by apply Hq. rewrite E. auto. }
  intros run p Hp Hr. pose proof (judged_run _ _ _ _ _ Hq Hp Hr) as Hag.
  assert (Hqp : quiet p0 p) by by eapply quiet_trans.
  destruct (header_accepts run h) eqn:Hacc; cbn [negb].
  2: { apply wp_bind, fail_with_spec, wp_ret, Hno; [exact Hag| |exact Hqp].
       eapply in_state_set; [exact Hst|reflexivity|reflexivity]. }
  destruct (Hfit run Hacc) as [[Hb Hw] _]. pose proof Hb as (_ & Hb28 & _).
  destruct Hh as [Hhl Hhb]. pose proof (get_le_u32 12 h Hhb) as Hi. change (get_le 12 4 h) with (img_len h) in Hi.
  apply wp_bind, wp_modify, wp_bind, wp_modify, wp_bind, wp_modify. cbn [ctl pars booter with_pars].
  set (c3 := set_total_len _ _). set (u3 := Upd _ _ _).
  assert (Hsig : forall (K : unit -> upd F -> Prop),
    (forall c4, current_state c4 = current_state (ctl u) -> received_len c4 = 64 -> program_base c4 = base_of h ->
       program_offset c4 = 0 -> total_len c4 = total_of h -> K tt (Upd p c4 h)) ->
    wp (if negb (signature h =? 0) then set_ctl (fun c => set_total_len (total_len c + 128) c) else mret tt) u3 K).
  { intros K HK. assert (Hpb : u32 (upgrade_img_addr h ||| FLASH_BASE_ADDR) = base_of h) by (apply wrap_id; unfold base_of in *; lia).
    unfold total_of in HK. destruct (signature h =? 0); cbn [negb]; [apply wp_ret|apply wp_modify]; apply HK; try done.
    - cbn. unfold sizeof_header. rewrite wrap_id; lia.
    - cbn. unfold sizeof_header. rewrite wrap_add_l, wrap_id; lia. }
  apply wp_bind, Hsig. intros c4 Hs4 Hr4 Hb4 Ho4 Ht4. apply wp_bind, wp_gets. cbn [ctl]. rewrite Hb4, Ho4, Z.add_0_r, wrap_id by lia.
  assert (Hfs : fs_size (store p0) = fs_size (store p)) by (symmetry; apply Hqp). rewrite Hfs in Hb.
  apply wp_bind, (on_flash_from _ nowhere (area h len) p); [apply par_step_refl, Hqp|].
  assert (Hw64 := fb_write_spec (store p) (base_of h) len [] (store p) locals_at h).
  cbn [length Z.of_nat] in Hw64. rewrite Z.add_0_r, Hhl in Hw64.
  eapply wp_mono; [apply Hw64; [apply fb_start; [apply Hqp|by apply Hqp|exact Hb]|apply locals_nonnull|done|lia|lia]|].
  cbv beta. intros r f [-> S]. destruct (fb_stream_step _ _ _ _ _ S) as [Hs _]. split; [exact Hs|]. intros p5 T5 <-.
  change (negb (TLS_FLS_STATUS_OK =? TLS_FLS_STATUS_OK)) with false. cbn iota.
  apply wp_bind, wp_modify, wp_bind, wp_modify, wp_ret. apply (Hyes _ run Hacc).
  { destruct Hag as [?|Hl]; [by left|right]. exact (st_low _ _ _ (ps_store _ _ _ T5) Hl). }
  assert (Hz : zlen h = 64) by lia. assert (Ht : take 64 h = h) by (apply take_ge; lia). split.
  - cbn. by rewrite Hs4.
  - cbn. by rewrite Hr4, Hz.
  - split; [done|]. rewrite Hz. lia.
  - split; [by split|]. rewrite Ht. cbn. apply take_ge. lia.
  - rewrite Hz, Ht. cbn [Z.ltb Z.compare]. split; [by exists run|]. split; [apply Hw|].
    split; [destruct Hag as [?|Hl]; [by left|right; exact (st_low _ _ _ (ps_store _ _ _ T5) Hl)]|]. split; [exists p; split; [exact Hqp|]; split; [exact T5|exact S]|].
    cbn. auto.
Qed.

(** The part of a request that goes into the header. *)
Lemma take_header_spec p0 len l x bp u (Q : Z + Z * list Z * Z -> upd F -> Prop) :
  let h := take 64 (l ++ x) in
  let n := Z.min (64 - zlen l) (zlen x) in
  receiving p0 len l u -> zlen l < 64 -> fb_open (store p0) -> bytes_ok x -> zlen (l ++ x) <= len ->
  (64 <= zlen (l ++ x) -> header_known p0 len h) ->
  (zlen (l ++ x) < 64 -> forall u', receiving p0 len (l ++ x) u' -> Q (inr (bp + n, [], 0)) u') ->
  (64 <= zlen (l ++ x) -> forall u', false = header_accepts (real_run p0 h) h \/ low u' = true ->
     in_state (ctl u') TLS_FWUP_STATE_ERROR_IO = true -> quiet p0 (pars u') -> Q (inl TLS_FWUP_REQ_STATUS_FIO) u') ->
  (64 <= zlen (l ++ x) -> forall u' run, header_accepts run h = true -> receiving p0 len h u' ->
     Q (inr (bp + n, drop (Z.to_nat n) x, zlen x - n)) u') ->
  wp (take_header bp x (zlen x)) u Q.
Proof.
  intros h n R Hl Hopen Hx Hlen Hkn Hmore Hbad Hgo.
  pose proof R as [Rs Rr (Rb & Rl & Rlen) [Rboot1 Rboot2] Rf]. rewrite (proj2 (Z.ltb_lt _ _)) in Rf by done.
  destruct Rf as [Hq Hupd]. unfold take_header. apply wp_bind, wp_gets. rewrite Rr, (proj2 (Z.ltb_lt _ _)) by done.
  replace (if zlen x <? sizeof_header - zlen l then zlen x else sizeof_header - zlen l) with n
    by (unfold n, sizeof_header; case_match; lia). cbv zeta.
  apply wp_bind, wp_modify, wp_bind, wp_modify, wp_bind, wp_gets. cbn [ctl pars booter].
  set (b := memcpy_at _ _ _). set (c := set_received_len _ _).
  assert (Hn : 0 <= n <= zlen x) by (unfold n; lia). rewrite length_app in *.
  assert (Hxn : zlen (take (Z.to_nat n) x) = n) by (rewrite length_take; lia).
  assert (Hrc : received_len c = zlen l + n) by (cbn; rewrite wrap_id; lia).
  rewrite (take_ge l) in Rboot2 by lia.
  assert (Hb : take (length l + length (take (Z.to_nat n) x)) b = l ++ take (Z.to_nat n) x).
  { apply take_memcpy_next; [done|]. destruct Rboot1 as [-> _]. rewrite Hxn. unfold n. lia. }
  assert (Hbok : header_ok b).
  { destruct Rboot1 as [Hbl Hbb]. split; [by unfold b; rewrite length_memcpy_at|]. apply memcpy_bytes_ok; [by apply Forall_take|done]. }
  rewrite Hrc. unfold sizeof_header. destruct (Z.eqb_spec (zlen l + n) 64) as [Hfull|Hpart].
  - assert (Hbh : b = h).
    { destruct Hbok as [Hbl _]. rewrite (take_ge b) in Hb by lia. rewrite Hb. unfold h.
      rewrite take_app_ge by lia. f_equal. f_equal. lia. }
    rewrite Hbh in *. apply wp_bind, (header_complete_spec p0 len); cbn [booter pars ctl]; [done|done|done|apply Hkn; lia|done|lia|lia| |].
    + intros u' Hag He Hq'. apply wp_ret, Hbad; [lia|done|done|done].
    + intros u' run Hacc _ R'. apply wp_ret, (Hgo ltac:(lia) u' run); done.
  - assert (Hnx : n = zlen x) by (unfold n in *; lia). apply wp_bind, wp_ret, wp_ret.
    rewrite Hnx, Nat2Z.id, drop_all, Z.sub_diag. rewrite <- Hnx. apply Hmore; [lia|].
    rewrite Hnx, Nat2Z.id, firstn_all in Hb. split; [done|..].
    + cbn [ctl]. by rewrite Hrc, length_app, Hnx, Nat2Z.inj_add.
    + split; [by apply Forall_app|]. rewrite length_app. lia.
    + split; [done|]. rewrite (take_ge (l ++ x)) by (rewrite length_app; lia). by rewrite length_app.
    + rewrite length_app, (proj2 (Z.ltb_lt _ _)) by lia. done.
Qed.

(** Adding an empty remainder to the count changes nothing. *)
Lemma receiving_count0 p0 len l u :
  receiving p0 len l u ->
  receiving p0 len l (Upd (pars u) (set_received_len (received_len (ctl u) + 0) (ctl u)) (booter u)).
Proof.
  intros [Rs Rr (Rb & Rl & Rlen) Rboot Rf]. split; [exact Rs| |done|exact Rboot|exact Rf].
  cbn. rewrite Rr, Z.add_0_r. apply wrap_id. lia.
Qed.

(** The rest of a request once the header is there. *)
Lemma wp_rest p0 l x l' len bp u :
  l ++ x = l' -> receiving p0 len l u -> 64 <= zlen l -> bytes_ok x -> bp <> 0 -> zlen l' <= len ->
  header_known p0 len (take 64 l) ->
  wp (program bp x (zlen x)) (Upd (pars u) (set_received_len (received_len (ctl u) + zlen x) (ctl u)) (booter u))
    (fun status u' => answered p0 len l' status u').
Proof.
  intros <- R Hl Hx Hbp Hlen [_ Hfit].
  pose proof (rc_flash _ _ _ _ R) as Rf. rewrite (proj2 (Z.ltb_ge _ _)) in Rf by done.
  destruct Rf as ([run Hacc] & _ & Hag & _). destruct (Hfit run Hacc) as [Hf Ho].
  assert (Hh : take 64 (l ++ x) = take 64 l) by (rewrite take_app_le by lia; done).
  pose proof (program_spec p0 l x len bp u (fun status u' => answered p0 len (l ++ x) status u')
    R Hl Hx Hbp Hlen Hf Ho) as Hp.
  apply wp_bind_inv in Hp; [exact Hp|]. intros status u' Hj Hlow. exists true. rewrite Hh. split.
  - intros _. destruct Hag as [?|?]; [by left|right; auto].
  - revert Hj. unfold judge. rewrite Hh. destruct (zlen (l ++ x) <? 64); [done|]. cbn [negb].
    by destruct (zlen (l ++ x) <? total_of (take 64 l)).
Qed.

Lemma fwup_request_spec p0 len l x bp u :
  let h := take 64 (l ++ x) in
  receiving p0 len l u -> fb_open (store p0) -> bytes_ok x -> x <> [] -> bp <> 0 -> 0 <= bp -> zlen (l ++ x) <= len ->
  (64 <= zlen (l ++ x) -> header_known p0 len h) ->
  wp (fwup_request bp x (zlen x)) u (fun status u' => answered p0 len (l ++ x) status u').
Proof.
  intros h R Hopen Hx Hne Hbp Hbp0 Hlen Hkn. unfold fwup_request.
  apply wp_bind, wp_gets. rewrite Z.ltb_irrefl.
  assert (Hst : in_state (ctl u) TLS_FWUP_STATE_ERROR = false /\ in_state (ctl u) TLS_FWUP_STATE_COMPLETE = false).
  { destruct R as [Rs _ _ _ _]. unfold in_state. by destruct Rs as [-> | ->]. }
  destruct Hst as [-> ->].
  replace (src_num (current_image_src (ctl u)) <=? src_num TLS_FWUP_IMAGE_SRC_WEB) with true
    by (destruct (current_image_src (ctl u)); reflexivity).
  assert (Hlx : 0 < zlen x) by (destruct x; [done|simpl; lia]).
  destruct (Z.ltb_spec (zlen l) 64) as [Hl|Hl].
  - apply wp_bind, wp_bind, (take_header_spec p0 len l x bp); [done|done|done|done|done|done|..].
    + intros Hsmall u' R'. apply wp_bind, wp_modify, wp_ret, wp_ret. exists true. split; [lia|].
      unfold judge. rewrite (proj2 (Z.ltb_lt _ _)) by done. split; [done|]. by apply receiving_count0.
    + intros Hbig u' Hag He Hq. apply wp_ret, wp_ret. exists false. split; [by intros _|].
      unfold judge. by rewrite (proj2 (Z.ltb_ge _ _)).
    + intros Hbig u' run Hacc R'.
      set (n := Z.min _ _). assert (Hn : zlen (drop (Z.to_nat n) x) = zlen x - n) by (rewrite length_drop; lia).
      assert (Hj : take 64 (l ++ x) ++ drop (Z.to_nat n) x = l ++ x).
      { rewrite length_app in Hbig. rewrite take_app_ge by lia. rewrite <- app_assoc. f_equal.
        replace (64 - length l)%nat with (Z.to_nat n) by lia. apply take_drop. }
      assert (Hz : zlen (take 64 (l ++ x)) = 64) by (rewrite length_take; lia).
      apply wp_bind, wp_modify, wp_ret. rewrite <- Hn.
      assert (Ht : take 64 (take 64 (l ++ x)) = take 64 (l ++ x)) by (rewrite take_take; f_equal; lia).
      eapply wp_rest; [exact Hj|exact R'|lia|by apply Forall_drop|lia|exact Hlen|rewrite Ht; by apply Hkn].
  - apply wp_bind, wp_bind. unfold take_header. apply wp_bind, wp_gets.
    rewrite (rc_received _ _ _ _ R), (proj2 (Z.ltb_ge _ _)) by done. apply wp_ret, wp_bind, wp_modify, wp_ret.
    assert (Hh : take 64 (l ++ x) = take 64 l) by (rewrite take_app_le by lia; done). unfold h in Hkn. rewrite Hh, length_app in Hkn.
    eapply wp_rest; [reflexivity|exact R|done|done|done|exact Hlen|apply Hkn; lia].
Qed.

End spec.
