(* ===== verification/FwupTask.v ===== *)
(** * Firmware update: the task, its queue and the entry points ([wm_fwup.c])

    Clients hand requests to the update task through a doubly linked waiting
    list and a message queue and sleep on a semaphore until the task has
    dealt with them.  Objects whose addresses are passed around - [*fwup],
    the requests on the clients' stacks, the links of the waiting list, the
    semaphores - live in stores indexed by address; an access to an object
    that is not (or no longer) there has no result. *)
From S2P Require Import Prelude CMonad DlList FlsDriver CrcHard Storage ParamData Param Fwup.

Definition FWUP_MSG_QUEUE_SIZE : Z := 4.
Definition FWUP_TASK_STK_SIZE : Z := 256.
Definition FWUP_MSG_START_ENGINEER : Z := 1.

Definition TLS_FWUP_STATUS_OK : Z := 0.
Definition TLS_FWUP_STATUS_EINVALID : Z := 1.
Definition TLS_FWUP_STATUS_EMEM : Z := 2.
Definition TLS_FWUP_STATUS_EPERM : Z := 3.
Definition TLS_FWUP_STATUS_EBUSY : Z := 4.
Definition TLS_FWUP_STATUS_ESESSIONID : Z := 5.
Definition TLS_FWUP_STATUS_EIO : Z := 6.
Definition TLS_FWUP_STATUS_ESIGNATURE : Z := 7.
Definition TLS_FWUP_STATUS_ECRC : Z := 8.
Definition TLS_FWUP_STATUS_EUNDEF : Z := 9.

Definition TLS_PARAM_ID_PSM : Z := 22.
Definition WIFI_AUTO_CNT_ON : Z := 1.
Definition WIFI_AUTO_CNT_TMP_OFF : Z := 3.
Definition REBOOT_REASON_ACTIVE : Z := 4.

(** The parts of the system outside this module: the C library's [rand], the
    kernel's creation of queues and tasks, the flags of the Wi-Fi library and
    the register with the reboot reason. *)
Class Board (W : Type) := {
  rand : W -> Z * W;
  os_queue_create : W -> bool * W;
  os_task_create : W -> bool * W;
  wifi_auto_flag : W -> Z;
  wifi_set_auto_flag : Z -> W -> W;
  wifi_oneshot_flag : W -> Z;
  wifi_set_oneshot_flag : Z -> W -> W;
  wifi_set_psflag : Z -> W -> W;
  sys_set_reboot_reason : Z -> W -> W
}.

Inductive callback := NoCallback | Fwup_request_complete.

(** [struct tls_fwup_request]; its list node is at the same address in the
    store of links.  [r_bytes] is the memory at [r_data]. *)
Record tls_fwup_request := Request {
  r_data : Z;
  r_bytes : list Z;
  r_data_len : Z;
  r_status : Z;
  r_complete : callback;
  r_arg : Z
}.

Record fw (F W : Type) := Fw {
  fpars : par F;
  fbooter : list Z;
  board : W;
  fwup : Z;
  objs : gmap Z tls_fwup;
  links : gmap Z DlList.node;
  reqs : gmap Z tls_fwup_request;
  sems : gmap Z Z;
  next_sem : Z;
  fwup_msg_queue : option (list Z);
  fwup_task_stk : Z;
  oneshotback : Z
}.
Arguments Fw {F W}.
Arguments fpars {F W}.
Arguments fbooter {F W}.
Arguments board {F W}.
Arguments fwup {F W}.
Arguments objs {F W}.
Arguments links {F W}.
Arguments reqs {F W}.
Arguments sems {F W}.
Arguments next_sem {F W}.
Arguments fwup_msg_queue {F W}.
Arguments fwup_task_stk {F W}.
Arguments oneshotback {F W}.

Definition set_busy (b : bool) (c : tls_fwup) : tls_fwup :=
  Fwup (list_lock c) b (current_image_src c) (current_state c) (current_session_id c) (received_len c) (total_len c)
    (updated_len c) (program_base c) (program_offset c) (received_number c).
Definition set_list_lock (l : Z) (c : tls_fwup) : tls_fwup :=
  Fwup l (busy c) (current_image_src c) (current_state c) (current_session_id c) (received_len c) (total_len c)
    (updated_len c) (program_base c) (program_offset c) (received_number c).
Definition set_received_number (n : Z) (c : tls_fwup) : tls_fwup :=
  Fwup (list_lock c) (busy c) (current_image_src c) (current_state c) (current_session_id c) (received_len c) (total_len c)
    (updated_len c) (program_base c) (program_offset c) n.
Definition set_session (src : tls_fwup_image_src) (id : Z) (c : tls_fwup) : tls_fwup :=
  Fwup (list_lock c) (busy c) src (current_state c) id (received_len c) (total_len c)
    (updated_len c) (program_base c) (program_offset c) (received_number c).

(** [current_state = 0; received_len = 0; ... program_offset = 0;] *)
Definition clear_progress (c : tls_fwup) : tls_fwup :=
  Fwup (list_lock c) (busy c) (current_image_src c) 0 (current_session_id c) 0 0 0 0 0 (received_number c).

(** [*fwup] after [memset(fwup, 0, sizeof( *fwup))]. *)
Definition zero_fwup : tls_fwup := Fwup 0 false TLS_FWUP_IMAGE_SRC_LUART 0 0 0 0 0 0 0 0.
Definition sizeof_fwup : Z := 52.

(** What the [status] of a request on the stack is before it is set. *)
Class RequestJunk := request_status_junk : Z.

Section task.
Context {F W : Type} `{FlashStore F} `{!FlashBurst F} `{CrcEngine} `{Statics} `{FwupLocals} `{RequestJunk} `{Board W}.
Abbreviation st := (fw F W).

Definition on_par {A} (m : M (par F) A) : M st A :=
  zoom fpars (fun p s => Fw p (fbooter s) (board s) (fwup s) (objs s) (links s) (reqs s) (sems s) (next_sem s)
    (fwup_msg_queue s) (fwup_task_stk s) (oneshotback s)) m.
Definition on_board {A} (f : W -> A * W) : M st A :=
  zoom board (fun w s => Fw (fpars s) (fbooter s) w (fwup s) (objs s) (links s) (reqs s) (sems s) (next_sem s)
    (fwup_msg_queue s) (fwup_task_stk s) (oneshotback s)) (fun w => Some (f w)).
Definition do_board (f : W -> W) : M st unit := on_board (fun w => (tt, f w)).
Definition on_links {A} (m : M DlList.mem A) : M st A :=
  zoom links (fun l s => Fw (fpars s) (fbooter s) (board s) (fwup s) (objs s) l (reqs s) (sems s) (next_sem s)
    (fwup_msg_queue s) (fwup_task_stk s) (oneshotback s)) m.
Definition set_links (f : gmap Z DlList.node -> gmap Z DlList.node) : M st unit := modify (fun s =>
  Fw (fpars s) (fbooter s) (board s) (fwup s) (objs s) (f (links s)) (reqs s) (sems s) (next_sem s)
    (fwup_msg_queue s) (fwup_task_stk s) (oneshotback s)).
Definition set_fwup (p : Z) : M st unit := modify (fun s =>
  Fw (fpars s) (fbooter s) (board s) p (objs s) (links s) (reqs s) (sems s) (next_sem s)
    (fwup_msg_queue s) (fwup_task_stk s) (oneshotback s)).
Definition set_objs (f : gmap Z tls_fwup -> gmap Z tls_fwup) : M st unit := modify (fun s =>
  Fw (fpars s) (fbooter s) (board s) (fwup s) (f (objs s)) (links s) (reqs s) (sems s) (next_sem s)
    (fwup_msg_queue s) (fwup_task_stk s) (oneshotback s)).
Definition set_reqs (f : gmap Z tls_fwup_request -> gmap Z tls_fwup_request) : M st unit := modify (fun s =>
  Fw (fpars s) (fbooter s) (board s) (fwup s) (objs s) (links s) (f (reqs s)) (sems s) (next_sem s)
    (fwup_msg_queue s) (fwup_task_stk s) (oneshotback s)).
Definition set_sems (f : gmap Z Z -> gmap Z Z) : M st unit := modify (fun s =>
  Fw (fpars s) (fbooter s) (board s) (fwup s) (objs s) (links s) (reqs s) (f (sems s)) (next_sem s)
    (fwup_msg_queue s) (fwup_task_stk s) (oneshotback s)).
Definition set_next_sem (n : Z) : M st unit := modify (fun s =>
  Fw (fpars s) (fbooter s) (board s) (fwup s) (objs s) (links s) (reqs s) (sems s) n
    (fwup_msg_queue s) (fwup_task_stk s) (oneshotback s)).
Definition set_queue (q : option (list Z)) : M st unit := modify (fun s =>
  Fw (fpars s) (fbooter s) (board s) (fwup s) (objs s) (links s) (reqs s) (sems s) (next_sem s)
    q (fwup_task_stk s) (oneshotback s)).
Definition set_stk (p : Z) : M st unit := modify (fun s =>
  Fw (fpars s) (fbooter s) (board s) (fwup s) (objs s) (links s) (reqs s) (sems s) (next_sem s)
    (fwup_msg_queue s) p (oneshotback s)).
Definition set_oneshotback (v : Z) : M st unit := modify (fun s =>
  Fw (fpars s) (fbooter s) (board s) (fwup s) (objs s) (links s) (reqs s) (sems s) (next_sem s)
    (fwup_msg_queue s) (fwup_task_stk s) v).

(** [*fwup], and assignments to its members. *)
Definition the_fwup : M st tls_fwup := fun s => c ← objs s !! fwup s; Some (c, s).
Definition on_fwup (f : tls_fwup -> tls_fwup) : M st unit :=
  c ← the_fwup;
  p ← gets fwup;
  set_objs <[p := f c]>.

(** The work on one request, on [*fwup] and the task's [booter]. *)
Definition on_upd {A} (m : M (upd F) A) : M st A := fun s =>
  c ← objs s !! fwup s;
  '(a, u) ← m (Upd (fpars s) c (fbooter s));
  Some (a, Fw (pars u) (booter u) (board s) (fwup s) (<[fwup s := ctl u]> (objs s)) (links s) (reqs s) (sems s) (next_sem s)
             (fwup_msg_queue s) (fwup_task_stk s) (oneshotback s)).

Definition the_req (p : Z) : M st tls_fwup_request := fun s => r ← reqs s !! p; Some (r, s).
Definition set_req_status (p v : Z) : M st unit :=
  r ← the_req p;
  set_reqs <[p := Request (r_data r) (r_bytes r) (r_data_len r) v (r_complete r) (r_arg r)]>.

(** ** The kernel objects *)

(** [tls_os_sem_create(&sem, count)]: the handle, or nothing when it fails. *)
Definition tls_os_sem_create (count : Z) : M st (option Z) :=
  ok ← on_par (on_store fs_sem_create);
  if (ok : bool) then
    n ← gets next_sem;
    set_next_sem (n + 1) ;;
    set_sems <[n := count]> ;;
    mret (Some n)
  else mret None.
Definition tls_os_sem_delete (sem : Z) : M st unit := set_sems (delete sem).

(** Waiting for a semaphore that nobody releases meanwhile is for ever. *)
Definition tls_os_sem_acquire (sem : Z) : M st unit := fun s =>
  n ← sems s !! sem;
  if 0 <? n then set_sems <[sem := n - 1]> s else None.
Definition tls_os_sem_release (sem : Z) : M st unit := fun s =>
  n ← sems s !! sem;
  set_sems <[sem := n + 1]> s.

(** Sending does not wait: a full queue refuses the message. *)
Definition tls_os_queue_send (msg : Z) : M st bool :=
  q ← gets fwup_msg_queue;
  match q with
  | None => stuck
  | Some q => if zlen q <? FWUP_MSG_QUEUE_SIZE then set_queue (Some (q ++ [msg])) ;; mret true else mret false
  end.
Definition tls_os_queue_receive : M st Z :=
  q ← gets fwup_msg_queue;
  match q with
  | Some (msg :: q) => set_queue (Some q) ;; mret msg
  | _ => stuck
  end.

(** ** The task *)

Definition fwup_update_autoflag : M st unit :=
  auto_reconnect ← gets (fun s => wifi_auto_flag (board s));
  if auto_reconnect =? WIFI_AUTO_CNT_TMP_OFF then do_board (wifi_set_auto_flag WIFI_AUTO_CNT_ON) else mret tt.

Definition fwup_request_complete (request arg : Z) : M st unit :=
  if (request =? 0) || (arg =? 0) then mret tt else tls_os_sem_release arg.

(** Receiving a message, up to the head of the loop over the waiting list:
    [request] and [temp] of [dl_list_for_each_safe]. *)
Definition scheduler_next (n : Z) : M st (Z * Z) :=
  nd ← on_links (DlList.load n);
  mret (n, DlList.next nd).

Definition scheduler_receive : M st (option (Z * Z)) :=
  msg ← tls_os_queue_receive;
  if msg =? FWUP_MSG_START_ENGINEER then
    h ← gets fwup;
    empty ← on_links (DlList.dl_list_empty h);
    (if empty =? 0 then on_fwup (or_state TLS_FWUP_STATE_BUSY) else mret tt) ;;
    nd ← on_links (DlList.load h);
    x ← scheduler_next (DlList.next nd);
    mret (Some x)
  else mret None.

(** The body of the loop; whether it ends in [tls_sys_reset], which does not
    return. *)
Definition scheduler_item (request : Z) : M st bool :=
  set_req_status request TLS_FWUP_REQ_STATUS_BUSY ;;
  r ← the_req request;
  status ← on_upd (fwup_request (r_data r) (r_bytes r) (r_data_len r));
  c ← the_fwup;
  back ← gets oneshotback;
  (if (status =? TLS_FWUP_REQ_STATUS_SUCCESS) && in_state c TLS_FWUP_STATE_COMPLETE && negb (back =? 0)
   then do_board (wifi_set_oneshot_flag back) else mret tt) ;;
  set_req_status request status ;;
  (* request_finish: *)
  tls_os_sem_acquire (list_lock c) ;;
  on_links (DlList.dl_list_del request) ;;
  tls_os_sem_release (list_lock c) ;;
  h ← gets fwup;
  empty ← on_links (DlList.dl_list_empty h);
  (if empty =? 1 then on_fwup (fun c => set_state (current_state c &&& Z.lnot TLS_FWUP_STATE_BUSY) c) else mret tt) ;;
  c ← the_fwup;
  if (sizeof_header <=? updated_len c) && (total_len c <=? updated_len c) || negb (status =? TLS_FWUP_REQ_STATUS_SUCCESS) then
    fwup_update_autoflag ;;
    do_board (sys_set_reboot_reason REBOOT_REASON_ACTIVE) ;;
    mret true
  else
    match r_complete r with
    | NoCallback => mret tt
    | Fwup_request_complete => fwup_request_complete request (r_arg r)
    end ;;
    mret false.

(** One round of [while (1)] that nobody interrupts. *)
Definition fwup_scheduler (fuel : nat) : M st bool :=
  x ← scheduler_receive;
  match x with
  | None => mret false
  | Some x =>
      mloop fuel (fun '(request, temp) =>
        h ← gets fwup;
        if request =? h then mret (inr false)
        else
          reset ← scheduler_item request;
          if (reset : bool) then mret (inr true)
          else x ← scheduler_next temp; mret (inl x)) x
  end.

(** ** Installing the module *)

Definition free_fwup : M st unit :=
  p ← gets fwup;
  on_par (on_store (fs_free p)) ;;
  set_objs (delete p) ;;
  set_links (delete p).

Definition delete_queue : M st unit := set_queue None.

(** When the semaphore, the queue or the task's stack cannot be had, [fwup]
    keeps the address of the block that is given back. *)
Definition tls_fwup_init : M st Z :=
  p ← gets fwup;
  if negb (p =? 0) then mret TLS_FWUP_STATUS_EBUSY
  else
    b ← on_par (on_store (fs_alloc sizeof_fwup));
    match b with
    | None => mret TLS_FWUP_STATUS_EMEM
    | Some (p, _) =>
        set_fwup p ;;
        set_objs <[p := zero_fwup]> ;;
        set_links <[p := DlList.Node 0 0]> ;;
        sem ← tls_os_sem_create 1;
        match sem with
        | None => free_fwup ;; mret TLS_FWUP_STATUS_EMEM
        | Some sem =>
            on_fwup (set_list_lock sem) ;;
            on_links (DlList.dl_list_init p) ;;
            on_fwup (set_busy false) ;;
            ok ← on_board os_queue_create;
            if negb (ok : bool) then
              tls_os_sem_delete sem ;; free_fwup ;; mret TLS_FWUP_STATUS_EMEM
            else
              set_queue (Some []) ;;
              stk ← on_par (on_store (fs_alloc (FWUP_TASK_STK_SIZE * 4)));
              match stk with
              | Some (stk, _) =>
                  set_stk stk ;;
                  ok ← on_board os_task_create;
                  if negb (ok : bool) then
                    delete_queue ;;
                    tls_os_sem_delete sem ;;
                    on_fwup (set_list_lock 0) ;;
                    free_fwup ;;
                    set_fwup 0 ;;
                    on_par (on_store (fs_free stk)) ;;
                    set_stk 0 ;;
                    mret TLS_FWUP_STATUS_EMEM
                  else mret TLS_FWUP_STATUS_OK
              | None =>
                  set_stk 0 ;;
                  delete_queue ;;
                  tls_os_sem_delete sem ;;
                  on_fwup (set_list_lock 0) ;;
                  free_fwup ;;
                  mret TLS_FWUP_STATUS_EMEM
              end
        end
    end.

(** ** Sessions *)

(** [do { session_id = rand(); } while (session_id == 0);] *)
Definition draw_session (fuel : nat) : M st Z :=
  mloop fuel (fun _ : unit =>
    r ← on_board rand;
    let session_id := u32 r in
    mret (if session_id =? 0 then inl tt else inr session_id)) tt.

(** [tls_param_get(TLS_PARAM_ID_PSM, &enable, TRUE)], [enable] being FALSE before. *)
Definition get_psm : M st Z :=
  r ← on_par (tls_param_get TLS_PARAM_ID_PSM [0] true);
  mret (byte_at (snd r) 0).

(** The session id, 0 for a failure.  The status of
    [tls_fls_fast_write_init] is not looked at. *)
Definition tls_fwup_enter (fuel : nat) (image_src : tls_fwup_image_src) : M st Z :=
  tls_fwup_init ;;
  p ← gets fwup;
  if p =? 0 then mret 0
  else
    c ← the_fwup;
    if busy c then mret 0
    else
      session_id ← draw_session fuel;
      on_fwup (fun c => set_received_number (-1) (clear_progress c)) ;;
      on_fwup (fun c => set_busy true (set_session image_src session_id c)) ;;
      back ← gets (fun s => wifi_oneshot_flag (board s));
      set_oneshotback back ;;
      (if negb (back =? 0) then do_board (wifi_set_oneshot_flag 0) else mret tt) ;;
      enable ← get_psm;
      (if enable =? 1 then do_board (wifi_set_psflag 0) else mret tt) ;;
      on_par (on_store fb_init) ;;
      mret session_id.

(** The guards that [tls_fwup_exit], [tls_fwup_reset] and
    [tls_fwup_clear_error] share. *)
Definition session_guard (session_id : Z) (k : M st Z) : M st Z :=
  p ← gets fwup;
  if p =? 0 then mret TLS_FWUP_STATUS_EPERM
  else
    c ← the_fwup;
    if negb (busy c) then mret TLS_FWUP_STATUS_EPERM
    else if negb (session_id =? current_session_id c) then mret TLS_FWUP_STATUS_ESESSIONID
    else if in_state c TLS_FWUP_STATE_BUSY then mret TLS_FWUP_STATUS_EBUSY
    else k.

Definition tls_fwup_exit (session_id : Z) : M st Z :=
  session_guard session_id (
    on_fwup (fun c => set_received_number (-1) (clear_progress c)) ;;
    on_fwup (fun c => set_busy false (set_session (current_image_src c) 0 c)) ;;
    back ← gets oneshotback;
    (if negb (back =? 0) then do_board (wifi_set_oneshot_flag back) else mret tt) ;;
    enable ← get_psm;
    do_board (wifi_set_psflag enable) ;;
    mret TLS_FWUP_STATUS_OK).

Definition tls_fwup_reset (session_id : Z) : M st Z :=
  session_guard session_id (on_fwup clear_progress ;; mret TLS_FWUP_STATUS_OK).

Definition tls_fwup_clear_error (session_id : Z) : M st Z :=
  session_guard session_id (
    on_fwup (fun c => set_state (current_state c &&& Z.lnot TLS_FWUP_STATE_ERROR) c) ;;
    mret TLS_FWUP_STATUS_OK).

Definition tls_fwup_get_current_session_id : M st Z :=
  p ← gets fwup;
  if p =? 0 then mret 0 else c ← the_fwup; mret (current_session_id c).

(** These three do not test [fwup]: before the installation they have no
    result. *)
Definition tls_fwup_set_update_numer (number : Z) : M st Z :=
  c ← the_fwup;
  if s32 (number - received_number c) =? 1
  then on_fwup (set_received_number number) ;; mret TLS_FWUP_STATUS_OK
  else mret TLS_FWUP_STATE_UNDEF.
Definition tls_fwup_get_current_update_numer : M st Z := c ← the_fwup; mret (received_number c).
Definition tls_fwup_get_status : M st Z := c ← the_fwup; mret (b2z (busy c)).

Definition tls_fwup_set_crc_error (session_id : Z) : M st Z :=
  p ← gets fwup;
  if p =? 0 then mret TLS_FWUP_STATUS_EPERM
  else
    c ← the_fwup;
    if negb (session_id =? current_session_id c) then mret TLS_FWUP_STATUS_ESESSIONID
    else on_fwup (or_state TLS_FWUP_STATE_ERROR_CRC) ;; mret TLS_FWUP_STATUS_OK.

Definition tls_fwup_current_state (session_id : Z) : M st Z :=
  p ← gets fwup;
  if p =? 0 then mret TLS_FWUP_STATE_UNDEF
  else
    c ← the_fwup;
    if negb (session_id =? current_session_id c) then mret TLS_FWUP_STATE_UNDEF else mret (current_state c).

(** ** Requests *)

Definition tls_fwup_request_async (session_id request : Z) : M st Z :=
  p ← gets fwup;
  if p =? 0 then mret TLS_FWUP_STATUS_EPERM
  else
    c ← the_fwup;
    if negb (session_id =? current_session_id c) then mret TLS_FWUP_STATUS_ESESSIONID
    else if request =? 0 then mret TLS_FWUP_STATUS_EINVALID
    else
      r ← the_req request;
      if (r_data r =? 0) || (r_data_len r =? 0) then mret TLS_FWUP_STATUS_EINVALID
      else
        tls_os_sem_acquire (list_lock c) ;;
        empty ← on_links (DlList.dl_list_empty p);
        let need_sched := negb (empty =? 0) in
        set_req_status request TLS_FWUP_REQ_STATUS_IDLE ;;
        on_links (DlList.dl_list_add_tail p request) ;;
        tls_os_sem_release (list_lock c) ;;
        (if need_sched then tls_os_queue_send FWUP_MSG_START_ENGINEER ;; mret tt else mret tt) ;;
        mret TLS_FWUP_STATUS_OK.

(** [switch(request.status)] at the end of [tls_fwup_request_sync]. *)
Definition sync_status (status : Z) : Z :=
  if status =? TLS_FWUP_REQ_STATUS_SUCCESS then TLS_FWUP_STATUS_OK
  else if status =? TLS_FWUP_REQ_STATUS_FIO then TLS_FWUP_STATUS_EIO
  else if status =? TLS_FWUP_REQ_STATUS_FSIGNATURE then TLS_FWUP_STATUS_ESIGNATURE
  else if status =? TLS_FWUP_REQ_STATUS_FMEM then TLS_FWUP_STATUS_EMEM
  else if status =? TLS_FWUP_REQ_STATUS_FCRC then TLS_FWUP_STATUS_ECRC
  else if status =? TLS_FWUP_REQ_STATUS_FCOMPLETE then TLS_FWUP_STATUS_EIO
  else TLS_FWUP_STATUS_EUNDEF.

(** The end of [tls_fwup_request_sync]: its locals go out of scope. *)
Definition sync_finish (request sem : Z) : M st Z :=
  tls_os_sem_delete sem ;;
  r ← the_req request;
  set_reqs (delete request) ;;
  set_links (delete request) ;;
  mret (sync_status (r_status r)).

(** The local [request], at the address [request], is filled in and handed
    over.  [inl]: the call returns at once; [inr]: the client waits. *)
Definition sync_submit (request session_id data : Z) (bytes : list Z) (data_len sem : Z) : M st (Z + Z) :=
  set_reqs <[request := Request data bytes data_len request_status_junk Fwup_request_complete sem]> ;;
  set_links <[request := DlList.Node 0 0]> ;;
  err ← tls_fwup_request_async session_id request;
  if err =? TLS_FWUP_STATUS_OK then mret (inr sem)
  else err ← sync_finish request sem; mret (inl err).

(** [tls_fwup_request_sync] up to the point where the client waits. *)
Definition sync_begin (request session_id data : Z) (bytes : list Z) (data_len : Z) : M st (Z + Z) :=
  p ← gets fwup;
  if p =? 0 then mret (inl TLS_FWUP_STATUS_EPERM)
  else
    c ← the_fwup;
    if negb (session_id =? current_session_id c) then mret (inl TLS_FWUP_STATUS_ESESSIONID)
    else if (data =? 0) || (data_len =? 0) then mret (inl TLS_FWUP_STATUS_EINVALID)
    else
      sem ← tls_os_sem_create 0;
      match sem with
      | None => mret (inl TLS_FWUP_STATUS_EMEM)
      | Some sem => sync_submit request session_id data bytes data_len sem
      end.

(** From the wake-up to the return. *)
Definition sync_end (request sem : Z) : M st Z :=
  tls_os_sem_acquire sem ;;
  sync_finish request sem.

Definition sem_count (sem : Z) : M st Z := fun s => n ← sems s !! sem; Some (n, s).

(** A client alone: while it waits, the update task runs.  [None]: the board
    was reset. *)
Definition tls_fwup_request_sync (fuel : nat) (request session_id data : Z) (bytes : list Z) (data_len : Z) : M st (option Z) :=
  r ← sync_begin request session_id data bytes data_len;
  match r with
  | inl err => mret (Some err)
  | inr sem =>
      mloop fuel (fun _ : unit =>
        n ← sem_count sem;
        if 0 <? n then err ← sync_end request sem; mret (inr (Some err))
        else
          reset ← fwup_scheduler fuel;
          mret (if (reset : bool) then inr None else inl tt)) tt
  end.

End task.
