(* ===== verification/FwupTaskSpec.v ===== *)
(** * A client alone with the update task

    With an idle task and no other client, [tls_fwup_request_sync] is the
    work on the request, followed by a reset of the board or by a return
    with success. *)
From S2P Require Import Prelude CMonad Keeps DlList FlsDriver CrcHard Storage ParamData Param ParamSpec ParamInit Fwup FwupHeader FwupTask.

(** What the work on a request leaves alone in [*fwup]. *)
Record same_session (c c' : tls_fwup) : Prop := {
  sn_lock : list_lock c' = list_lock c;
  sn_busy : busy c' = busy c;
  sn_id : current_session_id c' = current_session_id c;
  sn_src : current_image_src c' = current_image_src c
}.

#[export] Instance same_session_preorder : PreOrder same_session.
Proof. split; [by intros c|]. intros c1 c2 c3 [? ? ? ?] [? ? ? ?]. split; congruence. Qed.

Section data.
Context {F : Type} `{FlashStore F} `{!FlashBurst F} `{CrcEngine} `{Statics} `{FwupLocals}.

Definition upd_frame (u u' : upd F) : Prop := same_session (ctl u) (ctl u').
#[local] Instance upd_frame_preorder : PreOrder upd_frame.
Proof. split; [intros u; unfold upd_frame; reflexivity|]. intros u1 u2 u3 H1' H2'. unfold upd_frame in *. by etransitivity. Qed.

Lemma frame_pars {A} (m : M (par F) A) : keeps upd_frame (on_pars m).
Proof. apply keeps_zoom. intros u p. unfold upd_frame. reflexivity. Qed.
Lemma frame_flash {A} (m : M F A) : keeps upd_frame (on_flash m).
Proof. apply frame_pars. Qed.
Lemma frame_ctl f : (forall c, same_session c (f c)) -> keeps upd_frame (set_ctl f).
Proof. intros Hf. apply keeps_modify. intros u. apply Hf. Qed.
Lemma frame_booter f : keeps upd_frame (set_booter f).
Proof. apply keeps_modify. intros u. unfold upd_frame. reflexivity. Qed.
#[local] Hint Resolve frame_pars frame_flash frame_booter : keeps.
#[local] Hint Extern 1 (keeps upd_frame (set_ctl _)) => (apply frame_ctl; intros; by split) : keeps.

Lemma fwup_request_frame data buffer n : keeps upd_frame (fwup_request data buffer n).
Proof.
  unfold fwup_request, program, verify_image, verify_body, take_header, header_complete, tls_fwup_img_header_check, header_crc, fail_with.
  keep.
Qed.
End data.

(** ** Steps of the task's state *)

Section state.
Context {F W : Type}.
Implicit Types s : fw F W.

Definition with_par (p : par F) s : fw F W :=
  Fw p (fbooter s) (board s) (fwup s) (objs s) (links s) (reqs s) (sems s) (next_sem s) (fwup_msg_queue s) (fwup_task_stk s) (oneshotback s).
Definition with_links (l : DlList.mem) s : fw F W :=
  Fw (fpars s) (fbooter s) (board s) (fwup s) (objs s) l (reqs s) (sems s) (next_sem s) (fwup_msg_queue s) (fwup_task_stk s) (oneshotback s).
Definition with_objs (o : gmap Z tls_fwup) s : fw F W :=
  Fw (fpars s) (fbooter s) (board s) (fwup s) o (links s) (reqs s) (sems s) (next_sem s) (fwup_msg_queue s) (fwup_task_stk s) (oneshotback s).
Definition with_reqs (r : gmap Z tls_fwup_request) s : fw F W :=
  Fw (fpars s) (fbooter s) (board s) (fwup s) (objs s) (links s) r (sems s) (next_sem s) (fwup_msg_queue s) (fwup_task_stk s) (oneshotback s).
Definition with_sems (m : gmap Z Z) s : fw F W :=
  Fw (fpars s) (fbooter s) (board s) (fwup s) (objs s) (links s) (reqs s) m (next_sem s) (fwup_msg_queue s) (fwup_task_stk s) (oneshotback s).
Definition with_board (w : W) s : fw F W :=
  Fw (fpars s) (fbooter s) w (fwup s) (objs s) (links s) (reqs s) (sems s) (next_sem s) (fwup_msg_queue s) (fwup_task_stk s) (oneshotback s).

End state.

(** Keep the state in the form of one record. *)
Ltac flat := cbn [fpars fbooter board fwup objs links reqs sems next_sem fwup_msg_queue fwup_task_stk oneshotback
  with_par with_links with_objs with_reqs with_sems with_board].

Section task.
Context {F W : Type} `{FlashStoreLaws F} `{!FlashBurst F} `{!FlashBurstLaws F} `{CrcEngine} `{Statics} `{FwupLocals} `{RequestJunk} `{Board W}.
Implicit Types s : fw F W.

Lemma the_fwup_spec c s (Q : tls_fwup -> fw F W -> Prop) : objs s !! fwup s = Some c -> Q c s -> wp the_fwup s Q.
Proof. intros Hc HQ. eapply wp_eq; [|exact HQ]. unfold the_fwup. by rewrite Hc. Qed.

Lemma on_fwup_spec f c s (Q : unit -> fw F W -> Prop) :
  objs s !! fwup s = Some c -> Q tt (with_objs (<[fwup s := f c]> (objs s)) s) -> wp (on_fwup f) s Q.
Proof. intros Hc HQ. apply wp_bind, (the_fwup_spec c); [done|]. by apply wp_bind, wp_gets, wp_modify. Qed.

Lemma on_links_spec {A} (m : M DlList.mem A) s (Q : A -> fw F W -> Prop) :
  wp m (links s) (fun a l => Q a (with_links l s)) -> wp (on_links m) s Q.
Proof. intros Hm. apply wp_zoom. unfold wp in Hm. by destruct (m (links s)) as [[a l]|]. Qed.

Lemma on_par_spec {A} (m : M (par F) A) s (Q : A -> fw F W -> Prop) :
  wp m (fpars s) (fun a p => Q a (with_par p s)) -> wp (on_par m) s Q.
Proof. intros Hm. apply wp_zoom. unfold wp in Hm. by destruct (m (fpars s)) as [[a p]|]. Qed.

Lemma on_board_spec {A} (f : W -> A * W) s (Q : A -> fw F W -> Prop) :
  (forall a w, Q a (with_board w s)) -> wp (on_board f) s Q.
Proof. intros HQ. apply wp_zoom. destruct (f (board s)) as [a w]. apply HQ. Qed.

(** Telling the Wi-Fi library something, or not. *)
Lemma flag_spec (b : bool) g s (Q : unit -> fw F W -> Prop) :
  (forall w, Q tt (with_board w s)) -> wp (if b then do_board g else mret tt) s Q.
Proof.
  intros HQ. destruct b; [apply on_board_spec; intros [] w; apply HQ|]. apply wp_ret.
  specialize (HQ (board s)). by destruct s.
Qed.

Lemma the_req_spec p r s (Q : tls_fwup_request -> fw F W -> Prop) : reqs s !! p = Some r -> Q r s -> wp (the_req p) s Q.
Proof. intros Hr HQ. eapply wp_eq; [|exact HQ]. unfold the_req. by rewrite Hr. Qed.

Definition with_status (v : Z) (r : tls_fwup_request) : tls_fwup_request :=
  Request (r_data r) (r_bytes r) (r_data_len r) v (r_complete r) (r_arg r).

Lemma set_req_status_spec p v r s (Q : unit -> fw F W -> Prop) :
  reqs s !! p = Some r -> Q tt (with_reqs (<[p := with_status v r]> (reqs s)) s) -> wp (set_req_status p v) s Q.
Proof. intros Hr HQ. apply wp_bind, (the_req_spec p r); [done|]. by apply wp_modify. Qed.

Lemma task_sem_acquire_spec x n s (Q : unit -> fw F W -> Prop) :
  sems s !! x = Some n -> 0 < n -> Q tt (with_sems (<[x := n - 1]> (sems s)) s) -> wp (tls_os_sem_acquire x) s Q.
Proof.
  intros Hx Hn HQ. eapply wp_eq; [|exact HQ]. unfold tls_os_sem_acquire. rewrite Hx. cbn.
  by rewrite (proj2 (Z.ltb_lt _ _)).
Qed.

Lemma task_sem_release_spec x n s (Q : unit -> fw F W -> Prop) :
  sems s !! x = Some n -> Q tt (with_sems (<[x := n + 1]> (sems s)) s) -> wp (tls_os_sem_release x) s Q.
Proof. intros Hx HQ. eapply wp_eq; [|exact HQ]. unfold tls_os_sem_release. by rewrite Hx. Qed.

Lemma on_upd_spec {A} (m : M (upd F) A) c s (Q : A -> fw F W -> Prop) :
  objs s !! fwup s = Some c ->
  wp m (Upd (fpars s) c (fbooter s)) (fun a u =>
    Q a (Fw (pars u) (booter u) (board s) (fwup s) (<[fwup s := ctl u]> (objs s)) (links s) (reqs s) (sems s) (next_sem s)
           (fwup_msg_queue s) (fwup_task_stk s) (oneshotback s))) ->
  wp (on_upd m) s Q.
Proof.
  intros Hc (a & u & E & HQ)%wp_run. eapply wp_eq; [|exact HQ]. unfold on_upd. rewrite Hc. cbn. by rewrite E.
Qed.

(** Following the next pointers of the waiting list. *)
Lemma load_spec p q m (Q : DlList.node -> DlList.mem -> Prop) :
  DlList.nxt m p = Some q -> (forall n, DlList.next n = q -> Q n m) -> wp (DlList.load p) m Q.
Proof.
  intros (n & Hn & Hq)%DlList.nxt_Some HQ. eapply wp_eq; [|by apply HQ]. unfold DlList.load. by rewrite Hn.
Qed.

Lemma scheduler_next_spec n q s (Q : Z * Z -> fw F W -> Prop) :
  DlList.nxt (links s) n = Some q -> Q (n, q) s -> wp (scheduler_next n) s Q.
Proof.
  intros Hn HQ. apply wp_bind, on_links_spec, (load_spec n q); [done|]. intros nd <-. apply wp_ret.
  destruct s. exact HQ.
Qed.

(** ** At rest *)

(** Nobody has handed in a request; [c] is [*fwup], at [h]. *)
Record at_rest (h : Z) (c : tls_fwup) s : Prop := {
  ar_ptr : fwup s = h /\ h <> 0;
  ar_obj : objs s !! h = Some c;
  ar_list : DlList.dll (links s) h [];
  ar_lock : sems s !! list_lock c = Some 1 /\ 0 < list_lock c < next_sem s;
  ar_queue : fwup_msg_queue s = Some []
}.

(** One request [r] at [req] has been handed in by a client that waits for
    its semaphore. *)
Record queued (h : Z) (c : tls_fwup) (req : Z) (r : tls_fwup_request) s : Prop := {
  qd_ptr : fwup s = h /\ h <> 0 /\ req <> h /\ req <> 0;
  qd_obj : objs s !! h = Some c;
  qd_list : DlList.dll (links s) h [req];
  qd_req : reqs s !! req = Some r /\ r_complete r = Fwup_request_complete;
  qd_sems : sems s !! list_lock c = Some 1 /\ sems s !! r_arg r = Some 0 /\ 0 < list_lock c < r_arg r /\ r_arg r < next_sem s;
  qd_queue : fwup_msg_queue s = Some [FWUP_MSG_START_ENGINEER]
}.

(** Creating a semaphore may fail, but does not use up memory of the heap's
    that the flash driver would miss. *)
Definition still (p p' : par F) : Prop := quiet p p' /\ fs_low (store p') = fs_low (store p).

(** The semaphore of a new request. *)
Lemma sem_create_spec n s (Q : option Z -> fw F W -> Prop) :
  par_ok (fpars s) ->
  (forall p, still (fpars s) p ->
     Q None (with_par p s) /\
     Q (Some (next_sem s)) (Fw p (fbooter s) (board s) (fwup s) (objs s) (links s) (reqs s)
       (<[next_sem s := n]> (sems s)) (next_sem s + 1) (fwup_msg_queue s) (fwup_task_stk s) (oneshotback s))) ->
  wp (tls_os_sem_create n) s Q.
Proof.
  intros K HQ. apply wp_bind, on_par_spec, (on_store_spec _ nowhere); [done|].
  eapply wp_mono; [apply wp_and; [apply fs_sem_spec, K|apply fb_sem_same, K]|]. cbv beta.
  intros ok f [Hs [Hsame Hlow]]. split; [done|]. intros p T <- _.
  destruct (HQ p) as [Hno Hyes]; [split; [by apply quiet_same|done]|]. destruct ok; [|by apply wp_ret].
  by apply wp_bind, wp_gets, wp_bind, wp_modify, wp_bind, wp_modify, wp_ret.
Qed.

(** Handing a request over: it joins the others, and only the first one
    sends the message. *)
Lemma sync_submit_spec h c pend q req data bytes n sem s (Q : Z + Z -> fw F W -> Prop) :
  fwup s = h -> h <> 0 -> objs s !! h = Some c -> DlList.dll (links s) h pend -> req ∉ h :: pend -> req <> 0 ->
  sems s !! list_lock c = Some 1 -> fwup_msg_queue s = Some q -> zlen q < FWUP_MSG_QUEUE_SIZE -> data <> 0 -> n <> 0 ->
  (forall l, DlList.dll l h (pend ++ [req]) ->
     Q (inr sem) (Fw (fpars s) (fbooter s) (board s) h (objs s) l
       (<[req := Request data bytes n TLS_FWUP_REQ_STATUS_IDLE Fwup_request_complete sem]> (reqs s)) (sems s) (next_sem s)
       (Some (if decide (pend = []) then q ++ [FWUP_MSG_START_ENGINEER] else q)) (fwup_task_stk s) (oneshotback s))) ->
  wp (sync_submit req (current_session_id c) data bytes n sem) s Q.
Proof.
  intros Hp Hh Ho Hl Hnr Hreq Hlk Hq Hroom Hd Hn HQ. destruct s. cbn in *. subst.
  apply wp_bind, wp_modify. flat. apply wp_bind, wp_modify. flat. apply wp_bind, wp_bind, wp_gets. flat.
  rewrite (proj2 (Z.eqb_neq _ _)) by done. apply wp_bind, (the_fwup_spec c); [done|].
  rewrite Z.eqb_refl, (proj2 (Z.eqb_neq req 0)) by done. cbn [negb].
  apply wp_bind; eapply the_req_spec; [apply lookup_insert_eq|]. cbn [r_data r_data_len].
  rewrite !(proj2 (Z.eqb_neq _ 0)) by done. cbn [orb].
  apply wp_bind, (task_sem_acquire_spec _ 1); [exact Hlk|lia|]. flat.
  match goal with |- context [<[req := DlList.Node 0 0]> ?l] => set (l1 := <[req := DlList.Node 0 0]> l);
    assert (Hl1 : DlList.dll l1 h pend); [apply (DlList.dll_frame l _ _ _ [req]); [exact Hl|..]|] end.
  { intros x Hx. apply lookup_insert_ne. intros ->. apply Hx. left. }
  { intros x Hx1 Hx2%list_elem_of_singleton. by subst x. }
  apply wp_bind, on_links_spec. flat. eapply wp_mono; [apply DlList.dl_list_empty_spec; exact Hl1|].
  cbv beta. intros e m' [-> ->]. flat. apply wp_bind; eapply set_req_status_spec; [apply lookup_insert_eq|]. flat.
  apply wp_bind, on_links_spec. flat. eapply wp_mono.
  { apply (DlList.dl_list_add_tail_spec l1 h pend req); [exact Hl1|eexists; apply lookup_insert_eq|exact Hnr]. }
  cbv beta. intros [] m2 [Hl2 _]. flat. apply wp_bind, (task_sem_release_spec _ 0); [flat; by rewrite lookup_insert_eq|]. flat.
  rewrite !insert_insert_eq, (insert_id _ (list_lock c)) by done. specialize (HQ m2 Hl2).
  destruct (decide (pend = [])) as [He|Hne].
  - rewrite bool_decide_true by done. cbn [negb b2z Z.eqb]. apply wp_bind, wp_bind. unfold tls_os_queue_send.
    apply wp_bind, wp_gets. flat. rewrite (proj2 (Z.ltb_lt _ _)) by done.
    apply wp_bind, wp_modify. flat. apply wp_ret, wp_ret, wp_ret. by apply wp_ret.
  - rewrite bool_decide_false by done. cbn [negb b2z Z.eqb]. apply wp_bind, wp_ret, wp_ret. by apply wp_ret.
Qed.

Lemma sync_begin_spec h c req data bytes n s (Q : Z + Z -> fw F W -> Prop) :
  at_rest h c s -> par_ok (fpars s) -> data <> 0 -> n <> 0 -> req <> 0 -> req <> h ->
  (forall p, still (fpars s) p -> Q (inl TLS_FWUP_STATUS_EMEM) (with_par p s)) ->
  (forall s', still (fpars s) (fpars s') -> fbooter s' = fbooter s ->
     queued h c req (Request data bytes n TLS_FWUP_REQ_STATUS_IDLE Fwup_request_complete (next_sem s)) s' -> Q (inr (next_sem s)) s') ->
  wp (sync_begin req (current_session_id c) data bytes n) s Q.
Proof.
  intros [[Hp Hh] Ho Hl [Hlk Hb] Hq] K Hd Hn Hreq Hrh Hno Hyes. destruct s. cbn in *. subst.
  apply wp_bind, wp_gets. flat. rewrite (proj2 (Z.eqb_neq _ _)) by done.
  apply wp_bind, (the_fwup_spec c); [done|]. rewrite Z.eqb_refl, !(proj2 (Z.eqb_neq _ 0)) by done. cbn [negb orb].
  apply wp_bind, sem_create_spec; [done|]. flat. intros p Hqp. split; [apply wp_ret; by apply Hno|].
  apply (sync_submit_spec h c [] []); flat; [done|done|done|done| |done| |done|done|done|done|].
  { by intros ?%list_elem_of_singleton. }
  { rewrite lookup_insert_ne by lia. exact Hlk. }
  intros l Hl'. apply Hyes; [exact Hqp|done|]. split; flat; [by auto|exact Ho|exact Hl'| | |by rewrite decide_True].
  - split; [apply lookup_insert_eq|done].
  - cbn [r_arg]. rewrite lookup_insert_eq, lookup_insert_ne by lia. auto with lia.
Qed.

(** ** The task serves the request *)

Definition idle (c : tls_fwup) : tls_fwup := set_state (current_state c &&& Z.lnot TLS_FWUP_STATE_BUSY) c.

(** The condition for the reset at the end of a request. *)
Definition reset_due (status : Z) (c : tls_fwup) : bool :=
  (sizeof_header <=? updated_len c) && (total_len c <=? updated_len c) || negb (status =? TLS_FWUP_REQ_STATUS_SUCCESS).

(** The request has been dealt with, its client may go on. *)
Record served (h : Z) (c : tls_fwup) (req : Z) (r : tls_fwup_request) s : Prop := {
  sv_rest : at_rest h c s;
  sv_req : reqs s !! req = Some r /\ req <> h;
  sv_sem : sems s !! r_arg r = Some 1 /\ r_arg r <> list_lock c
}.

(** What the board looks like after the request: the state [u] of the work,
    and the reset or the answer. *)
Definition after_item h c0 req r (u : upd F) status (reset : bool) s : Prop :=
  let c := idle (ctl u) in
  current_session_id (ctl u) = current_session_id c0 /\
  fpars s = pars u /\ fbooter s = booter u /\ reset = reset_due status c /\
  if reset then objs s !! h = Some c else served h c req (with_status status r) s.

Lemma idle_frame c : same_session c (idle c).
Proof. by split. Qed.

(** The body of the loop for the first of the waiting requests. *)
Lemma scheduler_item_gen h c req rest r n s (R : Z -> upd F -> Prop) (Q : bool -> fw F W -> Prop) :
  fwup s = h -> req <> h -> req <> 0 -> objs s !! h = Some c -> DlList.dll (links s) h (req :: rest) ->
  reqs s !! req = Some r -> r_complete r = Fwup_request_complete ->
  sems s !! list_lock c = Some 1 -> sems s !! r_arg r = Some n -> r_arg r <> 0 ->
  wp (fwup_request (r_data r) (r_bytes r) (r_data_len r)) (Upd (fpars s) c (fbooter s)) R ->
  (forall status u l w,
     let c' := if decide (rest = []) then idle (ctl u) else ctl u in
     R status u -> same_session c (ctl u) -> DlList.dll l h rest ->
     Q (reset_due status (ctl u)) (Fw (pars u) (booter u) w h (<[h := c']> (objs s)) l
       (<[req := with_status status r]> (reqs s))
       (if reset_due status (ctl u) then sems s else <[r_arg r := n + 1]> (sems s))
       (next_sem s) (fwup_msg_queue s) (fwup_task_stk s) (oneshotback s))) ->
  wp (scheduler_item req) s Q.
Proof.
  intros Hp Hrh Hr0 Ho Hl Hreq Hcb Hlk Hsem Ha Hwork HQ. destruct s. cbn in *. subst.
  unfold scheduler_item. apply wp_bind; eapply set_req_status_spec; [exact Hreq|]. flat.
  apply wp_bind; eapply the_req_spec; [apply lookup_insert_eq|]. cbn [r_data r_bytes r_data_len r_complete r_arg with_status].
  apply wp_bind, (on_upd_spec _ c); [exact Ho|]. flat.
  eapply wp_mono; [apply wp_keeps; [apply fwup_request_frame|exact Hwork]|]. cbv beta.
  intros status u [HR Hsess]. pose proof Hsess as [Hf1 _ _ _]. cbn [ctl] in *.
  apply wp_bind, (the_fwup_spec (ctl u)); [flat; apply lookup_insert_eq|]. apply wp_bind, wp_gets. flat.
  apply wp_bind, flag_spec. intros w. flat.
  apply wp_bind; eapply set_req_status_spec; [apply lookup_insert_eq|]. flat. rewrite !insert_insert_eq. rewrite Hf1.
  apply wp_bind, (task_sem_acquire_spec _ 1); [exact Hlk|lia|]. flat.
  apply wp_bind, on_links_spec. flat. eapply wp_mono; [apply (DlList.dl_list_del_spec _ h [] req rest); exact Hl|].
  cbv beta. intros [] l2 (Hl2 & _ & _). flat. cbn [app] in Hl2.
  apply wp_bind, (task_sem_release_spec _ 0); [flat; by rewrite lookup_insert_eq|]. flat. rewrite insert_insert_eq, (insert_id _ (list_lock c)) by done.
  apply wp_bind, wp_gets. flat. apply wp_bind, on_links_spec. flat.
  eapply wp_mono; [apply DlList.dl_list_empty_spec; exact Hl2|]. cbv beta. intros e l3 [-> ->]. flat.
  set (c' := if decide (rest = []) then idle (ctl u) else ctl u).
  assert (Hidle : forall K, K (Fw (pars u) (booter u) w h (<[h:=c']> objs) l2 (<[req:=with_status status r]> reqs)
      sems next_sem fwup_msg_queue fwup_task_stk oneshotback) ->
    wp (if b2z (bool_decide (rest = [])) =? 1 then on_fwup (fun c => set_state (current_state c &&& Z.lnot TLS_FWUP_STATE_BUSY) c) else mret tt)
      (Fw (pars u) (booter u) w h (<[h:=ctl u]> objs) l2 (<[req:=with_status status r]> reqs)
        sems next_sem fwup_msg_queue fwup_task_stk oneshotback) (fun _ => K)).
  { intros K HK. unfold c' in HK. destruct (decide (rest = [])) as [He|Hne].
    - rewrite bool_decide_true by done. cbn [b2z Z.eqb]. apply (on_fwup_spec _ (ctl u)); [flat; apply lookup_insert_eq|].
      flat. by rewrite insert_insert_eq.
    - rewrite bool_decide_false by done. by apply wp_ret. }
  apply wp_bind, Hidle. apply wp_bind, (the_fwup_spec c'); [flat; apply lookup_insert_eq|].
  assert (Hsame : updated_len c' = updated_len (ctl u) /\ total_len c' = total_len (ctl u)) by (unfold c'; by case_decide).
  destruct Hsame as [-> ->]. fold (reset_due status (ctl u)). rewrite Hcb. specialize (HQ status u l2).
  destruct (reset_due status (ctl u)).
  - apply wp_bind, wp_bind, wp_gets. apply flag_spec. intros w2. flat.
    apply wp_bind, on_board_spec. intros [] w3. flat. apply wp_ret. by apply HQ.
  - apply wp_bind. unfold fwup_request_complete. rewrite !(proj2 (Z.eqb_neq _ 0)) by done. cbn [orb].
    apply (task_sem_release_spec _ n); [exact Hsem|]. flat. apply wp_ret. by apply HQ.
Qed.

Lemma scheduler_item_spec h c req r s (R : Z -> upd F -> Prop) :
  fwup s = h -> h <> 0 -> req <> h -> req <> 0 -> objs s !! h = Some c -> DlList.dll (links s) h [req] ->
  reqs s !! req = Some r -> r_complete r = Fwup_request_complete ->
  sems s !! list_lock c = Some 1 -> sems s !! r_arg r = Some 0 -> 0 < list_lock c < r_arg r -> r_arg r < next_sem s ->
  fwup_msg_queue s = Some [] ->
  wp (fwup_request (r_data r) (r_bytes r) (r_data_len r)) (Upd (fpars s) c (fbooter s)) R ->
  wp (scheduler_item req) s (fun reset s' => exists status u, R status u /\ after_item h c req r u status reset s').
Proof.
  intros Hp Hh Hrh Hr0 Ho Hl Hreq Hcb Hlk Hsem Hlt Hns Hq Hwork.
  apply (scheduler_item_gen h c req [] r 0 s R); try assumption; [lia|].
  intros status u l w c' HR [Hf1 _ Hf3 _] Hl'. exists status, u. split; [exact HR|].
  assert (c' = idle (ctl u)) as -> by (unfold c'; by rewrite decide_True).
  split; [exact Hf3|]. split; [done|]. split; [done|]. split; [done|].
  destruct (reset_due status (ctl u)); flat; [apply lookup_insert_eq|]. split; flat.
  - split; flat; [done|apply lookup_insert_eq|exact Hl'| |done].
    change (list_lock (idle (ctl u))) with (list_lock (ctl u)). rewrite Hf1, lookup_insert_ne by lia. auto with lia.
  - split; [apply lookup_insert_eq|done].
  - split; [apply lookup_insert_eq|]. change (list_lock (idle (ctl u))) with (list_lock (ctl u)).
    rewrite Hf1. cbn [r_arg with_status]. lia.
Qed.

(** A message for a non-empty list: the task turns to the first request and
    remembers its successor. *)
Lemma scheduler_receive_spec h c req rest q s (Q : option (Z * Z) -> fw F W -> Prop) :
  fwup s = h -> objs s !! h = Some c -> DlList.dll (links s) h (req :: rest) ->
  fwup_msg_queue s = Some (FWUP_MSG_START_ENGINEER :: q) ->
  Q (Some (req, hd h rest)) (Fw (fpars s) (fbooter s) (board s) h (<[h := or_state TLS_FWUP_STATE_BUSY c]> (objs s)) (links s)
    (reqs s) (sems s) (next_sem s) (Some q) (fwup_task_stk s) (oneshotback s)) ->
  wp scheduler_receive s Q.
Proof.
  intros Hp Ho Hl Hq HQ. destruct s. cbn in *. subst.
  apply wp_bind, wp_bind, wp_gets. flat. apply wp_bind, wp_modify. flat. apply wp_ret.
  change (FWUP_MSG_START_ENGINEER =? FWUP_MSG_START_ENGINEER) with true. cbn iota.
  apply wp_bind, wp_gets. flat. apply wp_bind, on_links_spec. flat.
  eapply wp_mono; [apply DlList.dl_list_empty_spec; exact Hl|]. cbv beta. intros e l1 [-> ->]. flat.
  rewrite bool_decide_false by done. cbn [b2z Z.eqb].
  apply wp_bind, (on_fwup_spec _ c); [exact Ho|]. flat.
  pose proof (DlList.dll_first _ _ _ Hl) as [Hn1 _]. cbn [hd] in Hn1.
  pose proof Hl as Hr. rewrite (DlList.dll_rotate _ h [] req rest) in Hr. apply DlList.dll_first in Hr as [Hn2 _].
  assert (Hhd : hd req (rest ++ [h]) = hd h rest) by (by destruct rest). rewrite Hhd in Hn2.
  apply wp_bind, on_links_spec. flat. apply (load_spec h req); [exact Hn1|]. intros nd Hnd. flat. rewrite Hnd.
  apply wp_bind, (scheduler_next_spec req (hd h rest)); [exact Hn2|]. by apply wp_ret.
Qed.

(** From the message to the end of the loop. *)
Lemma fwup_scheduler_spec h c req r s fuel (R : Z -> upd F -> Prop) :
  queued h c req r s -> (2 <= fuel)%nat ->
  wp (fwup_request (r_data r) (r_bytes r) (r_data_len r)) (Upd (fpars s) (or_state TLS_FWUP_STATE_BUSY c) (fbooter s)) R ->
  wp (fwup_scheduler fuel) s (fun reset s' => exists status u, R status u /\ after_item h c req r u status reset s').
Proof.
  intros [(Hp & Hh & Hrh & Hr0) Ho Hl [Hreq Hcb] (Hlk & Hsem & Hlt & Hns) Hq] Hfuel Hwork.
  apply wp_bind, (scheduler_receive_spec h c req [] []); [done|done|done|done|]. cbn [hd].
  destruct fuel as [|[|fuel]]; [lia|lia|]. cbn [mloop]. apply wp_bind, wp_bind, wp_gets. flat.
  rewrite (proj2 (Z.eqb_neq req h)) by done.
  apply wp_bind. eapply wp_mono.
  { apply (scheduler_item_spec h (or_state TLS_FWUP_STATE_BUSY c) req r _ R); flat; try assumption; try done. apply lookup_insert_eq. }
  cbv beta. intros reset s2 (status & u & HR & Hid & Hpar & Hboo & Hres & Hcase). destruct reset.
  - apply wp_ret, wp_ret. exists status, u. split; [exact HR|]. done.
  - pose proof Hcase as [[[Hp2 _] _ Hl2 _ _] _ _]. destruct (DlList.dll_first _ _ _ Hl2) as [Hn _]. cbn [hd] in Hn.
    apply wp_bind, (scheduler_next_spec h h); [exact Hn|]. apply wp_ret. cbn [mloop].
    apply wp_bind, wp_bind, wp_gets. rewrite Hp2, Z.eqb_refl. apply wp_ret, wp_ret. exists status, u. done.
Qed.

(** A request by a client that is alone. *)
Lemma request_sync_spec h c req data bytes s fuel (R : Z -> upd F -> Prop) :
  at_rest h c s -> par_ok (fpars s) -> data <> 0 -> bytes <> [] -> req <> 0 -> req <> h -> (2 <= fuel)%nat ->
  (forall p, still (fpars s) p ->
     wp (fwup_request data bytes (zlen bytes)) (Upd p (or_state TLS_FWUP_STATE_BUSY c) (fbooter s)) R) ->
  wp (tls_fwup_request_sync fuel req (current_session_id c) data bytes (zlen bytes)) s (fun r s' =>
    (r = Some TLS_FWUP_STATUS_EMEM /\ at_rest h c s' /\ fbooter s' = fbooter s /\ still (fpars s) (fpars s')) \/
    exists status u, R status u /\ current_session_id (ctl u) = current_session_id c /\
      fpars s' = pars u /\ fbooter s' = booter u /\
      if reset_due status (ctl u) then r = None /\ objs s' !! h = Some (idle (ctl u))
      else r = Some TLS_FWUP_STATUS_OK /\ at_rest h (idle (ctl u)) s').
Proof.
  intros Hr K Hd Hb Hreq Hrh Hfuel Hwork. assert (Hn : zlen bytes <> 0) by (destruct bytes; simpl; [done|lia]).
  apply wp_bind, (sync_begin_spec h c); [done|done|done|done|done|done| |].
  { intros p Hq. apply wp_ret. left. split; [done|]. destruct Hr as [? ? ? ? ?]. done. }
  intros s1 Hq1 Hb1 Hqd. cbv iota. set (sem := next_sem s) in *. destruct fuel as [|[|fuel]]; [lia|lia|].
  cbn [mloop]. apply wp_bind, wp_bind.
  assert (Hcount : forall n s (Q : Z -> fw F W -> Prop), sems s !! sem = Some n -> Q n s -> wp (sem_count sem) s Q).
  { intros n s2 Q Hs HQ. eapply wp_eq; [|exact HQ]. unfold sem_count. by rewrite Hs. }
  apply (Hcount 0); [apply Hqd|]. cbn [Z.ltb Z.compare]. apply wp_bind. eapply wp_mono.
  { apply (fwup_scheduler_spec h c req _ s1 _ R Hqd Hfuel). cbn [r_data r_bytes r_data_len]. rewrite Hb1. by apply Hwork. }
  cbv beta. intros reset s2 (status & u & HR & Hid & Hpar & Hboo & -> & Hcase). apply wp_ret.
  change (reset_due status (idle (ctl u))) with (reset_due status (ctl u)) in *.
  destruct (reset_due status (ctl u)) eqn:Er.
  { apply wp_ret. right. exists status, u. rewrite Er. done. }
  destruct Hcase as [Hrest [Hrq _] [Hsem Hne]]. cbn [r_arg] in Hsem, Hne.
  cbn [mloop]. apply wp_bind, wp_bind, (Hcount 1); [exact Hsem|]. cbn [Z.ltb Z.compare].
  apply wp_bind, wp_bind, (task_sem_acquire_spec _ 1); [exact Hsem|lia|]. apply wp_bind, wp_modify.
  apply wp_bind, (the_req_spec req (with_status status (Request data bytes (zlen bytes) TLS_FWUP_REQ_STATUS_IDLE Fwup_request_complete sem)));
    [exact Hrq|].
  apply wp_bind, wp_modify, wp_bind, wp_modify, wp_ret, wp_ret, wp_ret. right. exists status, u. rewrite Er.
  split; [exact HR|]. split; [exact Hid|]. split; [done|]. split; [done|]. cbn [r_status with_status].
  assert (status = TLS_FWUP_REQ_STATUS_SUCCESS) as ->.
  { unfold reset_due in Er. apply orb_false_iff in Er as [_ Er]. by apply negb_false_iff, Z.eqb_eq in Er. }
  split; [done|]. destruct Hrest as [Hp2 Ho2 Hl2 [Hlk2 Hlt2] Hq2]. split; flat; [done|done| |split; [|done]|done].
  - apply (DlList.dll_frame (links s2) _ _ _ [req]); [exact Hl2|..].
    + intros x Hx. apply lookup_delete_ne. intros ->. apply Hx. left.
    + intros x Hx1%list_elem_of_singleton Hx2%list_elem_of_singleton. congruence.
  - rewrite lookup_delete_ne, lookup_insert_ne by done. exact Hlk2.
Qed.

End task.
