(* ===== verification/FwupUpgrade.v ===== *)
(** * A whole update

    A client that sends an image through [tls_fwup_request_sync], cut into
    requests in any way: what the flash and the session are afterwards. *)
From S2P Require Import Prelude CMonad DlList FlsDriver CrcHard Storage ParamData Param ParamImage ParamSpec ParamInit ParamAccess Fwup FwupHeader FwupSpec FwupTask FwupTaskSpec.

Lemma in_state_bit c k : 0 <= k -> in_state c (1 ≪ k) = Z.testbit (current_state c) k.
Proof.
  intros Hk. unfold in_state. destruct (Z.testbit (current_state c) k) eqn:Et.
  - apply negb_true_iff, Z.eqb_neq. intros He. apply (f_equal (fun z => Z.testbit z k)) in He.
    rewrite Z.land_spec, testbit_pow2, Z.eqb_refl, Et, Z.bits_0 in He by done. done.
  - apply negb_false_iff, Z.eqb_eq, Z.bits_inj'. intros i Hi. rewrite Z.land_spec, testbit_pow2, Z.bits_0 by done.
    destruct (Z.eqb_spec i k) as [->|]; [by rewrite Et|apply andb_false_r].
Qed.

(** Going idle does not change what became of the update. *)
Lemma in_state_idle c k : 0 < k < 16 -> in_state (idle c) (1 ≪ k) = in_state c (1 ≪ k).
Proof.
  intros Hk. rewrite !in_state_bit by lia. unfold idle, set_state. cbn [current_state].
  rewrite wrap_land_ones, !Z.land_spec, Z.lnot_spec, Z.ones_spec_low by lia.
  change TLS_FWUP_STATE_BUSY with (1 ≪ 0). rewrite testbit_pow2, (proj2 (Z.eqb_neq k 0)) by lia.
  by rewrite !andb_true_r.
Qed.

(** [tls_param_get] with [from_flash]: the parameters, the flash and the
    streaming session stay as they are. *)
Section param_get.
Context {F : Type} `{FlashStoreLaws F} `{!FlashBurst F} `{!FlashBurstLaws F} `{CrcEngine} `{Statics}.

Lemma quiet_run {A} (m : M F A) p (Q : A -> par F -> Prop) :
  par_ok p ->
  wp m (store p) (fun a f => fs_step nowhere (store p) f /\ fb_same (store p) f /\
    (forall p', quiet p p' -> flash_param p' = flash_param p -> sys_param_lock p' = sys_param_lock p -> Q a p')) ->
  wp (on_store m) p Q.
Proof.
  intros K Hm. apply (on_store_spec _ nowhere); [done|]. eapply wp_mono; [exact Hm|]. cbv beta.
  intros a f (Hs & Hb & HQ). split; [done|]. intros p' T <- Hf. apply HQ; [by apply quiet_same|done|apply T].
Qed.

(** Where the value is taken from: the partition in the flash, or the memory. *)
Lemma param_source_quiet b p p1 cur :
  quiet p p1 -> img_ok cur -> match b with Some (bp, buf) => bp <> 0 /\ img_ok buf | None => True end ->
  wp (match b with
      | None => mret cur
      | Some (bp, buf) =>
          m ← flash_addrs;
          r ← on_store (fs_read (partition_addr m (get_partition_num cur)) bp buf sizeof_param_flash);
          mret (if fst r =? TLS_FLS_STATUS_OK then snd r else cur)
      end) p1 (fun src p2 => quiet p p2 /\ sys_param_lock p2 = sys_param_lock p1 /\ img_ok src).
Proof.
  intros Hq Hcur Hb. destruct b as [[bp buf]|]; [|by apply wp_ret]. destruct Hb as [Hbp Hbuf].
  pose proof (ps_ok _ _ _ (qt_step _ _ Hq)) as K1.
  destruct (part_geometry _ _ (get_partition_num cur) (pk_map _ K1)) as (? & ? & _ & ? & ?).
  apply wp_bind, wp_gets, wp_bind, quiet_run; [done|]. rewrite sizeof_param_flash_eq.
  assert (Hl : 0 < 2036 <= zlen buf) by (destruct Hbuf; lia).
  eapply wp_mono.
  { apply wp_and; [apply fs_read_spec|apply fb_read_same];
      [apply K1|exact Hbp|lia|lia|exact Hl|fold (part_off (fs_map (store p1)) (get_partition_num cur)); lia
      |apply K1|exact Hbp|lia|lia|exact Hl|fold (part_off (fs_map (store p1)) (get_partition_num cur)); lia]. }
  cbv beta. intros [e l] f [(Hs & He & Hr) Hsame]. cbn [fst snd] in *. split; [done|]. split; [done|].
  intros p2 Q2 _ Hl2. apply wp_ret. split; [by eapply quiet_trans|]. split; [done|]. rewrite He. cbn [Z.eqb].
  change (TLS_FLS_STATUS_OK =? TLS_FLS_STATUS_OK) with true. cbn iota.
  destruct Hr as [->|[-> _]]; [|done]. destruct Hbuf as [Hbl Hbb]. split; [by rewrite length_memcpy_at|].
  apply memcpy_bytes_ok; [|done]. apply Forall_forall. intros x (a & -> & _)%list_elem_of_fmap. apply fs_byte_ok.
Qed.

Lemma param_get_quiet id f out p :
  par_ok p -> sys_param_lock p = Some 1 -> param_action id = Some (Copy f) -> size_of f <= zlen out ->
  wp (tls_param_get id out true) p (fun _ p' => quiet p p').
Proof.
  intros K Hl Ha Hout. destruct (param_action_range id _ Ha). unfold tls_param_get, TLS_PARAM_ID_ALL, TLS_PARAM_ID_MAX.
  rewrite (proj2 (Z.ltb_ge _ _)), (proj2 (Z.leb_gt _ _)) by lia. cbn [orb].
  apply wp_bind, wp_gets, wp_bind, quiet_run; [done|].
  assert (Hsz : 0 <= sizeof_param_flash) by by rewrite sizeof_param_flash_eq.
  eapply wp_mono; [apply wp_and; [apply fs_alloc_spec; [apply K|exact Hsz]|apply fb_alloc_same; [apply K|exact Hsz]]|].
  cbv beta. intros b f1 [[Hs1 Hr1] Hb1]. split; [done|]. split; [done|]. intros p1 Q1 Hf1 Hl1.
  apply wp_bind. eapply wp_mono.
  { apply (param_source_quiet b p p1 (flash_param p)); [done|apply K|]. destruct b as [[bp buf]|]; [|done].
    destruct Hr1 as (? & Hlen & ?). split; [done|]. split; [by rewrite Hlen, sizeof_param_flash_eq|done]. }
  cbv beta. intros src p2 (Q2 & Hl2 & Hsrc). apply wp_bind, lock_param_spec; [congruence|].
  rewrite Ha, action_get_member by done. apply wp_bind, wp_bind, wp_ret, wp_ret.
  assert (K2 : par_ok (with_lock (Some 0) p2)) by apply with_lock_ok, Q2.
  assert (Hq2 : quiet p (with_lock (Some 0) p2) -> True) by done. clear Hq2.
  assert (Hend : forall p3, quiet (with_lock (Some 0) p2) p3 -> wp (unlock_param ;; mret (TLS_PARAM_STATUS_OK, memcpy_at 0 (member f src) out)) p3
    (fun _ p' => quiet p p')).
  { intros p3 Q3. apply wp_bind, (unlock_param_spec nowhere p2); [congruence|apply Q3|]. intros p4 T4 Hst4 _. apply wp_ret.
    eapply quiet_trans; [exact Q2|]. split; [exact T4|]. rewrite Hst4. apply Q3. }
  apply wp_bind. destruct b as [[bp buf]|]; [|apply wp_ret, Hend; by apply quiet_refl].
  apply quiet_run; [done|]. eapply wp_mono; [apply wp_and; [apply fs_free_spec, K2|apply fb_free_same, K2]|].
  cbv beta. intros _ f4 [Hs4 Hb4]. split; [done|]. split; [done|]. intros p4 Q4 _ _. by apply Hend.
Qed.
End param_get.

Section upgrade.
Context {F W : Type} `{FlashStoreLaws F} `{!FlashBurst F} `{!FlashBurstLaws F} `{CrcEngineLaws} `{Statics} `{FwupLocals} `{RequestJunk} `{Board W}.
Implicit Types s : fw F W.
Implicit Types p : par F.

(** The client: each chunk with the address of its bytes, until a call fails
    or the board is reset ([None]). *)
Fixpoint upgrade (fuel : nat) (req sid : Z) (chunks : list (Z * list Z)) : M (fw F W) (option Z) :=
  match chunks with
  | [] => mret (Some TLS_FWUP_STATUS_OK)
  | (data, bytes) :: chunks =>
      r ← tls_fwup_request_sync fuel req sid data bytes (zlen bytes);
      match r with
      | Some e => if e =? TLS_FWUP_STATUS_OK then upgrade fuel req sid chunks else mret r
      | None => mret None
      end
  end.

Definition chunk_ok (x : Z * list Z) : Prop := 0 < fst x /\ bytes_ok (snd x) /\ snd x <> [].
Definition payload (chunks : list (Z * list Z)) : list Z := concat (snd <$> chunks).

Lemma payload_cons d b chunks : payload ((d, b) :: chunks) = b ++ payload chunks.
Proof. reflexivity. Qed.

(** The session as the client sees it between two calls. *)
Definition session (h : Z) (c : tls_fwup) (p0 : par F) (len : Z) (l : list Z) s : Prop :=
  at_rest h c s /\ receiving p0 len l (Upd (fpars s) c (fbooter s)).

Lemma receiving_next p0 len l p p' c b :
  receiving p0 len l (Upd p c b) -> still p p' -> receiving p0 len l (Upd p' (or_state TLS_FWUP_STATE_BUSY c) b).
Proof.
  intros [Rs Rr Rb Rboot Rf] [Hq Hlow]. cbn in *. split; cbn.
  - right. by destruct Rs as [-> | ->].
  - done.
  - done.
  - done.
  - destruct (zlen l <? 64); [destruct Rf as [Hq0 Hu]; split; [by eapply quiet_trans|done]|].
    destruct Rf as (Racc & Rtl & Rag & (p1 & Q1 & T1 & S1) & Rest). split; [done|]. split; [done|].
    split; [by rewrite Hlow|]. split; [|done]. exists p1. split; [done|].
    split; [eapply par_step_trans; [exact T1|by apply quiet_step]|]. destruct Hq as [_ (_ & _ & Hs)]. by apply Hs.
Qed.

Lemma receiving_idle p0 len l u :
  receiving p0 len l u -> receiving p0 len l (Upd (pars u) (idle (ctl u)) (booter u)).
Proof.
  intros [Rs Rr Rb Rboot Rf]. split; try done. left. cbn. by destruct Rs as [-> | ->].
Qed.

(** A request that goes on is not the last one; one that ends in a reset is. *)
Lemma answered_more p0 len l status u :
  answered p0 len l status u -> reset_due status (ctl u) = false -> receiving p0 len l u.
Proof.
  intros (ok & _ & Hj) Hr. unfold reset_due in Hr. apply orb_false_iff in Hr as [Hr Hs]. revert Hj.
  unfold judge. destruct (Z.ltb_spec (zlen l) 64); [by intros [_ ?]|].
  destruct (negb ok); [intros (-> & _); discriminate Hs|]. destruct (Z.ltb_spec (zlen l) (total_of (take 64 l))); [by intros [_ ?]|].
  intros (Hu & Ht & _). rewrite Hu, Ht in Hr. unfold sizeof_header in Hr. apply andb_false_iff in Hr as [Hr|Hr]; lia.
Qed.

Lemma answered_last p0 len l status u ok :
  judge ok l = More -> receiving p0 len l u -> status = TLS_FWUP_REQ_STATUS_SUCCESS -> reset_due status (ctl u) = false.
Proof.
  intros Hj R ->. unfold reset_due. rewrite Z.eqb_refl, orb_false_r. destruct R as [_ _ _ _ Rf]. unfold judge in Hj.
  destruct (Z.ltb_spec (zlen l) 64); [destruct Rf as [_ ->]; done|].
  destruct Rf as (_ & _ & _ & _ & _ & _ & -> & ->). destruct (negb ok); [done|].
  destruct (Z.ltb_spec (zlen l) (total_of (take 64 l))); [|done]. apply andb_false_intro2, Z.leb_gt. lia.
Qed.

(** How a run of the client ends. *)
Definition ended (h : Z) (p0 : par F) (len : Z) (full : list Z) (r : option Z) s : Prop :=
  r = Some TLS_FWUP_STATUS_EMEM \/
  (r = Some TLS_FWUP_STATUS_OK /\ exists c, session h c p0 len full s) \/
  (r = None /\ exists l rest status u, full = l ++ rest /\ answered p0 len l status u /\
     reset_due status (ctl u) = true /\ fpars s = pars u /\ objs s !! h = Some (idle (ctl u))).

Lemma upgrade_spec fuel h c req p0 len chunks l s :
  session h c p0 len l s -> fb_open (store p0) -> req <> 0 -> req <> h -> (2 <= fuel)%nat ->
  Forall chunk_ok chunks -> zlen (l ++ payload chunks) <= len ->
  (64 <= zlen (l ++ payload chunks) -> header_known p0 len (take 64 (l ++ payload chunks))) ->
  wp (upgrade fuel req (current_session_id c) chunks) s (fun r s' => ended h p0 len (l ++ payload chunks) r s').
Proof.
  intros Hs Hopen Hreq Hrh Hfuel Hall. revert l c s Hs.
  induction Hall as [|[data bytes] chunks (Hd & Hb & Hne) Hall IH]; intros l c s Hs Hlen Hkn.
  { apply wp_ret. right; left. split; [done|]. exists c. change (payload []) with (@nil Z). by rewrite app_nil_r. }
  cbn [fst snd] in *. rewrite payload_cons, app_assoc in Hlen, Hkn |- *. cbn [upgrade].
  set (rest := payload chunks) in *. pose proof Hs as [Hrest R].
  assert (Hz : zlen (l ++ bytes) <= zlen ((l ++ bytes) ++ rest)) by (rewrite (length_app (l ++ bytes)); lia).
  apply wp_bind. eapply wp_mono.
  { apply (request_sync_spec h c req data bytes s fuel (fun status u => answered p0 len (l ++ bytes) status u));
      [done|apply (receiving_ok _ _ _ _ R)|lia|done|done|done|done|].
    intros p Hp. apply fwup_request_spec; [by eapply receiving_next|done|done|done|lia|lia|lia|].
    intros H64. rewrite <- (take_app_le (l ++ bytes) rest 64) by lia. apply Hkn. lia. }
  cbv beta. intros r s1 [(-> & _)|(status & u & Ha & Hid & Hpar & Hboo & Hcase)].
  { change (TLS_FWUP_STATUS_EMEM =? TLS_FWUP_STATUS_OK) with false. apply wp_ret. by left. }
  destruct (reset_due status (ctl u)) eqn:Er; destruct Hcase as [-> Hobj].
  { apply wp_ret. right; right. split; [done|]. exists (l ++ bytes), rest, status, u. done. }
  change (TLS_FWUP_STATUS_OK =? TLS_FWUP_STATUS_OK) with true. cbn iota.
  change (current_session_id c) with (current_session_id c) in Hid. rewrite <- Hid.
  change (current_session_id (ctl u)) with (current_session_id (idle (ctl u))).
  apply (IH (l ++ bytes) (idle (ctl u)) s1); [|exact Hlen|exact Hkn]. split; [exact Hobj|].
  rewrite Hpar, Hboo. apply receiving_idle. by eapply answered_more.
Qed.


(** What the last request of a good header's image leads to. *)
Lemma answered_image p0 len image l rest status u :
  let hd := take 64 image in
  image = l ++ rest -> zlen image = total_of hd -> header_accepts (real_run p0 hd) hd = true ->
  answered p0 len l status u -> reset_due status (ctl u) = true ->
  par_step (fun a => area hd len a \/ sectors_of (ota_off p0) 4 a) p0 (pars u) /\
  (fs_low (store (pars u)) = true \/
   if image_good image then
     in_state (ctl u) TLS_FWUP_STATE_COMPLETE = true /\
     range (fs_byte (store (pars u))) (base_of hd mod 2 ^ 27) (zlen image) = image /\
     range (fs_byte (store (pars u))) (ota_off p0) 4 = slice 24 4 hd
   else in_state (ctl u) TLS_FWUP_STATE_ERROR_CRC = true /\ par_step (area hd len) p0 (pars u)).
Proof.
  intros hd Himg Htot Hacc (ok & Hag & Hj) Hr.
  assert (Hmore : judge ok l <> More).
  { intros He. rewrite He in Hj. destruct Hj as [-> R]. by rewrite (answered_last p0 len l _ u ok) in Hr. }
  revert Hj Hmore. unfold judge. destruct (Z.ltb_spec (zlen l) 64) as [Hs|Hb]; [done|].
  assert (Hhd : take 64 l = hd) by (unfold hd; rewrite Himg, take_app_le by lia; done). rewrite Hhd in *.
  destruct ok; cbn [negb].
  - destruct (Z.ltb_spec (zlen l) (total_of hd)) as [Hlt|Hge]; [done|]. intros Hc _.
    assert (rest = []) as ->.
    { apply length_zero_iff_nil. apply (f_equal length) in Himg. rewrite length_app in Himg. lia. }
    rewrite app_nil_r in Himg. subst l. destruct Hc as (_ & _ & _ & Hc). fold hd in Hc.
    assert (Hw : forall S T : Z -> Prop, par_step S p0 (pars u) -> par_step (fun a => S a \/ T a) p0 (pars u)).
    { intros S T. apply par_step_mono. intros a. by left. }
    destruct Hc as [(_ & Hst & T & Hcase)|[(_ & Hst & T & Hcase)|(_ & Hst & T & Hlow)]].
    + split; [exact T|]. destruct Hcase as [?|(-> & ? & ?)]; [by left|by right].
    + split; [by apply Hw|]. destruct Hcase as [?|(-> & _)]; [by left|by right].
    + split; [by apply Hw|by left].
  - intros (_ & _ & Hq) _. split; [by apply quiet_step|]. destruct (Hag ltac:(lia)) as [He|?]; [congruence|by left].
Qed.

(** The flash and the session after an image with the header [hd]. *)
Definition image_outcome (h : Z) (p0 : par F) (len : Z) (image : list Z) s : Prop :=
  let hd := take 64 image in
  par_step (fun a => area hd len a \/ sectors_of (ota_off p0) 4 a) p0 (fpars s) /\
  exists c', objs s !! h = Some c' /\
    (fs_low (store (fpars s)) = true \/
     if image_good image then
       in_state c' TLS_FWUP_STATE_COMPLETE = true /\
       range (fs_byte (store (fpars s))) (base_of hd mod 2 ^ 27) (zlen image) = image /\
       range (fs_byte (store (fpars s))) (ota_off p0) 4 = slice 24 4 hd
     else
       in_state c' TLS_FWUP_STATE_ERROR_CRC = true /\ par_step (area hd len) p0 (fpars s)).

Lemma upgrade_installs fuel h c req p0 len chunks s :
  let image := payload chunks in
  let hd := take 64 image in
  session h c p0 len [] s -> fb_open (store p0) -> req <> 0 -> req <> h -> (2 <= fuel)%nat ->
  Forall chunk_ok chunks -> zlen image <= len -> zlen image = total_of hd ->
  header_known p0 len hd -> header_accepts (real_run p0 hd) hd = true ->
  wp (upgrade fuel req (current_session_id c) chunks) s (fun r s' =>
    r = Some TLS_FWUP_STATUS_EMEM \/ (r = None /\ image_outcome h p0 len image s')).
Proof.
  intros image hd Hs Hopen Hreq Hrh Hfuel Hall Hlen Htot Hkn Hacc.
  destruct (proj2 Hkn _ Hacc) as [(_ & _ & H64) _].
  eapply wp_mono; [apply (upgrade_spec fuel h c req p0 len chunks [] s); try done|].
  cbv beta. cbn [app]. fold image. intros r s' [He|[(_ & c' & [_ R])|(-> & l & rest & status & u & Hl & Ha & Hr & Hp & Ho)]]; [by left| |].
  { pose proof (rc_flash _ _ _ _ R) as Rf. rewrite (proj2 (Z.ltb_ge _ _)) in Rf by lia. destruct Rf as (_ & Hlt & _).
    fold hd in Hlt. lia. }
  right. split; [done|]. unfold image_outcome. rewrite Hp.
  destruct (answered_image p0 len image l rest status u Hl Htot Hacc Ha Hr) as [Hstep Hcase].
  split; [exact Hstep|]. exists (idle (ctl u)). split; [exact Ho|]. fold hd in Hcase.
  rewrite (in_state_idle _ 1), (in_state_idle _ 5) by lia. exact Hcase.
Qed.

(** What the last request of a bad header leads to. *)
Lemma answered_bad p0 len full l rest status u :
  let hd := take 64 full in
  full = l ++ rest -> header_accepts (real_run p0 hd) hd = false ->
  answered p0 len l status u -> reset_due status (ctl u) = true ->
  fs_low (store (pars u)) = true \/ (quiet p0 (pars u) /\ in_state (ctl u) TLS_FWUP_STATE_ERROR_IO = true).
Proof.
  intros hd Hfull Hacc (ok & Hag & Hj) Hr.
  assert (Hmore : judge ok l <> More).
  { intros He. rewrite He in Hj. destruct Hj as [-> R]. by rewrite (answered_last p0 len l _ u ok) in Hr. }
  revert Hj Hmore. unfold judge. destruct (Z.ltb_spec (zlen l) 64) as [Hs|Hb]; [done|].
  assert (Hhd : take 64 l = hd) by (unfold hd; rewrite Hfull, take_app_le by lia; done). rewrite Hhd in *.
  destruct (Hag ltac:(lia)) as [He|?]; [|by left]. rewrite Hacc in He. subst ok. cbn [negb].
  intros (_ & Hst & Hq) _. by right.
Qed.

(** ** Opening a session *)

(** One of the next [n] numbers is not 0. *)
Fixpoint rand_live (n : nat) (w : W) : Prop :=
  match n with
  | O => False
  | Datatypes.S n => u32 (fst (rand w)) <> 0 \/ rand_live n (snd (rand w))
  end.

Lemma draw_session_spec fuel s (Q : Z -> fw F W -> Prop) :
  rand_live fuel (board s) -> (forall id w, id <> 0 -> 0 <= id < 2 ^ 32 -> Q id (with_board w s)) -> wp (draw_session fuel) s Q.
Proof.
  unfold draw_session. revert s. induction fuel as [|fuel IH]; intros s Hl HQ; [done|]. cbn [mloop].
  apply wp_bind, wp_bind, wp_zoom. cbn [rand_live] in Hl. destruct (rand (board s)) as [r w] eqn:Er. cbn [fst snd] in Hl.
  apply wp_ret. destruct (Z.eqb_spec (u32 r) 0) as [Hz|Hz].
  - destruct Hl as [Hl|Hl]; [done|]. apply IH; [exact Hl|]. intros id w' Hid Hr. by apply (HQ id w').
  - apply wp_ret, (HQ (u32 r) w); [done|]. apply wrap_bounds. lia.
Qed.

(** Reading the power-saving parameter from the flash. *)
Lemma get_psm_spec s (Q : Z -> fw F W -> Prop) :
  par_ok (fpars s) -> sys_param_lock (fpars s) = Some 1 ->
  (forall v p, quiet (fpars s) p -> Q v (with_par p s)) -> wp get_psm s Q.
Proof.
  intros K Hl HQ. apply wp_bind, on_par_spec.
  eapply wp_mono; [apply (param_get_quiet TLS_PARAM_ID_PSM auto_powersave [0])|]; [done|done|done|done|].
  cbv beta. intros r p Hq. apply wp_ret. by apply HQ.
Qed.

(** ** Installing the module *)

(** [fwup] is NULL, or points to nothing. *)
Definition not_installed s : Prop := fwup s = 0 \/ objs s !! fwup s = None.

Lemma on_store_quiet {A} (m : M F A) s (Q : A -> fw F W -> Prop) :
  par_ok (fpars s) ->
  wp m (store (fpars s)) (fun a f => fs_step nowhere (store (fpars s)) f /\
    (forall p, par_ok p -> Q a (with_par p s))) -> wp (on_par (on_store m)) s Q.
Proof.
  intros K Hm. apply on_par_spec, (on_store_spec _ nowhere); [done|]. eapply wp_mono; [exact Hm|]. cbv beta.
  intros a f [Hs HQ]. split; [done|]. intros p T _ _. apply HQ, T.
Qed.

Lemma free_fwup_spec s (Q : unit -> fw F W -> Prop) :
  par_ok (fpars s) ->
  (forall s', objs s' = delete (fwup s) (objs s) -> fwup s' = fwup s -> par_ok (fpars s') -> Q tt s') -> wp free_fwup s Q.
Proof.
  intros K HQ. apply wp_bind, wp_gets, wp_bind, on_store_quiet; [done|].
  eapply wp_mono; [apply fs_free_spec, K|]. cbv beta. intros _ f Hs. split; [done|]. intros p Kp. destruct s.
  apply wp_bind, wp_modify. flat. apply wp_modify. flat. by apply HQ.
Qed.

End upgrade.
