(* ===== verification/FwupProps.v ===== *)
(** * Properties of the firmware update *)
From S2P Require Import Prelude CMonad Checksum DlList HostEnv FlashChip FlsHw FlsDriver FlsMisc CrcHard Storage FlsStore FlsBurst ParamData Param ParamImage ParamSpec ParamInit ParamProps Fwup FwupHeader FwupSpec FwupTask FwupTaskSpec FwupUpgrade.
Import Crc32.

Section properties.
Context {F W : Type} `{FlashStoreLaws F} `{!FlashBurst F} `{!FlashBurstLaws F} `{CrcEngineLaws} `{Statics} `{FwupLocals} `{RequestJunk} `{Board W}.
Implicit Types s : fw F W.

(** C1. An update end to end.  A client that sends an image - an acceptable
    header, the code, the signature if there is one - in requests cut in any
    way is either told that there is no memory for a semaphore, or the board
    is reset at the end; and then, provided no allocation of the flash driver
    failed, the flash holds exactly the bytes sent and the boot loader's flag
    holds the header's checksum, if the CRC of the code agrees with it;
    otherwise the error is recorded and nothing outside the update area has
    changed.  In no case is anything changed outside the update area and the
    sector of the flag. *)
Theorem fwup_image_installed fuel h c req p0 len chunks s :
  let image := payload chunks in
  let hd := take 64 image in
  session h c p0 len [] s -> fb_open (store p0) -> req <> 0 -> req <> h -> (2 <= fuel)%nat ->
  Forall chunk_ok chunks -> zlen image <= len -> zlen image = total_of hd ->
  header_known p0 len hd -> header_accepts (real_run p0 hd) hd = true ->
  wp (upgrade fuel req (current_session_id c) chunks) s (fun r s' =>
    r = Some TLS_FWUP_STATUS_EMEM \/
    (r = None /\
     par_step (fun a => area hd len a \/ sectors_of (ota_off p0) 4 a) p0 (fpars s') /\
     exists c', objs s' !! h = Some c' /\
       (fs_low (store (fpars s')) = true \/
        if image_good image then
          in_state c' TLS_FWUP_STATE_COMPLETE = true /\
          range (fs_byte (store (fpars s'))) (base_of hd mod 2 ^ 27) (zlen image) = image /\
          range (fs_byte (store (fpars s'))) (ota_off p0) 4 = slice 24 4 hd
        else
          in_state c' TLS_FWUP_STATE_ERROR_CRC = true /\ par_step (area hd len) p0 (fpars s')))).
Proof.
  exact (upgrade_installs fuel h c req p0 len chunks s).
Qed.

(** C39. A complete header that the check does not accept ends the update: the
    request is answered with an I/O error, the board is reset, and the flash
    holds what it held before - unless an allocation failed and the running
    image's header could not be read. *)
Theorem fwup_bad_header_harmless fuel h c req p0 len chunks s :
  let hd := take 64 (payload chunks) in
  session h c p0 len [] s -> fb_open (store p0) -> req <> 0 -> req <> h -> (2 <= fuel)%nat ->
  Forall chunk_ok chunks -> 64 <= zlen (payload chunks) <= len ->
  header_known p0 len hd -> header_accepts (real_run p0 hd) hd = false ->
  wp (upgrade fuel req (current_session_id c) chunks) s (fun r s' =>
    fs_low (store (fpars s')) = true \/ r = Some TLS_FWUP_STATUS_EMEM \/
    (r = None /\ fs_byte (store (fpars s')) ≡ₐ fs_byte (store p0) /\
     exists c', objs s' !! h = Some c' /\ in_state c' TLS_FWUP_STATE_ERROR_IO = true)).
Proof.
  intros hd Hs Hopen Hreq Hrh Hfuel Hall [H64 Hlen] Hkn Hacc.
  eapply wp_mono; [apply (upgrade_spec fuel h c req p0 len chunks [] s); done|].
  cbv beta. cbn [app]. intros r s' [He|[(_ & c' & [_ R])|(-> & l & rest & status & u & Hl & Ha & Hr & Hp & Ho)]]; [auto| |].
  { pose proof (rc_flash _ _ _ _ R) as Rf. rewrite (proj2 (Z.ltb_ge _ _)) in Rf by lia.
    destruct Rf as (_ & _ & [He|?] & _); [|by left]. fold hd in He. congruence. }
  destruct (answered_bad p0 len (payload chunks) l rest status u Hl Hacc Ha Hr) as [Hlow|[Hq Hst]]; [left; by rewrite Hp|].
  right; right. split; [done|]. rewrite Hp. split; [by apply quiet_bytes|]. exists (idle (ctl u)). split; [exact Ho|].
  by rewrite (in_state_idle _ 2) by lia.
Qed.

(** The check of a header costs nothing but reads, and its result is the
    conjunction of the conditions on the header and on the header of the
    image it replaces - or, if an allocation of the flash driver failed, on
    whatever was on the stack. *)
Theorem header_check_exact h u :
  par_ok (pars u) -> header_ok h -> (magic_no h = SIGNATURE_WORD -> run_header_at (fs_size (store (pars u))) h) ->
  wp (tls_fwup_img_header_check h) u (fun r u' =>
    ctl u' = ctl u /\ booter u' = booter u /\ par_step nowhere (pars u) (pars u') /\
    (r = header_accepts (run_header u h) h \/
     (fs_low (store (pars u')) = true /\ r = header_accepts run_param_junk h))).
Proof.
  intros K Hh Hrun. apply header_check_spec; [done|done|done|]. intros run p Hq Hr.
  split; [done|]. split; [done|]. split; [apply Hq|]. destruct Hr as [->|[-> ?]]; [by left|by right].
Qed.

(** What an accepted header promises, as long as its two sums do not
    wrap: the image starts on a multiple of 1024 and ends before the user
    area, and the code ends before the running image. *)
Theorem header_check_area h u :
  par_ok (pars u) -> header_ok h -> (magic_no h = SIGNATURE_WORD -> run_header_at (fs_size (store (pars u))) h) ->
  (img_addr h ||| FLASH_BASE_ADDR) + img_len h < 2 ^ 32 -> (upgrade_img_addr h ||| FLASH_BASE_ADDR) + img_len h < 2 ^ 32 ->
  wp (tls_fwup_img_header_check h) u (fun r _ => r = true ->
    img_addr h mod 1024 = 0 /\ (img_addr h ||| FLASH_BASE_ADDR) + img_len h < USER_ADDR_START /\
    CODE_UPD_START_ADDR <= base_of h /\ base_of h + img_len h < CODE_RUN_START_ADDR).
Proof.
  intros K Hh Hrun Hw1 Hw2. apply header_check_spec; [done|done|done|]. intros run p _ _ Hacc.
  destruct Hh as [_ Hb]. pose proof (get_le_u32 12 h Hb) as Hi. change (get_le 12 4 h) with (img_len h) in Hi.
  assert (Hor : forall off, 0 <= get_le off 4 h ||| FLASH_BASE_ADDR < 2 ^ 32).
  { intros off. apply lor_bounds; [lia|by apply get_le_u32|unfold FLASH_BASE_ADDR; lia]. }
  pose proof (Hor 8) as H1'. pose proof (Hor 20) as H2'.
  change (get_le 8 4 h) with (img_addr h) in H1'. change (get_le 20 4 h) with (upgrade_img_addr h) in H2'.
  unfold header_accepts in Hacc. rewrite (wrap_id 32 (_ + img_len h)) in Hacc by lia.
  rewrite (wrap_id 32 ((upgrade_img_addr h ||| FLASH_BASE_ADDR) + img_len h)) in Hacc by lia.
  repeat (apply andb_prop in Hacc as [Hacc ?]). unfold base_of, IMAGE_START_ADDR_MSK in *. lia.
Qed.

(** A session is opened by [tls_fwup_enter]: a number other than 0 comes
    back, [*fwup] is busy under that number with its counters cleared, and
    the flash driver's streaming session is open - or an allocation failed,
    which the function does not report. *)
Theorem fwup_enter_opens h c s fuel src len :
  at_rest h c s -> busy c = false -> par_ok (fpars s) -> sys_param_lock (fpars s) = Some 1 ->
  fb_idle (store (fpars s)) -> rand_live fuel (board s) -> header_ok (fbooter s) -> 0 <= len < 2 ^ 31 ->
  wp (tls_fwup_enter fuel src) s (fun id s' =>
    id <> 0 /\ par_step nowhere (fpars s) (fpars s') /\
    exists c', busy c' = true /\ current_session_id c' = id /\ current_image_src c' = src /\ at_rest h c' s' /\
      (fs_low (store (fpars s')) = true \/ (session h c' (fpars s') len [] s' /\ fb_open (store (fpars s'))))).
Proof.
  intros [[Hp Hh] Ho Hl [Hlk Hb] Hq] Hbusy K Hlock Hidle Hrand Hboot Hlen. destruct s. cbn in *. subst.
  apply wp_bind, wp_bind, wp_gets. flat. rewrite (proj2 (Z.eqb_neq _ _)) by done. cbn [negb]. apply wp_ret.
  apply wp_bind, wp_gets. flat. rewrite (proj2 (Z.eqb_neq _ _)) by done.
  apply wp_bind, (the_fwup_spec c); [done|]. rewrite Hbusy. apply wp_bind, draw_session_spec; [done|]. intros id w Hid Hir. flat.
  apply wp_bind, (on_fwup_spec _ c); [done|]. flat.
  apply wp_bind, (on_fwup_spec _ (set_received_number (-1) (clear_progress c))); [apply lookup_insert_eq|]. flat.
  rewrite insert_insert_eq. set (c' := set_busy true _).
  apply wp_bind, wp_gets, wp_bind, wp_modify. flat. apply wp_bind, flag_spec. intros w1. flat.
  apply wp_bind, get_psm_spec; [done|done|]. intros v p1 Q1. flat.
  apply wp_bind, flag_spec. intros w2. flat. apply wp_bind, on_par_spec. flat.
  apply (on_store_spec _ nowhere); [apply Q1|].
  eapply wp_mono; [apply fb_init_spec; [apply Q1|by apply Q1]|]. cbv beta. intros r f [Hs Hr]. split; [done|].
  intros p2 T2 <- _. apply wp_ret. split; [done|].
  split; [flat; eapply par_step_trans; [apply Q1|exact T2]|]. exists c'. split; [done|]. split; [done|]. split; [done|].
  split; [split; flat; [done|apply lookup_insert_eq|done|done|done]|].
  destruct Hr as [[_ Hopen]|[_ Hlow]]; [right|by left]. split; [|exact Hopen]. split.
  - split; flat; [done|apply lookup_insert_eq|done|done|done].
  - flat. split; cbn; [by left|done|split; [constructor|lia]|by split|].
    split; [|done]. by apply quiet_refl, T2.
Qed.

(** Before the first session, and after [tls_fwup_exit], the current
    session number is 0: a request that names session 0 is then accepted and
    queued although no session is open. *)
Theorem fwup_session_zero h c req data bytes s :
  at_rest h c s -> busy c = false -> current_session_id c = 0 -> par_ok (fpars s) -> data <> 0 -> bytes <> [] ->
  req <> 0 -> req <> h ->
  wp (sync_begin req 0 data bytes (zlen bytes)) s (fun r s' =>
    r = inl TLS_FWUP_STATUS_EMEM \/
    (exists sem, r = inr sem) /\ DlList.dll (links s') h [req] /\ objs s' !! h = Some c).
Proof.
  intros Hr _ Hid K Hd Hb Hreq Hrh. rewrite <- Hid.
  apply (sync_begin_spec h c); [done|done|done| |done|done|by left|].
  - destruct bytes; simpl; [done|lia].
  - intros s' _ _ [? Ho Hl _ _ _]. right. split; [by eexists|done].
Qed.

(** A header with the given numbers and correct checksums, for an image that
    is neither signed nor encrypted. *)
Definition make_header (attr addr len run upgrade sum : Z) : list Z :=
  let w := le_bytes 4 in
  let l := w SIGNATURE_WORD ++ w attr ++ w addr ++ w len ++ w run ++ w upgrade ++ w sum ++ replicate 32 0 in
  l ++ w (ref_reg 0xFFFFFFFF l).

(** Two images with signature and encryption: one whose code ends just before
    the running image, and one of nearly 4 gigabytes. *)
Definition overrunning_header : list Z :=
  make_header 0x111 0x80D0400 (CODE_RUN_START_ADDR - CODE_UPD_START_ADDR - 1) 0x80D0000 CODE_UPD_START_ADDR 0.
Definition huge_header : list Z := make_header 0x111 0x80D0400 0xF8000000 0x80D0000 CODE_UPD_START_ADDR 0.

Lemma make_header_ok attr addr len run upgrade sum : header_ok (make_header attr addr len run upgrade sum).
Proof using.
  split; [reflexivity|].
  repeat apply Forall_app_2; try apply le_bytes_ok; apply Forall_replicate; unfold byte_ok; lia.
Qed.

(** What an accepted header does not promise.  The check leaves the
    header itself and the signature out of account: an image it accepts can
    end behind the start of the running image.  And its sums are computed
    with 32 bits: a code length of nearly 4 gigabytes passes. *)
Theorem header_check_holes u :
  par_ok (pars u) -> run_header_at (fs_size (store (pars u))) overrunning_header ->
  signature (run_header u overrunning_header) = 1 -> code_encrypt (run_header u overrunning_header) = 1 ->
  CODE_RUN_START_ADDR < base_of overrunning_header + total_of overrunning_header /\ 2 ^ 31 < img_len huge_header /\
  forall h, h = overrunning_header \/ h = huge_header ->
    wp (tls_fwup_img_header_check h) u (fun r u' => r = true \/ fs_low (store (pars u')) = true).
Proof.
  intros K Hrun Hsig Henc. split; [vm_compute; reflexivity|]. split; [vm_compute; reflexivity|]. intros h Hh.
  assert (Haddr : img_header_addr h = img_header_addr overrunning_header) by (destruct Hh as [-> | ->]; vm_compute; reflexivity).
  apply header_check_spec; [done|destruct Hh as [-> | ->]; apply make_header_ok| |].
  - intros _. unfold run_header_at in *. by rewrite Haddr.
  - intros run p _ [->|[_ Hlow]]; [left|by right]. unfold run_header in *. rewrite Haddr. unfold header_accepts.
    rewrite Hsig, Henc. destruct Hh as [-> | ->]; vm_compute; reflexivity.
Qed.

(** Installing the module always returns: it succeeds, with an idle
    task, no session and an empty waiting list, or reports that there is not
    enough memory. *)
Theorem fwup_init_result s :
  fwup s = 0 -> par_ok (fpars s) -> 0 < next_sem s ->
  wp tls_fwup_init s (fun r s' =>
    (r = TLS_FWUP_STATUS_OK /\ exists c, at_rest (fwup s') c s' /\ busy c = false /\ current_session_id c = 0) \/
    (r = TLS_FWUP_STATUS_EMEM /\ not_installed s')).
Proof.
  intros Hp K Hns. destruct s. cbn in *. subst. apply wp_bind, wp_gets. flat. cbn [Z.eqb negb].
  apply wp_bind, on_store_quiet; [done|]. flat. eapply wp_mono; [apply fs_alloc_spec; [apply K|done]|].
  cbv beta. intros [[p l]|] f1 [Hs1 Hr1]; (split; [done|]); intros p1 K1; flat.
  2: { apply wp_ret. right. split; [done|by left]. }
  destruct Hr1 as (Hp0 & _ & _).
  apply wp_bind, wp_modify. flat. apply wp_bind, wp_modify. flat. apply wp_bind, wp_modify. flat.
  apply wp_bind, sem_create_spec; [done|]. flat. intros p2 [[T2 _] _]. pose proof (ps_ok _ _ _ T2) as K2. split; flat.
  { apply wp_bind, free_fwup_spec; [done|]. intros s' Ho Hf _. apply wp_ret. right. split; [done|right].
    rewrite Ho, Hf. apply lookup_delete_eq. }
  apply wp_bind; eapply on_fwup_spec; [apply lookup_insert_eq|]. flat. rewrite insert_insert_eq.
  apply wp_bind, on_links_spec. flat. eapply wp_mono; [apply DlList.dl_list_init_spec; eexists; apply lookup_insert_eq|].
  cbv beta. intros [] links2 [Hl2 _]. flat. apply wp_bind; eapply on_fwup_spec; [apply lookup_insert_eq|]. flat. rewrite insert_insert_eq.
  apply wp_bind, on_board_spec. intros ok w. flat. destruct ok; cbn [negb].
  2: { apply wp_bind, wp_modify. flat. apply wp_bind, free_fwup_spec; [done|]. intros s' Ho Hf _. apply wp_ret.
       right. split; [done|right]. rewrite Ho, Hf. apply lookup_delete_eq. }
  apply wp_bind, wp_modify. flat. apply wp_bind, on_store_quiet; [done|]. flat.
  eapply wp_mono; [apply fs_alloc_spec; [apply K2|done]|].
  cbv beta. intros [[stk l3]|] f3 [Hs3 _]; (split; [done|]); intros p3 K3; flat; apply wp_bind, wp_modify; flat.
  - apply wp_bind, on_board_spec. intros ok w3. flat. destruct ok; cbn [negb].
    + apply wp_ret. left. split; [done|]. exists (set_busy false (set_list_lock next_sem zero_fwup)). split; [|by split]. flat.
      split; flat; [by split|apply lookup_insert_eq|exact Hl2| |done]. split; [apply lookup_insert_eq|cbn; lia].
    + apply wp_bind, wp_modify. flat. apply wp_bind, wp_modify. flat.
      apply wp_bind; eapply on_fwup_spec; [apply lookup_insert_eq|]. flat.
      apply wp_bind, free_fwup_spec; [done|]. intros s' Ho Hf Ks. destruct s'. cbn in *. subst.
      apply wp_bind, wp_modify. flat. apply wp_bind, on_store_quiet; [done|]. flat.
      eapply wp_mono; [apply fs_free_spec, Ks|]. cbv beta. intros _ f4 Hs4. split; [done|]. intros p4 _. flat.
      apply wp_bind, wp_modify. flat. apply wp_ret. right. split; [done|by left].
  - apply wp_bind, wp_modify. flat. apply wp_bind, wp_modify. flat.
    apply wp_bind; eapply on_fwup_spec; [apply lookup_insert_eq|]. flat.
    apply wp_bind, free_fwup_spec; [done|]. intros s' Ho Hf _. apply wp_ret. right. split; [done|right].
    rewrite Ho, Hf. apply lookup_delete_eq.
Qed.

End properties.
