(* ===== verification/FwupWait.v ===== *)
(** * The waiting line of the update task, abstractly

    What matters of the task and its clients for the question who is served:
    where the task is, the requests that wait, and whether a message is on
    its way.  [FwupRace] proves that the code moves like this. *)
From S2P Require Import Prelude.

(** Where the task is: in [tls_os_queue_receive]; at the head of the loop with
    [request] and [temp]; in [tls_sys_reset]. *)
Inductive pc := Waiting | Working (request temp : Z) | Resetting.

(** The entry points that do not touch the waiting list have one label. *)
Inductive label := Receive | Serve | Leave | Submit (req : Z) | Refuse | Return (req : Z) | Call.

Record line := Line { l_pc : pc; l_pend : list Z; l_msg : bool }.

(** The line of the list head [h].  Only a request that finds the line empty
    sends the message; the task goes on to the successor it remembered when
    it turned to the present request. *)
Inductive lstep (h : Z) : label -> line -> line -> Prop :=
  | lstep_receive req rest : lstep h Receive (Line Waiting (req :: rest) true) (Line (Working req (hd h rest)) (req :: rest) false)
  | lstep_serve req temp rest :
      lstep h Serve (Line (Working req temp) (req :: rest) false)
        (Line (Working temp (if decide (temp = h) then hd h rest else hd h (tl rest))) rest false)
  | lstep_reset req temp rest m : lstep h Serve (Line (Working req temp) (req :: rest) m) (Line Resetting [] false)
  | lstep_leave temp pend m : lstep h Leave (Line (Working h temp) pend m) (Line Waiting pend m)
  | lstep_submit p pend m req :
      p <> Resetting -> req ∉ h :: pend -> lstep h (Submit req) (Line p pend m) (Line p (pend ++ [req]) (m || bool_decide (pend = [])))
  | lstep_refuse p pend m : p <> Resetting -> lstep h Refuse (Line p pend m) (Line p pend m)
  | lstep_return p pend m req : p <> Resetting -> req ∉ pend -> lstep h (Return req) (Line p pend m) (Line p pend m)
  | lstep_call p pend m : p <> Resetting -> lstep h Call (Line p pend m) (Line p pend m).

Inductive lsteps (h : Z) : list label -> line -> line -> Prop :=
  | lsteps_nil a : lsteps h [] a a
  | lsteps_snoc t l a1 a2 a3 : lsteps h t a1 a2 -> lstep h l a2 a3 -> lsteps h (t ++ [l]) a1 a3.

Lemma lsteps_snoc_inv h t l a a' : lsteps h (t ++ [l]) a a' -> exists a2, lsteps h t a a2 /\ lstep h l a2 a'.
Proof.
  intros Hs. inversion Hs as [x Ht|t' l' a1 a2 a3 Hs1 Hs2 Ht]; subst; [by apply (app_cons_not_nil t) in Ht|].
  apply app_inj_tail in Ht as [-> ->]. by exists a2.
Qed.

Lemma lsteps_app_inv h t1 t2 a a' : lsteps h (t1 ++ t2) a a' -> exists a2, lsteps h t1 a a2 /\ lsteps h t2 a2 a'.
Proof.
  revert a'. induction t2 as [|l t2 IH] using rev_ind; intros a'.
  - rewrite app_nil_r. intros Hs. exists a'. split; [done|constructor].
  - rewrite app_assoc. intros (a2 & Hs & Hl)%lsteps_snoc_inv. destruct (IH a2 Hs) as (a3 & ? & ?).
    exists a3. split; [done|]. by econstructor.
Qed.

(** ** The lost wake-up *)

(** The task waits, a request waits, and no message is on its way. *)
Definition asleep (req : Z) (a : line) : Prop := l_pc a = Waiting /\ req ∈ l_pend a /\ l_msg a = false.

Lemma asleep_step h req l a a' : asleep req a -> lstep h l a a' -> asleep req a' /\ l <> Return req /\ l <> Receive.
Proof.
  intros (Hp & Hin & Hm) Hs. destruct Hs; cbn in *; try done; unfold asleep; cbn; subst.
  - split; [|done]. split; [done|]. split; [by apply elem_of_app; left|]. apply orb_false_iff. split; [done|].
    apply bool_decide_eq_false. intros ->. by apply not_elem_of_nil in Hin.
  - split; [done|]. split; [congruence|done].
Qed.

Lemma asleep_steps h req t a a' : asleep req a -> lsteps h t a a' -> asleep req a' /\ (Return req ∉ t) /\ Receive ∉ t.
Proof.
  intros Ha Hs. induction Hs as [a|t l a1 a2 a3 _ IH Hs]; [split; [done|split; apply not_elem_of_nil]|].
  destruct (IH Ha) as (Ha2 & Ht1 & Ht2). destruct (asleep_step _ _ _ _ _ Ha2 Hs) as (Ha3 & Hn1 & Hn2).
  split; [done|]. split; by intros [?|?%list_elem_of_singleton]%elem_of_app.
Qed.

(** A request that arrives while the task is at the only one it knows of. *)
Lemma late_request_asleep h r1 r2 a :
  lsteps h [Submit r1; Receive; Submit r2; Serve; Leave] (Line Waiting [] false) a -> asleep r2 a.
Proof.
  intros (a4 & (a3 & (a2 & (a1 & (a0 & H0 & H1)%(lsteps_snoc_inv h [])
    & H2)%(lsteps_snoc_inv h [Submit r1]) & H3)%(lsteps_snoc_inv h [Submit r1; Receive])
    & H4)%(lsteps_snoc_inv h [Submit r1; Receive; Submit r2]) & H5)%(lsteps_snoc_inv h [Submit r1; Receive; Submit r2; Serve]).
  assert (a0 = Line Waiting [] false) as ->.
  { inversion H0 as [|t l x1 x2 x3 _ _ Ht]; subst; [done|]. by symmetry in Ht; apply app_cons_not_nil in Ht. }
  inversion H1; subst. inversion H2; subst. inversion H3; subst. inversion H4; subst; [|inversion H5].
  inversion H5; subst. split; [done|]. split; [left|done].
Qed.

(** ** One client at a time *)

(** Somebody will look after the line. *)
Record attended (h : Z) (a : line) : Prop := {
  at_one : (length (l_pend a) <= 1)%nat;
  at_msg : l_pend a = [] \/ l_msg a = true \/ (exists req temp, l_pc a = Working req temp /\ req ∈ l_pend a) \/ l_pc a = Resetting;
  at_head : h ∉ l_pend a
}.

Lemma attended_step h l a a' :
  attended h a -> (forall req, l = Submit req -> l_pend a = []) -> lstep h l a a' -> attended h a'.
Proof.
  intros [Hl Hm Hh] Hone Hs. destruct Hs as [req rest|req temp rest|req temp rest m|temp pend m|p pend m req Hp Hn|p pend m Hp|p pend m req Hp Hn|p pend m Hp];
    cbn in *.
  - split; [done| |done]. right; right; left. exists req, (hd h rest). split; [done|left].
  - assert (rest = []) as -> by (apply length_zero_iff_nil; lia). split; cbn; [lia|by left|apply not_elem_of_nil].
  - split; cbn; [lia|by left|apply not_elem_of_nil].
  - split; [done| |done]. destruct Hm as [?|[?|[(req & temp' & [= <- <-] & ?)|?]]]; [by left|by right; left|done|done].
  - rewrite (Hone req eq_refl) in *. split; cbn; [lia|right; left; by destruct m|].
    intros ->%list_elem_of_singleton. apply Hn. left.
  - by split.
  - by split.
  - by split.
Qed.
