(* ===== verification/FwupRace.v ===== *)
(** * The update task and its clients, interleaved

    Several clients may call [tls_fwup_request_sync] and the other entry
    points while the task is between two requests.  [step] is one piece of
    one of them that runs undisturbed: receiving a message and entering the
    loop; the body of the loop with the step to the remembered successor;
    handing a request in; returning from the wait; any other entry point.
    The invariant of the waiting list holds in every reachable state; and a
    request handed in while the task is at the last request it knows of is
    never served. *)
From S2P Require Import Prelude CMonad Keeps DlList FlsDriver CrcHard Storage ParamData Param Fwup FwupTask FwupTaskSpec FwupWait.

(** The system: the clients that wait, each with its request and semaphore. *)
Record sys (F W : Type) := Sys { sched : pc; mem : fw F W; clients : list (Z * Z) }.
Arguments Sys {F W}.
Arguments sched {F W}.
Arguments mem {F W}.
Arguments clients {F W}.

(** The entry points that do not touch the waiting list. *)
Inductive call :=
  | Enter (fuel : nat) (src : tls_fwup_image_src)
  | Exit (id : Z)
  | Reset_session (id : Z)
  | Clear_error (id : Z)
  | Set_crc_error (id : Z)
  | Set_number (n : Z).

Section race.
Context {F W : Type} `{FlashStore F} `{!FlashBurst F} `{CrcEngine} `{Statics} `{FwupLocals} `{RequestJunk} `{Board W}.
Implicit Types s : fw F W.
Implicit Types S : sys F W.

Definition run_call (c : call) : M (fw F W) Z :=
  match c with
  | Enter fuel src => tls_fwup_enter fuel src
  | Exit id => tls_fwup_exit id
  | Reset_session id => tls_fwup_reset id
  | Clear_error id => tls_fwup_clear_error id
  | Set_crc_error id => tls_fwup_set_crc_error id
  | Set_number n => tls_fwup_set_update_numer n
  end.

Inductive step : label -> sys F W -> sys F W -> Prop :=
  | step_receive s x s' cl :
      scheduler_receive s = Some (Some x, s') ->
      step Receive (Sys Waiting s cl) (Sys (Working (fst x) (snd x)) s' cl)
  | step_ignore s s' cl :
      scheduler_receive s = Some (None, s') -> step Receive (Sys Waiting s cl) (Sys Waiting s' cl)
  | step_reset request temp s s' cl :
      request <> fwup s -> scheduler_item request s = Some (true, s') ->
      step Serve (Sys (Working request temp) s cl) (Sys Resetting s' cl)
  | step_serve request temp s s1 x s' cl :
      request <> fwup s -> scheduler_item request s = Some (false, s1) -> scheduler_next temp s1 = Some (x, s') ->
      step Serve (Sys (Working request temp) s cl) (Sys (Working (fst x) (snd x)) s' cl)
  | step_leave temp s cl :
      step Leave (Sys (Working (fwup s) temp) s cl) (Sys Waiting s cl)
  | step_submit pc s req id data bytes n sem s' cl :
      pc <> Resetting -> req ∉ fwup s :: (fst <$> cl) -> req <> 0 ->
      sync_begin req id data bytes n s = Some (inr sem, s') ->
      step (Submit req) (Sys pc s cl) (Sys pc s' ((req, sem) :: cl))
  | step_refuse pc s req id data bytes n e s' cl :
      pc <> Resetting -> req ∉ fwup s :: (fst <$> cl) -> req <> 0 ->
      sync_begin req id data bytes n s = Some (inl e, s') ->
      step Refuse (Sys pc s cl) (Sys pc s' cl)
  | step_return pc s req sem e s' cl1 cl2 :
      pc <> Resetting -> sync_end req sem s = Some (e, s') ->
      step (Return req) (Sys pc s (cl1 ++ (req, sem) :: cl2)) (Sys pc s' (cl1 ++ cl2))
  | step_call pc s c r s' cl :
      pc <> Resetting -> run_call c s = Some (r, s') -> step Call (Sys pc s cl) (Sys pc s' cl).

(** Runs, with their labels. *)
Inductive steps : list label -> sys F W -> sys F W -> Prop :=
  | steps_nil S : steps [] S S
  | steps_snoc t l S1 S2 S3 : steps t S1 S2 -> step l S2 S3 -> steps (t ++ [l]) S1 S3.

(** Nobody hands in a request while another client waits. *)
Inductive serial_steps : sys F W -> sys F W -> Prop :=
  | serial_nil S : serial_steps S S
  | serial_snoc l S1 S2 S3 :
      serial_steps S1 S2 -> step l S2 S3 -> (forall req, l = Submit req -> clients S2 = []) -> serial_steps S1 S3.

(** ** The invariant *)

(** A waiting client: its request is alive, and its semaphore is up exactly
    if the task has dealt with it. *)
Definition client_ok (h : Z) (pend : list Z) s (x : Z * Z) : Prop :=
  let '(req, sem) := x in
  req <> h /\ req <> 0 /\ 0 < sem < next_sem s /\
  (exists r, reqs s !! req = Some r /\ r_complete r = Fwup_request_complete /\ r_arg r = sem) /\
  sems s !! sem = Some (if decide (req ∈ pend) then 0 else 1).

(** [pend] is the waiting list of [*fwup] at [h]. *)
Record inv (h : Z) (pend : list Z) S : Prop := {
  iv_ptr : fwup (mem S) = h /\ h <> 0;
  iv_obj : exists c, objs (mem S) !! h = Some c /\ sems (mem S) !! list_lock c = Some 1 /\
    0 < list_lock c < next_sem (mem S) /\ Forall (fun x => snd x <> list_lock c) (clients S);
  iv_list : DlList.dll (links (mem S)) h pend;
  iv_distinct : NoDup (fst <$> clients S) /\ NoDup (snd <$> clients S);
  iv_clients : Forall (client_ok h pend (mem S)) (clients S);
  iv_pend : forall req, req ∈ pend -> req ∈ fst <$> clients S;
  iv_queue : fwup_msg_queue (mem S) = Some [] \/
    (fwup_msg_queue (mem S) = Some [FWUP_MSG_START_ENGINEER] /\ pend <> [] /\
     (sched S = Waiting \/ exists temp, sched S = Working h temp));
  iv_pc : match sched S with
          | Working request temp =>
              request = h \/ exists rest, pend = request :: rest /\ (temp = h \/ exists rest', rest = temp :: rest')
          | _ => True
          end
}.

End race.

Section invariance.
Context {F W : Type} `{FlashStoreLaws F} `{!FlashBurst F} `{!FlashBurstLaws F} `{CrcEngine} `{Statics} `{FwupLocals} `{RequestJunk} `{Board W}.
Implicit Types s : fw F W.
Implicit Types S : sys F W.

(** What is proved of a computation that returns, at a result of it. *)
Lemma wp_result {A} (m : M (fw F W) A) s a s' (G : Prop) :
  m s = Some (a, s') -> wp m s (fun b t => b = a -> t = s' -> G) -> G.
Proof. intros E Hw. unfold wp in Hw. rewrite E in Hw. by apply Hw. Qed.

Lemma bind_result {A B} (m : M (fw F W) A) (k : A -> M (fw F W) B) s b s' :
  (x ← m; k x) s = Some (b, s') -> exists a s1, m s = Some (a, s1) /\ k a s1 = Some (b, s').
Proof. unfold mbind, M_bind. destruct (m s) as [[a s1]|]; [|done]. eauto. Qed.

(** ** Every step preserves it *)

Lemma inv_receive h pend s x s' cl :
  inv h pend (Sys Waiting s cl) -> scheduler_receive s = Some (x, s') ->
  exists req rest, pend = req :: rest /\ x = Some (req, hd h rest) /\ inv h pend (Sys (Working req (hd h rest)) s' cl) /\
    fwup_msg_queue s = Some [FWUP_MSG_START_ENGINEER] /\ fwup_msg_queue s' = Some [].
Proof.
  intros [[Hp Hh] (c & Ho & Hlk & Hlt & Hne) Hl Hd Hcl Hpe Hq _] E. cbn in *.
  destruct Hq as [Hq|(Hq & Hpn & _)].
  { unfold scheduler_receive, tls_os_queue_receive, mbind, M_bind, gets in E. by rewrite Hq in E. }
  destruct pend as [|req rest]; [done|]. exists req, rest. split; [done|]. apply (wp_result _ _ _ _ _ E).
  apply (scheduler_receive_spec h c req rest []); [done|done|done|done|]. intros <- <-. split; [done|].
  split; [|done]. split; cbn; [done| |done|done|done|done|by left|].
  - exists (or_state TLS_FWUP_STATE_BUSY c). split; [apply lookup_insert_eq|]. done.
  - right. exists rest. split; [done|]. destruct rest as [|y rest]; [by left|]. right. by exists rest.
Qed.

(** A request that is worked on has its work done. *)
Lemma scheduler_item_work req c r s x s' :
  reqs s !! req = Some r -> objs s !! fwup s = Some c -> scheduler_item req s = Some (x, s') ->
  is_Some (fwup_request (r_data r) (r_bytes r) (r_data_len r) (Upd (fpars s) c (fbooter s))).
Proof.
  intros Hr Ho (u & s1 & E1 & E)%bind_result. revert E. apply (wp_result _ _ _ _ _ E1).
  eapply set_req_status_spec; [exact Hr|]. intros _ <- (r1 & s2 & E2 & E)%bind_result. revert E. apply (wp_result _ _ _ _ _ E2).
  eapply the_req_spec; [apply lookup_insert_eq|]. intros <- <- (v & s3 & E3 & _)%bind_result. unfold on_upd in E3.
  cbn [objs fwup with_reqs fpars fbooter r_data r_bytes r_data_len with_status] in E3. rewrite Ho in E3. cbn in E3.
  destruct (fwup_request _ _ _ _); [by eexists|done].
Qed.

Lemma fmap_inj_elem {A B} (f : A -> B) (l : list A) x y : NoDup (f <$> l) -> x ∈ l -> y ∈ l -> f x = f y -> x = y.
Proof.
  intros Hn (i & Hi)%list_elem_of_lookup (j & Hj)%list_elem_of_lookup Hf. assert (i = j) as <-; [|congruence].
  eapply (NoDup_lookup _ _ _ (f x) Hn); rewrite list_lookup_fmap; [by rewrite Hi|rewrite Hj; cbn; congruence].
Qed.

(** A client whose request and semaphore are left alone. *)
Lemma client_frame h pend pend' s s' req sem :
  client_ok h pend s (req, sem) -> reqs s' !! req = reqs s !! req -> sems s' !! sem = sems s !! sem ->
  next_sem s <= next_sem s' -> (req ∈ pend <-> req ∈ pend') -> client_ok h pend' s' (req, sem).
Proof.
  intros (Hh & H0' & Hb & Hr & Hs) Er Es Hn Hp. split; [done|]. split; [done|]. split; [lia|]. rewrite Er, Es.
  split; [done|]. rewrite Hs. by rewrite (decide_ext _ _ _ _ Hp).
Qed.

(** The clients, after the task has dealt with [req]. *)
Lemma clients_served h req rest r sem s s' cl :
  NoDup (fst <$> cl) -> NoDup (snd <$> cl) -> (req, sem) ∈ cl -> req ∉ rest ->
  r_complete r = Fwup_request_complete -> r_arg r = sem ->
  reqs s' = <[req := r]> (reqs s) -> sems s' = <[sem := 1]> (sems s) -> next_sem s' = next_sem s ->
  Forall (client_ok h (req :: rest) s) cl -> Forall (client_ok h rest s') cl.
Proof.
  intros Hn1 Hn2 Hx Hnr Hc Ha Er Es En Hall. rewrite Forall_forall in Hall |- *. intros [req' sem'] Hy.
  pose proof (Hall _ Hy) as Hok. destruct (decide (req' = req)) as [->|Hr].
  - assert (sem' = sem) as -> by (by pose proof (fmap_inj_elem fst cl _ _ Hn1 Hx Hy eq_refl) as [=]).
    destruct Hok as (? & ? & ? & _ & _). split; [done|]. split; [done|]. split; [lia|]. rewrite Er, Es, !lookup_insert_eq.
    split; [by exists r|]. by rewrite decide_False.
  - assert (sem' <> sem) by (intros ->; by pose proof (fmap_inj_elem snd cl _ _ Hn2 Hx Hy eq_refl) as [=]).
    eapply client_frame; [exact Hok|by rewrite Er, lookup_insert_ne|by rewrite Es, lookup_insert_ne|lia|].
    split; [by intros [?|?]%elem_of_cons|by right].
Qed.

(** The step to the remembered successor. *)
Lemma next_result h rest temp s x s' :
  DlList.dll (links s) h rest -> (temp = h \/ exists rest', rest = temp :: rest') -> scheduler_next temp s = Some (x, s') ->
  s' = s /\ x = (temp, if decide (temp = h) then hd h rest else hd h (tl rest)).
Proof.
  intros Hl Ht E. apply (wp_result _ _ _ _ _ E). destruct Ht as [->|[rest' ->]].
  - apply (scheduler_next_spec h (hd h rest)); [apply (DlList.dll_first _ _ _ Hl)|]. intros <- ->. by rewrite decide_True.
  - pose proof Hl as [[Hh _]%NoDup_cons _]. rewrite decide_False by (intros ->; apply Hh; left).
    rewrite (DlList.dll_rotate _ h [] temp rest') in Hl. apply DlList.dll_first in Hl as [Hn _].
    assert (Hhd : hd temp (rest' ++ [h]) = hd h rest') by (by destruct rest'). rewrite Hhd in Hn.
    by apply (scheduler_next_spec temp (hd h rest')); [exact Hn|]; intros <- ->.
Qed.

(** The body of the loop, while the task is at the first request. *)
Lemma inv_serve h pend req temp s b s1 cl :
  inv h pend (Sys (Working req temp) s cl) -> req <> h -> scheduler_item req s = Some (b, s1) ->
  exists rest, pend = req :: rest /\
    fwup_msg_queue s = Some [] /\ fwup_msg_queue s1 = Some [] /\
    (b = false -> forall x s', scheduler_next temp s1 = Some (x, s') ->
       s' = s1 /\ x = (temp, if decide (temp = h) then hd h rest else hd h (tl rest)) /\
       inv h rest (Sys (Working (fst x) (snd x)) s' cl)).
Proof.
  intros [[Hp Hh] (c & Ho & Hlk & Hlt & Hne) Hl [Hd1 Hd2] Hcl Hpe Hq Hpc] Hrh E. cbn in *.
  destruct Hpc as [?|(rest & -> & Ht)]; [done|]. exists rest. split; [done|].
  assert (Hin : req ∈ fst <$> cl) by (apply Hpe; left). apply list_elem_of_fmap in Hin as ([req' sem] & Hreq & Hin). cbn in Hreq. subst req'.
  assert (Hok : client_ok h (req :: rest) s (req, sem)) by (by eapply Forall_forall in Hcl).
  destruct Hok as (_ & Hr0 & Hb & (r & Hr & Hcb & Ha) & Hs). rewrite decide_True in Hs by left.
  assert (Hnr : req ∉ rest) by (by destruct Hl as [[_ [? _]%NoDup_cons]%NoDup_cons _]).
  destruct Hq as [Hq|(_ & _ & [?|[? [= ? _]]])]; [|done|done].
  rewrite <- Hp in Ho. destruct (scheduler_item_work req c r s b s1 Hr Ho E) as [[v u] Ew]. rewrite Hp in Ho.
  apply (wp_result _ _ _ _ _ E).
  apply (scheduler_item_gen h c req rest r 0 s (fun _ _ => True)); rewrite ?Ha; try assumption; [lia|by eapply wp_eq|].
  intros status u' l w c' _ Hsess Hl' <- <-. flat. split; [done|]. split; [done|]. intros Hres x s' En. rewrite Hres in *.
  apply (next_result h rest) in En as [-> ->]; [|exact Hl'|exact Ht].
  split; [done|]. split; [done|]. cbn [fst snd]. assert (Hlc : list_lock c' = list_lock c).
  { unfold c'. case_decide; apply Hsess. }
  split; cbn; [done| |exact Hl'|done| |intros ? ?; apply Hpe; by right|by left|].
  - exists c'. rewrite Hlc. split; [apply lookup_insert_eq|]. rewrite lookup_insert_ne; [done|].
    rewrite Forall_forall in Hne. by apply (Hne _ Hin).
  - eapply (clients_served h req rest (with_status status r) sem s); try assumption; try done.
  - destruct Ht as [->|[rest' ->]]; [by left|]. right. exists rest'. split; [done|].
    destruct (decide (temp = h)) as [->|]; [destruct Hl as [[Hx _]%NoDup_cons _]; exfalso; apply Hx; right; left|].
    destruct rest' as [|y rest']; [by left|]. right. by exists rest'.
Qed.

(** ** Clients *)

Lemma sem_create_result n s x s' :
  tls_os_sem_create n s = Some (x, s') ->
  exists p, (x = None /\ s' = with_par p s) \/
    (x = Some (next_sem s) /\ s' = Fw p (fbooter s) (board s) (fwup s) (objs s) (links s) (reqs s)
       (<[next_sem s := n]> (sems s)) (next_sem s + 1) (fwup_msg_queue s) (fwup_task_stk s) (oneshotback s)).
Proof.
  intros (ok & s1 & E1 & E)%bind_result. unfold on_par, zoom in E1. destruct (on_store fs_sem_create (fpars s)) as [[b p]|]; [|done].
  injection E1 as <- <-. exists p. destruct b; [right|left]; cbn in E; injection E as <- <-; done.
Qed.

(** Handing in a request, up to the wait. *)
Lemma sync_begin_result h c pend q req id data bytes n s x s' :
  fwup s = h -> h <> 0 -> objs s !! h = Some c -> DlList.dll (links s) h pend -> req ∉ h :: pend -> req <> 0 ->
  sems s !! list_lock c = Some 1 -> list_lock c < next_sem s -> fwup_msg_queue s = Some q -> zlen q < FWUP_MSG_QUEUE_SIZE ->
  sync_begin req id data bytes n s = Some (x, s') ->
  exists p, ((exists e, x = inl e) /\ s' = with_par p s) \/
    (x = inr (next_sem s) /\ exists l, DlList.dll l h (pend ++ [req]) /\
       s' = Fw p (fbooter s) (board s) h (objs s) l
         (<[req := Request data bytes n TLS_FWUP_REQ_STATUS_IDLE Fwup_request_complete (next_sem s)]> (reqs s))
         (<[next_sem s := 0]> (sems s)) (next_sem s + 1)
         (Some (if decide (pend = []) then q ++ [FWUP_MSG_START_ENGINEER] else q)) (fwup_task_stk s) (oneshotback s)).
Proof.
  intros Hp Hh Ho Hl Hnr Hr0 Hlk Hlt Hq Hroom E.
  assert (Hsame : s = with_par (fpars s) s) by by destruct s.
  unfold sync_begin, mbind, M_bind, gets, the_fwup in E. rewrite Hp, (proj2 (Z.eqb_neq _ _)) in E by done. cbv beta in E. rewrite Hp, Ho in E. cbn in E.
  destruct (Z.eqb_spec id (current_session_id c)) as [->|]; [cbn in E|injection E as <- <-; exists (fpars s); left; eauto].
  destruct ((data =? 0) || (n =? 0)) eqn:Eb; [injection E as <- <-; exists (fpars s); left; eauto|].
  apply orb_false_iff in Eb as [Hd%Z.eqb_neq Hn%Z.eqb_neq].
  destruct (tls_os_sem_create 0 _) as [[o s1]|] eqn:Es; [|done]. apply sem_create_result in Es as (p & [[-> ->]|[-> ->]]); exists p.
  { injection E as <- <-. left. split; [by eexists|done]. }
  right. cbn in E. apply (wp_result _ _ _ _ _ E).
  apply (sync_submit_spec h c pend q); flat; try assumption; try done.
  { rewrite lookup_insert_ne by lia. exact Hlk. }
  intros l Hl' <- <-. split; [done|]. by exists l.
Qed.

Lemma iv_room h pend S : inv h pend S -> exists q, fwup_msg_queue (mem S) = Some q /\ zlen q < FWUP_MSG_QUEUE_SIZE /\
  (pend = [] -> q = []).
Proof. intros [_ _ _ _ _ _ [Hq|(Hq & Hne & _)] _]; eexists; (split; [exact Hq|]); by split. Qed.

Lemma inv_par h pend pc s cl p : inv h pend (Sys pc s cl) -> inv h pend (Sys pc (with_par p s) cl).
Proof. by intros [? ? ? ? ? ? ? ?]. Qed.

Lemma inv_submit h pend pc s req id data bytes n x s' cl :
  inv h pend (Sys pc s cl) -> pc <> Resetting -> req ∉ h :: (fst <$> cl) -> req <> 0 ->
  sync_begin req id data bytes n s = Some (x, s') ->
  match x with
  | inl _ => inv h pend (Sys pc s' cl) /\ fwup_msg_queue s' = fwup_msg_queue s
  | inr sem => inv h (pend ++ [req]) (Sys pc s' ((req, sem) :: cl)) /\
      forall q, fwup_msg_queue s = Some q -> fwup_msg_queue s' = Some (if decide (pend = []) then [FWUP_MSG_START_ENGINEER] else q)
  end.
Proof.
  intros I Hpc Hnr Hr0 E. destruct (iv_room _ _ _ I) as (q & Hq & Hroom & Hqe). pose proof I as [[Hp Hh] (c & Ho & Hlk & Hlt & Hne) Hl [Hd1 Hd2] Hcl Hpe Hqq Hpp].
  cbn in *. apply not_elem_of_cons in Hnr as [Hrh Hnr].
  assert (Hnp : req ∉ h :: pend) by (intros [?|?%Hpe]%elem_of_cons; done).
  destruct (sync_begin_result h c pend q req id data bytes n s x s' Hp Hh Ho Hl Hnp Hr0 Hlk ltac:(lia) Hq Hroom E)
    as (p & [[[e ->] ->]|(-> & l & Hl' & ->)]); [split; [by apply inv_par|done]|].
  rewrite Forall_forall in Hcl, Hne. split.
  2: { flat. intros q' Hq'. rewrite Hq in Hq'. injection Hq' as <-. case_decide as He; [by rewrite (Hqe He)|done]. }
  split; cbn; [done| |exact Hl'| | | | |].
  - exists c. split; [exact Ho|]. rewrite lookup_insert_ne by lia. split; [done|]. split; [lia|].
    constructor; [cbn; lia|]. by apply Forall_forall.
  - split; (constructor; [|done]); [done|]. intros (x & Hex & Hx)%list_elem_of_fmap. destruct x as [req' sem']. apply Hcl in Hx as (_ & _ & ? & _). cbn in *. lia.
  - constructor.
    + split; [done|]. split; [done|]. split; [cbn; lia|]. cbn. rewrite !lookup_insert_eq. split; [by eexists|].
      rewrite decide_True; [done|]. apply elem_of_app. right. left.
    + apply Forall_forall. intros [req' sem'] Hx. pose proof (Hcl _ Hx) as Hok. pose proof Hok as (_ & _ & Hb & _).
      assert (req' <> req) by (intros ->; apply Hnr; by apply (list_elem_of_fmap_2 fst) in Hx).
      eapply client_frame; [exact Hok|cbn; by rewrite lookup_insert_ne|cbn; rewrite lookup_insert_ne; [done|lia]|cbn; lia|].
      rewrite elem_of_app, list_elem_of_singleton. split; [by left|by intros [?|?]].
  - intros x [Hx|Hx%list_elem_of_singleton]%elem_of_app; [right; by apply Hpe|subst x; left].
  - destruct (decide (pend = [])) as [He|He].
    + right. rewrite (Hqe He), He. split; [done|]. split; [done|].
      destruct pc as [|request temp|]; [by left| |done]. right. destruct Hpp as [->|(? & Hx & _)]; [by exists temp|congruence].
    + destruct Hqq as [Hqq|(Hqq & _ & Hs)]; rewrite Hq in Hqq; [by left|]. right. split; [done|]. split; [by destruct pend|done].
  - destruct pc as [|request temp|]; [done| |done]. destruct Hpp as [?|(rest & -> & Ht)]; [by left|right].
    exists (rest ++ [req]). split; [done|]. destruct Ht as [?|[rest' ->]]; [by left|right]. by exists (rest' ++ [req]).
Qed.

(** A client that has been woken up returns. *)
Lemma sync_end_result req sem n r s x s' :
  sems s !! sem = Some n -> reqs s !! req = Some r -> sync_end req sem s = Some (x, s') ->
  0 < n /\ s' = Fw (fpars s) (fbooter s) (board s) (fwup s) (objs s) (delete req (links s)) (delete req (reqs s))
    (delete sem (<[sem := n - 1]> (sems s))) (next_sem s) (fwup_msg_queue s) (fwup_task_stk s) (oneshotback s).
Proof.
  intros Hs Hr E. assert (Hn : 0 < n).
  { apply bind_result in E as (u & s1 & E & _). unfold tls_os_sem_acquire in E. rewrite Hs in E. cbn in E.
    by destruct (Z.ltb_spec 0 n). }
  split; [done|]. apply (wp_result _ _ _ _ _ E). apply wp_bind, (task_sem_acquire_spec _ n); [done|done|]. flat.
  apply wp_bind, wp_modify. flat. apply wp_bind, (the_req_spec req r); [exact Hr|].
  apply wp_bind, wp_modify. flat. apply wp_bind, wp_modify. flat. by apply wp_ret.
Qed.

Lemma inv_return h pend pc s req sem x s' cl1 cl2 :
  inv h pend (Sys pc s (cl1 ++ (req, sem) :: cl2)) -> sync_end req sem s = Some (x, s') ->
  (req ∉ pend) /\ inv h pend (Sys pc s' (cl1 ++ cl2)) /\ fwup_msg_queue s' = fwup_msg_queue s.
Proof.
  intros [[Hp Hh] (c & Ho & Hlk & Hlt & Hne) Hl [Hd1 Hd2] Hcl Hpe Hq Hpp] E. cbn in *.
  assert (Hperm : cl1 ++ ((req, sem) :: cl2) ≡ₚ (req, sem) :: cl1 ++ cl2) by by rewrite Permutation_middle.
  rewrite Hperm in Hd1, Hd2, Hcl, Hne. rewrite fmap_cons in Hd1, Hd2. cbn in Hd1, Hd2.
  apply NoDup_cons in Hd1 as [Hn1 Hd1], Hd2 as [Hn2 Hd2]. apply Forall_cons in Hcl as [Hok Hcl], Hne as [Hne' Hne]. cbn in Hne'.
  destruct Hok as (Hrh & Hr0 & Hb & (r & Hr & _) & Hs).
  destruct (sync_end_result req sem _ r s x s' Hs Hr E) as [Hpos ->]. destruct (decide (req ∈ pend)) as [|Hnp]; [lia|].
  split; [done|]. split; [|done]. split; cbn; [done| | |done| | |done|done].
  - exists c. split; [exact Ho|]. rewrite lookup_delete_ne, lookup_insert_ne by done. done.
  - apply (DlList.dll_frame (links s) _ _ _ [req]); [exact Hl|..].
    + intros y Hy. apply lookup_delete_ne. intros ->. apply Hy. left.
    + intros y Hy Hy2%list_elem_of_singleton. subst y. apply elem_of_cons in Hy as [?|?]; done.
  - rewrite Forall_forall in Hcl |- *. intros [req' sem'] Hx.
    assert (req' <> req) by (intros ->; apply Hn1; by apply (list_elem_of_fmap_2 fst) in Hx).
    assert (sem' <> sem) by (intros ->; apply Hn2; by apply (list_elem_of_fmap_2 snd) in Hx).
    eapply client_frame; [by apply Hcl|cbn; by rewrite lookup_delete_ne| |done|done].
    cbn. by rewrite lookup_delete_ne, lookup_insert_ne.
  - intros y Hy. specialize (Hpe y Hy). rewrite Hperm in Hpe. apply elem_of_cons in Hpe as [->|?]; [by destruct Hnp|done].
Qed.

(** ** The other entry points *)

(** What they leave alone, once the module is installed. *)
Definition calm s s' : Prop :=
  fwup s <> 0 ->
  fwup s' = fwup s /\ links s' = links s /\ reqs s' = reqs s /\ sems s' = sems s /\ next_sem s' = next_sem s /\
  fwup_msg_queue s' = fwup_msg_queue s /\
  forall p c, objs s !! p = Some c -> exists c', objs s' !! p = Some c' /\ list_lock c' = list_lock c.

#[local] Instance calm_preorder : PreOrder calm.
Proof.
  split; [intros s _; eauto 10|]. intros s1 s2 s3 C1 C2 Hp. destruct (C1 Hp) as (E1 & E2 & E3 & E4 & E5 & E6 & E7).
  destruct C2 as (F1 & F2 & F3 & F4 & F5 & F6 & F7); [congruence|]. do 6 (split; [congruence|]).
  intros p c (c' & Hc & ?)%E7. destruct (F7 _ _ Hc) as (c2 & ? & ?). exists c2. split; [done|congruence].
Qed.

Lemma calm_par {A} (m : M (par F) A) : keeps calm (on_par m).
Proof. apply keeps_zoom. intros s p _. cbn. eauto 10. Qed.
Lemma calm_board {A} (f : W -> A * W) : keeps calm (on_board f).
Proof. apply keeps_zoom. intros s p _. cbn. eauto 10. Qed.
Lemma calm_oneshot v : keeps calm (set_oneshotback v).
Proof. apply keeps_modify. intros s _. cbn. eauto 10. Qed.
Lemma calm_the_fwup : keeps calm the_fwup.
Proof. intros s a s' E. unfold the_fwup in E. destruct (objs s !! fwup s); [|done]. injection E as _ <-. reflexivity. Qed.
Lemma calm_on_fwup f : (forall c, list_lock (f c) = list_lock c) -> keeps calm (on_fwup f).
Proof.
  intros Hf s a s' (c & s1 & E1 & E)%bind_result _. unfold the_fwup in E1. destruct (objs s !! fwup s) as [c1|] eqn:Hc; [|done].
  injection E1 as <- <-. injection E as <- <-. cbn. do 6 (split; [done|]). intros p c' Hp. destruct (decide (p = fwup s)) as [->|].
  - rewrite lookup_insert_eq. eexists. split; [done|]. rewrite Hf. congruence.
  - rewrite lookup_insert_ne by done. by exists c'.
Qed.
Lemma calm_init : keeps calm tls_fwup_init.
Proof.
  intros s a s' E Hp. unfold tls_fwup_init, mbind, M_bind, gets in E. rewrite (proj2 (Z.eqb_neq _ _)) in E by done.
  injection E as _ <-. eauto 10.
Qed.

#[local] Hint Resolve calm_par calm_board calm_oneshot calm_the_fwup calm_init : keeps.
#[local] Hint Extern 1 (keeps calm (on_fwup _)) => (apply calm_on_fwup; intros; reflexivity) : keeps.

Lemma calm_call c : keeps calm (run_call c).
Proof.
  destruct c; cbn [run_call]; unfold tls_fwup_enter, tls_fwup_exit, tls_fwup_reset, tls_fwup_clear_error, tls_fwup_set_crc_error,
    tls_fwup_set_update_numer, session_guard, get_psm, draw_session, do_board; keep.
Qed.

Lemma inv_call h pend pc s s' cl : inv h pend (Sys pc s cl) -> calm s s' -> inv h pend (Sys pc s' cl).
Proof.
  intros [[Hp Hh] (c & Ho & Hlk) Hl Hd Hcl Hpe Hq Hpp] C. cbn in *.
  destruct C as (E1 & E2 & E3 & E4 & E5 & E6 & E7); [congruence|]. destruct (E7 _ _ Ho) as (c' & Ho' & Hc).
  split; cbn; rewrite ?E1, ?E2, ?E4, ?E5, ?E6; try done.
  - exists c'. rewrite Hc. done.
  - eapply Forall_impl; [exact Hcl|]. intros [req sem]. unfold client_ok. by rewrite E3, E4, E5.
Qed.

(** ** The code moves like the abstract line *)

Definition sim (h : Z) (a : line) S : Prop :=
  sched S = l_pc a /\
  (l_pc a = Resetting \/
   inv h (l_pend a) S /\ fwup_msg_queue (mem S) = Some (if l_msg a then [FWUP_MSG_START_ENGINEER] else [])).

Lemma reset_final l S S' : sched S = Resetting -> step l S S' -> False.
Proof using. intros Hs Hst. by destruct Hst. Qed.

(** A message on its way is for a line that is not empty. *)
Lemma msg_receive h pend m S :
  inv h pend S -> fwup_msg_queue (mem S) = Some (if m : bool then [FWUP_MSG_START_ENGINEER] else []) -> m = true -> pend <> [].
Proof using. intros [_ _ _ _ _ _ [Hq|(_ & ? & _)] _] Hm ->; [congruence|done]. Qed.

Lemma sim_step h a l S S' : sim h a S -> step l S S' -> exists a', lstep h l a a' /\ sim h a' S'.
Proof.
  destruct a as [p pend m]. intros [Hp [Hr|[I Hq]]] Hst; cbn in *; [rewrite Hr in Hp; by destruct (reset_final _ _ _ Hp Hst)|].
  pose proof (iv_ptr _ _ _ I) as [Hf Hh].
  destruct Hst as [s x s' cl E|s s' cl E|request temp s s' cl Hne E|request temp s s1 x s' cl Hne E En|temp s cl
    |pc s req id data bytes n sem s' cl Hpc Hn Hr E|pc s req id data bytes n e s' cl Hpc Hn Hr E|pc s req sem e s' cl1 cl2 Hpc E|pc s c r s' cl Hpc E];
    cbn in *; subst p.
  - destruct (inv_receive h pend s _ s' cl I E) as (req & rest & -> & [= ->] & I' & Hqs & Hq').
    assert (m = true) as -> by (destruct m; congruence). eexists. split; [apply lstep_receive|]. split; [done|]. by right.
  - by destruct (inv_receive h pend s None s' cl I E) as (? & ? & _ & ? & _).
  - rewrite Hf in Hne. destruct (inv_serve h pend request temp s true s' cl I Hne E) as (rest & -> & _).
    eexists. split; [apply lstep_reset|]. split; [done|]. by left.
  - rewrite Hf in Hne. destruct (inv_serve h pend request temp s false s1 cl I Hne E) as (rest & -> & Hqs & Hq' & Hs).
    assert (m = false) as -> by (destruct m; congruence). destruct (Hs eq_refl x s' En) as (-> & -> & I').
    eexists. split; [apply lstep_serve|]. split; [done|]. by right.
  - rewrite Hf in *. eexists. split; [apply lstep_leave|]. split; [done|]. right. split; [|done].
    destruct I as [Hp' Ho Hl Hd Hcl Hpe Hq' Hpp]. split; try done.
    destruct Hq' as [?|(? & ? & _)]; [by left|right]. split; [done|]. split; [done|by left].
  - rewrite Hf in Hn. pose proof I as [_ _ _ _ _ Hpe _ _].
    destruct (inv_submit h pend pc s req id data bytes n _ s' cl I Hpc Hn Hr E) as [I' Hq']. eexists. split.
    { apply lstep_submit; [done|]. apply not_elem_of_cons in Hn as [Hn1 Hn2]. by intros [?|?%Hpe]%elem_of_cons. }
    split; [done|]. right. split; [exact I'|]. cbn. rewrite (Hq' _ Hq). case_decide as He.
    + by rewrite bool_decide_true, orb_true_r.
    + by rewrite bool_decide_false, orb_false_r.
  - rewrite Hf in Hn. destruct (inv_submit h pend pc s req id data bytes n _ s' cl I Hpc Hn Hr E) as [I' Hq'].
    eexists. split; [by apply lstep_refuse|]. split; [done|]. right. split; [done|]. cbn. congruence.
  - destruct (inv_return h pend pc s req sem e s' cl1 cl2 I E) as (Hnp & I' & Hq').
    eexists. split; [by apply lstep_return|]. split; [done|]. right. split; [done|]. cbn. congruence.
  - assert (Hc : calm s s') by (by eapply calm_call). eexists. split; [by apply lstep_call|]. split; [done|].
    right. split; [by eapply inv_call|]. cbn. destruct Hc as (_ & _ & _ & _ & _ & -> & _); [|done]. cbn in *. congruence.
Qed.

Lemma sim_rest h c s : at_rest h c s -> sim h (Line Waiting [] false) (Sys Waiting s []).
Proof using.
  intros [? Ho Hl [? ?] Hq]. split; [done|]. right. split; [|done]. split; cbn;
    [done|by exists c|done|split; constructor|constructor|by intros ? ?%not_elem_of_nil|by left|done].
Qed.

Lemma sim_steps h a t S S' : sim h a S -> steps t S S' -> exists a', lsteps h t a a' /\ sim h a' S'.
Proof.
  intros Hs Hst. induction Hst as [S|t l S1 S2 S3 _ IH Hst]; [exists a; split; [constructor|done]|].
  destruct (IH Hs) as (a2 & Ha & Hs2). destruct (sim_step _ _ _ _ _ Hs2 Hst) as (a3 & Hl & Hs3).
  exists a3. split; [by econstructor|done].
Qed.

(** C7. The task and its clients, however their steps interleave, move like
    the abstract waiting line: every run of the code from an idle task has a
    run of the line with the same labels, and the pointers, the semaphores
    and the queue at its end represent the line - until the board is reset. *)
Theorem fwup_line_refines h c s t S :
  at_rest h c s -> steps t (Sys Waiting s []) S ->
  exists a, lsteps h t (Line Waiting [] false) a /\ sim h a S.
Proof. intros Hr Hst. by eapply sim_steps; [eapply sim_rest|]. Qed.

(** C19. In every reachable state in which the board has not been reset, the
    waiting list is a well-formed ring of the requests not yet dealt with,
    each of them a waiting client's; a client's semaphore is up exactly if
    its request has been dealt with; the list's lock is free; and the queue,
    which has room for four messages, holds at most one. *)
Theorem fwup_race_invariant h c s t S :
  at_rest h c s -> steps t (Sys Waiting s []) S -> sched S <> Resetting ->
  exists pend q,
    DlList.dll (links (mem S)) h pend /\ (forall req, req ∈ pend -> req ∈ fst <$> clients S) /\
    (forall req sem, (req, sem) ∈ clients S -> sems (mem S) !! sem = Some (if decide (req ∈ pend) then 0 else 1)) /\
    (exists c', objs (mem S) !! h = Some c' /\ sems (mem S) !! list_lock c' = Some 1) /\
    fwup_msg_queue (mem S) = Some q /\ zlen q <= 1.
Proof.
  intros Hr Hst Hn. destruct (sim_steps h _ t _ S (sim_rest h c s Hr) Hst) as (a & _ & Hp & [He|[I Hq]]); [congruence|].
  destruct I as [_ (c' & Ho & Hlk & _) Hl _ Hcl Hpe _ _]. exists (l_pend a). eexists. split; [done|]. split; [done|]. split.
  { intros req sem Hx. rewrite Forall_forall in Hcl. by destruct (Hcl _ Hx) as (_ & _ & _ & _ & ?). }
  split; [by exists c'|]. split; [exact Hq|]. by destruct (l_msg a).
Qed.

Lemma steps_app t1 t2 S1 S2 S3 : steps t1 S1 S2 -> steps t2 S2 S3 -> steps (t1 ++ t2) S1 S3.
Proof using.
  intros H1' H2'. induction H2' as [S|t l S2 S3 S4 _ IH Hl]; [by rewrite app_nil_r|]. rewrite app_assoc. econstructor; [by apply IH|done].
Qed.

(** C20. A lost wake-up.  A client hands in a request; the task takes the
    message and turns to it; a second client hands in another, which sends no
    message, since the list is not empty; the task finishes the first request
    and leaves the loop, because the successor it remembered is the head of
    the list.  Whatever happens then - new requests included - the task never
    receives a message again, and the second client never returns. *)
Theorem fwup_lost_wakeup h c s r1 r2 t S S' :
  at_rest h c s -> steps [Submit r1; Receive; Submit r2; Serve; Leave] (Sys Waiting s []) S -> steps t S S' ->
  (Return r2 ∉ t) /\ (Receive ∉ t) /\ sched S' = Waiting /\ fwup_msg_queue (mem S') = Some [] /\
  exists sem, (r2, sem) ∈ clients S' /\ sems (mem S') !! sem = Some 0.
Proof.
  intros Hr Hs1 Hs2. destruct (sim_steps h _ _ _ S (sim_rest h c s Hr) Hs1) as (a & Ha & Hsim).
  destruct (sim_steps h a t S S' Hsim Hs2) as (a' & Ha' & Hp & Hcase).
  apply late_request_asleep in Ha. destruct (asleep_steps _ _ _ _ _ Ha Ha') as ((Hw & Hin & Hm) & Hret & Hrec).
  split; [done|]. split; [done|]. rewrite Hp, Hw. split; [done|]. destruct Hcase as [He|[I Hq]]; [congruence|].
  rewrite Hm in Hq. split; [exact Hq|]. destruct I as [_ _ _ _ Hcl Hpe _ _].
  pose proof (Hpe _ Hin) as Hcl'. apply list_elem_of_fmap in Hcl' as ([req sem] & Hreq & Hx). cbn in Hreq. subst req. exists sem. split; [done|].
  rewrite Forall_forall in Hcl. destruct (Hcl _ Hx) as (_ & _ & _ & _ & Hsem). by rewrite Hsem, decide_True.
Qed.

Lemma serial_sim h c s S :
  at_rest h c s -> serial_steps (Sys Waiting s []) S -> exists a, sim h a S /\ attended h a.
Proof.
  intros Hr Hst. remember (Sys Waiting s []) as S0 eqn:E0. induction Hst as [S|l S1 S2 S3 _ IH Hst Hone]; subst.
  { exists (Line Waiting [] false). split; [by eapply sim_rest|]. split; cbn; [lia|by left|apply not_elem_of_nil]. }
  destruct (IH eq_refl) as (a & Hs & Ha). destruct (sim_step _ _ _ _ _ Hs Hst) as (a' & Hl & Hs').
  exists a'. split; [done|]. eapply attended_step; [done| |done]. intros req ->.
  destruct Hs as [Hp [He|[I _]]]; [destruct a; cbn in He; subst; inversion Hl; subst; done|].
  destruct (l_pend a) as [|x l] eqn:El; [done|]. exfalso.
  assert (Hx : x ∈ fst <$> clients S2) by (apply (iv_pend _ _ _ I); left). rewrite (Hone req eq_refl) in Hx. by apply not_elem_of_nil in Hx.
Qed.

(** The message of a request is on its way and will be received. *)
Lemma receive_enabled h req S :
  inv h [req] S -> sched S = Waiting -> fwup_msg_queue (mem S) = Some [FWUP_MSG_START_ENGINEER] ->
  exists S', step Receive S S' /\ sched S' = Working req h.
Proof.
  destruct S as [p s cl]. intros [[Hp Hh] (c & Ho & _) Hl _ _ _ _ _] Hw Hq. cbn in *. subst p.
  assert (Hrun : wp scheduler_receive s (fun x _ => x = Some (req, h))).
  { by apply (scheduler_receive_spec h c req [] []). }
  apply wp_run in Hrun as (x & s' & E & ->). eexists. split; [by apply (step_receive s (req, h))|done].
Qed.

(** C21. With one client at a time no request is lost: while a client waits
    for its request to be dealt with, either the task is at that request, or
    the message is still in the queue, and the task receives it - at once, or
    after leaving its loop - and turns to the request. *)
Theorem fwup_serial_served h c s S req sem :
  at_rest h c s -> serial_steps (Sys Waiting s []) S -> (req, sem) ∈ clients S -> sems (mem S) !! sem = Some 0 ->
  sched S = Resetting \/ (exists temp, sched S = Working req temp) \/
  exists S1 S2, (S1 = S \/ step Leave S S1) /\ step Receive S1 S2 /\ sched S2 = Working req h.
Proof.
  intros Hr Hst Hx Hsem. destruct (serial_sim h c s S Hr Hst) as ([p pend m] & [Hp Hcase] & [Hone Hmsg Hhd]). cbn in *. subst p.
  destruct Hcase as [He|[I Hq]]; [by left|]. assert (Hin : req ∈ pend).
  { destruct I as [_ _ _ _ Hcl _ _ _]. rewrite Forall_forall in Hcl. destruct (Hcl _ Hx) as (_ & _ & _ & _ & Hs).
    rewrite Hs in Hsem. by case_decide. }
  assert (pend = [req]) as ->.
  { destruct pend as [|x [|y rest]]; [by apply not_elem_of_nil in Hin| |cbn in Hone; lia]. by apply list_elem_of_singleton in Hin as ->. }
  destruct Hmsg as [?|[->|[(r & temp & Hp & ->%list_elem_of_singleton)|Hp]]]; [done| |right; left; by exists temp|by left].
  pose proof I as [[Hf _] _ _ _ _ _ [Hq'|(_ & _ & Hs)] _]; [congruence|]. right; right. destruct Hs as [Hs|[temp Hs]].
  - destruct (receive_enabled h req S I Hs Hq) as (S2 & ? & ?). exists S, S2. auto.
  - destruct S as [p s1 cl]. cbn in *. subst p h. exists (Sys Waiting s1 cl).
    destruct (receive_enabled (fwup s1) req (Sys Waiting s1 cl)) as (S2 & ? & ?); [|done|done|exists S2; auto using step_leave].
    destruct I as [? ? ? ? ? ? ? ?]. split; try done. right. split; [done|]. split; [done|by left].
Qed.

End invariance.
