(* ===== verification/FwupWitness.v ===== *)
(** * The theorems of the firmware update at concrete inputs

    A board with a blank 2-megabyte flash, an idle update task, and an image
    of four bytes of code with its signature. *)
From S2P Require Import Prelude CMonad Checksum DlList HostEnv FlashChip FlsHw FlsDriver FlsWrite CrcHard Storage FlsStore FlsBurst ParamData Param ParamImage ParamSpec ParamInit ParamProps Fwup FwupHeader FwupSpec FwupTask FwupTaskSpec FwupUpgrade FwupProps FwupWait FwupRace.
Import SoftCrc.

(** The board's state is the power-saving flag of the Wi-Fi library. *)
#[export] Instance sample_board : Board Z := {|
  rand w := (7, w);
  os_queue_create w := (true, w);
  os_task_create w := (true, w);
  wifi_auto_flag _ := 0;
  wifi_set_auto_flag _ w := w;
  wifi_oneshot_flag _ := 0;
  wifi_set_oneshot_flag _ w := w;
  wifi_set_psflag v _ := v;
  sys_set_reboot_reason _ w := w
|}.
#[export] Instance sample_locals : FwupLocals := {| run_param_junk := replicate 64 0; run_param_size := eq_refl |}.
#[export] Instance sample_junk : RequestJunk := 0.

Definition blank_fls (open : bool) (sems : bool) : fls BumpHost.bump NorChip.nor :=
  Fls (sample_hw SPIFLASH_MID_GD) (BumpHost.Bump 536870912 553648128 sems) false (Some (sample_inside SPIFLASH_MID_GD))
    (if open then Some (536920000, replicate 4096 170) else None) 0 flash_map_default.
Definition blank_pars (open sems : bool) : machine := Par (blank_fls open sems) idle_gpsec zeros (Some 1) None 0.

Lemma blank_pars_ok open sems : par_ok (blank_pars open sems).
Proof.
  split; [|reflexivity|apply zeros_ok|exact default_map_ok].
  split; [exists (sample_inside SPIFLASH_MID_GD)|intros a _; apply sample_unprotected].
  destruct sample_ready. by split.
Qed.

Lemma replicate_ok n b : 0 <= b < 256 -> bytes_ok (replicate n b).
Proof. intros Hb. by apply Forall_replicate. Qed.

Definition fwup_at : Z := 0x20003000.
Definition sample_ctl (b : bool) (id : Z) : tls_fwup := Fwup 1 b TLS_FWUP_IMAGE_SRC_WEB 0 id 0 0 0 0 0 (-1).

(** The module installed, the task idle; with a session if [id] is not 0. *)
Definition sample_fw (id : Z) : fw (fls BumpHost.bump NorChip.nor) Z :=
  let b := negb (id =? 0) in
  Fw (blank_pars b true) (replicate 64 0) 0 fwup_at {[fwup_at := sample_ctl b id]} {[fwup_at := DlList.Node fwup_at fwup_at]}
    ∅ {[1 := 1]} 2 (Some []) 0 0.

Lemma sample_rest id : at_rest fwup_at (sample_ctl (negb (id =? 0)) id) (sample_fw id).
Proof.
  split; [by split|apply lookup_singleton_eq| |split; [apply lookup_singleton_eq|by split]|done].
  split; [apply NoDup_singleton|]. split; [|done]. split; reflexivity.
Qed.

Lemma sample_session : session fwup_at (sample_ctl true 7) (blank_pars true true) 1000 [] (sample_fw 7).
Proof.
  split; [exact (sample_rest 7)|]. split; cbn; [by left|done|split; [constructor|lia]| |].
  - split; [|done]. split; [reflexivity|]. by apply (replicate_ok 64 0).
  - split; [|done]. apply quiet_refl, blank_pars_ok.
Qed.

Lemma sample_open : fb_open (store (blank_pars true true)).
Proof.
  split; [|reflexivity]. exists 536920000, (replicate 4096 170). split; [reflexivity|]. split; [reflexivity|].
  by apply (replicate_ok 4096 170).
Qed.

(** The blank flash reads as a running image that is signed and encrypted. *)
Definition sample_code : list Z := [1; 2; 3; 4].
Definition sample_header : list Z :=
  make_header 0x111 0x80D0400 4 0x80D0000 CODE_UPD_START_ADDR (Crc32.ref_reg 0xFFFFFFFF sample_code).
Definition sample_image : list Z := sample_header ++ sample_code ++ replicate 128 9.
Definition sample_chunks : list (Z * list Z) := [(0x20004000, take 50 sample_image); (0x20005000, drop 50 sample_image)].

Lemma sample_known h : upgrade_img_addr h = CODE_UPD_START_ADDR -> img_header_addr h = 0x80D0000 -> img_len h = 4 ->
  header_known (blank_pars true true) 1000 h.
Proof.
  intros Hu Hr Hl. unfold header_known, run_header_at, image_fits, ota_apart, area, total_of, base_of, burst_fits. rewrite Hu, Hr, Hl.
  assert (Ho : ota_off (blank_pars true true) = 0x1FF000) by reflexivity.
  change (fs_size (store (blank_pars true true))) with 0x200000. rewrite Ho.
  change (CODE_UPD_START_ADDR ||| FLASH_BASE_ADDR) with 0x8010000.
  change (0x8010000 mod 2 ^ 27) with 0x10000. change (0x80D0000 mod 2 ^ 27) with 0xD0000. unfold BOOT_SIZE.
  split; [intros _; lia|]. intros _ _. split; [split; [repeat split; vm_compute; congruence|case_match; lia]|]. split; [lia|]. split; [lia|].
  unfold sectors_of, burst_region. intros a Ha Hb. dlia.
Qed.

Lemma sample_header_ok : header_ok sample_header.
Proof. split; [vm_compute; reflexivity|]. repeat apply Forall_app_2; try apply le_bytes_ok. by apply (replicate_ok 32 0). Qed.

Lemma sample_chunks_ok : Forall chunk_ok sample_chunks.
Proof.
  assert (Hi : bytes_ok sample_image).
  { apply Forall_app. split; [apply sample_header_ok|]. apply Forall_app. split; [repeat constructor; lia|by apply (replicate_ok 128 9)]. }
  apply Forall_cons. split; [|apply Forall_cons; split; [|constructor]]; (split; [done|]).
  - split; [by apply (Forall_take byte_ok 50)|vm_compute; congruence].
  - split; [by apply (Forall_drop byte_ok 50)|vm_compute; congruence].
Qed.

Lemma sample_payload : payload sample_chunks = sample_image.
Proof. vm_compute. reflexivity. Qed.

Lemma sample_hd : take 64 sample_image = sample_header.
Proof. vm_compute. reflexivity. Qed.

Lemma sample_accepted : header_accepts (real_run (blank_pars true true) sample_header) sample_header = true.
Proof. vm_compute. reflexivity. Qed.

Lemma fwup_image_installed_witness :
  let image := payload sample_chunks in
  let hd := take 64 image in
  wp (upgrade 2 0x20006000 7 sample_chunks) (sample_fw 7) (fun r s' =>
    r = Some TLS_FWUP_STATUS_EMEM \/
    (r = None /\
     par_step (fun a => area hd 1000 a \/ sectors_of (ota_off (blank_pars true true)) 4 a) (blank_pars true true) (fpars s') /\
     exists c', objs s' !! fwup_at = Some c' /\
       (fs_low (store (fpars s')) = true \/
        if image_good image then
          in_state c' TLS_FWUP_STATE_COMPLETE = true /\
          range (fs_byte (store (fpars s'))) (base_of hd mod 2 ^ 27) (zlen image) = image /\
          range (fs_byte (store (fpars s'))) (ota_off (blank_pars true true)) 4 = slice 24 4 hd
        else
          in_state c' TLS_FWUP_STATE_ERROR_CRC = true /\ par_step (area hd 1000) (blank_pars true true) (fpars s')))).
Proof.
  apply (fwup_image_installed 2 fwup_at (sample_ctl true 7) 0x20006000 (blank_pars true true) 1000 sample_chunks (sample_fw 7));
    [exact sample_session|exact sample_open|done|done|done|exact sample_chunks_ok|..]; rewrite sample_payload, ?sample_hd;
    [vm_compute; congruence|reflexivity|by apply sample_known|exact sample_accepted].
Defined.

(** The same image with a magic number that is wrong. *)
Definition bad_chunks : list (Z * list Z) := [(0x20004000, 0 :: drop 1 sample_image)].

Lemma fwup_bad_header_harmless_witness :
  wp (upgrade 2 0x20006000 7 bad_chunks) (sample_fw 7) (fun r s' =>
    fs_low (store (fpars s')) = true \/ r = Some TLS_FWUP_STATUS_EMEM \/
    (r = None /\ fs_byte (store (fpars s')) ≡ₐ fs_byte (store (blank_pars true true)) /\
     exists c', objs s' !! fwup_at = Some c' /\ in_state c' TLS_FWUP_STATE_ERROR_IO = true)).
Proof.
  apply (fwup_bad_header_harmless 2 fwup_at (sample_ctl true 7) 0x20006000 (blank_pars true true) 1000 bad_chunks (sample_fw 7));
    [exact sample_session|exact sample_open|done|done|done| |vm_compute; split; congruence|by apply sample_known|vm_compute; reflexivity].
  pose proof sample_chunks_ok as [(_ & H1 & _) [(_ & H2 & _) _]%Forall_cons]%Forall_cons. cbn [fst snd] in *.
  constructor; [|constructor]. split; [done|]. split; [|done].
  apply Forall_cons. split; [done|]. apply (Forall_drop byte_ok 1).
  rewrite <- (take_drop 50 sample_image). by apply Forall_app.
Defined.

Definition sample_upd : upd (fls BumpHost.bump NorChip.nor) := Upd (blank_pars true true) (sample_ctl true 7) (replicate 64 0).

Lemma header_check_exact_witness :
  wp (tls_fwup_img_header_check sample_header) sample_upd (fun r u' =>
    ctl u' = ctl sample_upd /\ booter u' = booter sample_upd /\ par_step nowhere (pars sample_upd) (pars u') /\
    (r = header_accepts (run_header sample_upd sample_header) sample_header \/
     (fs_low (store (pars u')) = true /\ r = header_accepts run_param_junk sample_header))).
Proof.
  apply (header_check_exact sample_header sample_upd); [apply blank_pars_ok|exact sample_header_ok|].
  intros _. by vm_compute.
Defined.

Lemma header_check_area_witness :
  wp (tls_fwup_img_header_check sample_header) sample_upd (fun r _ => r = true ->
    img_addr sample_header mod 1024 = 0 /\ (img_addr sample_header ||| FLASH_BASE_ADDR) + img_len sample_header < USER_ADDR_START /\
    CODE_UPD_START_ADDR <= base_of sample_header /\ base_of sample_header + img_len sample_header < CODE_RUN_START_ADDR).
Proof.
  apply (header_check_area sample_header sample_upd); [apply blank_pars_ok|exact sample_header_ok|intros _; by vm_compute|..];
    vm_compute; reflexivity.
Defined.

Lemma header_check_holes_witness :
  CODE_RUN_START_ADDR < base_of overrunning_header + total_of overrunning_header /\ 2 ^ 31 < img_len huge_header /\
  forall h, h = overrunning_header \/ h = huge_header ->
    wp (tls_fwup_img_header_check h) sample_upd (fun r u' => r = true \/ fs_low (store (pars u')) = true).
Proof.
  apply (header_check_holes sample_upd); [apply blank_pars_ok|by vm_compute|vm_compute; reflexivity|vm_compute; reflexivity].
Defined.

Lemma fwup_enter_opens_witness :
  wp (tls_fwup_enter 1 TLS_FWUP_IMAGE_SRC_WEB) (sample_fw 0) (fun id s' =>
    id <> 0 /\ par_step nowhere (fpars (sample_fw 0)) (fpars s') /\
    exists c', busy c' = true /\ current_session_id c' = id /\ current_image_src c' = TLS_FWUP_IMAGE_SRC_WEB /\
      at_rest fwup_at c' s' /\
      (fs_low (store (fpars s')) = true \/ (session fwup_at c' (fpars s') 1000 [] s' /\ fb_open (store (fpars s'))))).
Proof.
  apply (fwup_enter_opens fwup_at (sample_ctl false 0) (sample_fw 0) 1 TLS_FWUP_IMAGE_SRC_WEB 1000);
    [exact (sample_rest 0)|done|apply blank_pars_ok|done|done|by left| |done].
  split; [reflexivity|by apply (replicate_ok 64 0)].
Defined.

Lemma fwup_session_zero_witness :
  wp (sync_begin 0x20006000 0 0x20004000 [1] (zlen [1])) (sample_fw 0) (fun r s' =>
    r = inl TLS_FWUP_STATUS_EMEM \/
    (exists sem, r = inr sem) /\ DlList.dll (links s') fwup_at [0x20006000] /\ objs s' !! fwup_at = Some (sample_ctl false 0)).
Proof.
  apply (fwup_session_zero fwup_at (sample_ctl false 0) 0x20006000 0x20004000 [1] (sample_fw 0));
    [exact (sample_rest 0)|done|done|apply blank_pars_ok|done..].
Defined.

(** Before the installation; [sems]: the kernel has semaphores to give. *)
Definition cold_fw (sems : bool) : fw (fls BumpHost.bump NorChip.nor) Z :=
  Fw (blank_pars false sems) (replicate 64 0) 0 0 ∅ ∅ ∅ ∅ 1 None 0 0.

Lemma fwup_init_result_witness :
  wp tls_fwup_init (cold_fw true) (fun r s' =>
    (r = TLS_FWUP_STATUS_OK /\ exists c, at_rest (fwup s') c s' /\ busy c = false /\ current_session_id c = 0) \/
    (r = TLS_FWUP_STATUS_EMEM /\ not_installed s')).
Proof. apply (fwup_init_result (cold_fw true)); [done|apply blank_pars_ok|done]. Defined.

(** A failed installation leaves a dangling pointer.  When there is no
    semaphore for the list's lock, [tls_fwup_init] frees [*fwup] and reports
    that there is no memory, but [fwup] keeps the block's address: a second
    attempt answers that the module is installed, and [tls_fwup_enter]
    reads the freed block. *)
Theorem fwup_init_dangling :
  wp tls_fwup_init (cold_fw false) (fun r s' =>
    r = TLS_FWUP_STATUS_EMEM /\ fwup s' <> 0 /\ objs s' !! fwup s' = None /\
    wp tls_fwup_init s' (fun r2 s2 => r2 = TLS_FWUP_STATUS_EBUSY /\ s2 = s') /\
    tls_fwup_enter 1 TLS_FWUP_IMAGE_SRC_WEB s' = None).
Proof. vm_compute. repeat split; congruence. Qed.

(** ** Two clients *)

Definition after {A} (m : M (fw (fls BumpHost.bump NorChip.nor) Z) A) s := from_option snd s (m s).

Definition client1 : Z := 0x20006000.
Definition client2 : Z := 0x20007000.
Definition sent1 := after (sync_begin client1 7 0x20004000 [1] 1) (sample_fw 7).
Definition taken := after scheduler_receive sent1.
Definition sent2 := after (sync_begin client2 7 0x20004000 [2] 1) taken.
Definition dealt := after (scheduler_item client1) sent2.

(** A result of a concrete run. *)
Lemma run_after {A} (m : M (fw (fls BumpHost.bump NorChip.nor) Z) A) s s' a :
  s' = after m s -> fst <$> m s = Some a -> m s = Some (a, s').
Proof. intros ->. unfold after. destruct (m s) as [[b s']|]; [|done]. by intros [= ->]. Qed.

Lemma steps_five l1 l2 l3 l4 l5 (S0 S1 S2 S3 S4 S5 : sys (fls BumpHost.bump NorChip.nor) Z) :
  step l1 S0 S1 -> step l2 S1 S2 -> step l3 S2 S3 -> step l4 S3 S4 -> step l5 S4 S5 -> steps [l1; l2; l3; l4; l5] S0 S5.
Proof.
  intros H1 H2 H3 H4 H5. apply (steps_snoc [l1; l2; l3; l4] _ _ S4); [|done].
  apply (steps_snoc [l1; l2; l3] _ _ S3); [|done]. apply (steps_snoc [l1; l2] _ _ S2); [|done].
  apply (steps_snoc [l1] _ _ S1); [|done]. by apply (steps_snoc [] _ _ S0); [constructor|].
Qed.

Lemma dealt_run : scheduler_item client1 sent2 = Some (false, dealt).
Proof. apply run_after; [reflexivity|]. vm_compute. reflexivity. Qed.
Lemma dealt_next : scheduler_next fwup_at dealt = Some ((fwup_at, client2), dealt).
Proof. vm_compute. reflexivity. Qed.

Lemma two_clients_run :
  steps [Submit client1; Receive; Submit client2; Serve; Leave] (Sys Waiting (sample_fw 7) [])
    (Sys Waiting dealt [(client2, 3); (client1, 2)]).
Proof.
  eapply (steps_five _ _ _ _ _ _ (Sys Waiting sent1 [(client1, 2)]) (Sys (Working client1 fwup_at) taken [(client1, 2)])
    (Sys (Working client1 fwup_at) sent2 [(client2, 3); (client1, 2)]) (Sys (Working fwup_at client2) dealt [(client2, 3); (client1, 2)])).
  - apply (step_submit Waiting (sample_fw 7) client1 7 0x20004000 [1] 1 2 sent1 []); [done| |done|].
    + by vm_compute; intros [?|?%not_elem_of_nil]%elem_of_cons.
    + refine (run_after (sync_begin client1 7 0x20004000 [1] 1) (sample_fw 7) sent1 (inr 2) eq_refl _). vm_compute. reflexivity.
  - refine (step_receive sent1 (client1, fwup_at) taken _ (run_after scheduler_receive sent1 taken _ eq_refl _)). vm_compute. reflexivity.
  - apply (step_submit (Working client1 fwup_at) taken client2 7 0x20004000 [2] 1 3 sent2 [(client1, 2)]); [done| |done|].
    + by vm_compute; intros [?|[?|?%not_elem_of_nil]%elem_of_cons]%elem_of_cons.
    + refine (run_after (sync_begin client2 7 0x20004000 [2] 1) taken sent2 (inr 3) eq_refl _). vm_compute. reflexivity.
  - apply (step_serve client1 fwup_at sent2 dealt (fwup_at, client2) dealt); [by vm_compute|exact dealt_run|exact dealt_next].
  - exact (step_leave client2 dealt [(client2, 3); (client1, 2)]).
Qed.

Lemma fwup_line_refines_witness :
  exists a, lsteps fwup_at [Submit client1; Receive; Submit client2; Serve; Leave] (Line Waiting [] false) a /\
    sim fwup_at a (Sys Waiting dealt [(client2, 3); (client1, 2)]).
Proof. exact (fwup_line_refines fwup_at (sample_ctl true 7) (sample_fw 7) _ _ (sample_rest 7) two_clients_run). Defined.

Lemma fwup_race_invariant_witness :
  exists pend q,
    DlList.dll (links dealt) fwup_at pend /\ (forall req, req ∈ pend -> req ∈ fst <$> [(client2, 3); (client1, 2)]) /\
    (forall req sem, (req, sem) ∈ [(client2, 3); (client1, 2)] -> sems dealt !! sem = Some (if decide (req ∈ pend) then 0 else 1)) /\
    (exists c', objs dealt !! fwup_at = Some c' /\ sems dealt !! list_lock c' = Some 1) /\
    fwup_msg_queue dealt = Some q /\ zlen q <= 1.
Proof.
  refine (fwup_race_invariant fwup_at (sample_ctl true 7) (sample_fw 7) _ _ (sample_rest 7) two_clients_run _). done.
Defined.

(** The first client has returned. *)
Definition gone := after (sync_end client1 2) dealt.

Lemma gone_run : steps [Return client1] (Sys Waiting dealt [(client2, 3); (client1, 2)]) (Sys Waiting gone [(client2, 3)]).
Proof.
  apply (steps_snoc [] (Return client1) _ (Sys Waiting dealt [(client2, 3); (client1, 2)])); [constructor|].
  apply (step_return Waiting dealt client1 2 TLS_FWUP_STATUS_OK gone [(client2, 3)] []); [done|].
  apply run_after; [reflexivity|]. vm_compute. reflexivity.
Qed.

Lemma fwup_lost_wakeup_witness :
  (Return client2 ∉ [Return client1]) /\ (Receive ∉ [Return client1]) /\ sched (Sys Waiting gone [(client2, 3)]) = Waiting /\
  fwup_msg_queue gone = Some [] /\
  exists sem, (client2, sem) ∈ [(client2, 3)] /\ sems gone !! sem = Some 0.
Proof.
  exact (fwup_lost_wakeup fwup_at (sample_ctl true 7) (sample_fw 7) client1 client2 _ _ _ (sample_rest 7) two_clients_run gone_run).
Defined.

Lemma one_client_run : serial_steps (Sys Waiting (sample_fw 7) []) (Sys Waiting sent1 [(client1, 2)]).
Proof.
  apply (serial_snoc (Submit client1) _ (Sys Waiting (sample_fw 7) [])); [constructor| |done].
  apply (step_submit Waiting (sample_fw 7) client1 7 0x20004000 [1] 1 2 sent1 []); [done| |done|].
  - by vm_compute; intros [?|?%not_elem_of_nil]%elem_of_cons.
  - apply run_after; [reflexivity|]. vm_compute. reflexivity.
Qed.

Lemma fwup_serial_served_witness :
  Waiting = Resetting \/ (exists temp, Waiting = Working client1 temp) \/
  exists S1 S2, (S1 = Sys Waiting sent1 [(client1, 2)] \/ step Leave (Sys Waiting sent1 [(client1, 2)]) S1) /\
    step Receive S1 S2 /\ sched S2 = Working client1 fwup_at.
Proof.
  refine (fwup_serial_served fwup_at (sample_ctl true 7) (sample_fw 7) _ client1 2 (sample_rest 7) one_client_run _ _); [left|].
  vm_compute. reflexivity.
Defined.
