(* ===== verification/SockFwup.v ===== *)
(** * Firmware over a socket ([wm_socket_fwup.c])

    The client of the firmware updater that receives an image from the
    network: [socket_fwup_accept] opens a connection, [socket_fwup_recv] is
    given each packet buffer as it arrives.  The stream consists of packs: an
    operation, a length of two bytes, most significant first, and that many
    bytes, which are handed to [tls_fwup_request_sync]. *)
From S2P Require Import Prelude CMonad DlList FlsDriver CrcHard Storage ParamData Param Fwup FwupTask.

Definition ERR_OK : Z := 0.
Definition ERR_VAL : Z := -6.
Definition ERR_ABRT : Z := -13.

Definition SOCKET_FWUP_START : Z := 1.
Definition SOCKET_FWUP_END : Z := 2.
Definition SOCKET_FWUP_DATA : Z := 3.
Definition SOCKET_FWUP_PACK_SIZE : Z := 2048.

(** ** Packet buffers *)

(** A chain of [struct pbuf], each with its payload; [tot_len] counts all. *)
Definition chain : Type := list (list Z).
Definition tot_len (p : chain) : Z := zlen (concat p).

(** [pbuf_copy_partial(buf, dataptr, len, offset)]: the bytes copied, whose
    number is the result. *)
Fixpoint pbuf_copy_partial (buf : chain) (len offset : Z) : list Z :=
  match buf with
  | [] => []
  | payload :: next =>
      if len =? 0 then []
      else if negb (offset =? 0) && (zlen payload <=? offset) then
        pbuf_copy_partial next len (u16 (offset - zlen payload))
      else
        let buf_copy_len := u16 (zlen payload - offset) in
        let buf_copy_len := if len <? buf_copy_len then len else buf_copy_len in
        slice offset buf_copy_len payload ++ pbuf_copy_partial next (u16 (len - buf_copy_len)) 0
  end.

(** A NULL buffer has nothing to copy; its length cannot be asked for.  The
    arguments are converted to 16 bits. *)
Definition copy_partial (p : option chain) (len offset : Z) : list Z :=
  match p with Some c => pbuf_copy_partial c (u16 len) (u16 offset) | None => [] end.

(** [ntohs] *)
Definition ntohs (v : Z) : Z := ((v &&& 0xFF) ≪ 8) ||| ((v &&& 0xFF00) ≫ 8).

(** ** The client *)

(** [struct socket_fwup_pack]; [data] is NULL or a block with its bytes. *)
Record socket_fwup_pack := Pack { operation : Z; datalen : Z; data : option (Z * list Z) }.

(** The module's variables, above the updater; the sockets that were closed
    and the number of packet buffers given back. *)
Record sock (F W : Type) := Sock {
  updater : fw F W;
  current_pack : socket_fwup_pack;
  current_offset : Z;
  session_id : Z;
  closed : list Z;
  pbufs_freed : Z
}.
Arguments Sock {F W}.
Arguments updater {F W}.
Arguments current_pack {F W}.
Arguments current_offset {F W}.
Arguments session_id {F W}.
Arguments closed {F W}.
Arguments pbufs_freed {F W}.

Section client.
Context {F W : Type} `{FlashStore F} `{!FlashBurst F} `{CrcEngine} `{Statics} `{FwupLocals} `{RequestJunk} `{Board W}.
Abbreviation st := (sock F W).

Definition on_updater {A} (m : M (fw F W) A) : M st A :=
  zoom updater (fun u s => Sock u (current_pack s) (current_offset s) (session_id s) (closed s) (pbufs_freed s)) m.
Definition set_pack (f : socket_fwup_pack -> socket_fwup_pack) : M st unit := modify (fun s =>
  Sock (updater s) (f (current_pack s)) (current_offset s) (session_id s) (closed s) (pbufs_freed s)).
Definition set_offset (v : Z) : M st unit := modify (fun s =>
  Sock (updater s) (current_pack s) (u16 v) (session_id s) (closed s) (pbufs_freed s)).
Definition set_session_id (v : Z) : M st unit := modify (fun s =>
  Sock (updater s) (current_pack s) (current_offset s) v (closed s) (pbufs_freed s)).
Definition set_operation (v : Z) (p : socket_fwup_pack) : socket_fwup_pack := Pack v (datalen p) (data p).
Definition tls_socket_close (skt_num : Z) : M st unit := modify (fun s =>
  Sock (updater s) (current_pack s) (current_offset s) (session_id s) (closed s ++ [skt_num]) (pbufs_freed s)).
(** [if (p) pbuf_free(p);] *)
Definition pbuf_free (p : option chain) : M st unit := modify (fun s =>
  Sock (updater s) (current_pack s) (current_offset s) (session_id s) (closed s)
    (match p with Some _ => pbufs_freed s + 1 | None => pbufs_freed s end)).

Definition free_current_pack : M st unit :=
  set_session_id 0 ;;
  pk ← gets current_pack;
  match data pk with
  | Some (dp, _) =>
      on_updater (on_par (on_store (fs_free dp))) ;;
      set_pack (fun _ => Pack 0 0 None)
  | None => mret tt
  end.

(** The end of a connection that delivered its last pack. *)
Definition finish_pack (skt_num : Z) : M st unit :=
  tls_socket_close skt_num ;;
  id ← gets session_id;
  _ ← on_updater (tls_fwup_exit id);
  free_current_pack.

(** How a round of the loop ends: with the next offset, with [break], with a
    [return], or with a reset of the board. *)
Inductive round := Next (offset : Z) | Break | Return (err : Z) | Reset.

(** The bytes [new] over the first ones of [old]. *)
Definition over (new old : list Z) : list Z := memcpy_at 0 new old.

(** The first branch: operation and length. *)
Definition recv_head (fuel : nat) (p : option chain) (offset : Z) : M st round :=
  set_offset 0 ;;
  pk ← gets current_pack;
  let bs := copy_partial p 1 offset in
  let op := byte_at (over bs [operation pk]) 0 in
  let offset := offset + zlen bs in
  let bs := copy_partial p 2 offset in
  let len := ntohs (le_val (over bs (le_bytes 2 (datalen pk)))) in
  let offset := offset + zlen bs in
  set_pack (fun _ => Pack op len (data pk)) ;;
  if (SOCKET_FWUP_DATA <? op) || (op <? SOCKET_FWUP_START) then mret (Return ERR_ABRT)
  else
    ok ← (if op =? SOCKET_FWUP_START then
            id ← on_updater (tls_fwup_enter fuel TLS_FWUP_IMAGE_SRC_WEB);
            set_session_id id ;;
            mret (negb (id =? 0))
          else mret true);
    if negb ok then mret (Return ERR_ABRT)
    else if len =? 0 then mret (Return ERR_ABRT)
    else mret (Next offset).

(** The second branch: bytes of the pack; [req] is the address of the
    request on the stack.  Nothing is copied to a NULL address. *)
Definition recv_data (fuel : nat) (req skt_num : Z) (p : option chain) (offset : Z) : M st round :=
  pk ← gets current_pack;
  off ← gets current_offset;
  bs ← match data pk with
       | Some (dp, buf) =>
           let bs := copy_partial p (datalen pk - off) offset in
           buf ← must (copy_to buf off bs (zlen bs));
           set_pack (fun pk => Pack (operation pk) (datalen pk) (Some (dp, buf))) ;;
           mret bs
       | None => if off =? 0 then mret [] else stuck
       end;
  set_offset (off + zlen bs) ;;
  off ← gets current_offset;
  let offset := offset + zlen bs in
  if off =? datalen pk then
    pk ← gets current_pack;
    id ← gets session_id;
    let '(dp, buf) := match data pk with Some d => d | None => (0, []) end in
    ret ← on_updater (tls_fwup_request_sync fuel req id dp (take (Z.to_nat (datalen pk)) buf) (datalen pk));
    match ret with
    | None => mret Reset
    | Some ret =>
        if negb (ret =? TLS_FWUP_STATUS_OK) then mret (Return ERR_VAL)
        else if operation pk =? SOCKET_FWUP_END then finish_pack skt_num ;; mret Break
        else set_pack (set_operation 0) ;; mret (Next offset)
    end
  else mret (Next offset).

Definition recv_round (fuel : nat) (req skt_num : Z) (p : option chain) (offset : Z) : M st round :=
  pk ← gets current_pack;
  if operation pk <? SOCKET_FWUP_START then recv_head fuel p offset
  else if (0 <? datalen pk) && (datalen pk <=? SOCKET_FWUP_PACK_SIZE) then recv_data fuel req skt_num p offset
  else if datalen pk =? 0 then
    if operation pk =? SOCKET_FWUP_END then finish_pack skt_num ;; mret Break
    else set_pack (set_operation 0) ;; mret (Next offset)
  else mret (Next offset).

(** The result is nothing when the board was reset. *)
Definition recv_step (fuel : nat) (req skt_num : Z) (p : option chain) (offset : Z) : M st (Z + option Z) :=
  r ← recv_round fuel req skt_num p offset;
  match r with
  | Next offset =>
      match p with
      | None => stuck
      | Some c => if offset <? tot_len c then mret (inl offset) else pbuf_free p ;; mret (inr (Some ERR_OK))
      end
  | Break => pbuf_free p ;; mret (inr (Some ERR_OK))
  | Return err => pbuf_free p ;; mret (inr (Some err))
  | Reset => mret (inr None)
  end.

Definition socket_fwup_recv (fuel : nat) (req skt_num : Z) (p : option chain) : M st (option Z) :=
  mloop fuel (recv_step fuel req skt_num p) 0.

Definition socket_fwup_err : M st unit :=
  id ← gets session_id;
  _ ← on_updater (tls_fwup_exit id);
  free_current_pack.

Definition socket_fwup_poll : M st Z := mret ERR_OK.

Definition socket_fwup_accept (err : Z) : M st Z :=
  if err =? ERR_OK then
    id ← gets session_id;
    free ← (if id =? 0 then mret true
            else state ← on_updater (tls_fwup_current_state id); mret (state =? TLS_FWUP_STATE_UNDEF));
    if (free : bool) then
      b ← on_updater (on_par (on_store (fs_alloc SOCKET_FWUP_PACK_SIZE)));
      match b with
      | None => set_pack (fun _ => Pack 0 0 None) ;; mret ERR_ABRT
      | Some (dp, _) =>
          set_pack (fun _ => Pack 0 0 (Some (dp, replicate (Z.to_nat SOCKET_FWUP_PACK_SIZE) 0))) ;;
          mret ERR_OK
      end
    else mret ERR_ABRT
  else mret err.

End client.
