(* ===== verification/SockStream.v ===== *)
(** * The stream of packs, byte by byte

    An ideal receiver is a state machine that reads the stream one byte at a
    time, so that it does not matter how the network cuts it.
    [socket_fwup_recv] is proved to do the same, as long as no packet buffer
    ends inside the three bytes before a pack. *)
From S2P Require Import Prelude CMonad DlList FlsDriver CrcHard Storage ParamData Param ParamImage Fwup FwupTask SockFwup.

Implicit Types c : chain.

(** Waiting for a pack; inside its first three bytes; inside its contents;
    after something that is no pack. *)
Inductive pstate :=
  | SIdle
  | SOp (op : Z)
  | SLen (op hi : Z)
  | SBody (op len : Z) (got : list Z)
  | SBad.

Inductive event := EvOpen | EvData (op : Z) (bytes : list Z).

Definition pack_ok (op len : Z) : bool :=
  (SOCKET_FWUP_START <=? op) && (op <=? SOCKET_FWUP_DATA) && (0 <? len) && (len <=? SOCKET_FWUP_PACK_SIZE).

Definition feed1 (ps : pstate) (b : Z) : pstate * list event :=
  match ps with
  | SIdle => (SOp b, [])
  | SOp op => (SLen op b, [])
  | SLen op hi =>
      let len := 256 * hi + b in
      if pack_ok op len then (SBody op len [], if op =? SOCKET_FWUP_START then [EvOpen] else []) else (SBad, [])
  | SBody op len got =>
      let got := got ++ [b] in
      if zlen got =? len then (SIdle, [EvData op got]) else (SBody op len got, [])
  | SBad => (SBad, [])
  end.

Fixpoint feed (ps : pstate) (l : list Z) : pstate * list event :=
  match l with
  | [] => (ps, [])
  | b :: l =>
      let '(ps, evs) := feed1 ps b in
      let '(ps, evs') := feed ps l in
      (ps, evs ++ evs')
  end.

(** Not inside the first three bytes of a pack. *)
Definition between (ps : pstate) : Prop :=
  match ps with SIdle => True | SBody _ _ _ => True | _ => False end.

Lemma feed_app ps l1 l2 :
  feed ps (l1 ++ l2) = (fst (feed (fst (feed ps l1)) l2), snd (feed ps l1) ++ snd (feed (fst (feed ps l1)) l2)).
Proof.
  revert ps. induction l1 as [|b l1 IH]; intros ps; cbn [app feed]; [cbn [fst snd app]; by destruct (feed ps l2)|].
  destruct (feed1 ps b) as [ps1 evs1]. rewrite IH. destruct (feed ps1 l1) as [ps2 evs2]. cbn [fst snd]. by rewrite app_assoc.
Qed.

Lemma feed_bad l : feed SBad l = (SBad, []).
Proof. induction l as [|b l IH]; [done|]. cbn [feed feed1]. by rewrite IH. Qed.

(** The contents of a pack arrive in pieces. *)
Lemma feed_part op len got l :
  zlen got + zlen l < len -> feed (SBody op len got) l = (SBody op len (got ++ l), []).
Proof.
  revert got. induction l as [|b l IH]; intros got Hl; cbn [feed feed1]; [by rewrite app_nil_r|].
  cbn [length] in Hl. rewrite length_app. cbn [length]. rewrite (proj2 (Z.eqb_neq _ _)) by lia.
  rewrite IH by (rewrite length_app; cbn [length]; lia). by rewrite <- app_assoc.
Qed.

Lemma feed_rest op len got l :
  l <> [] -> zlen got + zlen l = len -> feed (SBody op len got) l = (SIdle, [EvData op (got ++ l)]).
Proof.
  intros Hne Hl. destruct (exists_last Hne) as (l1 & b & ->). rewrite length_app in Hl. cbn [length] in Hl.
  rewrite feed_app, feed_part by lia. cbn [fst snd feed feed1]. rewrite !length_app. cbn [length].
  rewrite (proj2 (Z.eqb_eq _ _)) by lia. cbn [fst snd]. by rewrite <- app_assoc.
Qed.

(** Three bytes and a pack begins. *)
Lemma feed_head op hi lo l :
  feed SIdle (op :: hi :: lo :: l) =
    if pack_ok op (256 * hi + lo) then
      (fst (feed (SBody op (256 * hi + lo) []) l),
       (if op =? SOCKET_FWUP_START then [EvOpen] else []) ++ snd (feed (SBody op (256 * hi + lo) []) l))
    else (SBad, []).
Proof.
  cbn [feed feed1]. destruct (pack_ok op (256 * hi + lo)); [|by rewrite feed_bad].
  by destruct (feed (SBody op (256 * hi + lo) []) l).
Qed.

(** ** Packet buffers *)

(** Copying from a chain takes bytes of the whole packet. *)
Lemma pbuf_copy_partial_slice c len offset :
  0 <= len < 2 ^ 16 -> 0 <= offset < 2 ^ 16 -> tot_len c < 2 ^ 16 ->
  pbuf_copy_partial c len offset = slice offset len (concat c).
Proof.
  unfold tot_len. revert len offset. induction c as [|payload c IH]; intros len offset Hlen Hoff Htot; cbn [pbuf_copy_partial concat].
  { unfold slice. by rewrite drop_nil, take_nil. }
  cbn [concat] in Htot. rewrite length_app in Htot.
  destruct (Z.eqb_spec len 0) as [->|Hn]; [done|].
  destruct (negb (offset =? 0) && (zlen payload <=? offset)) eqn:Eskip.
  - apply andb_prop in Eskip as [_ Hp%Z.leb_le]. rewrite wrap_id, IH by lia. unfold slice.
    rewrite drop_app_ge by lia. do 2 f_equal. lia.
  - assert (Hp : offset <= zlen payload).
    { apply andb_false_iff in Eskip as [?%negb_false_iff%Z.eqb_eq|?%Z.leb_gt]; lia. }
    rewrite (wrap_id _ (zlen payload - offset)) by lia.
    set (n := if len <? _ then len else _). assert (Hn' : 0 <= n <= len /\ n = Z.min len (zlen payload - offset)).
    { unfold n. destruct (Z.ltb_spec len (zlen payload - offset)); lia. }
    clearbody n. rewrite wrap_id, IH by lia. unfold slice. change (Z.to_nat 0) with O. rewrite drop_0.
    rewrite drop_app_le, take_app by lia. rewrite length_drop. f_equal; [|f_equal; lia].
    destruct (Z.min_spec len (zlen payload - offset)) as [[_ He]|[_ He]]; [f_equal; lia|].
    rewrite !take_ge by (rewrite length_drop; lia). done.
Qed.

Lemma copy_partial_slice c len offset :
  0 <= len < 2 ^ 16 -> 0 <= offset <= tot_len c -> tot_len c < 2 ^ 16 ->
  copy_partial (Some c) len offset = take (Z.to_nat len) (drop (Z.to_nat offset) (concat c)).
Proof. intros. cbn [copy_partial]. rewrite !wrap_id by lia. by rewrite pbuf_copy_partial_slice by lia. Qed.

Lemma copy_partial_drop c rest offset len :
  drop (Z.to_nat offset) (concat c) = rest -> rest <> [] -> 0 <= offset -> 0 <= len < 2 ^ 16 -> tot_len c < 2 ^ 16 ->
  copy_partial (Some c) len offset = take (Z.to_nat len) rest.
Proof.
  intros Hd Hne Ho Hl Ht. rewrite copy_partial_slice; [by rewrite Hd|done| |done]. unfold tot_len in *.
  assert (length rest <> O) by (destruct rest; [done|cbn; lia]). rewrite <- Hd, length_drop in *. lia.
Qed.

Lemma drop_further (l : list Z) offset n rest1 rest2 :
  0 <= offset -> drop (Z.to_nat offset) l = rest1 ++ rest2 -> n = zlen rest1 -> drop (Z.to_nat (offset + n)) l = rest2.
Proof.
  intros Ho Hd ->. rewrite Z2Nat.inj_add, <- drop_drop, Hd, Nat2Z.id by lia. by rewrite drop_app_length.
Qed.

Lemma ntohs_pair hi lo : 0 <= hi < 256 -> 0 <= lo < 256 -> ntohs (le_val [hi; lo]) = 256 * hi + lo.
Proof.
  intros Hh Hl. unfold ntohs. cbn [le_val]. replace (lo + 256 * 0) with lo by lia.
  change 0xFF with (Z.ones 8). change 0xFF00 with (Z.ones 8 ≪ 8).
  assert (E1 : (hi + 256 * lo) &&& Z.ones 8 = hi) by (rewrite Z.land_ones by lia; change (2 ^ 8) with 256; dlia).
  assert (E2 : ((hi + 256 * lo) &&& (Z.ones 8 ≪ 8)) ≫ 8 = lo).
  { rewrite Z.shiftr_land. change ((Z.ones 8 ≪ 8) ≫ 8) with (Z.ones 8).
    rewrite Z.shiftr_div_pow2, Z.land_ones by lia. change (2 ^ 8) with 256. dlia. }
  rewrite E1, E2, Z.shiftl_mul_pow2 by lia. change (2 ^ 8) with 256.
  assert (E3 : (hi * 256) &&& lo = 0); [|pose proof (Z.add_lor_land (hi * 256) lo); lia].
  apply Z.bits_inj'. intros i Hi. rewrite Z.bits_0, Z.land_spec. destruct (Z.ltb_spec i 8).
  - change 256 with (2 ^ 8). by rewrite Z.mul_pow2_bits_low.
  - assert (Z.testbit lo i = false) as ->; [|apply andb_false_r].
    rewrite <- (Z.mod_small lo (2 ^ 8)) by (change (2 ^ 8) with 256; lia). apply Z.mod_pow2_bits_high. lia.
Qed.

(** ** Serving the packs *)

(** How far a client got with its packs: it goes on in session [sid], it has
    closed, a call has failed, or the board was reset. *)
Inductive outcome := Going (sid : Z) | Ended | Failed (err : Z) | Rebooted.

Lemma app_split {A} (l : list A) n : (n <= length l)%nat -> exists l1 l2, l = l1 ++ l2 /\ length l1 = n.
Proof. intros. exists (take n l), (drop n l). by rewrite take_drop, length_take, Nat.min_l by done. Qed.

Section stream.
Context {F W : Type} `{FlashStore F} `{!FlashBurst F} `{CrcEngine} `{Statics} `{FwupLocals} `{RequestJunk} `{Board W}.
Implicit Types s : sock F W.

(** What is to be done with the packs, in order; [dp] is where the contents
    of a pack are. *)
Fixpoint serve (fuel : nat) (req dp sid : Z) (evs : list event) : M (fw F W) outcome :=
  match evs with
  | [] => mret (Going sid)
  | EvOpen :: evs =>
      id ← tls_fwup_enter fuel TLS_FWUP_IMAGE_SRC_WEB;
      if id =? 0 then mret (Failed ERR_ABRT) else serve fuel req dp id evs
  | EvData op bytes :: evs =>
      ret ← tls_fwup_request_sync fuel req sid dp bytes (zlen bytes);
      match ret with
      | None => mret Rebooted
      | Some ret =>
          if negb (ret =? TLS_FWUP_STATUS_OK) then mret (Failed ERR_VAL)
          else if op =? SOCKET_FWUP_END then
            _ ← tls_fwup_exit sid;
            on_par (on_store (fs_free dp)) ;;
            mret Ended
          else serve fuel req dp sid evs
      end
  end.

(** The client's variables hold the state [ps] of the ideal receiver, its
    buffer is at [dp]. *)
Definition matches (ps : pstate) (dp : Z) s : Prop :=
  exists buf, data (current_pack s) = Some (dp, buf) /\ zlen buf = SOCKET_FWUP_PACK_SIZE /\
    match ps with
    | SIdle => operation (current_pack s) = 0 /\ 0 <= datalen (current_pack s)
    | SBody op len got =>
        operation (current_pack s) = op /\ datalen (current_pack s) = len /\ pack_ok op len = true /\
        current_offset s = zlen got /\ zlen got < len /\ take (length got) buf = got
    | _ => False
    end.

(** What a call leaves: [cl] the sockets closed before, [fr] the packet
    buffers freed before. *)
Definition received (skt : Z) (dp : Z) (ps : pstate) (cl : list Z) (fr : Z) (o : outcome) (r : option Z) s : Prop :=
  match o with
  | Going sid => r = Some ERR_OK /\ session_id s = sid /\ matches ps dp s /\ closed s = cl /\ pbufs_freed s = fr + 1
  | Ended => r = Some ERR_OK /\ session_id s = 0 /\ current_pack s = Pack 0 0 None /\ closed s = cl ++ [skt] /\ pbufs_freed s = fr + 1
  | Failed err => r = Some err /\ closed s = cl /\ pbufs_freed s = fr + 1
  | Rebooted => r = None
  end.

Lemma on_updater_spec {A} (m : M (fw F W) A) s (Q : A -> sock F W -> Prop) :
  wp m (updater s) (fun a u => Q a (Sock u (current_pack s) (current_offset s) (session_id s) (closed s) (pbufs_freed s))) ->
  wp (on_updater m) s Q.
Proof. intros Hm. apply wp_zoom. unfold wp in Hm. by destruct (m (updater s)) as [[a u]|]. Qed.

Lemma pack_ok_range op len : pack_ok op len = true <-> 1 <= op <= 3 /\ 0 < len <= 2048.
Proof. unfold pack_ok, SOCKET_FWUP_START, SOCKET_FWUP_DATA, SOCKET_FWUP_PACK_SIZE. lia. Qed.

Lemma over_all new old : length new = length old -> over new old = new.
Proof. apply memcpy_at_all. Qed.

(** The first branch of the loop at the start of a pack. *)
Lemma recv_head_spec fuel req dp c offset op hi lo rest evs R s (Q : round -> sock F W -> Prop) :
  matches SIdle dp s -> drop (Z.to_nat offset) (concat c) = op :: hi :: lo :: rest -> 0 <= offset -> tot_len c < 2 ^ 16 ->
  byte_ok hi -> byte_ok lo -> pack_ok op (256 * hi + lo) = true ->
  wp (serve fuel req dp (session_id s) ((if op =? SOCKET_FWUP_START then [EvOpen] else []) ++ evs)) (updater s) R ->
  (forall s', matches (SBody op (256 * hi + lo) []) dp s' -> closed s' = closed s -> pbufs_freed s' = pbufs_freed s ->
     wp (serve fuel req dp (session_id s') evs) (updater s') R -> Q (Next (offset + 3)) s') ->
  (forall s', R (Failed ERR_ABRT) (updater s') -> closed s' = closed s -> pbufs_freed s' = pbufs_freed s ->
     Q (Return ERR_ABRT) s') ->
  wp (recv_head fuel (Some c) offset) s Q.
Proof.
  intros (buf & Hdata & Hbuf & Hop & Hdl) Hdrop Ho Ht Hhi Hlo Hok HR Hgo Hno. destruct s as [u [op0 len0 d0] off0 id0 cl fr].
  cbn in *. subst d0. pose proof Hok as Hr%pack_ok_range. unfold recv_head, set_offset.
  apply wp_bind, wp_modify, wp_bind, wp_gets. cbn [current_pack operation datalen data].
  rewrite (copy_partial_drop c _ offset 1 Hdrop) by done. change (take (Z.to_nat 1) (op :: hi :: lo :: rest)) with [op]. cbn [length].
  rewrite (copy_partial_drop c (hi :: lo :: rest) (offset + Z.of_nat 1) 2); [|by eapply (drop_further _ _ _ [op])|done|lia|done|done].
  change (take (Z.to_nat 2) (hi :: lo :: rest)) with [hi; lo]. rewrite !over_all by (rewrite ?length_le_bytes; done).
  rewrite ntohs_pair by done. change (byte_at [op] 0) with op. unfold set_pack.
  apply wp_bind, wp_modify. cbn [length updater current_pack current_offset session_id closed pbufs_freed data]. replace (offset + Z.of_nat 1 + Z.of_nat 2) with (offset + 3) by lia.
  unfold SOCKET_FWUP_DATA, SOCKET_FWUP_START in *. rewrite (proj2 (Z.ltb_ge _ _)), (proj2 (Z.ltb_ge _ _)) by lia. cbn [orb].
  assert (Hnext : forall u' id, wp (serve fuel req dp id evs) u' R ->
    Q (Next (offset + 3)) (Sock u' (Pack op (256 * hi + lo) (Some (dp, buf))) (u16 0) id cl fr)).
  { intros u' id Hs. apply Hgo; [|done|done|exact Hs]. exists buf. cbn. repeat split; try done. lia. }
  destruct (Z.eqb_spec op 1) as [->|Hn]; cbn [app] in HR.
  - apply wp_bind, wp_bind, on_updater_spec. apply wp_bind_inv in HR. eapply wp_mono; [exact HR|]. cbv beta. intros id u' Hs.
    apply wp_bind, wp_modify, wp_ret. cbn [updater current_pack current_offset session_id closed pbufs_freed].
    destruct (Z.eqb_spec id 0) as [->|Hid]; cbn [negb].
    + apply wp_ret, Hno; [exact Hs|done|done].
    + rewrite (proj2 (Z.eqb_neq _ 0)) by lia. by apply wp_ret, Hnext.
  - apply wp_bind, wp_ret. cbn [negb]. rewrite (proj2 (Z.eqb_neq _ 0)) by lia. by apply wp_ret, Hnext.
Qed.

(** Bytes that fit behind those that are there. *)
Lemma copy_behind (got bs buf : list Z) :
  take (length got) buf = got -> zlen got + zlen bs <= zlen buf ->
  exists buf', copy_to buf (zlen got) bs (zlen bs) = Some buf' /\ length buf' = length buf /\
    take (length (got ++ bs)) buf' = got ++ bs.
Proof.
  intros Hg Hfit. unfold copy_to. rewrite (proj2 (Z.leb_le _ _)), (proj2 (Z.leb_le _ _)) by lia. cbn [andb].
  rewrite Nat2Z.id, firstn_all. exists (memcpy_at (zlen got) bs buf). split; [done|]. split; [apply length_memcpy_at|].
  assert (memcpy_at 0 got buf = buf) as <-.
  { apply byte_list_eq; [apply length_memcpy_at|]. rewrite length_memcpy_at. intros i Hi. rewrite byte_at_memcpy by lia.
    case_match; [|done]. rewrite <- Hg. unfold byte_at. rewrite !nth_lookup, lookup_take_lt by lia. by rewrite Z.sub_0_r. }
  pose proof (memcpy_at_app 0 got bs buf ltac:(lia) ltac:(lia)) as E. rewrite Z.add_0_l in E. rewrite E.
  apply take_memcpy_at; [done|]. rewrite length_app. lia.
Qed.

(** The second branch of the loop: the copy of the piece that is there. *)
Lemma recv_copy_spec c offset op len got rest dp s (Q : list Z -> sock F W -> Prop) :
  matches (SBody op len got) dp s -> drop (Z.to_nat offset) (concat c) = rest -> rest <> [] -> 0 <= offset -> tot_len c < 2 ^ 16 ->
  let piece := take (Z.to_nat (Z.min (len - zlen got) (zlen rest))) rest in
  (forall buf' s', take (length (got ++ piece)) buf' = got ++ piece -> zlen buf' = SOCKET_FWUP_PACK_SIZE ->
     s' = Sock (updater s) (Pack op len (Some (dp, buf'))) (current_offset s) (session_id s) (closed s) (pbufs_freed s) ->
     Q piece s') ->
  wp (match data (current_pack s) with
      | Some (dp, buf) =>
          let bs := copy_partial (Some c) (datalen (current_pack s) - current_offset s) offset in
          buf ← must (copy_to buf (current_offset s) bs (zlen bs));
          set_pack (fun pk => Pack (operation pk) (datalen pk) (Some (dp, buf))) ;;
          mret bs
      | None => if current_offset s =? 0 then mret [] else stuck
      end) s Q.
Proof.
  intros (buf & Hdata & Hbuf & Hop & Hdl & Hok & Hoff & Hlt & Hgot) Hdrop Hne Ho Ht piece HQ.
  apply pack_ok_range in Hok as [_ Hok]. unfold SOCKET_FWUP_PACK_SIZE in *.
  rewrite Hdata, Hdl, Hoff, (copy_partial_drop c rest offset (len - zlen got)) by (done || lia).
  assert (Hpc : take (Z.to_nat (len - zlen got)) rest = piece).
  { unfold piece. destruct (Z.min_spec (len - zlen got) (zlen rest)) as [[_ ->]|[? ->]]; [done|]. rewrite !take_ge by lia. done. }
  rewrite Hpc. destruct (copy_behind got piece buf Hgot) as (buf' & Hc & Hl & Htk); [unfold piece; rewrite length_take; lia|].
  apply wp_bind; eapply wp_must; [exact Hc|]. apply wp_bind, wp_modify, wp_ret. apply (HQ buf'); [done|lia|].
  by rewrite Hop, Hdl, Hoff.
Qed.

(** A piece that does not complete the pack. *)
Lemma recv_part_spec fuel req skt dp c offset op len got rest s (Q : round -> sock F W -> Prop) :
  matches (SBody op len got) dp s -> drop (Z.to_nat offset) (concat c) = rest -> rest <> [] -> 0 <= offset -> tot_len c < 2 ^ 16 ->
  zlen got + zlen rest < len ->
  (forall s', matches (SBody op len (got ++ rest)) dp s' -> closed s' = closed s -> pbufs_freed s' = pbufs_freed s ->
     session_id s' = session_id s -> updater s' = updater s -> Q (Next (offset + zlen rest)) s') ->
  wp (recv_data fuel req skt (Some c) offset) s Q.
Proof.
  intros Hm Hdrop Hne Ho Ht Hlen HQ. pose proof Hm as (buf & _ & _ & _ & Hdl & Hok & Hoff & _ & _).
  apply wp_bind, wp_gets, wp_bind, wp_gets, wp_bind. eapply recv_copy_spec; [exact Hm|exact Hdrop|done|done|done|].
  assert (Hp : take (Z.to_nat (Z.min (len - zlen got) (zlen rest))) rest = rest) by (apply take_ge; lia). rewrite Hp.
  intros buf' s' Htk Hbuf' ->. apply wp_bind, wp_modify, wp_bind, wp_gets. cbn. rewrite Hoff, Hdl.
  pose proof Hok as [_ Hr]%pack_ok_range. rewrite wrap_id, (proj2 (Z.eqb_neq _ _)) by lia.
  apply wp_ret, HQ; [|done..]. exists buf'. cbn. rewrite length_app in *. repeat split; try done; lia.
Qed.

(** The piece that completes the pack. *)
Lemma recv_last_spec fuel req skt dp c offset op len got piece rest evs R s (Q : round -> sock F W -> Prop) :
  matches (SBody op len got) dp s -> drop (Z.to_nat offset) (concat c) = piece ++ rest -> 0 <= offset -> tot_len c < 2 ^ 16 ->
  zlen got + zlen piece = len ->
  wp (serve fuel req dp (session_id s) (EvData op (got ++ piece) :: evs)) (updater s) R ->
  (forall s', matches SIdle dp s' -> closed s' = closed s -> pbufs_freed s' = pbufs_freed s ->
     wp (serve fuel req dp (session_id s') evs) (updater s') R -> Q (Next (offset + zlen piece)) s') ->
  (forall s', R Ended (updater s') -> session_id s' = 0 -> current_pack s' = Pack 0 0 None -> closed s' = closed s ++ [skt] ->
     pbufs_freed s' = pbufs_freed s -> Q Break s') ->
  (forall s', R (Failed ERR_VAL) (updater s') -> closed s' = closed s -> pbufs_freed s' = pbufs_freed s -> Q (Return ERR_VAL) s') ->
  (forall s', R Rebooted (updater s') -> Q Reset s') ->
  wp (recv_data fuel req skt (Some c) offset) s Q.
Proof.
  intros Hm Hdrop Ho Ht Hlen HR Hgo Hend Hfail Hreset. pose proof Hm as (buf & _ & _ & _ & Hdl & Hok & Hoff & Hlt & _).
  apply wp_bind, wp_gets, wp_bind, wp_gets, wp_bind.
  eapply recv_copy_spec; [exact Hm|exact Hdrop| |done|done|]; [destruct piece; [cbn in Hlen; lia|done]|].
  assert (Hp : take (Z.to_nat (Z.min (len - zlen got) (zlen (piece ++ rest)))) (piece ++ rest) = piece).
  { rewrite length_app, Z.min_l, take_app_le by lia. apply take_ge. lia. }
  rewrite Hp. intros buf' s' Htk Hbuf' ->. apply wp_bind, wp_modify, wp_bind, wp_gets. cbn. rewrite Hoff, Hdl.
  pose proof Hok as [_ Hr]%pack_ok_range. rewrite wrap_id, (proj2 (Z.eqb_eq _ _)) by lia.
  apply wp_bind, wp_gets, wp_bind, wp_gets. cbn. replace (Z.to_nat len) with (length (got ++ piece)) by (rewrite length_app; lia).
  rewrite Htk. replace len with (zlen (got ++ piece)) at 1 by (rewrite length_app; lia).
  apply wp_bind, on_updater_spec. cbn. apply wp_bind_inv in HR. eapply wp_mono; [exact HR|]. cbv beta. intros [ret|] u Hs.
  2: by apply wp_ret, Hreset.
  destruct (ret =? TLS_FWUP_STATUS_OK); cbn [negb] in *; [|by apply wp_ret, Hfail].
  destruct (op =? SOCKET_FWUP_END).
  - apply wp_bind. apply wp_bind, wp_modify, wp_bind, wp_gets. cbn. apply wp_bind, on_updater_spec. cbn.
    apply wp_bind_inv in Hs. eapply wp_mono; [exact Hs|]. cbv beta. intros e u2 Hs2.
    apply wp_bind, wp_modify, wp_bind, wp_gets. cbn. apply wp_bind, on_updater_spec. cbn.
    apply wp_bind_inv in Hs2. eapply wp_mono; [exact Hs2|]. cbv beta. intros [] u3 Hs3. apply wp_modify, wp_ret. by apply Hend.
  - apply wp_bind, wp_modify, wp_ret, Hgo; [|done|done|exact Hs]. exists buf'. cbn. repeat split; try done. lia.
Qed.

Lemma rest_end c offset : 0 <= offset -> (offset <? tot_len c) = negb (bool_decide (drop (Z.to_nat offset) (concat c) = [])).
Proof.
  intros Ho. unfold tot_len. destruct (Z.ltb_spec offset (zlen (concat c))) as [Hl|Hl].
  - rewrite bool_decide_false; [done|]. intros E%(f_equal length). rewrite length_drop in E. cbn in E. lia.
  - rewrite bool_decide_true; [done|]. apply drop_ge. lia.
Qed.

Lemma recv_round_body fuel req skt c offset op len got dp s :
  matches (SBody op len got) dp s ->
  recv_round fuel req skt (Some c) offset s = recv_data fuel req skt (Some c) offset s.
Proof.
  intros (buf & _ & _ & Hop & Hdl & Hok & _). apply pack_ok_range in Hok.
  unfold recv_round, gets, mbind, M_bind, SOCKET_FWUP_START, SOCKET_FWUP_PACK_SIZE. rewrite Hop, Hdl.
  rewrite (proj2 (Z.ltb_ge _ _)), (proj2 (Z.ltb_lt _ _)), (proj2 (Z.leb_le _ _)) by lia. done.
Qed.

Lemma recv_round_idle fuel req skt c offset dp s :
  matches SIdle dp s -> recv_round fuel req skt (Some c) offset s = recv_head fuel (Some c) offset s.
Proof.
  intros (buf & _ & _ & Hop & _). unfold recv_round, gets, mbind, M_bind. by rewrite Hop.
Qed.

(** The loop with [n] rounds of fuel does what is to be done with the packs. *)
Definition loop_serves (n fuel : nat) (req skt dp : Z) (c : chain) (R : outcome -> fw F W -> Prop) : Prop :=
  forall offset ps rest s,
    (length rest < n)%nat -> matches ps dp s -> drop (Z.to_nat offset) (concat c) = rest -> rest <> [] -> 0 <= offset ->
    tot_len c < 2 ^ 16 -> bytes_ok rest -> between (fst (feed ps rest)) ->
    wp (serve fuel req dp (session_id s) (snd (feed ps rest))) (updater s) R ->
    wp (mloop n (recv_step fuel req skt (Some c)) offset) s (fun r s' =>
      exists o, R o (updater s') /\ received skt dp (fst (feed ps rest)) (closed s) (pbufs_freed s) o r s').

(** After a round that goes on: another one, if there are bytes left. *)
Lemma recv_next_spec n fuel req skt dp c R offset ps rest s :
  loop_serves n fuel req skt dp c R ->
  (length rest < n)%nat -> matches ps dp s -> drop (Z.to_nat offset) (concat c) = rest -> 0 <= offset ->
  tot_len c < 2 ^ 16 -> bytes_ok rest -> between (fst (feed ps rest)) ->
  wp (serve fuel req dp (session_id s) (snd (feed ps rest))) (updater s) R ->
  wp (if offset <? tot_len c then mret (inl offset) else pbuf_free (Some c) ;; mret (inr (Some ERR_OK))) s (fun r s1 =>
    wp (match r with inl x => mloop n (recv_step fuel req skt (Some c)) x | inr a => mret a end) s1 (fun r s' =>
      exists o, R o (updater s') /\ received skt dp (fst (feed ps rest)) (closed s) (pbufs_freed s) o r s')).
Proof.
  intros IH Hn Hm Hdrop Ho Ht Hb Hbt HR. rewrite rest_end, Hdrop by lia. destruct (decide (rest = [])) as [->|Hne].
  - rewrite bool_decide_true by done. apply wp_bind, wp_modify, wp_ret, wp_ret. by exists (Going (session_id s)).
  - rewrite bool_decide_false by done. by apply wp_ret, IH.
Qed.

(** A round at the start of a pack. *)
Lemma loop_idle n fuel req skt dp c R offset rest s :
  loop_serves n fuel req skt dp c R ->
  (length rest < S n)%nat -> matches SIdle dp s -> drop (Z.to_nat offset) (concat c) = rest -> rest <> [] -> 0 <= offset ->
  tot_len c < 2 ^ 16 -> bytes_ok rest -> between (fst (feed SIdle rest)) ->
  wp (serve fuel req dp (session_id s) (snd (feed SIdle rest))) (updater s) R ->
  wp (mloop (S n) (recv_step fuel req skt (Some c)) offset) s (fun r s' =>
    exists o, R o (updater s') /\ received skt dp (fst (feed SIdle rest)) (closed s) (pbufs_freed s) o r s').
Proof.
  intros IH Hn Hm Hdrop Hne Ho Ht Hb Hbt HR. cbn [mloop]. apply wp_bind, wp_bind.
  eapply wp_same; [by eapply recv_round_idle|]. destruct rest as [|op [|hi [|lo rest]]]; [done|done|done|].
  rewrite feed_head in Hbt, HR |- *. destruct (pack_ok op (256 * hi + lo)) eqn:Hok; [|done].
  cbn [fst snd] in *. apply Forall_cons in Hb as [_ [Hhi [Hlo Hb]%Forall_cons]%Forall_cons].
  eapply (recv_head_spec fuel req dp c offset op hi lo rest); try done.
  - intros s' Hm' <- <- HR'. apply recv_next_spec; try done; [cbn in Hn; lia| |lia].
    by eapply (drop_further _ _ _ [op; hi; lo]).
  - intros s' HR' Hcl Hfr. apply wp_bind, wp_modify, wp_ret, wp_ret. exists (Failed ERR_ABRT). cbn. by rewrite Hcl, Hfr.
Qed.

(** A round inside a pack. *)
Lemma loop_body n fuel req skt dp c R offset op len got rest s :
  loop_serves n fuel req skt dp c R -> let ps := SBody op len got in
  (length rest < S n)%nat -> matches ps dp s -> drop (Z.to_nat offset) (concat c) = rest -> rest <> [] -> 0 <= offset ->
  tot_len c < 2 ^ 16 -> bytes_ok rest -> between (fst (feed ps rest)) ->
  wp (serve fuel req dp (session_id s) (snd (feed ps rest))) (updater s) R ->
  wp (mloop (S n) (recv_step fuel req skt (Some c)) offset) s (fun r s' =>
    exists o, R o (updater s') /\ received skt dp (fst (feed ps rest)) (closed s) (pbufs_freed s) o r s').
Proof.
  intros IH ps Hn Hm Hdrop Hne Ho Ht Hb Hbt HR. cbn [mloop]. apply wp_bind, wp_bind. subst ps.
  eapply wp_same; [by eapply recv_round_body|]. pose proof Hm as (_ & _ & _ & _ & _ & _ & _ & Hlt & _).
  assert (0 < zlen rest) by (destruct rest; [done|cbn; lia]).
  destruct (Z.ltb_spec (zlen got + zlen rest) len) as [Hp|Hp].
  - rewrite feed_part in Hbt, HR |- * by done. eapply recv_part_spec; try done. intros s' Hm' <- <- Hid Hu.
    apply (recv_next_spec n fuel req skt dp c R (offset + zlen rest) (SBody op len (got ++ rest)) []); try done;
      [cbn; lia| |lia|cbn; by rewrite Hid, Hu].
    rewrite Z2Nat.inj_add, <- drop_drop, Hdrop, drop_ge by lia. done.
  - destruct (app_split rest (Z.to_nat (len - zlen got))) as (piece & rest' & -> & Hpl); [lia|].
    assert (Hfeed : feed (SBody op len got) (piece ++ rest') =
      (fst (feed SIdle rest'), EvData op (got ++ piece) :: snd (feed SIdle rest'))).
    { rewrite feed_app, feed_rest by (destruct piece; cbn in *; (done || lia)). done. }
    rewrite Hfeed in Hbt, HR |- *. cbn [fst snd] in *. apply Forall_app in Hb as [_ Hb].
    rewrite length_app in *. eapply recv_last_spec; try done; [lia|..].
    + intros s' Hm' <- <- HR'. apply recv_next_spec; try done; [lia| |lia]. by eapply drop_further.
    + intros s' HR' Hid Hpk Hcl Hfr. apply wp_bind, wp_modify, wp_ret, wp_ret. exists Ended. cbn. by rewrite Hcl, Hfr.
    + intros s' HR' Hcl Hfr. apply wp_bind, wp_modify, wp_ret, wp_ret. exists (Failed ERR_VAL). cbn. by rewrite Hcl, Hfr.
    + intros s' HR'. apply wp_ret, wp_ret. by exists Rebooted.
Qed.

Lemma loop_serves_all n fuel req skt dp c R : loop_serves n fuel req skt dp c R.
Proof.
  induction n as [|n IH]; intros offset ps rest s Hn Hm; [lia|].
  destruct ps as [|?|? ?|op len got|]; [by apply loop_idle|by destruct Hm as (? & _ & _ & [])..|by apply loop_body|].
  by destruct Hm as (? & _ & _ & []).
Qed.
End stream.
