(* ===== verification/SockProps.v ===== *)
(** * What the network client of the updater does

    [socket_fwup_recv] serves the packs of the ideal receiver; an image sent
    over a connection, in packs and packet buffers cut anywhere but in the
    heads of the packs, is installed.  And where it fails: heads that are
    cut, and packs that are too long. *)
From S2P Require Import Prelude CMonad DlList FlsDriver CrcHard Storage ParamData Param ParamSpec ParamImage Fwup FwupHeader FwupSpec FwupTask FwupTaskSpec FwupUpgrade FwupProps SockFwup SockStream.

(** ** The stream of a sender *)

(** A pack: its operation and its contents. *)
Definition pack_bytes (p : Z * list Z) : list Z := fst p :: zlen (snd p) / 256 :: zlen (snd p) mod 256 :: snd p.
Definition pack_events (p : Z * list Z) : list event :=
  (if fst p =? SOCKET_FWUP_START then [EvOpen] else []) ++ [EvData (fst p) (snd p)].
Definition pack_good (p : Z * list Z) : Prop := pack_ok (fst p) (zlen (snd p)) = true /\ bytes_ok (snd p).

Definition stream (packs : list (Z * list Z)) : list Z := concat (pack_bytes <$> packs).

Lemma feed_pack p l :
  pack_good p -> feed SIdle (pack_bytes p ++ l) = (fst (feed SIdle l), pack_events p ++ snd (feed SIdle l)).
Proof.
  intros [Hok Hb]. destruct p as [op bytes]. unfold pack_bytes, pack_events. cbn [fst snd app] in *.
  pose proof Hok as Hr%pack_ok_range. rewrite feed_head.
  replace (256 * (zlen bytes / 256) + zlen bytes mod 256) with (zlen bytes) by dlia. rewrite Hok.
  rewrite feed_app, feed_rest; [|destruct bytes; [cbn in Hr; lia|done]|done]. cbn [fst snd app]. by rewrite <- app_assoc.
Qed.

Lemma feed_packs packs :
  Forall pack_good packs -> feed SIdle (stream packs) = (SIdle, concat (pack_events <$> packs)).
Proof.
  induction 1 as [|p packs Hp Hall IH]; [done|]. unfold stream in *. rewrite !fmap_cons. cbn [concat].
  by rewrite feed_pack, IH.
Qed.

Lemma stream_bytes packs : Forall pack_good packs -> bytes_ok (stream packs).
Proof.
  induction 1 as [|[op bytes] packs [Hok Hb] Hall IH]; [constructor|]. unfold stream. rewrite fmap_cons. cbn [concat].
  apply Forall_app_2; [|exact IH]. apply pack_ok_range in Hok as [? ?]. cbn [fst snd] in *.
  unfold pack_bytes. cbn [fst snd]. repeat constructor; unfold byte_ok; try exact Hb; dlia.
Qed.

(** The packs of a whole image: the first one opens the session, only the
    last one may close it. *)
Fixpoint go_on (packs : list (Z * list Z)) : Prop :=
  match packs with
  | [] => True
  | (op, _) :: packs => op <> SOCKET_FWUP_START /\ (op = SOCKET_FWUP_END -> packs = []) /\ go_on packs
  end.
Definition whole (packs : list (Z * list Z)) : Prop :=
  match packs with
  | (op, _) :: packs => op = SOCKET_FWUP_START /\ go_on packs
  | [] => False
  end.

(** The bytes of packet buffers that arrive one after the other. *)
Definition all_bytes (bufs : list chain) : list Z := concat (map (fun c : chain => concat c) bufs).

Definition image_of (packs : list (Z * list Z)) : list Z := concat (snd <$> packs).

Section props.
Context {F W : Type} `{FlashStoreLaws F} `{!FlashBurst F} `{!FlashBurstLaws F} `{CrcEngineLaws} `{Statics} `{FwupLocals} `{RequestJunk} `{Board W}.
Implicit Types s : sock F W.

(** The network delivers packet buffers until an error is answered, the
    socket has been closed, or the board is reset. *)
Fixpoint deliver (fuel : nat) (req skt : Z) (bufs : list chain) : M (sock F W) (option Z) :=
  match bufs with
  | [] => mret (Some ERR_OK)
  | c :: bufs =>
      r ← socket_fwup_recv fuel req skt (Some c);
      cl ← gets closed;
      match r with
      | Some e => if (e =? ERR_OK) && negb (bool_decide (skt ∈ cl)) then deliver fuel req skt bufs else mret r
      | None => mret None
      end
  end.

(** No packet buffer ends inside the head of a pack. *)
Fixpoint cut_well (fuel : nat) (ps : pstate) (bufs : list chain) : Prop :=
  match bufs with
  | [] => True
  | c :: bufs =>
      concat c <> [] /\ tot_len c < 2 ^ 16 /\ (length (concat c) < fuel)%nat /\
      between (fst (feed ps (concat c))) /\ cut_well fuel (fst (feed ps (concat c))) bufs
  end.

Definition answer (o : outcome) : option Z :=
  match o with Going _ | Ended => Some ERR_OK | Failed err => Some err | Rebooted => None end.

Lemma recv_serves fuel req skt dp (c : chain) ps s R :
  let l := concat c in
  matches ps dp s -> l <> [] -> tot_len c < 2 ^ 16 -> bytes_ok l -> between (fst (feed ps l)) -> (length l < fuel)%nat ->
  wp (serve fuel req dp (session_id s) (snd (feed ps l))) (updater s) R ->
  wp (socket_fwup_recv fuel req skt (Some c)) s (fun r s' =>
    exists o, R o (updater s') /\ received skt dp (fst (feed ps l)) (closed s) (pbufs_freed s) o r s').
Proof. intros l Hm Hne Ht Hb Hbt Hf HR. by apply (loop_serves_all fuel fuel). Qed.

Lemma serve_app fuel req dp evs1 evs2 sid u R :
  wp (serve fuel req dp sid (evs1 ++ evs2)) u R ->
  wp (serve fuel req dp sid evs1) u (fun o u' =>
    match o with Going sid' => wp (serve fuel req dp sid' evs2) u' R | _ => R o u' end).
Proof.
  revert sid u. induction evs1 as [|[|op bytes] evs1 IH]; intros sid u HR; cbn [app serve] in *; [by apply wp_ret| |].
  - apply wp_bind. apply wp_bind_inv in HR. eapply wp_mono; [exact HR|]. cbv beta. intros id u1 H1'.
    destruct (id =? 0); [exact H1'|by apply IH].
  - apply wp_bind. apply wp_bind_inv in HR. eapply wp_mono; [exact HR|]. cbv beta. intros [ret|] u1 H1'; [|exact H1'].
    destruct (ret =? TLS_FWUP_STATUS_OK); cbn [negb] in *; [|exact H1']. destruct (op =? SOCKET_FWUP_END); [|by apply IH].
    apply wp_bind. apply wp_bind_inv in H1'. eapply wp_mono; [exact H1'|]. cbv beta. intros e u2 H2'.
    apply wp_bind. apply wp_bind_inv in H2'. eapply wp_mono; [exact H2'|]. by cbv beta.
Qed.

Lemma deliver_spec fuel req skt dp bufs ps s R :
  let l := all_bytes bufs in
  matches ps dp s -> skt ∉ closed s -> bytes_ok l -> cut_well fuel ps bufs ->
  (forall e u, R (Failed e) u -> e <> ERR_OK) ->
  wp (serve fuel req dp (session_id s) (snd (feed ps l))) (updater s) R ->
  wp (deliver fuel req skt bufs) s (fun r s' => exists o, R o (updater s') /\ r = answer o).
Proof.
  intros l Hm Hskt Hb Hcut Herr. subst l. revert ps s Hm Hskt Hb Hcut. induction bufs as [|c bufs IH]; intros ps s Hm Hskt Hb Hcut HR.
  { apply wp_ret. exists (Going (session_id s)). by split. }
  unfold all_bytes in *. cbn [map concat] in Hb, HR. apply Forall_app in Hb as [Hb1 Hb2].
  rewrite feed_app in HR. cbn [snd] in HR. apply serve_app in HR. destruct Hcut as (Hne & Ht & Hf & Hbt & Hcut).
  cbn [deliver]. apply wp_bind. eapply wp_mono; [by eapply recv_serves|]. cbv beta. intros r s1 (o & Ho & Hrec).
  apply wp_bind, wp_gets. destruct o as [sid| |e|]; cbn in Hrec.
  - destruct Hrec as (-> & Hid & Hm1 & Hcl & _). rewrite Hcl, bool_decide_false by done.
    change ((ERR_OK =? ERR_OK) && negb false) with true. cbn iota. apply (IH (fst (feed ps (concat c)))); try done; [by rewrite Hcl|].
    by rewrite Hid.
  - destruct Hrec as (-> & _ & _ & Hcl & _). rewrite Hcl, bool_decide_true by set_solver.
    change ((ERR_OK =? ERR_OK) && negb true) with false. apply wp_ret. by exists Ended.
  - destruct Hrec as (-> & _). rewrite (proj2 (Z.eqb_neq _ _)) by (by eapply Herr). apply wp_ret. by exists (Failed e).
  - rewrite Hrec. apply wp_ret. by exists Rebooted.
Qed.

(** C3. Refinement for the packet buffers that a well-behaved stream consists
    of: not empty, shorter than 64 Kbytes, and such that the ideal receiver,
    having read it, is not inside the three bytes of a head and has seen no bad
    pack (one with an unknown operation, no contents, or more than 2048
    bytes).  A buffer may be chained in any way and may begin and end inside
    the contents of packs.  With such a buffer the client does what is to be
    done with the packs that the ideal receiver sees: the session is opened,
    the contents are handed to the updater in order, an error ends the
    reception, and the last pack closes.  The buffer is given back, whatever
    happened, unless the board was reset.  On the buffers left out the code is
    no such receiver: [socket_cut_head_misread] and [socket_long_pack_hangs]. *)
Theorem socket_recv_refines fuel req skt dp (c : chain) ps s R :
  let l := concat c in
  matches ps dp s -> l <> [] -> tot_len c < 2 ^ 16 -> bytes_ok l -> between (fst (feed ps l)) -> (length l < fuel)%nat ->
  wp (serve fuel req dp (session_id s) (snd (feed ps l))) (updater s) R ->
  wp (socket_fwup_recv fuel req skt (Some c)) s (fun r s' => exists o, R o (updater s') /\
    match o with
    | Going sid => r = Some ERR_OK /\ session_id s' = sid /\ matches (fst (feed ps l)) dp s' /\ closed s' = closed s
    | Ended => r = Some ERR_OK /\ session_id s' = 0 /\ current_pack s' = Pack 0 0 None /\ closed s' = closed s ++ [skt]
    | Failed err => r = Some err /\ closed s' = closed s
    | Rebooted => r = None
    end /\ (o = Rebooted \/ pbufs_freed s' = pbufs_freed s + 1)).
Proof.
  intros l Hm Hne Ht Hb Hbt Hf HR. eapply wp_mono; [by eapply (recv_serves fuel req skt dp c ps s R)|]. cbv beta.
  intros r s' (o & Ho & Hrec). exists o. split; [exact Ho|]. destruct o; cbn in Hrec; [| | |by auto];
    repeat match type of Hrec with _ /\ _ => let E := fresh in destruct Hrec as [E Hrec] end; by auto 6.
Qed.

(** Accepting a connection while no session is open makes the client ready
    for a first pack, or fails for want of memory; a block that an earlier
    connection left is not given back. *)
Lemma socket_accept_ready s :
  session_id s = 0 -> par_ok (fpars (updater s)) ->
  wp (socket_fwup_accept ERR_OK) s (fun r s' => closed s' = closed s /\ par_ok (fpars (updater s')) /\
    ((r = ERR_OK /\ exists dp, dp <> 0 /\ matches SIdle dp s') \/ (r = ERR_ABRT /\ data (current_pack s') = None))).
Proof.
  intros Hid K. unfold socket_fwup_accept. change (ERR_OK =? ERR_OK) with true. cbn iota.
  apply wp_bind, wp_gets. rewrite Hid. apply wp_bind, wp_ret. apply wp_bind, on_updater_spec, on_store_quiet; [done|].
  eapply wp_mono; [apply fs_alloc_spec; [apply K|done]|]. cbv beta. intros b f [Hs Hb]. split; [done|]. intros p Kp.
  destruct b as [[dp l]|]; apply wp_bind, wp_modify, wp_ret; (split; [done|]; split; [exact Kp|]).
  - left. split; [done|]. exists dp. split; [apply Hb|]. by exists (replicate (Z.to_nat SOCKET_FWUP_PACK_SIZE) 0).
  - by right.
Qed.

(** ** A whole image *)

Definition chunks_of (dp : Z) (packs : list (Z * list Z)) : list (Z * list Z) := (fun p => (dp, snd p)) <$> packs.

Lemma payload_chunks dp packs : payload (chunks_of dp packs) = image_of packs.
Proof. unfold payload, chunks_of, image_of. by rewrite <- list_fmap_compose. Qed.

(** A client that may not survive its last request serves its packs like one
    that only sends the contents. *)
Lemma serve_upgrade fuel req dp sid packs u (Q : option Z -> fw F W -> Prop) :
  go_on packs -> (forall u', ~ Q (Some TLS_FWUP_STATUS_OK) u') ->
  wp (upgrade fuel req sid (chunks_of dp packs)) u Q ->
  wp (serve fuel req dp sid (concat (pack_events <$> packs))) u (fun o u' =>
    (o = Rebooted /\ Q None u') \/ (o = Failed ERR_VAL /\ exists e, Q (Some e) u')).
Proof.
  intros Hgo HQ. revert u. induction packs as [|[op bytes] packs IH]; intros u HR.
  { by destruct (HQ u). }
  destruct Hgo as (Hs & Hlast & Hgo). change (chunks_of dp ((op, bytes) :: packs)) with ((dp, bytes) :: chunks_of dp packs) in HR.
  rewrite fmap_cons. cbn [upgrade] in HR.
  cbn [concat pack_events fst snd]. unfold pack_events at 1. cbn [fst snd]. rewrite (proj2 (Z.eqb_neq _ _)) by done. cbn [app serve].
  apply wp_bind_inv in HR. apply wp_bind. eapply wp_mono; [exact HR|]. cbv beta. intros [ret|] u1 Hr.
  2: { apply wp_ret. by left. }
  destruct (ret =? TLS_FWUP_STATUS_OK); cbn [negb].
  2: { apply wp_ret. right. split; [done|]. by exists ret. }
  destruct (Z.eqb_spec op SOCKET_FWUP_END) as [He|_]; [|by apply IH].
  exfalso. specialize (Hlast He) as ->. by apply (HQ u1).
Qed.

(** The flash before the session was opened will do. *)
Lemma image_outcome_from h p0 p1 len image u :
  par_step nowhere p0 p1 -> image_outcome h p1 len image u -> image_outcome (W := W) h p0 len image u.
Proof.
  intros T [Hstep (c & Hc & Hcase)].
  assert (Ho : ota_off p1 = ota_off p0) by (unfold ota_off; by rewrite (st_map _ _ _ (ps_store _ _ _ T))).
  assert (Hs : forall S, par_step S p1 (fpars u) -> par_step S p0 (fpars u)).
  { intros S Hs. eapply par_step_trans; [by apply par_step_nowhere|exact Hs]. }
  rewrite Ho in Hstep, Hcase. split; [by apply Hs|]. exists c. split; [exact Hc|].
  destruct Hcase as [?|Hcase]; [by left|right]. destruct (image_good image); [exact Hcase|].
  destruct Hcase as [? ?]. split; [done|by apply Hs].
Qed.

Lemma header_known_from p0 p1 len hd : par_step nowhere p0 p1 -> header_known p0 len hd -> header_known p1 len hd.
Proof.
  intros T. destruct (ps_store _ _ _ T). unfold header_known, ota_apart, ota_off. by rewrite st_map, st_size.
Qed.

Lemma real_run_from p0 p1 hd : par_step nowhere p0 p1 -> real_run p1 hd = real_run p0 hd.
Proof. intros T. unfold real_run. by rewrite (par_step_quiet _ _ T). Qed.

(** Opening the session and sending the contents. *)
Lemma serve_installs fuel h c req dp len packs u :
  let image := image_of packs in
  let hd := take 64 image in
  Forall pack_good packs -> whole packs -> 0 < dp ->
  at_rest h c u -> busy c = false -> par_ok (fpars u) -> sys_param_lock (fpars u) = Some 1 -> fb_idle (store (fpars u)) ->
  rand_live fuel (board u) -> header_ok (fbooter u) -> 0 <= len < 2 ^ 31 -> req <> 0 -> req <> h -> (2 <= fuel)%nat ->
  wp (tls_fwup_enter fuel TLS_FWUP_IMAGE_SRC_WEB) u (fun _ u' => fs_low (store (fpars u')) = false) ->
  zlen image <= len -> zlen image = total_of hd -> header_known (fpars u) len hd ->
  header_accepts (real_run (fpars u) hd) hd = true ->
  forall sid, wp (serve fuel req dp sid (concat (pack_events <$> packs))) u (fun o u' =>
    o = Failed ERR_VAL \/ (o = Rebooted /\ image_outcome h (fpars u) len image u')).
Proof.
  intros image hd Hgood Hwhole Hdp Hrest Hbusy K Hlock Hidle Hrand Hboot Hlen Hreq Hrh Hfuel Hmem Hil Htot Hkn Hacc sid.
  destruct packs as [|[op bytes] packs]; [done|]. destruct Hwhole as [-> Hgo].
  change (pack_events <$> (SOCKET_FWUP_START, bytes) :: packs)
    with ([EvOpen; EvData SOCKET_FWUP_START bytes] :: (pack_events <$> packs)).
  cbn [concat app serve]. apply wp_bind. eapply wp_mono.
  { apply wp_and; [exact Hmem|]. by apply (fwup_enter_opens h c u fuel TLS_FWUP_IMAGE_SRC_WEB len). }
  cbv beta. intros id u1 (Hlow & Hid & T & c1 & _ & Hcid & _ & _ & [Hlow'|[Hsess Hopen]]); [congruence|].
  rewrite (proj2 (Z.eqb_neq _ _)) by done.
  (* the first pack is like the others *)
  change (wp (serve fuel req dp id (concat (pack_events <$> (SOCKET_FWUP_DATA, bytes) :: packs))) u1 (fun o u' =>
    o = Failed ERR_VAL \/ (o = Rebooted /\ image_outcome h (fpars u) len image u'))).
  eapply wp_mono; [apply (serve_upgrade fuel req dp id _ u1 (fun r u' =>
    r = Some TLS_FWUP_STATUS_EMEM \/ (r = None /\ image_outcome h (fpars u1) len image u')))|].
  - split; [done|]. by split.
  - by intros u' [[=]|[[=] _]].
  - change (chunks_of dp ((SOCKET_FWUP_DATA, bytes) :: packs)) with (chunks_of dp ((SOCKET_FWUP_START, bytes) :: packs)).
    unfold image. rewrite <- (payload_chunks dp), <- Hcid. apply upgrade_installs; try done; rewrite ?payload_chunks; try done.
    + apply Forall_fmap, (Forall_impl _ _ _ Hgood). intros [op' b] [Hok%pack_ok_range Hb]. cbn in *.
      split; [done|]. split; [exact Hb|]. destruct b; [cbn in Hok; lia|done].
    + by eapply header_known_from.
    + by rewrite (real_run_from _ _ _ T).
  - cbv beta. intros o u' [[-> [[=]|[_ Hi]]]|[-> _]]; [|by left]. right. split; [done|]. by eapply image_outcome_from.
Qed.

(** C2. An image sent over a connection is installed.  The sender cuts it into
    packs in any way - the first opens the session, only the last may close
    it - and the network cuts the stream of the packs into packet buffers
    anywhere but in the heads of the packs.  Unless the kernel has no
    semaphore for a request, the board is reset at the end, and then the
    flash holds exactly the image and the boot loader's flag, if the CRC of
    the code agrees with the header's (or an allocation of the flash driver
    failed); nothing outside the update area and the flag's sector has
    changed in any case. *)
Theorem socket_image_installed fuel h c req skt dp len packs bufs s :
  let u := updater s in
  let image := image_of packs in
  let hd := take 64 image in
  matches SIdle dp s -> 0 < dp -> skt ∉ closed s ->
  Forall pack_good packs -> whole packs -> all_bytes bufs = stream packs -> cut_well fuel SIdle bufs ->
  at_rest h c u -> busy c = false -> par_ok (fpars u) -> sys_param_lock (fpars u) = Some 1 -> fb_idle (store (fpars u)) ->
  rand_live fuel (board u) -> header_ok (fbooter u) -> 0 <= len < 2 ^ 31 -> req <> 0 -> req <> h -> (2 <= fuel)%nat ->
  wp (tls_fwup_enter fuel TLS_FWUP_IMAGE_SRC_WEB) u (fun _ u' => fs_low (store (fpars u')) = false) ->
  zlen image <= len -> zlen image = total_of hd -> header_known (fpars u) len hd ->
  header_accepts (real_run (fpars u) hd) hd = true ->
  wp (deliver fuel req skt bufs) s (fun r s' =>
    r = Some ERR_VAL \/ (r = None /\ image_outcome h (fpars u) len image (updater s'))).
Proof.
  intros u image hd Hm Hdp Hskt Hgood Hwhole Hbytes Hcut. intros. eapply wp_mono.
  { eapply (deliver_spec fuel req skt dp bufs SIdle s (fun o u' =>
      o = Failed ERR_VAL \/ (o = Rebooted /\ image_outcome h (fpars u) len image u'))); try done; rewrite ?Hbytes.
    - by apply stream_bytes.
    - intros e u' [[= ->]|[[=] _]]. done.
    - rewrite feed_packs by done. by eapply serve_installs. }
  cbv beta. intros r s' (o & [->|[-> Hi]] & ->); [by left|by right].
Qed.

(** ** Where it fails *)

(** The head of a pack that opens no session; [pk] is what the variables hold
    afterwards. *)
Lemma head_alone fuel (c : chain) offset op bs s :
  let len := ntohs (le_val (over bs (le_bytes 2 (datalen (current_pack s))))) in
  1 < op <= 3 -> copy_partial (Some c) 1 offset = [op] -> copy_partial (Some c) 2 (offset + 1) = bs ->
  recv_head fuel (Some c) offset s =
    Some (if len =? 0 then Return ERR_ABRT else Next (offset + 1 + zlen bs),
      Sock (updater s) (Pack op len (data (current_pack s))) 0 (session_id s) (closed s) (pbufs_freed s)).
Proof.
  intros len Hop H1' H2'. destruct s as [u [op0 len0 d0] off0 id0 cl fr]. cbn [current_pack datalen] in len.
  unfold recv_head, set_offset, set_pack, gets, modify, mbind, M_bind, mret, M_ret. cbn [current_pack operation].
  rewrite H1'. change (zlen [op]) with 1. rewrite H2'. cbn [current_pack updater current_offset session_id closed pbufs_freed datalen data operation].
  rewrite over_all by done. change (byte_at [op] 0) with op. fold len. unfold SOCKET_FWUP_DATA, SOCKET_FWUP_START.
  rewrite !(proj2 (Z.ltb_ge _ _)), (proj2 (Z.eqb_neq op 1)) by lia. cbn. by destruct (len =? 0).
Qed.

(** A pack of more than 2048 bytes hangs the caller: with more bytes of the
    packet behind its head, the loop of [socket_fwup_recv] goes round
    without taking a byte or changing a variable, for ever.  No session is
    needed for that. *)
Theorem socket_long_pack_hangs fuel req skt dp (c : chain) op hi lo rest s :
  matches SIdle dp s -> concat c = op :: hi :: lo :: rest -> rest <> [] -> tot_len c < 2 ^ 16 ->
  byte_ok hi -> byte_ok lo -> 1 < op <= 3 -> SOCKET_FWUP_PACK_SIZE < 256 * hi + lo ->
  (exists s', recv_step fuel req skt (Some c) 0 s = Some (inl 3, s') /\
     recv_step fuel req skt (Some c) 3 s' = Some (inl 3, s')) /\
  socket_fwup_recv fuel req skt (Some c) s = None.
Proof.
  intros (buf & Hdata & Hbuf & Hop0 & Hdl) Hc Hne Ht Hhi Hlo Hop Hlen. unfold SOCKET_FWUP_PACK_SIZE in *.
  assert (Hmore : (3 <? tot_len c) = true).
  { apply Z.ltb_lt. unfold tot_len. rewrite Hc. destruct rest; [done|cbn; lia]. }
  set (s' := Sock (updater s) (Pack op (256 * hi + lo) (data (current_pack s))) 0 (session_id s) (closed s) (pbufs_freed s)).
  assert (E1 : recv_step fuel req skt (Some c) 0 s = Some (inl 3, s')).
  { unfold recv_step. assert (recv_round fuel req skt (Some c) 0 s = Some (Next 3, s')) as E; [|].
    - unfold recv_round, gets, mbind, M_bind. rewrite Hop0. change (0 <? SOCKET_FWUP_START) with true. cbn iota.
      pose proof (head_alone fuel c 0 op [hi; lo] s) as E. cbv zeta in E.
      rewrite over_all, ntohs_pair, (proj2 (Z.eqb_neq _ 0)) in E by (rewrite ?length_le_bytes; done || lia).
      apply E; [lia|by rewrite (copy_partial_drop c _ 0 1 Hc)|].
      rewrite (copy_partial_drop c (hi :: lo :: rest) (0 + 1) 2); [done| |done..]. change (Z.to_nat (0 + 1)) with 1%nat. by rewrite Hc.
    - unfold mbind, M_bind. rewrite E. by rewrite Hmore. }
  assert (E2 : recv_step fuel req skt (Some c) 3 s' = Some (inl 3, s')).
  { unfold recv_step, recv_round, gets, mbind, M_bind. cbn [current_pack s' operation datalen].
    unfold SOCKET_FWUP_START, SOCKET_FWUP_PACK_SIZE. rewrite (proj2 (Z.ltb_ge op 1)), (proj2 (Z.leb_gt _ _)), andb_false_r by lia.
    rewrite (proj2 (Z.eqb_neq _ 0)) by lia. unfold mret, M_ret. by rewrite Hmore. }
  assert (E3 : forall k, mloop k (recv_step fuel req skt (Some c)) 3 s' = None).
  { induction k as [|k IH]; [done|]. cbn [mloop]. unfold mbind, M_bind. by rewrite E2. }
  split; [by exists s'|]. unfold socket_fwup_recv. destruct fuel as [|n] eqn:En; [done|]. rewrite <- En in *.
  rewrite En at 1. cbn [mloop]. unfold mbind, M_bind. rewrite E1. apply E3.
Qed.

(** A head that is cut behind its first byte is misread: the length of the
    pack before is taken, with its bytes swapped, and the two bytes of the
    length will count as contents.  On a fresh connection the reception is
    aborted. *)
Theorem socket_cut_head_misread fuel req skt dp op s :
  let d := datalen (current_pack s) in
  matches SIdle dp s -> d < 2 ^ 16 -> 1 < op <= 3 ->
  socket_fwup_recv (S fuel) req skt (Some [[op]]) s =
    Some (Some (if d =? 0 then ERR_ABRT else ERR_OK),
      Sock (updater s) (Pack op (256 * (d mod 256) + d / 256) (data (current_pack s))) 0 (session_id s) (closed s) (pbufs_freed s + 1)).
Proof.
  intros d (buf & Hdata & Hbuf & Hop0 & Hdl) Hd Hop. unfold socket_fwup_recv. cbn [mloop].
  assert (Hsw : ntohs (le_val (over [] (le_bytes 2 d))) = 256 * (d mod 256) + d / 256).
  { cbn [le_bytes over]. change (over [] [d mod 256; d / 256 mod 256]) with [d mod 256; d / 256 mod 256].
    rewrite ntohs_pair by dlia. dlia. }
  assert (Hz : (256 * (d mod 256) + d / 256 =? 0) = (d =? 0)).
  { destruct (Z.eqb_spec d 0) as [->|]; [done|]. apply Z.eqb_neq. dlia. }
  pose proof (head_alone (S fuel) [[op]] 0 op [] s) as E.
  change (@Some (list (list Z)) [[op]]) with (@Some chain [[op]]) in *. cbv zeta in E. fold d in E. rewrite Hsw, Hz in E.
  specialize (E Hop eq_refl eq_refl). unfold recv_step, recv_round, gets, mbind, M_bind. rewrite Hop0.
  change (0 <? SOCKET_FWUP_START) with true. cbn iota. rewrite E. by destruct (d =? 0).
Qed.
End props.
