(* ===== verification/SockWitness.v ===== *)
(** * The theorems of the network client at concrete inputs

    The board of [FwupWitness] with a fresh connection, and its image sent in
    two packs and three packet buffers. *)
From S2P Require Import Prelude CMonad Checksum DlList HostEnv FlashChip FlsHw FlsDriver FlsWrite CrcHard Storage FlsStore FlsBurst ParamData Param ParamImage ParamSpec ParamInit ParamProps Fwup FwupHeader FwupSpec FwupTask FwupTaskSpec FwupUpgrade FwupProps FwupWitness SockFwup SockStream SockProps.
Import SoftCrc.

Definition sample_buf : Z := 0x20004000.
Definition sample_req : Z := 0x20006000.
Definition fresh_sock : sock (fls BumpHost.bump NorChip.nor) Z :=
  Sock (sample_fw 0) (Pack 0 0 (Some (sample_buf, replicate 2048 0))) 0 0 [] 0.

Lemma fresh_matches : matches SIdle sample_buf fresh_sock.
Proof. exists (replicate 2048 0). by split. Qed.

Definition sample_packs : list (Z * list Z) :=
  [(SOCKET_FWUP_START, take 50 sample_image); (SOCKET_FWUP_END, drop 50 sample_image)].
Definition sample_stream : list Z := stream sample_packs.

(** The second buffer ends inside the last pack; the first is itself in two
    pieces. *)
Definition sample_bufs : list chain :=
  [[take 10 sample_stream; take 20 (drop 10 sample_stream)]; [take 50 (drop 30 sample_stream)]; [drop 80 sample_stream]].

Lemma sample_packs_good : Forall pack_good sample_packs.
Proof.
  pose proof sample_chunks_ok as [(_ & Hb1 & _) [(_ & Hb2 & _) _]%Forall_cons]%Forall_cons.
  apply Forall_cons. split; [split; [vm_compute; reflexivity|exact Hb1]|].
  apply Forall_cons. split; [split; [vm_compute; reflexivity|exact Hb2]|constructor].
Qed.

Lemma sample_stream_ok : bytes_ok sample_stream.
Proof. by apply stream_bytes, sample_packs_good. Qed.

Lemma sample_first_ok : bytes_ok (concat [take 10 sample_stream; take 20 (drop 10 sample_stream)]).
Proof.
  cbn [concat]. rewrite app_nil_r. apply Forall_app_2; [apply Forall_take, sample_stream_ok|].
  apply Forall_take, Forall_drop, sample_stream_ok.
Qed.

(** After the first buffer session 7 is open and 27 bytes are there. *)
Lemma socket_recv_refines_witness :
  let c : chain := [take 10 sample_stream; take 20 (drop 10 sample_stream)] in
  let l := concat c in
  wp (socket_fwup_recv 100 sample_req 1 (Some c)) fresh_sock (fun r s' => exists o, o = Going 7 /\
    match o with
    | Going sid => r = Some ERR_OK /\ session_id s' = sid /\ matches (fst (feed SIdle l)) sample_buf s' /\ closed s' = []
    | Ended => r = Some ERR_OK /\ session_id s' = 0 /\ current_pack s' = Pack 0 0 None /\ closed s' = [1]
    | Failed err => r = Some err /\ closed s' = []
    | Rebooted => r = None
    end /\ (o = Rebooted \/ pbufs_freed s' = 0 + 1)).
Proof.
  intros c l.
  apply (socket_recv_refines 100 sample_req 1 sample_buf c SIdle fresh_sock (fun o _ => o = Going 7));
    [exact fresh_matches|vm_compute; congruence|vm_compute; reflexivity|exact sample_first_ok|vm_compute; exact I|vm_compute; lia|].
  vm_compute. reflexivity.
Defined.

Lemma sample_whole : whole sample_packs.
Proof. split; [done|]. split; [done|]. by split. Qed.

Lemma sample_received : all_bytes sample_bufs = sample_stream.
Proof. vm_compute. reflexivity. Qed.

Lemma sample_cut_well : cut_well 300 SIdle sample_bufs.
Proof. vm_compute. repeat split; try congruence; lia. Qed.

Lemma sample_memory :
  wp (tls_fwup_enter 300 TLS_FWUP_IMAGE_SRC_WEB) (sample_fw 0) (fun _ u' => fs_low (store (fpars u')) = false).
Proof. vm_compute. reflexivity. Qed.

Lemma socket_image_installed_witness :
  wp (deliver 300 sample_req 1 sample_bufs) fresh_sock (fun r s' =>
    r = Some ERR_VAL \/
    (r = None /\ image_outcome fwup_at (fpars (updater fresh_sock)) 1000 (image_of sample_packs) (updater s'))).
Proof.
  assert (Himg : image_of sample_packs = sample_image) by (vm_compute; reflexivity).
  apply (socket_image_installed 300 fwup_at (sample_ctl false 0) sample_req 1 sample_buf 1000 sample_packs sample_bufs fresh_sock);
    rewrite ?Himg, ?sample_hd; clear Himg.
  - exact fresh_matches.
  - done.
  - apply not_elem_of_nil.
  - exact sample_packs_good.
  - exact sample_whole.
  - exact sample_received.
  - exact sample_cut_well.
  - exact (sample_rest 0).
  - done.
  - apply blank_pars_ok.
  - done.
  - done.
  - by left.
  - split; [reflexivity|by apply (replicate_ok 64 0)].
  - done.
  - done.
  - done.
  - lia.
  - exact sample_memory.
  - vm_compute; congruence.
  - reflexivity.
  - apply (sample_known sample_header); reflexivity.
  - vm_compute; reflexivity.
Defined.

Lemma socket_long_pack_hangs_witness :
  let c : chain := [[SOCKET_FWUP_DATA; 255; 255; 0]] in
  (exists s', recv_step 1000 sample_req 1 (Some c) 0 fresh_sock = Some (inl 3, s') /\
     recv_step 1000 sample_req 1 (Some c) 3 s' = Some (inl 3, s')) /\
  socket_fwup_recv 1000 sample_req 1 (Some c) fresh_sock = None.
Proof.
  apply (socket_long_pack_hangs 1000 sample_req 1 sample_buf [[SOCKET_FWUP_DATA; 255; 255; 0]] SOCKET_FWUP_DATA 255 255 [0] fresh_sock);
    [exact fresh_matches|done|done|done|done|done|done|done].
Defined.

Lemma socket_cut_head_misread_witness :
  let d := datalen (current_pack fresh_sock) in
  socket_fwup_recv 3 sample_req 1 (Some [[SOCKET_FWUP_DATA]]) fresh_sock =
    Some (Some (if d =? 0 then ERR_ABRT else ERR_OK),
      Sock (updater fresh_sock) (Pack SOCKET_FWUP_DATA (256 * (d mod 256) + d / 256) (data (current_pack fresh_sock))) 0
        (session_id fresh_sock) (closed fresh_sock) (pbufs_freed fresh_sock + 1)).
Proof. apply (socket_cut_head_misread 2 sample_req 1 sample_buf SOCKET_FWUP_DATA fresh_sock); [exact fresh_matches|done|done]. Defined.
