(* ===== verification/WmMem.v ===== *)
(** * The memory manager ([wm_mem.c], release build)

    [tls_mem_alloc] and its relatives put a header of two words in front of
    every block - which allocator it came from, and its length - and keep
    count of what is left of the C library's heap.  Task context uses the C
    library's [malloc] under a semaphore, interrupt context the kernel's
    [pvPortMalloc].  The two allocators are parameters. *)
From S2P Require Import Prelude CMonad HostEnv.

(** [Os]: [pvPortMalloc] / [vPortFree]; [Libc]: [malloc] / [free]. *)
Inductive arena := Os | Libc.

#[global] Instance arena_eq_dec : EqDecision arena.
Proof. solve_decision. Defined.

(** The allocators, with the blocks that are allocated, by address. *)
Class RawHeap (H : Type) := {
  raw_malloc : arena -> Z -> H -> option Z * H;
  raw_free : arena -> Z -> H -> H;
  raw_live : H -> gmap Z (arena * Z);
  (** [tls_os_sem_create] takes its memory from the kernel. *)
  raw_sem_create : H -> bool * H
}.

(** Blocks are word aligned, do not overlap, and leave the end of the address
    space free; freeing a block takes back that block. *)
Class RawHeapLaws (H : Type) `{RawHeap H} := {
  raw_malloc_some a n h p h' :
    0 <= n -> raw_malloc a n h = (Some p, h') ->
    raw_live h' = <[p := (a, n)]> (raw_live h) /\ p mod 4 = 0 /\ 0 < p /\ p + n <= 2 ^ 32 /\ p + 8 < 2 ^ 32 /\
    forall q b m, raw_live h !! q = Some (b, m) -> q <> p /\ (q + m <= p \/ p + n <= q);
  raw_malloc_none a n h h' : raw_malloc a n h = (None, h') -> raw_live h' = raw_live h;
  raw_free_live a p n h : raw_live h !! p = Some (a, n) -> raw_live (raw_free a p h) = delete p (raw_live h);
  raw_sem_live h : raw_live (snd (raw_sem_create h)) = raw_live h
}.

Definition OS_MEM_FLAG : Z := 0x5AA5A55A.
Definition NON_OS_MEM_FLAG : Z := 0xA55A5A5A.

(** [mem_sem] is NULL before the first [mem_alloc_debug]. *)
Record mem (H : Type) := Mem {
  heap : H;
  ram : Z -> Z;
  total_mem_size : Z;
  mem_sem : option Z;
  memory_manager_initialized : bool;
  isr_count : Z
}.
Arguments Mem {H}.
Arguments heap {H}.
Arguments ram {H}.
Arguments total_mem_size {H}.
Arguments mem_sem {H}.
Arguments memory_manager_initialized {H}.
Arguments isr_count {H}.

Section mem.
Context {H : Type} `{RawHeap H}.
Abbreviation st := (mem H).

Definition on_heap {A} (f : H -> A * H) : M st A :=
  zoom heap (fun h s => Mem h (ram s) (total_mem_size s) (mem_sem s) (memory_manager_initialized s) (isr_count s)) (fun h => Some (f h)).
Definition set_ram (f : (Z -> Z) -> Z -> Z) : M st unit := modify (fun s =>
  Mem (heap s) (f (ram s)) (total_mem_size s) (mem_sem s) (memory_manager_initialized s) (isr_count s)).
Definition set_total (f : Z -> Z) : M st unit := modify (fun s =>
  Mem (heap s) (ram s) (u32 (f (total_mem_size s))) (mem_sem s) (memory_manager_initialized s) (isr_count s)).
Definition set_sem (v : option Z) : M st unit := modify (fun s =>
  Mem (heap s) (ram s) (total_mem_size s) v (memory_manager_initialized s) (isr_count s)).
Definition set_initialized : M st unit := modify (fun s =>
  Mem (heap s) (ram s) (total_mem_size s) (mem_sem s) true (isr_count s)).

(** ** Words of memory *)

Definition word_at (r : Z -> Z) (a : Z) : Z := le_val (range r a 4).
Definition load32 (a : Z) : M st Z := gets (fun s => word_at (ram s) a).
Definition store32 (a v : Z) : M st unit := set_ram (fun r => overlay r a (le_bytes 4 v)).
Definition copy (dst src n : Z) : M st unit := set_ram (fun r => overlay r dst (range r src n)).

(** ** The allocators and the semaphore *)

(** The address, 0 for none. *)
Definition os_alloc (a : arena) (n : Z) : M st Z := p ← on_heap (raw_malloc a n); mret (default 0 p).

(** Freeing what is not a block of that allocator has no defined result. *)
Definition os_free (a : arena) (p : Z) : M st unit :=
  h ← gets heap;
  match raw_live h !! p with
  | Some (b, _) => if decide (a = b) then on_heap (fun h => (tt, raw_free a p h)) else stuck
  | None => stuck
  end.

(** Taking the semaphore before it exists has no result. *)
Definition sem_acquire : M st unit :=
  v ← gets mem_sem;
  match v with
  | Some n => if 0 <? n then set_sem (Some (n - 1)) else stuck
  | None => stuck
  end.
Definition sem_release : M st unit :=
  v ← gets mem_sem;
  match v with Some n => set_sem (Some (n + 1)) | None => stuck end.

Definition in_isr : M st bool := gets (fun s => 0 <? isr_count s).

(** ** The entry points *)

(** [if (!memory_manager_initialized) ...] *)
Definition mem_init : M st unit :=
  init ← gets memory_manager_initialized;
  if (init : bool) then mret tt
  else
    set_initialized ;;
    ok ← on_heap raw_sem_create;
    if (ok : bool) then set_sem (Some 1) else mret tt.

(** [*buffer = flag; buffer++; *buffer = length; buffer++;] *)
Definition put_header (flag buffer length : Z) : M st Z :=
  store32 buffer flag ;;
  store32 (buffer + 4) length ;;
  mret (buffer + 8).

(** [tls_mem_alloc(size)] *)
Definition mem_alloc_debug (size : Z) : M st Z :=
  mem_init ;;
  let length := u32 (size + 8) in
  isr ← in_isr;
  if (isr : bool) then
    buffer ← os_alloc Os length;
    if negb (buffer =? 0) then put_header OS_MEM_FLAG buffer length else mret buffer
  else
    sem_acquire ;;
    buffer ← os_alloc Libc length;
    buffer ← (if negb (buffer =? 0) then
                buffer ← put_header NON_OS_MEM_FLAG buffer length;
                set_total (fun t => t - length) ;;
                mret buffer
              else mret buffer);
    sem_release ;;
    mret buffer.

(** [tls_mem_free(p)] *)
Definition mem_free_debug (p : Z) : M st unit :=
  isr ← in_isr;
  (if (isr : bool) then mret tt else sem_acquire) ;;
  (if negb (p =? 0) then
     let intMemPtr := p - 8 in
     flag ← load32 intMemPtr;
     if flag =? OS_MEM_FLAG then os_free Os intMemPtr
     else if flag =? NON_OS_MEM_FLAG then
       len ← load32 (intMemPtr + 4);
       set_total (fun t => t + len) ;;
       os_free Libc intMemPtr
     else mret tt
   else mret tt) ;;
  if (isr : bool) then mret tt else sem_release.

(** [memcpy] of the old block: the length in its header counts the header. *)
Definition copy_old (mem_re_addr mem_address size : Z) : M st unit :=
  len ← load32 (mem_address - 4);
  if size <? len then copy (mem_re_addr + 8) mem_address size else copy (mem_re_addr + 8) mem_address len.

(** [tls_mem_realloc(mem_address, size)].  In interrupt context a block that
    could be had makes the function return NULL at once; without one it goes
    on to copy through the NULL pointer, which has no defined result. *)
Definition mem_realloc_debug (mem_address size : Z) : M st Z :=
  let length := u32 (size + 8) in
  isr ← in_isr;
  if (isr : bool) then
    mem_re_addr ← os_alloc Os length;
    if negb (mem_re_addr =? 0) then mret 0
    else if negb (mem_address =? 0) then stuck
    else mret 0
  else
    sem_acquire ;;
    mem_re_addr ← os_alloc Libc length;
    mem_re_addr ← (if negb (mem_re_addr =? 0) && negb (mem_address =? 0) then
                     copy_old mem_re_addr mem_address size ;;
                     r ← put_header NON_OS_MEM_FLAG mem_re_addr length;
                     set_total (fun t => t - length) ;;
                     mret r
                   else mret mem_re_addr);
    sem_release ;;
    mem_free_debug mem_address ;;
    mret mem_re_addr.

(** [tls_mem_calloc(n, size)] *)
Definition mem_calloc_debug (n size : Z) : M st Z :=
  let length := u32 (u32 (n * size) + 8) in
  let clear buffer := set_ram (fun r => overlay r buffer (replicate (Z.to_nat length) 0)) in
  isr ← in_isr;
  if (isr : bool) then
    buffer ← os_alloc Os length;
    if negb (buffer =? 0) then clear buffer ;; put_header OS_MEM_FLAG buffer length else mret buffer
  else
    sem_acquire ;;
    buffer ← os_alloc Libc length;
    buffer ← (if negb (buffer =? 0) then
                clear buffer ;;
                buffer ← put_header NON_OS_MEM_FLAG buffer length;
                set_total (fun t => t - length) ;;
                mret buffer
              else mret buffer);
    sem_release ;;
    mret buffer.

Definition tls_mem_get_avail_heapsize : M st Z :=
  sem_acquire ;;
  availablemem ← gets total_mem_size;
  sem_release ;;
  mret availablemem.

End mem.
