(* ===== verification/WmMemSpec.v ===== *)
(** * What the memory manager keeps

    The blocks that clients own: their headers are intact, they do not
    overlap, and the count of what is left is the total less the blocks from
    the C library. *)
From S2P Require Import Prelude CMonad HostEnv WmMem.

Definition flag_of (a : arena) : Z := match a with Os => OS_MEM_FLAG | Libc => NON_OS_MEM_FLAG end.

(** The bytes taken from the C library's heap. *)
Definition share (x : arena * Z) : Z := match fst x with Libc => snd x | Os => 0 end.
Definition libc_bytes (own : gmap Z (arena * Z)) : Z := map_fold (fun _ x acc => share x + acc) 0 own.

Lemma libc_bytes_insert own p x : own !! p = None -> libc_bytes (<[p := x]> own) = share x + libc_bytes own.
Proof. intros Hp. unfold libc_bytes. rewrite map_fold_insert_L; [done|lia|done]. Qed.

Lemma libc_bytes_delete own p x : own !! p = Some x -> libc_bytes own = share x + libc_bytes (delete p own).
Proof. intros Hp. unfold libc_bytes. rewrite (map_fold_delete_L _ _ p x own); [done|lia|done]. Qed.

(** ** Words *)

Lemma word_at_store r a v : word_at (overlay r a (le_bytes 4 v)) a = u32 v.
Proof. unfold word_at. pose proof (range_overlay r a (le_bytes 4 v)) as Hr. rewrite length_le_bytes in Hr.
  change (Z.of_nat 4) with 4 in Hr. rewrite Hr. apply (le_val_bytes 4). Qed.

Lemma word_at_ext r r' a : (forall x, a <= x < a + 4 -> r' x = r x) -> word_at r' a = word_at r a.
Proof. intros Hx. unfold word_at. by rewrite (range_ext r' r a 4 Hx). Qed.

(** The memory after [put_header]. *)
Definition headed (r : Z -> Z) (p flag n : Z) : Z -> Z := overlay (overlay r p (le_bytes 4 flag)) (p + 4) (le_bytes 4 n).

Lemma headed_out r p flag n x : x < p \/ p + 8 <= x -> headed r p flag n x = r x.
Proof. intros Hx. unfold headed. rewrite !overlay_out by (rewrite length_le_bytes; lia). done. Qed.

Lemma headed_words r p flag n :
  word_at (headed r p flag n) p = u32 flag /\ word_at (headed r p flag n) (p + 4) = u32 n.
Proof.
  unfold headed. split; [|apply word_at_store]. rewrite <- word_at_store with (r := r) (a := p) at 1.
  apply word_at_ext. intros x Hx. apply overlay_out. lia.
Qed.

(** ** The blocks that clients own *)

Record owns (own live : gmap Z (arena * Z)) (r : Z -> Z) : Prop := {
  ow_live p x : own !! p = Some x -> live !! p = Some x;
  ow_head p a n : own !! p = Some (a, n) ->
    8 <= n < 2 ^ 32 /\ 0 < p /\ p mod 4 = 0 /\ p + n <= 2 ^ 32 /\ word_at r p = flag_of a /\ word_at r (p + 4) = n;
  ow_apart p q a n b m : own !! p = Some (a, n) -> own !! q = Some (b, m) -> p <> q -> p + n <= q \/ q + m <= p
}.

(** A block that the allocator hands out. *)
Definition fresh (live : gmap Z (arena * Z)) (p n : Z) : Prop :=
  p mod 4 = 0 /\ 0 < p /\ p + n <= 2 ^ 32 /\ p + 8 < 2 ^ 32 /\
  forall q b m, live !! q = Some (b, m) -> q <> p /\ (q + m <= p \/ p + n <= q).

Lemma fresh_none live p n : fresh live p n -> live !! p = None.
Proof. intros (_ & _ & _ & _ & Hf). destruct (live !! p) as [[b m]|] eqn:E; [|done]. by destruct (Hf _ _ _ E). Qed.

(** Memory may change outside the headers. *)
Lemma owns_ram own live r r' :
  owns own live r -> (forall p a n x, own !! p = Some (a, n) -> p <= x < p + 8 -> r' x = r x) -> owns own live r'.
Proof.
  intros [Hl Hh Ha] Hr. split; [done| |done]. intros p a n Hp. destruct (Hh p a n Hp) as (? & ? & ? & ? & Hw1 & Hw2).
  do 4 (split; [done|]).
  split; [rewrite <- Hw1|rewrite <- Hw2]; apply word_at_ext; intros x Hx; apply (Hr p a n); (done || lia).
Qed.

Lemma owns_grow own live r p x : owns own live r -> live !! p = None -> owns own (<[p := x]> live) r.
Proof.
  intros [Hl Hh Ha] Hp. split; [|done|done]. intros q y Hq. destruct (decide (q = p)) as [->|]; [apply Hl in Hq; congruence|].
  rewrite lookup_insert_ne by done. by apply Hl.
Qed.

Lemma owns_add own live r r' p a n :
  owns own live r -> fresh live p n -> 8 <= n < 2 ^ 32 -> word_at r' p = flag_of a -> word_at r' (p + 4) = n ->
  (forall x, x < p \/ p + n <= x -> r' x = r x) -> owns (<[p := (a, n)]> own) (<[p := (a, n)]> live) r'.
Proof.
  intros Ho Hf Hn Hw1 Hw2 Hr. pose proof (fresh_none _ _ _ Hf) as Hnone. destruct Hf as (Hm & Hp & Hend & _ & Hd).
  assert (Ho' : owns own live r').
  { apply (owns_ram own live r); [done|]. intros q b m x Hq Hx. pose proof (ow_live _ _ _ Ho _ _ Hq) as Hl.
    pose proof (ow_head _ _ _ Ho _ _ _ Hq). destruct (Hd _ _ _ Hl). apply Hr. lia. }
  destruct Ho' as [Hl Hh Ha]. split.
  - intros q x. rewrite !lookup_insert. case_decide; [done|]. apply Hl.
  - intros q b m. rewrite lookup_insert. case_decide as He; [|apply Hh]. intros [= <- <-]. subst q. done.
  - intros q1 q2 a1 n1 a2 n2. rewrite !lookup_insert. case_decide as E1; case_decide as E2; subst.
    + done.
    + intros [= <- <-] H2 _. destruct (Hd _ _ _ (Hl _ _ H2)). lia.
    + intros H1 [= <- <-] _. destruct (Hd _ _ _ (Hl _ _ H1)). lia.
    + apply Ha.
Qed.

Lemma owns_drop own live r p : owns own live r -> owns (delete p own) (delete p live) r.
Proof.
  intros [Hl Hh Ha]. split.
  - intros q x. rewrite !lookup_delete. case_decide; [done|]. apply Hl.
  - intros q a n (_ & Hq)%lookup_delete_Some. by apply Hh.
  - intros q1 q2 a n b m (_ & H1)%lookup_delete_Some (_ & H2)%lookup_delete_Some. by eapply Ha.
Qed.

(** ** The manager *)

(** [T] is what the C library's heap had at the start. *)
Record mem_inv {H} `{RawHeap H} (T : Z) (own : gmap Z (arena * Z)) (s : mem H) : Prop := {
  mi_owns : owns own (raw_live (heap s)) (ram s);
  mi_total : total_mem_size s = u32 (T - libc_bytes own);
  mi_sem : mem_sem s = Some 1 /\ memory_manager_initialized s = true
}.

Section spec.
Context {H : Type} `{RawHeapLaws H}.
Implicit Types s : mem H.

Lemma os_alloc_spec a n s (Q : Z -> mem H -> Prop) :
  0 <= n ->
  (forall h, raw_live h = raw_live (heap s) ->
     Q 0 (Mem h (ram s) (total_mem_size s) (mem_sem s) (memory_manager_initialized s) (isr_count s))) ->
  (forall p h, raw_live h = <[p := (a, n)]> (raw_live (heap s)) -> fresh (raw_live (heap s)) p n ->
     Q p (Mem h (ram s) (total_mem_size s) (mem_sem s) (memory_manager_initialized s) (isr_count s))) ->
  wp (os_alloc a n) s Q.
Proof.
  intros Hn Hno Hyes. apply wp_bind, wp_zoom. destruct (raw_malloc a n (heap s)) as [[p|] h] eqn:E; apply wp_ret; cbn.
  - destruct (raw_malloc_some a n (heap s) p h Hn E) as (Hl & Hf). by apply Hyes.
  - by apply Hno, (raw_malloc_none a n).
Qed.

Lemma os_free_spec a p n s (Q : unit -> mem H -> Prop) :
  raw_live (heap s) !! p = Some (a, n) ->
  (forall h, raw_live h = delete p (raw_live (heap s)) ->
     Q tt (Mem h (ram s) (total_mem_size s) (mem_sem s) (memory_manager_initialized s) (isr_count s))) ->
  wp (os_free a p) s Q.
Proof.
  intros Hp HQ. apply wp_bind, wp_gets. rewrite Hp, decide_True by done. apply wp_zoom. cbn.
  apply HQ. by apply (raw_free_live a p n).
Qed.

Lemma put_header_spec flag p n s (Q : Z -> mem H -> Prop) :
  Q (p + 8) (Mem (heap s) (headed (ram s) p flag n) (total_mem_size s) (mem_sem s) (memory_manager_initialized s) (isr_count s)) ->
  wp (put_header flag p n) s Q.
Proof. intros HQ. by apply wp_bind, wp_modify, wp_bind, wp_modify, wp_ret. Qed.

Lemma mem_sem_acquire_spec s (Q : unit -> mem H -> Prop) :
  mem_sem s = Some 1 -> Q tt (Mem (heap s) (ram s) (total_mem_size s) (Some 0) (memory_manager_initialized s) (isr_count s)) ->
  wp sem_acquire s Q.
Proof using. intros Hs HQ. apply wp_bind, wp_gets. rewrite Hs. by apply wp_modify. Qed.

Lemma mem_sem_release_spec s (Q : unit -> mem H -> Prop) :
  mem_sem s = Some 0 -> Q tt (Mem (heap s) (ram s) (total_mem_size s) (Some 1) (memory_manager_initialized s) (isr_count s)) ->
  wp sem_release s Q.
Proof using. intros Hs HQ. apply wp_bind, wp_gets. rewrite Hs. by apply wp_modify. Qed.

(** The block with its header joins the clients' blocks. *)
Lemma owns_headed own live r r0 p a n :
  owns own live r -> fresh live p n -> 8 <= n < 2 ^ 32 -> (forall x, x < p \/ p + n <= x -> r0 x = r x) ->
  owns (<[p := (a, n)]> own) (<[p := (a, n)]> live) (headed r0 p (flag_of a) n).
Proof using.
  intros Ho Hf Hn Hr. destruct (headed_words r0 p (flag_of a) n) as [Hw1 Hw2].
  apply (owns_add own live r); [done|done|done| | |].
  - rewrite Hw1. by destruct a.
  - rewrite Hw2. apply wrap_id. lia.
  - intros x Hx. rewrite headed_out by lia. by apply Hr.
Qed.

Lemma total_add T own p n t :
  own !! p = None -> t = u32 (T - libc_bytes own) -> u32 (t - n) = u32 (T - libc_bytes (<[p := (Libc, n)]> own)).
Proof using.
  intros Hp ->. rewrite libc_bytes_insert by done. autorewrite with wrap. f_equal. unfold share. cbn. lia.
Qed.

Lemma total_drop T own p n t :
  own !! p = Some (Libc, n) -> t = u32 (T - libc_bytes own) -> u32 (t + n) = u32 (T - libc_bytes (delete p own)).
Proof using.
  intros Hp ->. rewrite (libc_bytes_delete own p (Libc, n)) by done. autorewrite with wrap. f_equal. unfold share. cbn. lia.
Qed.

(** ** Allocation *)

(** [mem_alloc_debug] and [mem_calloc_debug] behind the first lines: [len] with
    the header, [fill] what is done to the block first. *)
Definition alloc_body (fill : Z -> (Z -> Z) -> Z -> Z) (len : Z) : M (mem H) Z :=
  isr ← in_isr;
  if (isr : bool) then
    buffer ← os_alloc Os len;
    if negb (buffer =? 0) then set_ram (fill buffer) ;; put_header OS_MEM_FLAG buffer len else mret buffer
  else
    sem_acquire ;;
    buffer ← os_alloc Libc len;
    buffer ← (if negb (buffer =? 0) then
                set_ram (fill buffer) ;;
                buffer ← put_header NON_OS_MEM_FLAG buffer len;
                set_total (fun t => t - len) ;;
                mret buffer
              else mret buffer);
    sem_release ;;
    mret buffer.

Definition context s : arena := if 0 <? isr_count s then Os else Libc.

Lemma alloc_body_spec fill T own len s (Q : Z -> mem H -> Prop) :
  mem_inv T own s -> 8 <= len < 2 ^ 32 -> (forall p r x, x < p \/ p + len <= x -> fill p r x = r x) ->
  (forall s', mem_inv T own s' -> isr_count s' = isr_count s -> ram s' = ram s -> Q 0 s') ->
  (forall p s', fresh (raw_live (heap s)) p len -> mem_inv T (<[p := (context s, len)]> own) s' -> isr_count s' = isr_count s ->
     ram s' = headed (fill p (ram s)) p (flag_of (context s)) len -> Q (p + 8) s') ->
  wp (alloc_body fill len) s Q.
Proof.
  intros [Ho Ht [Hs Hi]] Hlen Hfill Hno Hyes. unfold context in Hyes. apply wp_bind, wp_gets. destruct (Z.ltb_spec 0 (isr_count s)).
  - apply wp_bind, os_alloc_spec; [lia|intros h Hl|intros p h Hl Hf]; cbn.
    + apply wp_ret, Hno; [|done|done]. split; cbn; [by rewrite Hl|done|done].
    + rewrite (proj2 (Z.eqb_neq _ _)) by (destruct Hf; lia). cbn [negb]. apply wp_bind, wp_modify, put_header_spec. cbn.
      apply Hyes; [done| |done|done]. assert (own !! p = None).
      { destruct (own !! p) eqn:E; [|done]. apply (ow_live _ _ _ Ho) in E. by rewrite (fresh_none _ _ _ Hf) in E. }
      split; cbn; [rewrite Hl; apply (owns_headed own _ (ram s)); auto| |done].
      rewrite libc_bytes_insert by done. done.
  - apply wp_bind, mem_sem_acquire_spec; [done|]. apply wp_bind, os_alloc_spec; [lia|intros h Hl|intros p h Hl Hf]; cbn in *.
    + apply wp_bind, wp_ret, wp_bind, mem_sem_release_spec; [done|]. apply wp_ret, Hno; [|done|done]. split; cbn; [by rewrite Hl|done|done].
    + rewrite (proj2 (Z.eqb_neq _ _)) by (destruct Hf; lia). cbn [negb].
      apply wp_bind, wp_bind, wp_modify, wp_bind, put_header_spec, wp_bind, wp_modify, wp_ret, wp_bind, mem_sem_release_spec; [done|].
      apply wp_ret. cbn. apply Hyes; [done| |done|done]. assert (own !! p = None).
      { destruct (own !! p) eqn:E; [|done]. apply (ow_live _ _ _ Ho) in E. by rewrite (fresh_none _ _ _ Hf) in E. }
      split; cbn; [rewrite Hl; apply (owns_headed own _ (ram s)); auto|by apply total_add|done].
Qed.

Lemma mem_alloc_body size s :
  memory_manager_initialized s = true -> mem_alloc_debug size s = alloc_body (fun _ r => r) (u32 (size + 8)) s.
Proof using.
  destruct s as [h r t sem ini isr]. cbn. intros ->. unfold mem_alloc_debug, alloc_body, os_alloc, put_header, store32, set_total, set_ram,
    sem_acquire, sem_release, set_sem, in_isr, mem_init, on_heap, zoom, modify, mbind, M_bind, gets, mret, M_ret. cbn.
  destruct (0 <? isr).
  - destruct (raw_malloc Os (u32 (size + 8)) h) as [[p|] h']; cbn; [|done]. by destruct (negb (p =? 0)).
  - destruct sem as [n|]; [|done]. destruct (0 <? n); [|done]. cbn.
    destruct (raw_malloc Libc (u32 (size + 8)) h) as [[p|] h']; cbn; [|done]. by destruct (negb (p =? 0)).
Qed.

Lemma mem_calloc_body n size :
  mem_calloc_debug n size =
  alloc_body (fun p r => overlay r p (replicate (Z.to_nat (u32 (u32 (n * size) + 8))) 0)) (u32 (u32 (n * size) + 8)).
Proof using. reflexivity. Qed.

(** ** Freeing *)

Lemma mem_free_spec T own p s (Q : unit -> mem H -> Prop) :
  mem_inv T own s -> p = 0 \/ is_Some (own !! (p - 8)) ->
  (forall s', mem_inv T (if decide (p = 0) then own else delete (p - 8) own) s' -> isr_count s' = isr_count s -> ram s' = ram s ->
     Q tt s') ->
  wp (mem_free_debug p) s Q.
Proof.
  intros [Ho Ht [Hs Hi]] Hp HQ. destruct s as [h r t sem ini isr]. cbn in *. subst sem ini.
  assert (Hmid : forall v h' t' (own' := if decide (p = 0) then own else delete (p - 8) own),
    v = Some (if 0 <? isr then 1 else 0) -> owns own' (raw_live h') r -> t' = u32 (T - libc_bytes own') ->
    wp (if 0 <? isr then mret tt else sem_release) (Mem h' r t' v true isr) Q).
  { intros v h' t' own' -> Ho' Ht'. destruct (0 <? isr); [apply wp_ret|apply mem_sem_release_spec; [done|]; cbn];
      (apply HQ; [|done|done]; by split). }
  apply wp_bind, wp_gets. cbn. apply wp_bind.
  assert (Hacq : wp (if 0 <? isr then mret tt else sem_acquire) (Mem h r t (Some 1) true isr)
    (fun _ s' => s' = Mem h r t (Some (if 0 <? isr then 1 else 0)) true isr)).
  { destruct (0 <? isr); [by apply wp_ret|by apply mem_sem_acquire_spec]. }
  eapply wp_mono; [exact Hacq|]. cbv beta. intros [] s1 ->. clear Hacq. apply wp_bind.
  destruct (Z.eqb_spec p 0) as [->|Hp0]; cbn [negb].
  { apply wp_ret, Hmid; [done| |]; by rewrite decide_True. }
  destruct Hp as [?|[[a n] Hp]]; [done|]. destruct (ow_head _ _ _ Ho _ _ _ Hp) as (Hn & _ & _ & _ & Hw1 & Hw2).
  pose proof (ow_live _ _ _ Ho _ _ Hp) as Hl. rewrite decide_False in Hmid by done.
  apply wp_bind, wp_gets. cbn. rewrite Hw1. destruct a; cbn [flag_of].
  - rewrite Z.eqb_refl. apply (os_free_spec Os (p - 8) n); [exact Hl|]. cbn. intros h' Hl'. apply Hmid; [done| |].
    + rewrite Hl'. by apply owns_drop.
    + rewrite Ht, (libc_bytes_delete own (p - 8) (Os, n)) by done. done.
  - change (NON_OS_MEM_FLAG =? OS_MEM_FLAG) with false. rewrite Z.eqb_refl. cbn iota.
    apply wp_bind, wp_gets, wp_bind, wp_modify. cbn. rewrite Hw2.
    apply (os_free_spec Libc (p - 8) n); [exact Hl|]. cbn. intros h' Hl'. apply Hmid; [done| |by apply total_drop].
    rewrite Hl'. by apply owns_drop.
Qed.

End spec.
