(* ===== verification/WmMemProps.v ===== *)
(** * Properties of the memory manager *)
From S2P Require Import Prelude CMonad HostEnv WmMem WmMemSpec.

(** What clients do: call the entry points, write to their blocks; and what
    the processor does: enter and leave interrupt context. *)
Inductive mop :=
  | Alloc (size : Z)
  | Calloc (n size : Z)
  | Free (p : Z)
  | Poke (a : Z) (l : list Z)
  | Avail
  | Isr (count : Z).

(** The clients' blocks, and what an operation with result [r] makes of them. *)
Definition legal (own : gmap Z (arena * Z)) (o : mop) : Prop :=
  match o with
  | Alloc size => 0 <= size < 2 ^ 32 - 8
  | Calloc n size => 0 <= n * size < 2 ^ 32 - 8
  | Free p => p = 0 \/ is_Some (own !! (p - 8))
  | Poke a l => exists p x, own !! p = Some x /\ p + 8 <= a /\ a + zlen l <= p + snd x
  | Avail | Isr _ => True
  end.

Definition grown (own : gmap Z (arena * Z)) (size r : Z) (own' : gmap Z (arena * Z)) : Prop :=
  (r = 0 /\ own' = own) \/
  (r <> 0 /\ exists a, own' = <[r - 8 := (a, size + 8)]> own /\
     forall q b m, own !! q = Some (b, m) -> q + m <= r - 8 \/ r + size <= q).

Definition effect (T : Z) (o : mop) (own : gmap Z (arena * Z)) (r : Z) (own' : gmap Z (arena * Z)) : Prop :=
  match o with
  | Alloc size => grown own size r own'
  | Calloc n size => grown own (n * size) r own'
  | Free p => own' = if decide (p = 0) then own else delete (p - 8) own
  | Avail => own' = own /\ r = u32 (T - libc_bytes own)
  | Poke _ _ | Isr _ => own' = own
  end.

Section properties.
Context {H : Type} `{RawHeapLaws H}.
Implicit Types s : mem H.

Definition exec (o : mop) : M (mem H) Z :=
  match o with
  | Alloc size => mem_alloc_debug size
  | Calloc n size => mem_calloc_debug n size
  | Free p => mem_free_debug p ;; mret 0
  | Poke a l => set_ram (fun r => overlay r a l) ;; mret 0
  | Avail => tls_mem_get_avail_heapsize
  | Isr n => modify (fun s => Mem (heap s) (ram s) (total_mem_size s) (mem_sem s) (memory_manager_initialized s) n) ;; mret 0
  end.

(** The bytes of the blocks that stay are left alone, except by [Poke]; a
    block from [Calloc] is blank. *)
Definition contents (o : mop) (own : gmap Z (arena * Z)) (r : Z) (own' : gmap Z (arena * Z)) (f f' : Z -> Z) : Prop :=
  (forall q b m, own !! q = Some (b, m) -> own' !! q = Some (b, m) -> (forall a l, o <> Poke a l) ->
     range f' (q + 8) (m - 8) = range f (q + 8) (m - 8)) /\
  match o with
  | Calloc n size => r <> 0 -> range f' r (n * size) = replicate (Z.to_nat (n * size)) 0
  | Poke a l => f' = overlay f a l
  | _ => True
  end.

Lemma grown_fresh own live r p len a :
  owns own live r -> fresh live p len -> grown own (len - 8) (p + 8) (<[p := (a, len)]> own).
Proof using.
  intros Ho Hf. right. pose proof Hf as (_ & ? & _ & _ & Hd). split; [lia|]. exists a. split; [f_equal; [lia|f_equal; lia]|].
  intros q b m Hq. destruct (Hd _ _ _ (ow_live _ _ _ Ho _ _ Hq)). lia.
Qed.

(** The new block touches no byte of the others. *)
Lemma kept_bytes own live f f' p len :
  owns own live f -> fresh live p len -> (forall x, x < p \/ p + len <= x -> f' x = f x) ->
  forall q b m, own !! q = Some (b, m) -> range f' (q + 8) (m - 8) = range f (q + 8) (m - 8).
Proof using.
  intros Ho (_ & _ & _ & _ & Hd) Hf' q b m Hq. apply range_ext. intros x Hx. apply Hf'.
  destruct (Hd _ _ _ (ow_live _ _ _ Ho _ _ Hq)). lia.
Qed.

Lemma poke_owns own live r a l p x :
  owns own live r -> own !! p = Some x -> p + 8 <= a -> a + zlen l <= p + snd x -> owns own live (overlay r a l).
Proof using.
  intros Ho Hp Ha Hl. destruct x as [b n]. cbn in Hl. apply (owns_ram own live r); [done|].
  intros q c m y Hq Hy. apply overlay_out. destruct (ow_head _ _ _ Ho _ _ _ Hq).
  destruct (decide (q = p)) as [->|Hne]; [lia|]. destruct (ow_apart _ _ _ Ho _ _ _ _ _ _ Hq Hp Hne); lia.
Qed.

Lemma exec_spec T own s o :
  mem_inv T own s -> legal own o ->
  wp (exec o) s (fun r s' =>
    exists own', effect T o own r own' /\ mem_inv T own' s' /\ contents o own r own' (ram s) (ram s')).
Proof.
  intros I Hl. pose proof I as [Ho Ht [Hs Hi]]. destruct o as [size|n size|p|a l| |count]; cbn [exec legal effect] in *.
  - unfold wp. rewrite mem_alloc_body by done. fold (wp (alloc_body (fun _ r => r) (u32 (size + 8))) s (fun r s' =>
      exists own', grown own size r own' /\ mem_inv T own' s' /\ contents (Alloc size) own r own' (ram s) (ram s'))).
    rewrite wrap_id by lia. apply (alloc_body_spec _ T own); [done|lia|done| |].
    + intros s' I' _ Hr. exists own. split; [by left|]. split; [done|]. by rewrite Hr.
    + intros p s' Hf I' _ Hr. exists (<[p := (context s, size + 8)]> own). split.
      { replace size with (size + 8 - 8) at 1 by lia. by eapply grown_fresh. }
      split; [done|]. split; [|done]. intros q b m Hq _ _. eapply kept_bytes; [exact Ho|exact Hf| |exact Hq].
      intros x Hx. rewrite Hr. apply headed_out. lia.
  - rewrite mem_calloc_body, !(wrap_id 32 (n * size)), wrap_id by lia. apply (alloc_body_spec _ T own); [done|lia| | |].
    + intros p r x Hx. apply overlay_out. rewrite length_replicate. lia.
    + intros s' I' _ Hr. exists own. split; [by left|]. split; [done|]. split; [by rewrite Hr|done].
    + intros p s' Hf I' _ Hr. exists (<[p := (context s, n * size + 8)]> own). split.
      { replace (n * size) with (n * size + 8 - 8) at 1 by lia. by eapply grown_fresh. }
      split; [done|]. split.
      * intros q b m Hq _ _. eapply kept_bytes; [exact Ho|exact Hf| |exact Hq].
        intros x Hx. rewrite Hr, headed_out by lia. apply overlay_out. rewrite length_replicate. lia.
      * intros _. rewrite Hr. apply byte_list_eq; rewrite length_range, ?length_replicate; [done|]. intros i Hx.
        rewrite byte_at_range, headed_out, overlay_in by (rewrite ?length_replicate; lia).
        unfold byte_at. by rewrite !nth_lookup, !lookup_replicate_2 by lia.
  - apply wp_bind, (mem_free_spec T own); [done|done|]. intros s' I' _ Hr. apply wp_ret.
    eexists. split; [done|]. split; [done|]. split; [by rewrite Hr|done].
  - destruct Hl as (p & x & Hp & Ha & Hx). apply wp_bind, wp_modify, wp_ret. exists own. split; [done|].
    split; [split; [by eapply poke_owns|done|done]|]. split; [|done]. intros q b m _ _ Hn. by destruct (Hn a l).
  - apply wp_bind, mem_sem_acquire_spec, wp_bind, wp_gets, wp_bind, mem_sem_release_spec, wp_ret; [done|done|]. cbn.
    exists own. split; [done|]. split; [by split|done].
  - apply wp_bind, wp_modify, wp_ret. exists own. split; [done|]. split; [by split|done].
Qed.

(** A client: operations, the next of which may depend on the results. *)
Inductive client := Ret | Do (o : mop) (k : Z -> client).

Fixpoint run (c : client) : M (mem H) unit :=
  match c with
  | Ret => mret tt
  | Do o k => r ← exec o; run (k r)
  end.

(** What a client may count on if all it knows is the specification above;
    [P] is what it is to reach. *)
Fixpoint promised (T : Z) (c : client) (own : gmap Z (arena * Z)) (f : Z -> Z) (P : gmap Z (arena * Z) -> (Z -> Z) -> Prop) : Prop :=
  match c with
  | Ret => P own f
  | Do o k => legal own o /\
      forall r own' f', effect T o own r own' -> contents o own r own' f f' -> promised T (k r) own' f' P
  end.

(** C8. The memory manager refines its specification: a client - calls,
    writes to its blocks, interrupts, the next step depending on the results
    so far - that is correct for every allocator which hands out blocks
    disjoint from all others, blank if they were asked to be, leaves the
    bytes of the others alone, and reports as free what was there at the
    start less what came from it, returns and reaches its goal when it runs
    on the code. *)
Theorem mem_refines T c own s P :
  mem_inv T own s -> promised T c own (ram s) P ->
  wp (run c) s (fun _ s' => exists own', P own' (ram s') /\ mem_inv T own' s').
Proof.
  revert own s. induction c as [|o k IH]; intros own s I Hp; cbn [run promised] in *.
  - apply wp_ret. by exists own.
  - destruct Hp as [Hl Hk]. apply wp_bind. eapply wp_mono; [by apply exec_spec|]. cbv beta.
    intros r s1 (own' & He & I' & Hc). apply (IH r own'); [done|]. by apply Hk.
Qed.

(** [tls_mem_realloc] of a block of the client's, in task context: on
    success the block has moved with the bytes that fit, the old one is gone
    and the new one recorded; but if there is no memory, NULL comes back and
    the old block is freed all the same. *)
Theorem mem_realloc_moves T own s p a n size :
  mem_inv T own s -> isr_count s <= 0 -> own !! (p - 8) = Some (a, n) -> p <> 0 -> 0 <= size < 2 ^ 32 - 8 ->
  wp (mem_realloc_debug p size) s (fun r s' =>
    (r = 0 /\ mem_inv T (delete (p - 8) own) s') \/
    (r <> 0 /\ own !! (r - 8) = None /\ mem_inv T (<[r - 8 := (Libc, size + 8)]> (delete (p - 8) own)) s' /\
     range (ram s') r (Z.min (n - 8) size) = range (ram s) p (Z.min (n - 8) size))).
Proof.
  intros [Ho Ht [Hs Hi]] Hisr Hp Hp0 Hsize. pose proof (ow_head _ _ _ Ho _ _ _ Hp) as (Hn & Hpp & _ & _ & _ & Hw2).
  unfold mem_realloc_debug. rewrite wrap_id by lia. apply wp_bind, wp_gets. rewrite (proj2 (Z.ltb_ge 0 _)) by done.
  apply wp_bind, mem_sem_acquire_spec; [done|]. apply wp_bind, os_alloc_spec; [lia|intros h Hl|intros q h Hl Hf]; cbn [ram heap mem_sem total_mem_size isr_count memory_manager_initialized] in *.
  - cbn [Z.eqb negb andb]. apply wp_bind, wp_ret, wp_bind, mem_sem_release_spec; [done|]. cbn.
    apply wp_bind, (mem_free_spec T own); [by split; [cbn; rewrite Hl|cbn|by split]|right; by eexists|].
    intros s' I' _ _. apply wp_ret. left. split; [done|]. by rewrite decide_False in I' by done.
  - pose proof (fresh_none _ _ _ Hf) as Hnone. assert (Hq : own !! q = None).
    { destruct (own !! q) eqn:E; [|done]. apply (ow_live _ _ _ Ho) in E. by rewrite Hnone in E. }
    pose proof Hf as (_ & Hq0 & _ & _ & Hd). rewrite (proj2 (Z.eqb_neq q 0)), (proj2 (Z.eqb_neq p 0)) by lia. cbn [negb andb].
    apply wp_bind, wp_bind, wp_bind, wp_gets. cbn [ram]. replace (p - 4) with (p - 8 + 4) by lia. rewrite Hw2.
    set (m := if size <? n then size else n). assert (Hm : 0 <= m <= size /\ Z.min (n - 8) size <= m) by (unfold m; destruct (Z.ltb_spec size n); lia).
    assert (Hcopy : forall s0 (Q : unit -> mem H -> Prop),
      Q tt (Mem (heap s0) (overlay (ram s0) (q + 8) (range (ram s0) p m)) (total_mem_size s0) (mem_sem s0) (memory_manager_initialized s0) (isr_count s0)) ->
      wp (if size <? n then copy (q + 8) p size else copy (q + 8) p n) s0 Q).
    { intros s0 Q HQ. unfold m in HQ. by destruct (size <? n). }
    apply Hcopy. cbn. apply wp_bind, put_header_spec, wp_bind, wp_modify, wp_ret, wp_bind, mem_sem_release_spec; [done|]. cbn.
    apply wp_bind, (mem_free_spec T (<[q := (Libc, size + 8)]> own)).
    + split; cbn; [rewrite Hl|by apply total_add|by split]. apply (owns_headed own _ (ram s)); [done|done|lia|].
      intros x Hx. apply overlay_out. rewrite length_range. lia.
    + right. rewrite lookup_insert_ne by (intros ->; congruence). by eexists.
    + cbn. rewrite decide_False by done. intros s' I' _ Hr. apply wp_ret. right. split; [lia|]. replace (q + 8 - 8) with q by lia.
      split; [done|]. rewrite delete_insert_ne in I' by (intros <-; congruence). split; [exact I'|]. rewrite Hr.
      apply byte_list_eq; rewrite !length_range; [done|]. intros i Hi'.
      rewrite !byte_at_range, headed_out, overlay_in by (rewrite ?length_range; lia).
      replace (q + 8 + i - (q + 8)) with i by lia. by rewrite byte_at_range by lia.
Qed.

(** [tls_mem_realloc(NULL, size)] in task context returns a block without
    a header that is not counted: freeing it again does nothing, unless the
    two words in front of it happen to look like a header. *)
Theorem mem_realloc_null_untracked T own s size :
  mem_inv T own s -> isr_count s <= 0 -> 0 <= size < 2 ^ 32 - 8 ->
  wp (mem_realloc_debug 0 size) s (fun r s' =>
    mem_inv T own s' /\
    (r <> 0 -> raw_live (heap s') !! r = Some (Libc, size + 8) /\ total_mem_size s' = total_mem_size s /\
       (word_at (ram s') (r - 8) <> OS_MEM_FLAG -> word_at (ram s') (r - 8) <> NON_OS_MEM_FLAG ->
        wp (mem_free_debug r) s' (fun _ s2 => s2 = s')))).
Proof.
  intros [Ho Ht [Hs Hi]] Hisr Hsize. unfold mem_realloc_debug. rewrite wrap_id by lia. apply wp_bind, wp_gets.
  rewrite (proj2 (Z.ltb_ge 0 _)) by done. apply wp_bind, mem_sem_acquire_spec; [done|].
  assert (Hend : forall q h, (q <> 0 -> raw_live h !! q = Some (Libc, size + 8)) -> owns own (raw_live h) (ram s) ->
    wp (mem_free_debug 0 ;; mret q) (Mem h (ram s) (total_mem_size s) (Some 1) (memory_manager_initialized s) (isr_count s)) (fun r s' =>
      mem_inv T own s' /\
      (r <> 0 -> raw_live (heap s') !! r = Some (Libc, size + 8) /\ total_mem_size s' = total_mem_size s /\
         (word_at (ram s') (r - 8) <> OS_MEM_FLAG -> word_at (ram s') (r - 8) <> NON_OS_MEM_FLAG ->
          wp (mem_free_debug r) s' (fun _ s2 => s2 = s'))))).
  { intros q h Hq Ho'. assert (Hfree : forall p s0, mem_sem s0 = Some 1 -> isr_count s0 <= 0 ->
      p = 0 \/ (word_at (ram s0) (p - 8) <> OS_MEM_FLAG /\ word_at (ram s0) (p - 8) <> NON_OS_MEM_FLAG) ->
      wp (mem_free_debug p) s0 (fun _ s2 => s2 = s0)).
    { intros p [h0 r0 t0 v0 i0 c0] Hv Hc Hp. cbn in *. subst v0. apply wp_bind, wp_gets. cbn. rewrite (proj2 (Z.ltb_ge 0 _)) by done.
      apply wp_bind, mem_sem_acquire_spec; [done|]. cbn. apply wp_bind. destruct (Z.eqb_spec p 0); cbn [negb].
      - apply wp_ret. by apply mem_sem_release_spec.
      - destruct Hp as [?|[H1' H2']]; [done|]. apply wp_bind, wp_gets. cbn. rewrite !(proj2 (Z.eqb_neq _ _)) by done.
        apply wp_ret. by apply mem_sem_release_spec. }
    apply wp_bind. eapply wp_mono; [apply Hfree; [done|done|by left]|]. cbv beta. intros _ s1 ->. apply wp_ret. cbn.
    split; [by split|]. intros Hq0. split; [by apply Hq|]. split; [done|]. intros ? ?. apply Hfree; [done|done|by right]. }
  apply wp_bind, os_alloc_spec; [lia|intros h Hl|intros q h Hl Hf]; cbn in *.
  - apply wp_bind, wp_ret, wp_bind, mem_sem_release_spec; [done|]. cbn. apply Hend; [done|by rewrite Hl].
  - rewrite andb_false_r. apply wp_bind, wp_ret, wp_bind, mem_sem_release_spec; [done|]. cbn.
    apply Hend; rewrite Hl; [intros _; apply lookup_insert_eq|]. apply owns_grow; [done|]. by apply (fresh_none _ _ (size + 8)).
Qed.

(** In interrupt context [tls_mem_realloc] never returns a block: when
    the kernel's allocator has one, NULL comes back, the block is lost, and
    the old one stays as it was. *)
Theorem mem_realloc_isr_leaks s p size q h :
  0 < isr_count s -> raw_malloc Os (u32 (size + 8)) (heap s) = (Some q, h) -> 
  wp (mem_realloc_debug p size) s (fun r s' =>
    r = 0 /\ raw_live (heap s') = <[q := (Os, u32 (size + 8))]> (raw_live (heap s)) /\ ram s' = ram s /\ q <> 0).
Proof.
  intros Hisr E. assert (Hlen : 0 <= u32 (size + 8)) by (apply wrap_bounds; lia).
  destruct (raw_malloc_some _ _ _ _ _ Hlen E) as (Hl & _ & Hq & _).
  apply wp_bind, wp_gets. rewrite (proj2 (Z.ltb_lt _ _)) by done. apply wp_bind, wp_bind, wp_zoom. rewrite E. apply wp_ret. cbn.
  rewrite (proj2 (Z.eqb_neq _ _)) by lia. apply wp_ret. cbn. split; [done|]. split; [done|]. split; [done|lia].
Qed.

(** The length with the header is computed with 32 bits.  A request of
    2{^32}-8 bytes or more is answered with a block shorter than the header
    that is then written over its end; and the product in [tls_mem_calloc]
    wraps, so that a block is shorter than the memory asked for. *)
Theorem mem_length_wraps T own s size n m :
  mem_inv T own s -> isr_count s <= 0 -> 2 ^ 32 - 8 <= size < 2 ^ 32 -> 2 ^ 32 <= n * m ->
  wp (mem_alloc_debug size) s (fun r s' => r <> 0 ->
    exists len, raw_live (heap s') !! (r - 8) = Some (Libc, len) /\ len < 8 /\
      range (ram s') (r - 8) 8 = le_bytes 4 NON_OS_MEM_FLAG ++ le_bytes 4 len) /\
  wp (mem_calloc_debug n m) s (fun r s' => r <> 0 ->
    exists len, raw_live (heap s') !! (r - 8) = Some (Libc, len) /\ len < n * m).
Proof.
  intros [Ho Ht [Hs Hi]] Hisr Hsize Hnm.
  assert (Hgen : forall fill len (Q : Z -> mem H -> Prop), 0 <= len ->
    (forall s', Q 0 s') ->
    (forall p s', raw_live (heap s') !! p = Some (Libc, len) -> ram s' = headed (fill p (ram s)) p NON_OS_MEM_FLAG len -> Q (p + 8) s') ->
    wp (alloc_body fill len) s Q).
  { intros fill len Q Hlen Hno Hyes. apply wp_bind, wp_gets. rewrite (proj2 (Z.ltb_ge 0 _)) by done.
    apply wp_bind, mem_sem_acquire_spec; [done|]. apply wp_bind, os_alloc_spec; [lia|intros h Hl|intros p h Hl (_ & Hp & _)]; cbn in *.
    - by apply wp_bind, wp_ret, wp_bind, mem_sem_release_spec, wp_ret.
    - rewrite (proj2 (Z.eqb_neq _ _)) by lia. cbn [negb].
      apply wp_bind, wp_bind, wp_modify, wp_bind, put_header_spec, wp_bind, wp_modify, wp_ret, wp_bind, mem_sem_release_spec; [done|].
      apply wp_ret, Hyes; [|done]. cbn. rewrite Hl. apply lookup_insert_eq. }
  split.
  - eapply wp_same; [by apply mem_alloc_body|]. assert (Hw : u32 (size + 8) = size + 8 - 2 ^ 32) by (unfold wrap; dlia).
    rewrite Hw. apply Hgen; [lia|done|]. intros p s' Hl Hr _. exists (size + 8 - 2 ^ 32).
    replace (p + 8 - 8) with p by lia. split; [exact Hl|]. split; [lia|]. rewrite Hr.
    change (range ?f ?o 8) with (range f o (4 + 4)). rewrite range_app by lia. unfold headed. f_equal.
    + rewrite range_overlay_out by lia. apply (range_overlay _ _ (le_bytes 4 NON_OS_MEM_FLAG)).
    + pose proof (range_overlay (overlay (ram s) p (le_bytes 4 NON_OS_MEM_FLAG)) (p + 4) (le_bytes 4 (size + 8 - 2 ^ 32))) as E.
      by rewrite length_le_bytes in E.
  - rewrite mem_calloc_body. apply Hgen; [apply wrap_bounds; lia|done|]. intros p s' Hl _ _. eexists.
    replace (p + 8 - 8) with p by lia. split; [exact Hl|]. unfold wrap. dlia.
Qed.

(** Only [tls_mem_alloc] sets the manager up: as the first call, the
    others wait for a semaphore that does not exist.  The first
    [tls_mem_alloc] in task context establishes the invariant. *)
Theorem mem_first_call T s size n p :
  memory_manager_initialized s = false -> mem_sem s = None -> isr_count s <= 0 -> total_mem_size s = u32 T ->
  fst (raw_sem_create (heap s)) = true -> 0 <= size < 2 ^ 32 - 8 ->
  mem_calloc_debug n size s = None /\ mem_realloc_debug p size s = None /\ mem_free_debug p s = None /\
  tls_mem_get_avail_heapsize s = None /\
  wp (mem_alloc_debug size) s (fun r s' => exists own, grown ∅ size r own /\ mem_inv T own s').
Proof.
  intros Hi Hs Hisr Ht Hsem Hsize. assert (Hz : (0 <? isr_count s) = false) by by apply Z.ltb_ge.
  assert (Hstuck : sem_acquire s = None) by (unfold sem_acquire, mbind, M_bind, gets; by rewrite Hs).
  split; [|split; [|split; [|split]]].
  - rewrite mem_calloc_body. unfold alloc_body, in_isr, mbind, M_bind, gets. rewrite Hz. by rewrite Hstuck.
  - unfold mem_realloc_debug, in_isr, mbind, M_bind, gets. rewrite Hz. by rewrite Hstuck.
  - unfold mem_free_debug, in_isr, mbind, M_bind, gets. rewrite Hz. by rewrite Hstuck.
  - unfold tls_mem_get_avail_heapsize, mbind, M_bind. by rewrite Hstuck.
  - destruct (raw_sem_create (heap s)) as [ok h] eqn:E. cbn in Hsem. subst ok.
    set (s1 := Mem h (ram s) (total_mem_size s) (Some 1) true (isr_count s)).
    assert (I1 : mem_inv T ∅ s1).
    { split; [|by cbn; rewrite Ht, Z.sub_0_r|done]. by split; intros *; rewrite ?lookup_empty. }
    pose proof (exec_spec T ∅ s1 (Alloc size) I1 Hsize) as Hw. cbn [exec] in Hw. apply wp_bind_inv in Hw.
    assert (Hm : mem_init s1 = Some (tt, s1)) by reflexivity.
    apply wp_run in Hw as (u & s2 & E2 & Hw). rewrite Hm in E2. injection E2 as <- <-.
    apply wp_bind, wp_bind, wp_gets. rewrite Hi. apply wp_bind, wp_modify, wp_bind, wp_zoom. cbn. rewrite E. apply wp_modify. cbn.
    eapply wp_mono; [exact Hw|]. cbv beta. intros r s' (own & He & I' & _). by exists own.
Qed.

End properties.

(** ** Concrete allocators and the theorems at concrete inputs *)

(** Both allocators hand out the next free address below a limit. *)
Module BumpHeap.

Record bump := Bump { brk : Z; limit : Z; blocks : gmap Z (arena * Z); kernel_sems : bool }.

Definition apart (p n : Z) (q : Z) (x : arena * Z) : Prop := q <> p /\ (q + snd x <= p \/ p + n <= q).
#[global] Instance apart_dec p n q x : Decision (apart p n q x).
Proof. unfold apart. apply _. Defined.

Definition free_at (p n : Z) (b : gmap Z (arena * Z)) : bool :=
  (p mod 4 =? 0) && (0 <? p) && (p + n <=? 2 ^ 32 - 16) && bool_decide (map_Forall (apart p n) b).

#[global] Instance bump_heap : RawHeap bump := {|
  raw_malloc a n h :=
    if (brk h + n <=? limit h) && (0 <=? n) && free_at (brk h) n (blocks h)
    then (Some (brk h), Bump (brk h + (n + 3) / 4 * 4) (limit h) (<[brk h := (a, n)]> (blocks h)) (kernel_sems h))
    else (None, h);
  raw_free _ p h := Bump (brk h) (limit h) (delete p (blocks h)) (kernel_sems h);
  raw_live := blocks;
  raw_sem_create h := (kernel_sems h, h)
|}.

#[global] Instance bump_heap_laws : RawHeapLaws bump.
Proof.
  split; cbn.
  - intros a n h p h' Hn. destruct (Z.leb_spec 0 n); [|lia]. rewrite andb_true_r. destruct (brk h + n <=? limit h); [|done]. cbn.
    unfold free_at. repeat case_match; [|done]. intros [= <- <-].
    repeat match goal with E : _ && _ = true |- _ => apply andb_prop in E as [? ?] end.
    split; [done|]. do 4 (split; [lia|]). intros q b m Hq.
    match goal with E : bool_decide _ = true |- _ => apply bool_decide_eq_true in E; apply (E _ _ Hq) end.
  - intros a n h h'. case_match; [done|]. by intros [= <-].
  - done.
  - done.
Qed.

End BumpHeap.
Import BumpHeap.

(** 100000 bytes of heap, nothing allocated. *)
Definition fresh_mem : mem bump := Mem (Bump 0x20010000 0x20028000 ∅ true) (fun _ => 0) 100000 (Some 1) true 0.

Lemma fresh_mem_inv : mem_inv 100000 ∅ fresh_mem.
Proof. by split; [split; intros *; rewrite ?lookup_empty| |]. Qed.

(** A client that gets a block, writes to it and gives it back. *)
Definition borrow : client :=
  Do (Alloc 100) (fun p => if p =? 0 then Ret else Do (Poke p [1; 2; 3]) (fun _ => Do (Free p) (fun _ => Ret))).

Lemma mem_refines_witness :
  wp (run borrow) fresh_mem (fun _ s' => exists own', own' = ∅ /\ mem_inv 100000 own' s').
Proof.
  apply (mem_refines 100000 borrow ∅ fresh_mem (fun own' _ => own' = ∅) fresh_mem_inv).
  cbn [borrow promised legal effect]. split; [lia|]. intros p own1 f1 Hg _. destruct (Z.eqb_spec p 0) as [Hp|Hp]; cbn [promised legal effect].
  { by destruct Hg as [[_ ->]|[? _]]. }
  destruct Hg as [[? _]|(_ & a & -> & _)]; [done|]. split.
  { exists (p - 8), (a, 108). split; [apply lookup_insert_eq|]. cbn. lia. }
  intros r2 own2 f2 -> _. split; [right; rewrite lookup_insert_eq; by eexists|]. intros r3 own3 f3 -> _.
  rewrite decide_False by done. by rewrite delete_insert_id by apply lookup_empty.
Defined.

(** One block of 16 bytes, behind its header at [block_at]. *)
Definition block_at : Z := 0x20010000.
Definition used_mem (isr : Z) : mem bump :=
  Mem (Bump 0x20010018 0x20028000 {[block_at := (Libc, 24)]} true) (headed (fun _ => 7) block_at NON_OS_MEM_FLAG 24)
    99976 (Some 1) true isr.

Lemma used_mem_inv isr : mem_inv 100000 {[block_at := (Libc, 24)]} (used_mem isr).
Proof.
  split; [|reflexivity|by split]. refine (owns_headed ∅ ∅ (fun _ => 7) (fun _ => 7) block_at Libc 24 _ _ _ _); [| |lia|done].
  - by split; intros *; rewrite ?lookup_empty.
  - do 4 (split; [by vm_compute|]). intros q b m Hq. by rewrite lookup_empty in Hq.
Qed.

Lemma mem_realloc_moves_witness :
  wp (mem_realloc_debug (block_at + 8) 40) (used_mem 0) (fun r s' =>
    (r = 0 /\ mem_inv 100000 (delete (block_at + 8 - 8) {[block_at := (Libc, 24)]}) s') \/
    (r <> 0 /\ ({[block_at := (Libc, 24)]} : gmap Z (arena * Z)) !! (r - 8) = None /\
     mem_inv 100000 (<[r - 8 := (Libc, 40 + 8)]> (delete (block_at + 8 - 8) {[block_at := (Libc, 24)]})) s' /\
     range (ram s') r (Z.min (24 - 8) 40) = range (ram (used_mem 0)) (block_at + 8) (Z.min (24 - 8) 40))).
Proof.
  apply (mem_realloc_moves 100000 {[block_at := (Libc, 24)]} (used_mem 0) (block_at + 8) Libc 24 40);
    [apply used_mem_inv|done|reflexivity|done|done].
Defined.

Lemma mem_realloc_null_untracked_witness :
  wp (mem_realloc_debug 0 40) (used_mem 0) (fun r s' =>
    mem_inv 100000 {[block_at := (Libc, 24)]} s' /\
    (r <> 0 -> raw_live (heap s') !! r = Some (Libc, 40 + 8) /\ total_mem_size s' = total_mem_size (used_mem 0) /\
       (word_at (ram s') (r - 8) <> OS_MEM_FLAG -> word_at (ram s') (r - 8) <> NON_OS_MEM_FLAG ->
        wp (mem_free_debug r) s' (fun _ s2 => s2 = s')))).
Proof.
  apply (mem_realloc_null_untracked 100000 {[block_at := (Libc, 24)]} (used_mem 0) 40); [apply used_mem_inv|done|done].
Defined.

Lemma mem_realloc_isr_leaks_witness :
  wp (mem_realloc_debug (block_at + 8) 40) (used_mem 1) (fun r s' =>
    r = 0 /\ raw_live (heap s') = <[0x20010018 := (Os, u32 (40 + 8))]> (raw_live (heap (used_mem 1))) /\
    ram s' = ram (used_mem 1) /\ 0x20010018 <> 0).
Proof.
  apply (mem_realloc_isr_leaks (used_mem 1) (block_at + 8) 40 0x20010018
    (Bump 0x20010048 0x20028000 (<[0x20010018 := (Os, 48)]> {[block_at := (Libc, 24)]}) true)); [done|].
  vm_compute. reflexivity.
Defined.

Lemma mem_length_wraps_witness :
  wp (mem_alloc_debug 0xFFFFFFFC) (used_mem 0) (fun r s' => r <> 0 ->
    exists len, raw_live (heap s') !! (r - 8) = Some (Libc, len) /\ len < 8 /\
      range (ram s') (r - 8) 8 = le_bytes 4 NON_OS_MEM_FLAG ++ le_bytes 4 len) /\
  wp (mem_calloc_debug 0x10001 0x10000) (used_mem 0) (fun r s' => r <> 0 ->
    exists len, raw_live (heap s') !! (r - 8) = Some (Libc, len) /\ len < 0x10001 * 0x10000).
Proof.
  apply (mem_length_wraps 100000 {[block_at := (Libc, 24)]} (used_mem 0) 0xFFFFFFFC 0x10001 0x10000); [apply used_mem_inv|done|done|done].
Defined.

(** Before the first call. *)
Definition cold_mem : mem bump := Mem (Bump 0x20010000 0x20028000 ∅ true) (fun _ => 0) 100000 None false 0.

Lemma mem_first_call_witness :
  mem_calloc_debug 3 10 cold_mem = None /\ mem_realloc_debug 0 10 cold_mem = None /\ mem_free_debug 0 cold_mem = None /\
  tls_mem_get_avail_heapsize cold_mem = None /\
  wp (mem_alloc_debug 10) cold_mem (fun r s' => exists own, grown ∅ 10 r own /\ mem_inv 100000 own s').
Proof. apply (mem_first_call 100000 cold_mem 10 3 0); done. Defined.
