(* ===== verification/WmMemHost.v ===== *)
(** * The memory manager is the host of the drivers

    [HostEnv] states what the flash driver asks of [tls_mem_alloc] and
    [tls_mem_free]; the manager keeps its laws, so that the theorems about
    the driver and everything above it hold on top of the real manager. *)
From S2P Require Import Prelude CMonad HostEnv WmMem WmMemSpec.

(** The manager in place of the abstract host: a block comes with whatever
    its bytes in memory are. *)
#[export] Instance mem_host {H} `{RawHeap H} : Host (mem H) := {|
  h_alloc size s :=
    match mem_alloc_debug size s with
    | Some (p, s') => if p =? 0 then (None, s') else (Some (p, range (fun a => u8 (ram s' a)) p size), s')
    | None => (None, s)
    end;
  h_free p s := match mem_free_debug p s with Some (_, s') => s' | None => s end;
  h_sem_create s :=
    let '(ok, h) := raw_sem_create (heap s) in
    (ok, Mem h (ram s) (total_mem_size s) (mem_sem s) (memory_manager_initialized s) (isr_count s))
|}.

(** Every result of [m] satisfies [P]. *)
Definition returns {S A} (P : A -> Prop) (m : M S A) : Prop := forall s a s', m s = Some (a, s') -> P a.

Lemma returns_bind {S A B} (P : A -> Prop) (Q : B -> Prop) (m : M S A) (k : A -> M S B) :
  returns P m -> (forall a, P a -> returns Q (k a)) -> returns Q (mbind k m).
Proof.
  intros Hm Hk s b s'. unfold mbind, M_bind. destruct (m s) as [[a s1]|] eqn:E; [|done]. apply Hk. by eapply Hm.
Qed.

Lemma returns_any {S A} (m : M S A) : returns (fun _ => True) m.
Proof. done. Qed.

Lemma returns_ret {S A} (P : A -> Prop) (a : A) : P a -> returns P (mret a : M S A).
Proof. by intros Ha s b s' [= <- _]. Qed.

Definition aligned (p : Z) : Prop := p mod 4 = 0.

Lemma os_alloc_aligned {H} `{RawHeapLaws H} a n : 0 <= n -> returns aligned (os_alloc (H := H) a n).
Proof.
  intros Hn s p s' E. unfold os_alloc, on_heap, zoom, mbind, M_bind in E.
  destruct (raw_malloc a n (heap s)) as [[q|] h] eqn:Em; injection E as <- _; [|done].
  by destruct (raw_malloc_some a n _ q h Hn Em) as (_ & ? & _).
Qed.

Lemma put_header_aligned {H} flag p n : aligned p -> returns aligned (put_header (H := H) flag p n).
Proof. intros Hp s q s' [= <- _]. unfold aligned in *. dlia. Qed.

Lemma mem_alloc_aligned {H} `{RawHeapLaws H} size : returns aligned (mem_alloc_debug (H := H) size).
Proof.
  assert (Hlen : 0 <= u32 (size + 8)) by (apply wrap_bounds; lia).
  eapply returns_bind; [apply returns_any|]. intros _ _. eapply returns_bind; [apply returns_any|]. intros isr _. destruct isr.
  - eapply returns_bind; [by apply os_alloc_aligned|]. intros p Hp.
    destruct (negb (p =? 0)); [by apply put_header_aligned|by apply returns_ret].
  - eapply returns_bind; [apply returns_any|]. intros _ _. eapply returns_bind; [by apply os_alloc_aligned|]. intros p Hp.
    eapply (returns_bind aligned).
    + destruct (negb (p =? 0)); [|by apply returns_ret]. eapply returns_bind; [by apply put_header_aligned|]. intros q Hq.
      eapply returns_bind; [apply returns_any|]. intros _ _. by apply returns_ret.
    + intros q Hq. eapply returns_bind; [apply returns_any|]. intros _ _. by apply returns_ret.
Qed.

#[export] Instance mem_host_laws {H} `{RawHeapLaws H} : HostLaws (mem H).
Proof.
  split. intros size s p l s' Hsize E. cbn in E. destruct (mem_alloc_debug size s) as [[q s1]|] eqn:Em; [|done].
  destruct (Z.eqb_spec q 0) as [|Hq]; [done|]. injection E as <- <- _. split; [by eapply mem_alloc_aligned|]. split; [done|].
  split; [apply length_range|]. apply Forall_forall. intros b (a & -> & _)%list_elem_of_fmap. apply (wrap_bounds 8). lia.
Qed.

(** ** The blocks in use *)

(** A block is 8 bytes behind its header. *)
Definition in_use {H} `{RawHeap H} (s : mem H) (B : gset Z) : Prop :=
  exists T own, mem_inv T own s /\ forall p, p ∈ B <-> is_Some (own !! (p - 8)).

Lemma alloc_in_use {H} `{RawHeapLaws H} size s B :
  0 < size < 2 ^ 31 -> in_use s B ->
  wp (mem_alloc_debug size) s (fun p s' => if p =? 0 then in_use s' B else (p ∉ B) /\ in_use s' ({[p]} ∪ B)).
Proof.
  intros Hsize (T & own & Hinv & HB). eapply wp_same; [apply mem_alloc_body, (mi_sem _ _ _ Hinv)|].
  rewrite (wrap_id 32) by lia. apply (alloc_body_spec (fun _ r => r) T own); [done|lia|done| |].
  - intros s' Hinv' _ _. rewrite Z.eqb_refl. by exists T, own.
  - intros p s' Hf Hinv' _ _. assert (Hp : 0 < p) by apply Hf. rewrite (proj2 (Z.eqb_neq _ _)) by lia.
    assert (Hnone : own !! p = None).
    { destruct (own !! p) as [x|] eqn:E; [|done]. apply (ow_live _ _ _ (mi_owns _ _ _ Hinv)) in E.
      by rewrite (fresh_none _ _ _ Hf) in E. }
    split; [rewrite HB; replace (p + 8 - 8) with p by lia; rewrite Hnone; by intros [? [=]]|].
    eexists T, _. split; [done|]. intros q. rewrite elem_of_union, elem_of_singleton, HB, lookup_insert_is_Some.
    split; [intros [->|Hq]; [left; lia|]|intros [Hq|[_ Hq]]; [left; lia|by right]].
    destruct (decide (p = q - 8)); [by left|by right].
Qed.

Lemma free_in_use {H} `{RawHeapLaws H} p s B :
  in_use s B -> p ∈ B -> wp (mem_free_debug p) s (fun _ s' => in_use s' (B ∖ {[p]})).
Proof.
  intros (T & own & Hinv & HB) Hp%HB. apply (mem_free_spec T own); [done|by right|]. intros s' Hinv' _ _.
  assert (Hp0 : p <> 0).
  { intros ->. destruct Hp as [[a n] Hn]. apply (ow_head _ _ _ (mi_owns _ _ _ Hinv)) in Hn. lia. }
  rewrite decide_False in Hinv' by done. eexists T, _. split; [done|]. intros q.
  rewrite elem_of_difference, elem_of_singleton, HB, lookup_delete_is_Some. split; intros [? ?]; split; (done || lia).
Qed.

#[export] Program Instance mem_host_blocks {H} `{RawHeapLaws H} : HostBlocks (mem H) := {| h_blocks := in_use |}.
Next Obligation.
  intros H ?? s B size p l s' Hsize HB E. destruct (proj1 (wp_run _ _ _) (alloc_in_use size s B Hsize HB)) as (q & s1 & Ea & Hq).
  cbn in E. rewrite Ea in E. destruct (q =? 0); [done|]. by injection E as <- _ <-.
Qed.
Next Obligation.
  intros H ?? s B size s' Hsize HB E. destruct (proj1 (wp_run _ _ _) (alloc_in_use size s B Hsize HB)) as (q & s1 & Ea & Hq).
  cbn in E. rewrite Ea in E. destruct (q =? 0); [|done]. by injection E as <-.
Qed.
Next Obligation.
  intros H ?? s B p HB Hp. destruct (proj1 (wp_run _ _ _) (free_in_use p s B HB Hp)) as ([] & s1 & Ea & Hs). cbn. by rewrite Ea.
Qed.
