(* ===== verification/WlMbox.v ===== *)
(** * Mailboxes and messages of the work-queue tasks

    [wm_wl_mbox.c] over the kernel's queues, and the functions of
    [wm_wl_task.c] by which other tasks hand work to a work-queue task: run a
    function, start or stop a timer.  A message is a block from the heap, or
    one of the static [wl_msg], which can be under way once at a time. *)
From S2P Require Import Prelude CMonad HostEnv.

Definition TLS_OS_SUCCESS : Z := 0.
Definition TLS_OS_ERROR : Z := 1.
Definition SYS_ARCH_TIMEOUT : Z := 0xFFFFFFFF.
Definition TLS_MBOX_ALL_COUNT : Z := 8.
Definition TLS_MSG_ALL_COUONT : Z := 9.
Definition TLS_TASK_START_PRIO : Z := 0.
(** [configTICK_RATE_HZ] *)
Definition HZ : Z := 500.

(** [enum task_msg_type] *)
Inductive task_msg_type :=
  | TASK_MSG_TIMEOUT | TASK_MSG_UNTIMEOUT | TASK_MSG_CALLBACK_WITH_BLOCK
  | TASK_MSG_CALLBACK | TASK_MSG_CALLBACK_STATIC | TASK_MSG_NULL.

(** [struct task_msg], the union as its three words. *)
Record task_msg := Msg { type : task_msg_type; sem : Z; word0 : Z; word1 : Z; word2 : Z }.
Definition sizeof_task_msg : Z := 20.

Definition cb_function (m : task_msg) : Z := word0 m.
Definition cb_ctx (m : task_msg) : Z := word1 m.
Definition cbs_function (m : task_msg) : Z := word0 m.
Definition cbs_ctx (m : task_msg) : Z := word1 m.
Definition cbs_cnt (m : task_msg) : Z := word2 m mod 256.
Definition tmo_msecs (m : task_msg) : Z := word0 m.
Definition tmo_h (m : task_msg) : Z := word1 m.
Definition tmo_arg (m : task_msg) : Z := word2 m.

Definition set_cnt (n : Z) (m : task_msg) : task_msg :=
  Msg (type m) (sem m) (word0 m) (word1 m) (word2 m - word2 m mod 256 + u8 n).

(** A message pointer: NULL, [&wl_msg[i]], or a block from the heap. *)
Inductive msg_ptr := MNull | MStatic (i : Z) | MHeap (p : Z).

(** [struct task_parameter], less its name *)
Record task_parameter := TaskParameter {
  task_id : Z; stk_start : Z; stk_size : Z; mbox_size : Z; mbox_id : Z; timeo_id : Z }.

(** Requests of other tasks, and what a function called by the task may do
    through this interface: also start and stop timers of its own task. *)
Inductive cop :=
  | Callback (tp : task_parameter) (f ctx block : Z)
  | CallbackStatic (tp : task_parameter) (f ctx block msg_id : Z)
  | AddTimeout (tp : task_parameter) (msecs h arg : Z)
  | Untimeout (tp : task_parameter) (h arg : Z).
Inductive wop := Arm (msecs h arg : Z) | Disarm (h arg : Z) | Client (c : cop).

(** The kernel, and the code behind function pointers. *)
Class World (W : Type) := {
  (** The ticks since the start, of which [tls_os_get_time] gives 32 bits. *)
  w_ticks : W -> Z;
  (** [tls_os_queue_receive]: a message, or that the time is over; nothing if
      it blocks for ever. *)
  w_receive : Z -> Z -> W -> option (option msg_ptr * W);
  w_send : Z -> msg_ptr -> W -> bool * W;
  w_delay : Z -> W -> W;
  (** [tls_os_queue_create]: the queue, if there is memory for it. *)
  w_queue_create : Z -> W -> option Z * W;
  w_task_create : task_parameter -> Z -> Z -> W -> bool * W;
  (** Calling [f(arg)]: what it does. *)
  w_call : Z -> Z -> W -> list wop * W
}.

Record kst (E W : Type) := Kst {
  host : E;
  world : W;
  task_mbox : list Z;
  hmsgs : gmap Z task_msg;
  wl_msg : list task_msg
}.
Arguments Kst {E W}.
Arguments host {E W}.
Arguments world {E W}.
Arguments task_mbox {E W}.
Arguments hmsgs {E W}.
Arguments wl_msg {E W}.

Section mbox.
Context {E W : Type} `{Host E} `{World W}.
Abbreviation st := (kst E W).

Definition on_host {A} (f : E -> A * E) : M st A :=
  zoom host (fun e k => Kst e (world k) (task_mbox k) (hmsgs k) (wl_msg k)) (fun e => Some (f e)).
Definition on_world {A} (f : W -> A * W) : M st A :=
  zoom world (fun w k => Kst (host k) w (task_mbox k) (hmsgs k) (wl_msg k)) (fun w => Some (f w)).
Definition set_hmsgs (f : gmap Z task_msg -> gmap Z task_msg) : M st unit := modify (fun k =>
  Kst (host k) (world k) (task_mbox k) (f (hmsgs k)) (wl_msg k)).
Definition set_wl_msg (f : list task_msg -> list task_msg) : M st unit := modify (fun k =>
  Kst (host k) (world k) (task_mbox k) (hmsgs k) (f (wl_msg k))).

Definition tls_os_get_time : M st Z := gets (fun k => u32 (w_ticks (world k))).

(** ** Messages by pointer *)

Definition read_msg (p : msg_ptr) : M st task_msg :=
  match p with
  | MNull => stuck
  | MStatic i => l ← gets wl_msg; must (l !! Z.to_nat i)
  | MHeap a => l ← gets hmsgs; must (l !! a)
  end.
Definition write_msg (p : msg_ptr) (m : task_msg) : M st unit :=
  match p with
  | MNull => stuck
  | MStatic i => set_wl_msg (fun l => <[Z.to_nat i := m]> l)
  | MHeap a => set_hmsgs (fun l => <[a := m]> l)
  end.
(** [msg->... = ...] through a pointer to a message. *)
Definition update_msg (p : msg_ptr) (f : task_msg -> task_msg) : M st unit :=
  m ← read_msg p; write_msg p (f m).

(** [tls_mem_alloc(sizeof(struct task_msg))], 0 for NULL *)
Definition alloc_msg : M st Z :=
  b ← on_host (h_alloc sizeof_task_msg);
  match b with
  | None => mret 0
  | Some (p, l) =>
      set_hmsgs (fun ms => <[p := Msg TASK_MSG_NULL (le_val (slice 4 4 l)) (le_val (slice 8 4 l))
                                (le_val (slice 12 4 l)) (le_val (slice 16 4 l))]> ms) ;;
      mret p
  end.

(** [tls_mem_free(msg)]: the block must be one from the heap. *)
Definition free_msg (p : msg_ptr) : M st unit :=
  match p with
  | MHeap a => read_msg p ;; set_hmsgs (delete a) ;; on_host (fun e => (tt, h_free a e))
  | _ => stuck
  end.

(** ** [wm_wl_mbox.c] *)

(** [tls_mbox_new(&task_mbox[id], size)] *)
Definition tls_mbox_new (id size : Z) : M st Z :=
  let size := if size =? 0 then 10 else size in
  q ← on_world (w_queue_create size);
  match q with
  | Some q =>
      l ← gets task_mbox;
      must (l !! Z.to_nat id) ;;
      modify (fun k => Kst (host k) (world k) (<[Z.to_nat id := q]> (task_mbox k)) (hmsgs k) (wl_msg k)) ;;
      mret TLS_OS_SUCCESS
  | None => mret TLS_OS_ERROR
  end.

Definition tls_mbox_valid (mbox : Z) : Z := if mbox =? 0 then 0 else 1.

Definition tls_mbox_post (mbox : Z) (msg : msg_ptr) : M st unit :=
  mloop 11 (fun i =>
    if i <? 10 then
      ok ← on_world (w_send mbox msg);
      if (ok : bool) then mret (inr tt)
      else on_world (fun w => (tt, w_delay 5 w)) ;; mret (inl (u8 (i + 1)))
    else mret (inr tt)) 0.

Definition tls_mbox_trypost (mbox : Z) (msg : msg_ptr) : M st Z :=
  ok ← on_world (w_send mbox msg);
  mret (if (ok : bool) then TLS_OS_SUCCESS else TLS_OS_ERROR).

(** The milliseconds waited, [SYS_ARCH_TIMEOUT] if no message came; and the
    message. *)
Definition tls_arch_mbox_fetch (mbox timeout : Z) : M st (Z * option msg_ptr) :=
  let in_timeout := u32 (timeout * HZ) / 1000 in
  let in_timeout := if negb (timeout =? 0) && (in_timeout =? 0) then 1 else in_timeout in
  tick_start ← tls_os_get_time;
  w ← gets world;
  match w_receive mbox in_timeout w with
  | None => stuck
  | Some (r, w) =>
      on_world (fun _ => (tt, w)) ;;
      match r with
      | None => mret (SYS_ARCH_TIMEOUT, None)
      | Some m =>
          tick_stop ← tls_os_get_time;
          let tick_elapsed :=
            if tick_start <=? tick_stop then tick_stop - tick_start
            else u32 (0xFFFFFFFF - tick_start + tick_stop) in
          mret (u32 (tick_elapsed * 1000) / HZ, Some m)
      end
  end.

(** ** Requests of other tasks ([wm_wl_task.c]) *)

(** [task_mbox[task_param->mbox_id]] *)
Definition mbox_of (tp : task_parameter) : M st Z :=
  l ← gets task_mbox; must (l !! Z.to_nat (mbox_id tp)).

Definition tls_wl_task_callback_static (tp : task_parameter) (function ctx block msg_id : Z) : M st Z :=
  let msg := MStatic msg_id in
  m ← read_msg msg;
  if 0 <? cbs_cnt m then mret TLS_OS_ERROR
  else
    mbox ← mbox_of tp;
    if negb (tls_mbox_valid mbox =? 0) then
      update_msg msg (fun m => Msg TASK_MSG_CALLBACK_STATIC (sem m) function ctx (word2 m)) ;;
      sent ← (if negb (block =? 0) then tls_mbox_post mbox msg ;; mret true
              else r ← tls_mbox_trypost mbox msg; mret (r =? TLS_OS_SUCCESS));
      if (sent : bool) then
        update_msg msg (fun m => set_cnt (cbs_cnt m + 1) m) ;;
        mret TLS_OS_SUCCESS
      else mret TLS_OS_ERROR
    else mret TLS_OS_ERROR.

Definition tls_wl_task_callback (tp : task_parameter) (function ctx block : Z) : M st Z :=
  mbox ← mbox_of tp;
  if negb (tls_mbox_valid mbox =? 0) then
    p ← alloc_msg;
    if p =? 0 then mret TLS_OS_ERROR
    else
      update_msg (MHeap p) (fun m => Msg TASK_MSG_CALLBACK (sem m) function ctx (word2 m)) ;;
      if negb (block =? 0) then
        tls_mbox_post mbox (MHeap p) ;;
        mret TLS_OS_SUCCESS
      else
        r ← tls_mbox_trypost mbox (MHeap p);
        if negb (r =? TLS_OS_SUCCESS) then free_msg (MHeap p) ;; mret TLS_OS_ERROR
        else mret TLS_OS_SUCCESS
  else mret TLS_OS_ERROR.

Definition tls_wl_task_add_timeout (tp : task_parameter) (msecs h arg : Z) : M st Z :=
  mbox ← mbox_of tp;
  if negb (tls_mbox_valid mbox =? 0) then
    p ← alloc_msg;
    if p =? 0 then mret TLS_OS_ERROR
    else
      update_msg (MHeap p) (fun m => Msg TASK_MSG_TIMEOUT (sem m) msecs h arg) ;;
      tls_mbox_post mbox (MHeap p) ;;
      mret TLS_OS_SUCCESS
  else mret TLS_OS_ERROR.

Definition tls_wl_task_untimeout (tp : task_parameter) (h arg : Z) : M st Z :=
  mbox ← mbox_of tp;
  if negb (tls_mbox_valid mbox =? 0) then
    p ← alloc_msg;
    if p =? 0 then mret TLS_OS_ERROR
    else
      update_msg (MHeap p) (fun m => Msg TASK_MSG_UNTIMEOUT (sem m) (word0 m) h arg) ;;
      tls_mbox_post mbox (MHeap p) ;;
      mret TLS_OS_SUCCESS
  else mret TLS_OS_ERROR.

(** [memset(wl_msg, 0, sizeof(struct task_msg))] *)
Definition tls_wl_task_init : M st Z :=
  set_wl_msg (fun l => <[0%nat := Msg TASK_MSG_TIMEOUT 0 0 0 0]> l) ;;
  mret 0.

Definition tls_wl_task_run (tp : task_parameter) : M st Z :=
  r ← tls_mbox_new (mbox_id tp) (mbox_size tp);
  if negb (r =? TLS_OS_SUCCESS) then mret (-1)
  else
    on_world (w_task_create tp (u32 (stk_size tp * 4)) (TLS_TASK_START_PRIO + task_id tp)) ;;
    mret 0.

Definition run_client (c : cop) : M st Z :=
  match c with
  | Callback tp f ctx block => tls_wl_task_callback tp f ctx block
  | CallbackStatic tp f ctx block msg_id => tls_wl_task_callback_static tp f ctx block msg_id
  | AddTimeout tp msecs h arg => tls_wl_task_add_timeout tp msecs h arg
  | Untimeout tp h arg => tls_wl_task_untimeout tp h arg
  end.

End mbox.
