(* ===== verification/WlTimers.v ===== *)
(** * Timers of the work-queue tasks ([wm_wl_timers.c], [wm_wl_task.c])

    Every work-queue task has a list of pending timeouts in which each entry
    holds its delay relative to the entry before it.  The task waits for a
    message no longer than the first delay; when the time is over it calls
    the handler.  The entries are blocks of the heap, linked by [next]; an
    access to an address that holds none has no result. *)
From S2P Require Import Prelude CMonad HostEnv WlMbox.

Definition TLS_TIMEO_ALL_COUONT : Z := 9.

(** [struct tls_timeo] *)
Record tls_timeo := Timeo { next : Z; time : Z; h : Z; arg : Z }.
Definition sizeof_timeo : Z := 16.

Definition with_next (p : Z) (t : tls_timeo) : tls_timeo := Timeo p (time t) (h t) (arg t).
Definition with_time (f : Z -> Z) (t : tls_timeo) : tls_timeo := Timeo (next t) (u32 (f (time t))) (h t) (arg t).

Record wl (E W : Type) := Wl {
  kern : kst E W;
  timeos : gmap Z tls_timeo;
  next_timeout : list Z
}.
Arguments Wl {E W}.
Arguments kern {E W}.
Arguments timeos {E W}.
Arguments next_timeout {E W}.

Section timers.
Context {E W : Type} `{Host E} `{World W}.
Abbreviation st := (wl E W).

Definition on_kern {A} : M (kst E W) A -> M st A := zoom kern (fun k s => Wl k (timeos s) (next_timeout s)).
Definition set_timeos (f : gmap Z tls_timeo -> gmap Z tls_timeo) : M st unit := modify (fun s =>
  Wl (kern s) (f (timeos s)) (next_timeout s)).

(** [*timeo], [*timeo = p], where [timeo = &next_timeout[id]] *)
Definition get_head (id : Z) : M st Z := l ← gets next_timeout; must (l !! Z.to_nat id).
Definition set_head (id p : Z) : M st unit := modify (fun s =>
  Wl (kern s) (timeos s) (<[Z.to_nat id := p]> (next_timeout s))).

Definition load (p : Z) : M st tls_timeo := m ← gets timeos; must (m !! p).
Definition update (p : Z) (f : tls_timeo -> tls_timeo) : M st unit :=
  t ← load p; set_timeos (fun m => <[p := f t]> m).

(** [tls_mem_alloc(sizeof(struct tls_timeo))], 0 for NULL, and [tls_mem_free] *)
Definition alloc_timeo : M st Z :=
  b ← on_kern (on_host (h_alloc sizeof_timeo));
  match b with
  | None => mret 0
  | Some (p, l) =>
      set_timeos (fun m => <[p := Timeo (le_val (slice 0 4 l)) (le_val (slice 4 4 l)) (le_val (slice 8 4 l)) (le_val (slice 12 4 l))]> m) ;;
      mret p
  end.
Definition free_timeo (p : Z) : M st unit :=
  load p ;;
  set_timeos (delete p) ;;
  on_kern (on_host (fun e => (tt, h_free p e))).

(** More rounds than the list has entries. *)
Definition enough : M st nat := gets (fun s => Datatypes.S (size (timeos s))).

(** ** Starting and stopping *)

(** [for (t = *timeo; t != NULL; t = t->next) ...] of [tls_timeout_p] *)
Definition insert_body (timeout t : Z) : M st (Z + unit) :=
  if t =? 0 then mret (inr tt)
  else
    t' ← load t;
    update timeout (with_time (fun x => x - time t')) ;;
    new ← load timeout;
    here ← (if next t' =? 0 then mret true else n ← load (next t'); mret (time new <? time n));
    if (here : bool) then
      (if negb (next t' =? 0) then update (next t') (with_time (fun x => x - time new)) else mret tt) ;;
      t' ← load t;
      update timeout (with_next (next t')) ;;
      update t (with_next timeout) ;;
      mret (inr tt)
    else mret (inl (next t')).

(** What [tls_timeout_p] does once it has the block. *)
Definition link_timeo (timeo_assigned timeout msecs handler arg : Z) : M st unit :=
  update timeout (fun _ => Timeo 0 msecs handler arg) ;;
  first ← get_head timeo_assigned;
  if first =? 0 then set_head timeo_assigned timeout
  else
    f ← load first;
    if msecs <? time f then
      update first (with_time (fun x => x - msecs)) ;;
      update timeout (with_next first) ;;
      set_head timeo_assigned timeout
    else
      fuel ← enough;
      mloop fuel (insert_body timeout) first.

Definition tls_timeout_p (timeo_assigned msecs handler arg : Z) : M st unit :=
  timeout ← alloc_timeo;
  if timeout =? 0 then mret tt else link_timeo timeo_assigned timeout (u32 msecs) handler arg.

(** [for (t = *timeo, prev_t = NULL; t != NULL; prev_t = t, t = t->next) ...] *)
Definition remove_body (timeo_assigned handler argument : Z) : Z * Z -> M st ((Z * Z) + unit) := fun '(t, prev_t) =>
  if t =? 0 then mret (inr tt)
  else
    t' ← load t;
    if (h t' =? handler) && (arg t' =? argument) then
      (if prev_t =? 0 then set_head timeo_assigned (next t') else update prev_t (with_next (next t'))) ;;
      (if negb (next t' =? 0) then update (next t') (with_time (fun x => x + time t')) else mret tt) ;;
      free_timeo t ;;
      mret (inr tt)
    else mret (inl (next t', t)).

Definition tls_untimeout_p (timeo_assigned handler arg : Z) : M st unit :=
  first ← get_head timeo_assigned;
  if first =? 0 then mret tt
  else
    fuel ← enough;
    mloop fuel (remove_body timeo_assigned handler arg) (first, 0).

(** [memset(next_timeout, 0, sizeof(struct tls_timeo * ) * TLS_TIMEO_ALL_COUONT)] *)
Definition tls_wl_timer_init : M st Z :=
  modify (fun s => Wl (kern s) (timeos s) (replicate (Z.to_nat TLS_TIMEO_ALL_COUONT) 0)) ;;
  mret 0.

(** ** Functions called by the task *)

Definition run_wop (timeo_assigned : Z) (o : wop) : M st unit :=
  match o with
  | Arm msecs handler arg => tls_timeout_p timeo_assigned msecs handler arg
  | Disarm handler arg => tls_untimeout_p timeo_assigned handler arg
  | Client c => on_kern (run_client c) ;; mret tt
  end.

Fixpoint run_wops (timeo_assigned : Z) (os : list wop) : M st unit :=
  match os with
  | [] => mret tt
  | o :: os => run_wop timeo_assigned o ;; run_wops timeo_assigned os
  end.

(** [f(arg)]: a call through NULL has no result. *)
Definition call (timeo_assigned f arg : Z) : M st unit :=
  if f =? 0 then stuck
  else
    os ← on_kern (on_world (w_call f arg));
    run_wops timeo_assigned os.

(** ** Waiting for a message *)

(** After the wait: [time_needed] and the message, if one came. *)
Definition after_fetch (timeo_assigned first : Z) (r : Z * option msg_ptr) : M st (unit + msg_ptr) :=
  let '(time_needed, msg) := r in
  if time_needed =? SYS_ARCH_TIMEOUT then
    tmptimeout ← load first;
    set_head timeo_assigned (next tmptimeout) ;;
    free_timeo first ;;
    (if negb (h tmptimeout =? 0) then call timeo_assigned (h tmptimeout) (arg tmptimeout) else mret tt) ;;
    mret (inl tt)
  else
    update first (with_time (fun x => if time_needed <? x then x - time_needed else 0)) ;;
    m ← must msg;
    mret (inr m).

(** One round of [again:]: a message, or once more. *)
Definition fetch_body (timeo_assigned mbox : Z) : M st (unit + msg_ptr) :=
  first ← get_head timeo_assigned;
  if first =? 0 then
    r ← on_kern (tls_arch_mbox_fetch mbox 0);
    m ← must (snd r);
    mret (inr m)
  else
    f ← load first;
    r ← (if 0 <? time f then on_kern (tls_arch_mbox_fetch mbox (time f)) else mret (SYS_ARCH_TIMEOUT, None));
    after_fetch timeo_assigned first r.

Definition tls_timeouts_mbox_fetch_p (fuel : nat) (timeo_assigned mbox : Z) : M st msg_ptr :=
  mloop fuel (fun _ => fetch_body timeo_assigned mbox) tt.

(** ** The task *)

(** The [switch] of [task_thread]. *)
Definition serve_msg (timeo_assigned : Z) (p : msg_ptr) : M st unit :=
  msg ← on_kern (read_msg p);
  match type msg with
  | TASK_MSG_CALLBACK =>
      call timeo_assigned (cb_function msg) (cb_ctx msg) ;;
      on_kern (free_msg p)
  | TASK_MSG_CALLBACK_STATIC =>
      on_kern (update_msg p (fun m => set_cnt (cbs_cnt m - 1) m)) ;;
      call timeo_assigned (cbs_function msg) (cbs_ctx msg)
  | TASK_MSG_TIMEOUT =>
      tls_timeout_p timeo_assigned (tmo_msecs msg) (tmo_h msg) (tmo_arg msg) ;;
      on_kern (free_msg p)
  | TASK_MSG_UNTIMEOUT =>
      tls_untimeout_p timeo_assigned (tmo_h msg) (tmo_arg msg) ;;
      on_kern (free_msg p)
  | _ => mret tt
  end.

(** One round of the main loop of [task_thread]. *)
Definition task_thread (fuel : nat) (tp : task_parameter) : M st unit :=
  mbox ← on_kern (mbox_of tp);
  p ← tls_timeouts_mbox_fetch_p fuel (timeo_id tp) mbox;
  serve_msg (timeo_id tp) p.

End timers.
