(* ===== verification/WlSched.v ===== *)
(** * The timers of a work-queue task, abstractly

    What a task's list of timeouts means: entries in the order in which they
    fall due, each with the time left; entries that fall due together in the
    order in which they were started.  The operations of [wm_wl_timers.c] on
    this view, with a record of the handlers called; [WlTimersSpec] proves
    that the code does the same.  Each entry also remembers when and with
    what delay it was started, and how many others have expired since. *)
From S2P Require Import Prelude CMonad HostEnv WlMbox WlTimers.

(** [blk]: the block; [due]: milliseconds left; [born]: the tick at which it
    was started, with a delay of [span]; [passed]: expiries since then. *)
Record entry := Entry { blk : Z; due : Z; fn : Z; ctx : Z; born : Z; span : Z; passed : Z }.

(** Less time left, and one more expiry. *)
Definition sooner (d : Z) (e : entry) : entry := Entry (blk e) (due e - d) (fn e) (ctx e) (born e) (span e) (passed e).
Definition overtaken (d : Z) (e : entry) : entry :=
  Entry (blk e) (due e - d) (fn e) (ctx e) (born e) (span e) (passed e + 1).

(** Behind the entries that are due no later. *)
Fixpoint place (e : entry) (l : list entry) : list entry :=
  match l with
  | [] => [e]
  | x :: l => if due e <? due x then e :: x :: l else x :: place e l
  end.

(** The first entry for [f(a)], and the others. *)
Fixpoint pick (f a : Z) (l : list entry) : option (entry * list entry) :=
  match l with
  | [] => None
  | x :: l =>
      if (fn x =? f) && (ctx x =? a) then Some (x, l)
      else match pick f a l with Some (e, l) => Some (e, x :: l) | None => None end
  end.

(** A handler called at a tick. *)
Record fire := Fire { f_line : Z; f_entry : entry; f_tick : Z }.

Record asys (E W : Type) := Asys {
  akern : kst E W;
  lines : list (list entry);
  fired : list fire
}.
Arguments Asys {E W}.
Arguments akern {E W}.
Arguments lines {E W}.
Arguments fired {E W}.

Section sched.
Context {E W : Type} `{Host E} `{World W}.
Abbreviation ast := (asys E W).

Definition now (t : ast) : Z := w_ticks (world (akern t)).

Definition on_akern {A} : M (kst E W) A -> M ast A := zoom akern (fun k t => Asys k (lines t) (fired t)).
Definition line (id : Z) : M ast (list entry) := ls ← gets lines; must (ls !! Z.to_nat id).
Definition set_line (id : Z) (l : list entry) : M ast unit := modify (fun t =>
  Asys (akern t) (<[Z.to_nat id := l]> (lines t)) (fired t)).
Definition release (e : entry) : M ast unit := on_akern (on_host (fun h => (tt, h_free (blk e) h))).

Definition start (id msecs f a : Z) : M ast unit :=
  b ← on_akern (on_host (h_alloc sizeof_timeo));
  match b with
  | None => mret tt
  | Some (p, _) =>
      tick ← gets now;
      l ← line id;
      set_line id (place (Entry p (u32 msecs) f a tick (u32 msecs) 0) l)
  end.

Definition cancel (id f a : Z) : M ast unit :=
  l ← line id;
  match pick f a l with
  | None => mret tt
  | Some (e, l) => set_line id l ;; release e
  end.

Definition do_wop (id : Z) (o : wop) : M ast unit :=
  match o with
  | Arm msecs f a => start id msecs f a
  | Disarm f a => cancel id f a
  | Client c => on_akern (run_client c) ;; mret tt
  end.
Fixpoint do_wops (id : Z) (os : list wop) : M ast unit :=
  match os with [] => mret tt | o :: os => do_wop id o ;; do_wops id os end.
Definition do_call (id f a : Z) : M ast unit :=
  if f =? 0 then stuck else os ← on_akern (on_world (w_call f a)); do_wops id os.

(** The first entry [e] falls due; [rest] are the others. *)
Definition expire (id : Z) (e : entry) (rest : list entry) : M ast unit :=
  set_line id (overtaken (due e) <$> rest) ;;
  release e ;;
  modify (fun t => Asys (akern t) (lines t) (fired t ++ [Fire id e (now t)])) ;;
  if negb (fn e =? 0) then do_call id (fn e) (ctx e) else mret tt.

Definition after_wait (id : Z) (e : entry) (rest : list entry) (r : Z * option msg_ptr) : M ast (unit + msg_ptr) :=
  let '(waited, msg) := r in
  if waited =? SYS_ARCH_TIMEOUT then expire id e rest ;; mret (inl tt)
  else set_line id (sooner (waited `min` due e) <$> e :: rest) ;; m ← must msg; mret (inr m).

(** One round of waiting. *)
Definition wait_round (id mbox : Z) : M ast (unit + msg_ptr) :=
  l ← line id;
  match l with
  | [] => r ← on_akern (tls_arch_mbox_fetch mbox 0); m ← must (snd r); mret (inr m)
  | e :: rest =>
      r ← (if 0 <? due e then on_akern (tls_arch_mbox_fetch mbox (due e)) else mret (SYS_ARCH_TIMEOUT, None));
      after_wait id e rest r
  end.
Definition wait (fuel : nat) (id mbox : Z) : M ast msg_ptr := mloop fuel (fun _ => wait_round id mbox) tt.

Definition serve (id : Z) (p : msg_ptr) : M ast unit :=
  msg ← on_akern (read_msg p);
  match type msg with
  | TASK_MSG_CALLBACK => do_call id (cb_function msg) (cb_ctx msg) ;; on_akern (free_msg p)
  | TASK_MSG_CALLBACK_STATIC =>
      on_akern (update_msg p (fun m => set_cnt (cbs_cnt m - 1) m)) ;; do_call id (cbs_function msg) (cbs_ctx msg)
  | TASK_MSG_TIMEOUT => start id (tmo_msecs msg) (tmo_h msg) (tmo_arg msg) ;; on_akern (free_msg p)
  | TASK_MSG_UNTIMEOUT => cancel id (tmo_h msg) (tmo_arg msg) ;; on_akern (free_msg p)
  | _ => mret tt
  end.

Definition task (fuel : nat) (tp : task_parameter) : M ast unit :=
  mbox ← on_akern (mbox_of tp);
  p ← wait fuel (timeo_id tp) mbox;
  serve (timeo_id tp) p.

End sched.
