(* ===== verification/WlTimersSpec.v ===== *)
(** * The code of the timers does what the schedule says

    [reps s t]: the pointer structures of [s] represent the schedule [t] -
    every one of the nine lists is a chain of blocks with relative delays, no
    block is in two places or is a message, and every block of a timer is in
    a list.  The operations of [wm_wl_timers.c] and the task's loop simulate
    those of [WlSched]. *)
From S2P Require Import Prelude CMonad Keeps Simul HostEnv WlMbox WlTimers WlSched.

(** The primitive steps, unfolded. *)
Ltac run_code :=
  unfold read_msg, write_msg, set_wl_msg, set_hmsgs, on_host, zoom, modify, gets, must, stuck, mbind, M_bind, mret, M_ret; cbn.

(** ** Blocks on the heap *)

(** The blocks [T] of the timers and those of the messages are in use, and
    are not the same. *)
Definition blocks_ok {E W} `{HostBlocks E} (T : gset Z) (k : kst E W) : Prop :=
  exists B, h_blocks (host k) B /\ T ⊆ B /\ dom (hmsgs k) ⊆ B /\ T ## dom (hmsgs k).

Definition keeps_blocks {E W} `{HostBlocks E} (k k' : kst E W) : Prop := forall T, blocks_ok T k -> blocks_ok T k'.

#[export] Instance keeps_blocks_preorder {E W} `{HostBlocks E} : PreOrder (keeps_blocks (E := E) (W := W)).
Proof. split; [by intros k T|]. intros a b c H1 H2 T HT. by apply H2, H1. Qed.

Section kernel.
Context {E W : Type} `{HostLaws E} `{!HostBlocks E} `{World W}.
Abbreviation st := (kst E W).
Abbreviation kb := (keeps_blocks (E := E) (W := W)).

Lemma keeps_must {A} (o : option A) : keeps kb (must o).
Proof. unfold must. keep. Qed.

Lemma keeps_world {A} (f : W -> A * W) : keeps kb (on_world f).
Proof. apply keeps_zoom. by intros k w T. Qed.

Lemma keeps_read p : keeps kb (read_msg p).
Proof.
  destruct p; cbn [read_msg]; unfold must; keep.
Qed.

Lemma keeps_update p f : keeps kb (update_msg p f).
Proof.
  intros k x k'. unfold update_msg. destruct p as [|i|a]; [done| |]; run_code.
  - destruct (wl_msg k !! Z.to_nat i) as [m|]; run_code; [|done]. by intros [= _ <-] T.
  - destruct (hmsgs k !! a) as [m|] eqn:Ea; run_code; [|done]. intros [= _ <-] T (B & HB & HT & Hm & Hd). exists B. cbn.
    assert (Hdom : dom (<[a := f m]> (hmsgs k)) = dom (hmsgs k)).
    { rewrite dom_insert_L. apply subseteq_union_1_L, singleton_subseteq_l, elem_of_dom. by eexists. }
    by rewrite Hdom.
Qed.

Lemma keeps_alloc_msg : keeps kb alloc_msg.
Proof.
  intros k x k'. unfold alloc_msg. run_code.
  destruct (h_alloc sizeof_task_msg (host k)) as [[[p l]|] e] eqn:Ea; intros [= <- <-] T (B & HB & HT & Hm & Hd); cbn.
  - destruct (h_alloc_some _ _ sizeof_task_msg p l e ltac:(done) HB Ea) as [Hp HB']. exists ({[p]} ∪ B). cbn.
    rewrite dom_insert_L. split; [done|]. set_solver.
  - exists B. split; [by eapply (h_alloc_none _ _ sizeof_task_msg)|done].
Qed.

Lemma keeps_free_msg p : keeps kb (free_msg p).
Proof.
  destruct p as [|i|a]; [apply keeps_stuck|apply keeps_stuck|].
  intros k x k'. unfold free_msg. run_code.
  destruct (hmsgs k !! a) as [m|] eqn:Ea; run_code; [|done]. intros [= _ <-] T (B & HB & HT & Hm & Hd). exists (B ∖ {[a]}). cbn.
  assert (Ha : a ∈ dom (hmsgs k)) by (apply elem_of_dom; by eexists).
  split; [apply h_free_blocks; [done|set_solver]|]. rewrite dom_delete_L. set_solver.
Qed.

#[local] Hint Resolve keeps_must keeps_world keeps_read keeps_update keeps_alloc_msg keeps_free_msg : keeps.

Lemma keeps_fetch mbox timeout : keeps kb (tls_arch_mbox_fetch mbox timeout).
Proof. unfold tls_arch_mbox_fetch, tls_os_get_time. keep. Qed.

Lemma keeps_post mbox p : keeps kb (tls_mbox_post mbox p).
Proof. unfold tls_mbox_post. keep. Qed.

#[local] Hint Resolve keeps_post : keeps.

Lemma keeps_client c : keeps kb (run_client c).
Proof.
  destruct c; cbn [run_client];
    unfold tls_wl_task_callback, tls_wl_task_callback_static, tls_wl_task_add_timeout, tls_wl_task_untimeout, mbox_of, tls_mbox_trypost;
    keep.
Qed.
End kernel.

#[export] Hint Resolve keeps_must keeps_world keeps_read keeps_update keeps_alloc_msg keeps_free_msg keeps_fetch keeps_client : keeps.

(** ** Chains of entries *)

(** From [p]: the entries [l], each with its delay relative to the one before
    it, the first to [base]. *)
Fixpoint chain (m : gmap Z tls_timeo) (base p : Z) (l : list entry) : Prop :=
  match l with
  | [] => p = 0
  | e :: l =>
      p = blk e /\ p <> 0 /\ base <= due e < 2 ^ 32 /\
      exists n, m !! p = Some (Timeo n (due e - base) (fn e) (ctx e)) /\ chain m (due e) n l
  end.

Abbreviation blocks l := (blk <$> l).

Section chain.
Implicit Types m : gmap Z tls_timeo.
Implicit Types l : list entry.

Lemma chain_frame m m' base p l :
  (forall q, q ∈ blocks l -> m' !! q = m !! q) -> chain m base p l -> chain m' base p l.
Proof.
  revert base p. induction l as [|e l IH]; intros base p Hf; [done|].
  intros (-> & Hp & Hd & n & Hm & Hc). do 3 (split; [done|]). exists n. rewrite Hf by left. split; [done|].
  apply IH; [|done]. intros q Hq. apply Hf. by right.
Qed.

Lemma chain_map (f : entry -> entry) d m base p l :
  (forall e, blk (f e) = blk e /\ fn (f e) = fn e /\ ctx (f e) = ctx e /\ due (f e) = due e - d) ->
  0 <= d -> chain m base p l -> chain m (base - d) p (f <$> l).
Proof.
  intros Hf Hd. revert base p. induction l as [|e l IH]; intros base p; [done|].
  intros (-> & Hp & Hb & n & Hm & Hc). simpl. destruct (Hf e) as (-> & -> & -> & ->).
  split; [done|]. split; [done|]. split; [lia|]. exists n. split; [rewrite Hm; do 2 f_equal; lia|]. by apply IH.
Qed.

Lemma blocks_place e l : blocks (place e l) ≡ₚ blk e :: blocks l.
Proof.
  induction l as [|x l IH]; [done|]. simpl. destruct (due e <? due x); [done|]. simpl. rewrite IH. apply Permutation_swap.
Qed.

Lemma chain_in m base p l q : chain m base p l -> q ∈ blocks l -> is_Some (m !! q).
Proof.
  revert base p. induction l as [|e l IH]; intros base p; [by intros _ ?%elem_of_nil|].
  intros (-> & _ & _ & n & Hm & Hc). intros [->|Hq]%elem_of_cons; [by eexists|]. by eapply IH.
Qed.

Lemma chain_nonzero m base p l q : chain m base p l -> q ∈ blocks l -> q <> 0.
Proof.
  revert base p. induction l as [|e l IH]; intros base p; [by intros _ ?%elem_of_nil|].
  intros (-> & He0 & _ & n & Hm & Hc). intros [->|Hq]%elem_of_cons; [done|]. by eapply IH.
Qed.
End chain.

(** Look-ups in updated maps. *)
Ltac lookups :=
  repeat first [rewrite lookup_insert_eq | rewrite lookup_insert_ne by congruence
    | rewrite lookup_delete_eq | rewrite lookup_delete_ne by congruence]; try done.

(** ** The three places where the code works on a chain *)

Section code.
Context {E W : Type} `{HostLaws E} `{!HostBlocks E} `{World W}.
Implicit Types s : wl E W.
Implicit Types l : list entry.

Lemma wp_load p t k m hd (Q : tls_timeo -> wl E W -> Prop) :
  m !! p = Some t -> Q t (Wl k m hd) -> wp (load p) (Wl k m hd) Q.
Proof. intros Ht HQ. apply wp_bind, wp_gets. by eapply wp_must. Qed.

Lemma wp_update p t t' f k m hd (Q : unit -> wl E W -> Prop) :
  m !! p = Some t -> f t = t' -> Q tt (Wl k (<[p := t']> m) hd) -> wp (update p f) (Wl k m hd) Q.
Proof. intros Ht <- HQ. apply wp_bind. eapply wp_load; [done|]. by apply wp_modify. Qed.

(** Going from [x] to the next entry. *)
Lemma insert_pass e base x n k m hd (Q : Z + unit -> wl E W -> Prop) :
  m !! blk x = Some (Timeo n (due x - base) (fn x) (ctx x)) -> blk x <> 0 -> blk e <> blk x -> n <> 0 ->
  m !! blk e = Some (Timeo 0 (due e - base) (fn e) (ctx e)) -> 0 <= due x -> due x <= due e < 2 ^ 32 ->
  forall y n', m !! n = Some (Timeo n' (due y - due x) (fn y) (ctx y)) -> n <> blk e -> due y <= due e ->
  Q (inl n) (Wl k (<[blk e := Timeo 0 (due e - due x) (fn e) (ctx e)]> m) hd) ->
  wp (insert_body (blk e) (blk x)) (Wl k m hd) Q.
Proof.
  intros Hx Hx0 Hnx Hn0 He Hd0 Hd y n' Hy Hne Hdy HQ. unfold insert_body. rewrite (proj2 (Z.eqb_neq _ _)) by done.
  apply wp_bind. eapply wp_load; [done|]. apply wp_bind. eapply wp_update; [done| |].
  { unfold with_time. cbn. rewrite wrap_id by lia. replace (due e - base - (due x - base)) with (due e - due x) by lia. done. }
  apply wp_bind. eapply wp_load; [lookups|]. cbn. rewrite (proj2 (Z.eqb_neq _ _)) by done. apply wp_bind, wp_bind.
  eapply wp_load; [by lookups|]. apply wp_ret. cbn. rewrite (proj2 (Z.ltb_ge _ _)) by lia. by apply wp_ret.
Qed.

Lemma dom_update {A} (m : gmap Z A) p t : is_Some (m !! p) -> dom (<[p := t]> m) = dom m.
Proof using. intros Hp. rewrite dom_insert_L. by apply subseteq_union_1_L, singleton_subseteq_l, elem_of_dom. Qed.

(** Linking [e] behind [x]. *)
Lemma insert_here e base x n k m hd (Q : Z + unit -> wl E W -> Prop) :
  m !! blk x = Some (Timeo n (due x - base) (fn x) (ctx x)) -> blk x <> 0 -> blk e <> 0 -> blk e <> blk x ->
  m !! blk e = Some (Timeo 0 (due e - base) (fn e) (ctx e)) -> 0 <= base <= due x -> due x <= due e < 2 ^ 32 ->
  forall l, chain m (due x) n l -> (forall y, head l = Some y -> due e < due y) -> (blk e ∉ blocks l) -> (blk x ∉ blocks l) ->
  NoDup (blocks l) ->
  (forall m', chain m' base (blk x) (x :: e :: l) -> (forall q, q ∉ blk e :: blk x :: blocks l -> m' !! q = m !! q) ->
     dom m' = dom m -> Q (inr tt) (Wl k m' hd)) ->
  wp (insert_body (blk e) (blk x)) (Wl k m hd) Q.
Proof.
  intros Hx Hx0 He0 Hnx He Hd0 Hd l Hc Hlt Hel Hxl Hnd HQ. unfold insert_body. rewrite (proj2 (Z.eqb_neq _ _)) by done.
  apply wp_bind. eapply wp_load; [done|]. apply wp_bind. eapply wp_update; [done| |].
  { unfold with_time. cbn. rewrite wrap_id by lia. replace (due e - base - (due x - base)) with (due e - due x) by lia. done. }
  apply wp_bind. eapply wp_load; [lookups|]. cbn.
  destruct l as [|y l]; cbn in Hc.
  - subst n. apply wp_bind, wp_ret, wp_bind, wp_ret. apply wp_bind. eapply wp_load; [by lookups|].
    apply wp_bind. eapply wp_update; [by lookups|done|]. apply wp_bind. eapply wp_update; [by lookups|done|]. apply wp_ret, HQ.
    + cbn. split; [done|]. split; [done|]. split; [lia|]. eexists. split; [by lookups|]. split; [done|].
      split; [done|]. split; [lia|]. eexists. split; [by lookups|done].
    + intros q [Hqe [Hqx _]%not_elem_of_cons]%not_elem_of_cons. lookups.
    + rewrite !dom_update; lookups; by eexists.
  - destruct Hc as (-> & Hy0 & Hdy & n' & Hy & Hc). specialize (Hlt y eq_refl).
    apply not_elem_of_cons in Hel as [Hey Hel], Hxl as [Hxy Hxl]. apply NoDup_cons in Hnd as [Hyl Hnd].
    rewrite (proj2 (Z.eqb_neq _ _)) by done. apply wp_bind, wp_bind. eapply wp_load; [by lookups|]. apply wp_ret. cbn.
    rewrite (proj2 (Z.ltb_lt _ _)) by lia. apply wp_bind. eapply wp_update; [by lookups| |].
    { unfold with_time. cbn. rewrite wrap_id by lia. replace (due y - due x - (due e - due x)) with (due y - due e) by lia. done. }
    apply wp_bind. eapply wp_load; [by lookups|].
    apply wp_bind. eapply wp_update; [by lookups|done|]. apply wp_bind. eapply wp_update; [by lookups|done|]. apply wp_ret, HQ.
    + cbn. split; [done|]. split; [done|]. split; [lia|]. eexists. split; [by lookups|]. split; [done|].
      split; [done|]. split; [lia|]. eexists. split; [by lookups|]. split; [done|]. split; [done|]. split; [lia|].
      eexists. split; [by lookups|]. eapply chain_frame; [|done]. intros q Hq.
      assert (q <> blk x /\ q <> blk e /\ q <> blk y) as (? & ? & ?) by (split_and!; by intros ->). lookups.
    + intros q [Hqe [Hqx [Hqy _]%not_elem_of_cons]%not_elem_of_cons]%not_elem_of_cons. lookups.
    + rewrite !dom_update; lookups; by eexists.
Qed.

Lemma insert_loop e base x l k m hd fuel (Q : unit -> wl E W -> Prop) :
  chain m base (blk x) (x :: l) -> NoDup (blocks (x :: l)) -> blk e <> 0 -> (blk e ∉ blocks (x :: l)) ->
  m !! blk e = Some (Timeo 0 (due e - base) (fn e) (ctx e)) -> 0 <= base -> due x <= due e < 2 ^ 32 ->
  (length l < fuel)%nat ->
  (forall m', chain m' base (blk x) (place e (x :: l)) -> (forall q, q ∉ blk e :: blocks (x :: l) -> m' !! q = m !! q) ->
     dom m' = dom m -> Q tt (Wl k m' hd)) ->
  wp (mloop fuel (insert_body (blk e)) (blk x)) (Wl k m hd) Q.
Proof.
  revert base x m fuel. induction l as [|y l IH]; intros base x m fuel Hc Hnd He0 Hel He Hb Hd Hfuel HQ;
    (destruct fuel as [|fuel]; [lia|]); cbn [mloop]; apply wp_bind;
    destruct Hc as (_ & Hx0 & Hdb & n & Hx & Hc); apply not_elem_of_cons in Hel as [Hex Hel]; apply NoDup_cons in Hnd as [Hxl Hnd].
  - eapply insert_here; try done; try lia. intros m' Hc' Hf Hdom. apply wp_ret, HQ; [|done|done].
    cbn [place]. by rewrite (proj2 (Z.ltb_ge _ _)) by lia.
  - destruct (Z.ltb_spec (due e) (due y)) as [Hlt|Hge].
    + eapply insert_here; try done; try lia; [by intros ? [= <-]|]. intros m' Hc' Hf Hdom. apply wp_ret, HQ; [|done|done].
      cbn [place]. by rewrite (proj2 (Z.ltb_ge _ _)), (proj2 (Z.ltb_lt _ _)) by lia.
    + pose proof Hc as (-> & Hy0 & Hdy & n' & Hy & Hc'). assert (Hey : blk e <> blk y) by (intros E1; apply Hel, elem_of_cons; by left).
      eapply insert_pass; try done; try lia.
      eapply (IH (due x)); try done; try lia.
      * eapply chain_frame; [|done]. intros q Hq. assert (blk e <> q) by (by intros <-). lookups.
      * by lookups.
      * cbn in Hfuel. lia.
      * intros m' Hp Hf Hdom. rewrite dom_update in Hdom by (by eexists). apply HQ; [| |done].
        -- cbn [place]. rewrite (proj2 (Z.ltb_ge _ _)) by lia. split; [done|]. split; [done|]. split; [lia|].
           exists (blk y). split; [|exact Hp]. rewrite Hf by (apply not_elem_of_cons; split; [congruence|done]). by lookups.
        -- intros q [Hqe [_ Hq]%not_elem_of_cons]%not_elem_of_cons. rewrite Hf by (apply not_elem_of_cons; split; done). lookups.
Qed.

(** ** [tls_timeout_p] *)

Lemma link_spec id e k m hd p l (Q : unit -> wl E W -> Prop) :
  hd !! Z.to_nat id = Some p -> chain m 0 p l -> NoDup (blocks l) -> blk e <> 0 -> (blk e ∉ blocks l) -> is_Some (m !! blk e) ->
  0 <= due e < 2 ^ 32 -> (length l <= size m)%nat ->
  (forall m' p', chain m' 0 p' (place e l) -> (forall q, q ∉ blk e :: blocks l -> m' !! q = m !! q) -> dom m' = dom m ->
     Q tt (Wl k m' (<[Z.to_nat id := p']> hd))) ->
  wp (link_timeo id (blk e) (due e) (fn e) (ctx e)) (Wl k m hd) Q.
Proof.
  intros Hid Hc Hnd He0 Hel [t0 He] Hd Hsize HQ. unfold link_timeo, get_head.
  apply wp_bind. eapply wp_update; [done|done|]. apply wp_bind, wp_bind, wp_gets. eapply wp_must; [done|].
  destruct l as [|x l].
  - cbn in Hc. subst p. apply wp_modify. cbn. apply HQ.
    + cbn. split; [done|]. split; [done|]. split; [lia|]. eexists. split; [|done]. rewrite Z.sub_0_r. by lookups.
    + intros q [Hq _]%not_elem_of_cons. by lookups.
    + by rewrite dom_update by (by eexists).
  - pose proof Hc as (-> & Hx0 & Hdx & n & Hx & Hc'). rewrite (proj2 (Z.eqb_neq _ _)) by done.
    assert (Hex : blk e <> blk x) by (intros E1; apply Hel, elem_of_cons; by left).
    apply wp_bind. eapply wp_load; [by lookups|]. cbn [time]. rewrite Z.sub_0_r in Hx |- *.
    destruct (Z.ltb_spec (due e) (due x)) as [Hlt|Hge].
    + apply wp_bind. eapply wp_update; [by lookups| |].
      { unfold with_time. cbn. by rewrite wrap_id by lia. }
      apply wp_bind. eapply wp_update; [by lookups|done|]. apply wp_modify. cbn. apply HQ.
      * cbn [place]. rewrite (proj2 (Z.ltb_lt _ _)) by done. cbn. split; [done|]. split; [done|]. split; [lia|]. rewrite Z.sub_0_r.
        eexists. split; [by lookups|]. split; [done|]. split; [done|]. split; [lia|]. eexists. split; [by lookups|].
        eapply chain_frame; [|done]. intros q Hq. 
        assert (blk x <> q /\ blk e <> q) as [? ?].
        { apply NoDup_cons in Hnd as [Hxl _]. split; intros <-; [done|]. apply Hel. by right. }
        lookups.
      * intros q [Hq [Hqx _]%not_elem_of_cons]%not_elem_of_cons. by lookups.
      * rewrite !dom_update; lookups; by eexists.
    + apply wp_bind, wp_gets, (insert_loop e 0 x l); try done; try lia.
      * eapply chain_frame; [|done]. intros q Hq. assert (blk e <> q) by (by intros <-). lookups.
      * rewrite Z.sub_0_r. by lookups.
      * cbn [timeos]. rewrite map_size_insert_Some by done. cbn in *. lia.
      * intros m' Hp Hf Hdom. rewrite dom_update in Hdom by (by eexists).
        replace hd with (<[Z.to_nat id := blk x]> hd) by (by apply list_insert_id). apply HQ; [done| |done].
        intros q Hq. rewrite Hf by done. apply not_elem_of_cons in Hq as [Hq _]. lookups.
Qed.

(** ** [tls_untimeout_p] *)

Lemma with_next_same t : with_next (next t) t = t.
Proof using. by destruct t. Qed.

(** The kernel's state once the block is given back. *)
Definition freed (p : Z) (k : kst E W) : kst E W := Kst (h_free p (host k)) (world k) (task_mbox k) (hmsgs k) (wl_msg k).

Lemma wp_free p t k m hd (Q : unit -> wl E W -> Prop) :
  m !! p = Some t -> Q tt (Wl (freed p k) (delete p m) hd) -> wp (free_timeo p) (Wl k m hd) Q.
Proof. intros Ht HQ. apply wp_bind. eapply wp_load; [done|]. apply wp_bind, wp_modify, wp_zoom. exact HQ. Qed.

(** Taking out the entry [e]. *)
Lemma remove_first id f a base prev e l k m hd (Q : (Z * Z) + unit -> wl E W -> Prop) :
  chain m base (blk e) (e :: l) -> NoDup (blocks (e :: l)) -> 0 <= base -> fn e = f -> ctx e = a ->
  (prev = 0 \/ is_Some (m !! prev) /\ (prev ∉ blocks (e :: l))) ->
  (forall m' t', chain m' base t' l -> (forall q, q <> prev -> (q ∉ blocks (e :: l)) -> m' !! q = m !! q) ->
     dom m' = dom m ∖ {[blk e]} -> (prev <> 0 -> m' !! prev = with_next t' <$> m !! prev) ->
     Q (inr tt) (Wl (freed (blk e) k) m' (if prev =? 0 then <[Z.to_nat id := t']> hd else hd))) ->
  wp (remove_body id f a (blk e, prev)) (Wl k m hd) Q.
Proof.
  intros Hall Hnd Hb <- <- Hprev HQ. pose proof Hall as (_ & He0 & Hde & n & He & Hc). apply NoDup_cons in Hnd as [Hel Hnd].
  unfold remove_body. rewrite (proj2 (Z.eqb_neq _ _)) by done. apply wp_bind. eapply wp_load; [done|]. cbn.
  rewrite !Z.eqb_refl. cbn.
  set (m1 := if prev =? 0 then m else match m !! prev with Some t => <[prev := with_next n t]> m | None => m end).
  set (hd1 := if prev =? 0 then <[Z.to_nat id := n]> hd else hd).
  assert (Hm1 : forall q, q <> prev -> m1 !! q = m !! q).
  { intros q Hq. unfold m1. destruct (prev =? 0); [done|]. destruct (m !! prev); lookups. }
  assert (Hdom : dom m1 = dom m).
  { unfold m1. destruct (prev =? 0); [done|]. destruct (m !! prev) eqn:Ep; [|done]. apply dom_update. by eexists. }
  assert (Hprev1 : prev <> 0 -> m1 !! prev = with_next n <$> m !! prev).
  { intros Hp0. unfold m1. rewrite (proj2 (Z.eqb_neq _ _)) by done. destruct (m !! prev) eqn:Ep; cbn; lookups. }
  assert (Hin : forall q, q ∈ blocks (e :: l) -> q <> prev).
  { intros q Hq ->. destruct Hprev as [->|[_ Hp]]; [by apply (chain_nonzero _ _ _ _ _ Hall Hq)|]. by apply Hp. }
  apply wp_bind, (wp_mono _ _ (fun _ s' => s' = Wl k m1 hd1)).
  { unfold m1, hd1. destruct (Z.eqb_spec prev 0) as [|Hp0]; [by apply wp_modify|].
    destruct Hprev as [|[[t Ht] _]]; [done|]. eapply wp_update; [done|done|]. by rewrite Ht. }
  intros _ s' ->. apply wp_bind. assert (Hep : blk e <> prev) by (apply Hin, elem_of_cons; by left).
  destruct l as [|y l].
  - cbn in Hc. subst n. apply wp_ret, wp_bind. eapply wp_free; [by rewrite Hm1|]. apply wp_ret, HQ.
    + done.
    + intros q Hqp [Hqe _]%not_elem_of_cons. lookups. by apply Hm1.
    + by rewrite dom_delete_L, Hdom.
    + intros Hp0. lookups. by apply Hprev1.
  - pose proof Hc as (-> & Hy0 & Hdy & n' & Hy & Hc'). rewrite (proj2 (Z.eqb_neq _ _)) by done.
    assert (Hyp : blk y <> prev) by (apply Hin, elem_of_cons; right; apply elem_of_cons; by left).
    assert (Hye : blk y <> blk e) by (intros E1; apply Hel, elem_of_cons; by left).
    eapply wp_update; [by rewrite Hm1| |].
    { unfold with_time. cbn. rewrite wrap_id by lia. by replace (due y - due e + (due e - base)) with (due y - base) by lia. }
    apply wp_bind. eapply wp_free; [lookups; by rewrite Hm1|]. apply wp_ret, HQ.
    + split; [done|]. split; [done|]. split; [lia|]. exists n'. split; [by lookups|]. eapply chain_frame; [|done].
      intros q Hq. apply NoDup_cons in Hnd as [Hyl _].
      assert (q <> blk e /\ q <> blk y) as [? ?] by (split; intros ->; [apply Hel; by right|done]). lookups. apply Hm1, Hin.
      right. by right.
    + intros q Hqp [Hqe [Hqy _]%not_elem_of_cons]%not_elem_of_cons. lookups. by apply Hm1.
    + rewrite dom_delete_L, dom_update, Hdom by (rewrite Hm1 by done; by eexists). done.
    + intros Hp0. lookups. by apply Hprev1.
Qed.

Lemma remove_loop id f a base t prev l k m hd fuel (Q : unit -> wl E W -> Prop) :
  chain m base t l -> NoDup (blocks l) -> 0 <= base -> (length l < fuel)%nat ->
  (if prev =? 0 then hd !! Z.to_nat id = Some t
   else exists x, m !! prev = Some x /\ next x = t /\ (prev ∉ blocks l)) ->
  match pick f a l with
  | None => Q tt (Wl k m hd)
  | Some (e, l') => forall m' t', chain m' base t' l' -> (forall q, q <> prev -> (q ∉ blocks l) -> m' !! q = m !! q) ->
      dom m' = dom m ∖ {[blk e]} -> (prev <> 0 -> m' !! prev = with_next t' <$> m !! prev) ->
      Q tt (Wl (freed (blk e) k) m' (if prev =? 0 then <[Z.to_nat id := t']> hd else hd))
  end ->
  wp (mloop fuel (remove_body id f a) (t, prev)) (Wl k m hd) Q.
Proof.
  revert base t prev fuel Q. induction l as [|e l IH]; intros base t prev fuel Q Hc Hnd Hb Hfuel Hprev HQ;
    (destruct fuel as [|fuel]; [lia|]); cbn [mloop]; apply wp_bind.
  - cbn in Hc. subst t. unfold remove_body. cbn. by apply wp_ret, wp_ret.
  - pose proof Hc as (-> & He0 & Hde & n & He & Hc'). cbn [pick] in HQ.
    destruct ((fn e =? f) && (ctx e =? a)) eqn:Ef.
    + apply andb_true_iff in Ef as [Ef%Z.eqb_eq Ea%Z.eqb_eq]. eapply remove_first; try done.
      { destruct (Z.eqb_spec prev 0); [by left|]. destruct Hprev as (x & Hx & _ & Hp). right. split; [by eexists|done]. }
    + unfold remove_body at 1. rewrite (proj2 (Z.eqb_neq _ _)) by done. apply wp_bind. eapply wp_load; [done|]. cbn. rewrite Ef.
      apply wp_ret. pose proof Hnd as [Hel Hnd']%NoDup_cons. eapply (IH (due e)); try done; [lia|cbn in Hfuel; lia| |].
      { rewrite (proj2 (Z.eqb_neq _ _)) by done. by eexists. }
      rewrite (proj2 (Z.eqb_neq (blk e) 0)) by done.
      destruct (pick f a l) as [[e1 l1]|]; [|done]. intros m' t' Hc1 Hf Hdom Hnext. specialize (Hnext He0).
      rewrite He in Hnext. cbn in Hnext. assert (Hep : blk e <> prev).
      { intros <-. rewrite (proj2 (Z.eqb_neq _ _)) in Hprev by done. destruct Hprev as (x & _ & _ & Hp). apply Hp. left. }
      replace hd with (if prev =? 0 then <[Z.to_nat id := blk e]> hd else hd)
        by (destruct (prev =? 0); [by apply list_insert_id|done]).
      apply HQ; [do 3 (split; [done|]); by exists t'| |done|].
      * intros q Hqp [Hqe Hq]%not_elem_of_cons. by apply Hf.
      * intros Hp0. rewrite (proj2 (Z.eqb_neq _ _)) in Hprev by done. destruct Hprev as (x & Hx & <- & [_ Hp]%not_elem_of_cons).
        rewrite Hf, Hx by done. cbn. by rewrite with_next_same.
Qed.

Lemma untimeout_spec id f a k m hd p l (Q : unit -> wl E W -> Prop) :
  hd !! Z.to_nat id = Some p -> chain m 0 p l -> NoDup (blocks l) -> (length l <= size m)%nat ->
  match pick f a l with
  | None => Q tt (Wl k m hd)
  | Some (e, l') => forall m' p', chain m' 0 p' l' -> (forall q, q <> 0 -> (q ∉ blocks l) -> m' !! q = m !! q) ->
      dom m' = dom m ∖ {[blk e]} -> Q tt (Wl (freed (blk e) k) m' (<[Z.to_nat id := p']> hd))
  end ->
  wp (tls_untimeout_p id f a) (Wl k m hd) Q.
Proof.
  intros Hid Hc Hnd Hsize HQ. unfold tls_untimeout_p, get_head. apply wp_bind, wp_bind, wp_gets. eapply wp_must; [done|].
  destruct (Z.eqb_spec p 0) as [->|Hp0].
  - destruct l as [|e l]; [|by destruct Hc as (_ & ? & _)]. by apply wp_ret.
  - apply wp_bind, wp_gets, (remove_loop id f a 0 p 0 l); try done; [cbn; lia|].
    destruct (pick f a l) as [[e l']|]; [|done]. intros m' t' Hc' Hf Hdom _. by apply HQ.
Qed.

(** ** Waiting *)

(** The first entry falls due and leaves the chain. *)
Lemma chain_expire m e l n :
  chain m 0 (blk e) (e :: l) -> NoDup (blocks (e :: l)) -> m !! blk e = Some (Timeo n (due e) (fn e) (ctx e)) ->
  chain (delete (blk e) m) 0 n (overtaken (due e) <$> l).
Proof using.
  intros (_ & He0 & Hde & n' & He & Hc) [Hel _]%NoDup_cons He'. rewrite He in He'. injection He' as -> _.
  eapply chain_frame with (m := m).
  - intros q Hq. assert (q <> blk e) by (intros ->; apply Hel; by rewrite <- list_fmap_compose in Hq). lookups.
  - rewrite <- (Z.sub_diag (due e)). apply chain_map; [done|lia|done].
Qed.

(** Less time left for everybody. *)
Lemma chain_sooner m e l n d :
  chain m 0 (blk e) (e :: l) -> NoDup (blocks (e :: l)) -> m !! blk e = Some (Timeo n (due e) (fn e) (ctx e)) ->
  0 <= d <= due e ->
  chain (<[blk e := Timeo n (due e - d) (fn e) (ctx e)]> m) 0 (blk e) (sooner d <$> e :: l).
Proof using.
  intros (_ & He0 & Hde & n' & He & Hc) [Hel _]%NoDup_cons He' Hd. rewrite He in He'. injection He' as -> _.
  split; [done|]. split; [done|]. split; [cbn; lia|]. exists n. split; [rewrite lookup_insert_eq; cbn; by rewrite Z.sub_0_r|].
  eapply chain_frame with (m := m).
  - intros q Hq. assert (blk e <> q) by (intros <-; apply Hel; by rewrite <- list_fmap_compose in Hq). lookups.
  - cbn. apply chain_map; [done|lia|done].
Qed.
End code.
