(* ===== verification/WlRefine.v ===== *)
(** * The work-queue task refines its schedule

    [reps s t]: the pointer structures of [s] represent the schedule [t].
    The operations of the code simulate those of [WlSched], and so does the
    task: a theorem about the schedule is one about the code. *)
From S2P Require Import Prelude CMonad Keeps Simul HostEnv WlMbox WlTimers WlSched WlTimersSpec.

Abbreviation blocks l := (blk <$> l).

(** ** Lists that share no block *)

Lemma concat_at (ls : list (list entry)) i l :
  ls !! i = Some l -> concat ls ≡ₚ l ++ concat (take i ls ++ drop (S i) ls).
Proof.
  intros Hi. rewrite <- (take_drop_middle ls i l Hi) at 1. rewrite !concat_app. simpl.
  rewrite !(assoc _), (Permutation_app_comm l). done.
Qed.

Lemma concat_insert (ls : list (list entry)) i l l' :
  ls !! i = Some l -> concat (<[i := l']> ls) ≡ₚ l' ++ concat (take i ls ++ drop (S i) ls).
Proof.
  intros Hi. pose proof (lookup_lt_Some _ _ _ Hi) as Hlt. rewrite insert_take_drop by done. rewrite !concat_app. simpl.
  rewrite !(assoc _), (Permutation_app_comm l'). done.
Qed.

Lemma in_others (ls : list (list entry)) i j l x :
  ls !! j = Some l -> j <> i -> x ∈ l -> x ∈ concat (take i ls ++ drop (S i) ls).
Proof.
  intros Hj Hij Hx. apply list_elem_of_In, in_concat. exists l. split; [|by apply list_elem_of_In].
  apply list_elem_of_In, elem_of_app. destruct (decide (j < i)%nat).
  - left. apply (list_elem_of_lookup_2 _ j). by rewrite lookup_take_lt.
  - right. apply (list_elem_of_lookup_2 _ (j - S i)). rewrite lookup_drop. rewrite <- Hj. f_equal. lia.
Qed.

Section refine.
Context {E W : Type} `{HostLaws E} `{!HostBlocks E} `{World W}.
Implicit Types s : wl E W.
Implicit Types t : asys E W.
Implicit Types l : list entry.

(** Every block of a timer is in one of the lists, once. *)
Record reps s t : Prop := {
  rp_kern : kern s = akern t;
  rp_chains : Forall2 (chain (timeos s) 0) (next_timeout s) (lines t);
  rp_nodup : NoDup (blocks (concat (lines t)));
  rp_dom q : q ∈ dom (timeos s) <-> q ∈ blocks (concat (lines t));
  rp_blocks : blocks_ok (dom (timeos s)) (kern s)
}.

Lemma reps_line s t i l : reps s t -> lines t !! i = Some l ->
  exists p, next_timeout s !! i = Some p /\ chain (timeos s) 0 p l /\ NoDup (blocks l) /\ (length l <= size (timeos s))%nat /\
    forall q, q ∈ blocks l -> q ∈ dom (timeos s).
Proof.
  intros [Hk Hc Hnd Hd Hb] Hi. destruct (Forall2_lookup_r _ _ _ _ _ Hc Hi) as (p & Hp & Hpc). exists p.
  rewrite (concat_at _ _ _ Hi), fmap_app in Hnd. apply NoDup_app in Hnd as (Hndl & _ & _).
  assert (Hin : forall q, q ∈ blocks l -> q ∈ dom (timeos s)).
  { intros q Hq. apply Hd. rewrite (concat_at _ _ _ Hi), fmap_app. apply elem_of_app. by left. }
  split; [done|]. split; [done|]. split; [done|]. split; [|done].
  rewrite <- size_dom, <- (length_fmap blk l), <- (size_list_to_set (C := gset Z)) by done.
  apply subseteq_size. intros q Hq%elem_of_list_to_set. by apply Hin.
Qed.

Lemma reps_none s t i : reps s t -> lines t !! i = None -> next_timeout s !! i = None.
Proof. intros [_ Hc _ _ _] Hi. apply (proj1 (Forall2_lookup _ _ _)) with (i := i) in Hc. rewrite Hi in Hc. by inversion Hc. Qed.

Lemma reps_update s t i l l' m' p' k' log : reps s t -> lines t !! i = Some l ->
  chain m' 0 p' l' -> NoDup (blocks l') -> (forall q, q ∈ blocks l' -> q ∈ blocks l \/ q ∉ dom (timeos s)) ->
  (forall q, q ∈ dom (timeos s) -> (q ∉ blocks l) -> m' !! q = timeos s !! q) ->
  (forall q, q ∈ dom m' <-> q ∈ blocks l' \/ q ∈ dom (timeos s) /\ q ∉ blocks l) ->
  blocks_ok (dom m') k' ->
  reps (Wl k' m' (<[i := p']> (next_timeout s))) (Asys k' (<[i := l']> (lines t)) log).
Proof.
  intros [Hk Hc Hnd Hd Hb] Hi Hc' Hnd' Hnew Hf Hdom Hb'.
  rewrite (concat_at _ _ _ Hi), fmap_app in Hnd. apply NoDup_app in Hnd as (Hndl & Hdis & Hndo).
  assert (Hoth : forall q, q ∈ blocks (concat (take i (lines t) ++ drop (S i) (lines t))) ->
    q ∈ dom (timeos s) /\ (q ∉ blocks l)).
  { intros q Hq. split; [|intros Hl; by apply (Hdis q)]. apply Hd. rewrite (concat_at _ _ _ Hi), fmap_app.
    apply elem_of_app. by right. }
  split; cbn.
  - done.
  - apply Forall2_lookup. intros j. pose proof (proj1 (Forall2_lookup _ _ _) Hc j) as Hj.
    destruct (decide (j = i)) as [->|Hne].
    + rewrite Hi in Hj. inversion Hj; subst.
      rewrite !list_lookup_insert_eq by (eapply lookup_lt_Some; (exact Hi || (symmetry; eassumption))). by constructor.
    + rewrite !list_lookup_insert_ne by done. destruct (lines t !! j) as [lj|] eqn:Ej; inversion Hj; subst; constructor.
      eapply chain_frame; [|eassumption]. intros q Hq. apply list_elem_of_fmap in Hq as (e & -> & He).
      destruct (Hoth (blk e)) as [? ?]; [apply list_elem_of_fmap_2; by eapply in_others|]. by apply Hf.
  - rewrite (concat_insert _ _ _ _ Hi), fmap_app. apply NoDup_app. split; [done|]. split; [|done].
    intros q Hq Ho. destruct (Hoth q Ho). by destruct (Hnew q Hq).
  - intros q. rewrite (concat_insert _ _ _ _ Hi), fmap_app, elem_of_app, Hdom. split.
    + intros [Hq|[Hq Hl]]; [by left|]. right. apply Hd in Hq. rewrite (concat_at _ _ _ Hi), fmap_app in Hq.
      by apply elem_of_app in Hq as [?|?].
    + intros [Hq|Hq]; [by left|]. right. by apply Hoth.
  - done.
Qed.

(** ** Operations on the kernel's part of the state *)

Lemma sim_kern {A} (m : M (kst E W) A) : keeps keeps_blocks m -> sim reps (on_kern m) (on_akern m).
Proof.
  intros Hm. apply (sim_zoom _ _ _ _ _ _ keeps_blocks); [by intros s t []|done|].
  intros s t p [Hk Hc Hnd Hd Hb] HQ. split; [done|done|done|done|]. cbn. by apply HQ.
Qed.
#[local] Hint Extern 5 (sim _ (on_kern _) (on_akern _)) => apply sim_kern; solve [auto with keeps] : sim.

(** The kernel's state after an allocation. *)
Definition with_host (k : kst E W) (e : E) : kst E W := Kst e (world k) (task_mbox k) (hmsgs k) (wl_msg k).

Lemma start_run id msecs f a k ls log :
  start id msecs f a (Asys k ls log) =
  match h_alloc sizeof_timeo (host k) with
  | (None, e) => Some (tt, Asys (with_host k e) ls log)
  | (Some (p, _), e) =>
      match ls !! Z.to_nat id with
      | Some l => Some (tt, Asys (with_host k e)
          (<[Z.to_nat id := place (Entry p (u32 msecs) f a (w_ticks (world k)) (u32 msecs) 0) l]> ls) log)
      | None => None
      end
  end.
Proof.
  unfold start, on_akern, on_host, line, set_line. run_code. destruct (h_alloc sizeof_timeo (host k)) as [[[p bs]|] e]; cbn; [|done].
  unfold now. cbn. by destruct (ls !! Z.to_nat id).
Qed.

Lemma timeout_run id msecs f a k m hd :
  tls_timeout_p id msecs f a (Wl k m hd) =
  match h_alloc sizeof_timeo (host k) with
  | (None, e) => Some (tt, Wl (with_host k e) m hd)
  | (Some (p, bs), e) =>
      if p =? 0 then Some (tt, Wl (with_host k e)
        (<[p := Timeo (le_val (slice 0 4 bs)) (le_val (slice 4 4 bs)) (le_val (slice 8 4 bs)) (le_val (slice 12 4 bs))]> m) hd)
      else link_timeo id p (u32 msecs) f a (Wl (with_host k e)
        (<[p := Timeo (le_val (slice 0 4 bs)) (le_val (slice 4 4 bs)) (le_val (slice 8 4 bs)) (le_val (slice 12 4 bs))]> m) hd)
  end.
Proof.
  unfold tls_timeout_p, alloc_timeo, set_timeos, on_kern, on_host. run_code.
  destruct (h_alloc sizeof_timeo (host k)) as [[[p bs]|] e]; cbn; [|done]. by destruct (p =? 0).
Qed.

Lemma sim_start id msecs f a : sim reps (tls_timeout_p id msecs f a) (start id msecs f a).
Proof.
  intros s t HR. change (sim_at reps (tls_timeout_p id msecs f a) (start id msecs f a) s t).
  destruct s as [k m hd], t as [k' ls log]. pose proof (rp_kern _ _ HR) as Hk. cbn in Hk. subst k'.
  destruct (rp_blocks _ _ HR) as (B & HB & Hm & Hms & Hdis). cbn in HB, Hm, Hms, Hdis.
  unfold sim_at. rewrite start_run, timeout_run.
  destruct (h_alloc sizeof_timeo (host k)) as [[[p bs]|] e] eqn:Ea.
  - destruct (h_alloc_some _ _ sizeof_timeo p bs e ltac:(done) HB Ea) as [Hp HB'].
    destruct (h_alloc_spec sizeof_timeo _ p bs e ltac:(done) Ea) as (_ & Hp0 & _).
    rewrite (proj2 (Z.eqb_neq _ _)) by done.
    destruct (ls !! Z.to_nat id) as [l|] eqn:El.
    + destruct (reps_line _ _ _ _ HR El) as (p0 & Hp0' & Hc & Hnd & Hsize & Hin). cbn in Hp0', Hc, Hsize, Hin.
      set (en := Entry p (u32 msecs) f a (w_ticks (world k)) (u32 msecs) 0).
      set (m1 := <[p := _]> m). assert (Hpm : m !! p = None) by (apply not_elem_of_dom; set_solver).
      assert (Hpl : p ∉ blocks l) by (intros Hpl%Hin; set_solver).
      assert (Hw : wp (link_timeo id p (u32 msecs) f a) (Wl (with_host k e) m1 hd) (fun _ s' =>
        reps s' (Asys (with_host k e) (<[Z.to_nat id := place en l]> ls) log))).
      { apply (link_spec id en _ _ _ p0 l); try done.
        - eapply chain_frame; [|done]. intros q Hq. unfold m1. assert (p <> q) by (by intros <-). lookups.
        - unfold m1. lookups.
        - apply (wrap_bounds 32). lia.
        - unfold m1. rewrite map_size_insert_None by done. lia.
        - intros m' p' Hc' Hf Hdom.
          assert (Hdom' : dom m' = {[p]} ∪ dom m) by (rewrite Hdom; unfold m1; by rewrite dom_insert_L).
          apply (reps_update _ _ _ _ _ m' p' (with_host k e) log HR El); [done| | | | |].
          + rewrite blocks_place. apply NoDup_cons. done.
          + intros q. rewrite blocks_place. intros [->|Hq]%elem_of_cons; [right; by apply not_elem_of_dom|by left].
          + intros q Hq Hql. cbn in Hq. assert (q <> p) by (intros ->; by apply not_elem_of_dom in Hpm).
            rewrite Hf by (apply not_elem_of_cons; done). unfold m1. by lookups.
          + intros q. rewrite Hdom', blocks_place, elem_of_union, elem_of_singleton, elem_of_cons. cbn [timeos].
            destruct (decide (q ∈ blocks l)); [|naive_solver]. naive_solver.
          + exists ({[p]} ∪ B). rewrite Hdom'. cbn. set_solver. }
      destruct (proj1 (wp_run _ _ _) Hw) as ([] & s' & -> & HR'). done.
    + assert (Hh : hd !! Z.to_nat id = None) by (by apply (reps_none _ _ _ HR)).
      unfold link_timeo, get_head, update, load, set_timeos. run_code. lookups. run_code. by rewrite Hh.
  - split; [done|]. destruct HR as [_ Hc Hnd Hd _]. split; try done. exists B. split; [|done].
    by eapply (h_alloc_none _ _ sizeof_timeo).
Qed.

Lemma pick_perm f a l e l' : pick f a l = Some (e, l') -> l ≡ₚ e :: l'.
Proof using.
  revert e l'. induction l as [|x l IH]; intros e l'; [done|]. cbn. destruct ((fn x =? f) && (ctx x =? a)); [by intros [= <- <-]|].
  destruct (pick f a l) as [[e1 l1]|]; [|done]. intros [= <- <-]. rewrite (IH e1 l1 eq_refl). apply Permutation_swap.
Qed.

(** A block leaves its list and goes back to the heap. *)
Lemma reps_removed k m hd ls log i l e l' m' p' log' : reps (Wl k m hd) (Asys k ls log) -> ls !! i = Some l ->
  blocks l ≡ₚ blk e :: blocks l' -> chain m' 0 p' l' -> (forall q, q <> 0 -> (q ∉ blocks l) -> m' !! q = m !! q) ->
  dom m' = dom m ∖ {[blk e]} ->
  reps (Wl (freed (blk e) k) m' (<[i := p']> hd)) (Asys (freed (blk e) k) (<[i := l']> ls) log').
Proof.
  intros HR Hi Hl Hc Hf Hdom. destruct (reps_line _ _ _ _ HR Hi) as (p0 & Hp0 & Hc0 & Hnd & _ & Hin). cbn in *.
  rewrite Hl in Hnd. apply NoDup_cons in Hnd as [Hel Hnd].
  apply (reps_update (Wl k m hd) (Asys k ls log) i l l' m' p'); try done; cbn.
  - intros q Hq. left. rewrite Hl. by right.
  - intros q Hq Hql. apply Hf; [|done]. intros ->. apply (rp_dom _ _ HR) in Hq. cbn in Hq.
    apply list_elem_of_fmap in Hq as (x & Hx & Hxl). apply list_elem_of_In, in_concat in Hxl as (lx & Hlx & Hxl).
    apply list_elem_of_In, list_elem_of_lookup_1 in Hlx as [j Hj]. destruct (reps_line _ _ _ _ HR Hj) as (px & _ & Hcx & _).
    apply (chain_nonzero _ _ _ _ 0 Hcx); [|done]. rewrite Hx. by apply list_elem_of_fmap_2, list_elem_of_In.
  - intros q. rewrite Hdom, elem_of_difference, elem_of_singleton, Hl, elem_of_cons.
    split; [intros [Hq He]; destruct (decide (q ∈ blocks l')); tauto|].
    intros [Hq|[Hq Hn]]; [|tauto]. split; [apply Hin; rewrite Hl; by right|]. by intros ->.
  - destruct (rp_blocks _ _ HR) as (B & HB & Hm & Hms & Hdis). cbn in *. exists (B ∖ {[blk e]}). cbn.
    assert (Heb : blk e ∈ dom m) by (apply Hin; rewrite Hl; left).
    split; [apply h_free_blocks; [done|by apply Hm]|]. rewrite Hdom. set_solver.
Qed.

Lemma sim_cancel id f a : sim reps (tls_untimeout_p id f a) (cancel id f a).
Proof.
  intros s t HR. change (sim_at reps (tls_untimeout_p id f a) (cancel id f a) s t).
  destruct s as [k m hd], t as [k' ls log]. pose proof (rp_kern _ _ HR) as Hk. cbn in Hk. subst k'.
  destruct (ls !! Z.to_nat id) as [l|] eqn:El.
  - destruct (reps_line _ _ _ _ HR El) as (p0 & Hp0 & Hc & Hnd & Hsize & Hin). cbn in Hp0, Hc, Hsize, Hin.
    eapply sim_at_returns.
    + unfold cancel, line, set_line, release, on_akern, on_host. run_code. rewrite El. run_code.
      instantiate (1 := match pick f a l with Some (e, l') => Asys (freed (blk e) k) (<[Z.to_nat id := l']> ls) log | None => Asys k ls log end).
      instantiate (1 := tt). by destruct (pick f a l) as [[e l']|].
    + eapply untimeout_spec; [done..|]. destruct (pick f a l) as [[e l']|] eqn:Ep; [|by split].
      intros m' p' Hc' Hf Hdom. split; [done|]. eapply reps_removed; try done.
      by rewrite (pick_perm _ _ _ _ _ Ep).
  - apply sim_at_stuck.
    + pose proof (reps_none _ _ _ HR El) as Hn. cbn in Hn. unfold tls_untimeout_p, get_head. run_code. by rewrite Hn.
    + unfold cancel, line. run_code. by rewrite El.
Qed.

(** ** Handlers *)

#[local] Hint Resolve sim_start sim_cancel : sim.

Lemma sim_wop id o : sim reps (run_wop id o) (do_wop id o).
Proof. destruct o; cbn; simulate. Qed.

Lemma sim_wops id os : sim reps (run_wops id os) (do_wops id os).
Proof. induction os as [|o os IH]; cbn; [simulate|]. apply sim_bind; [apply sim_wop|by intros []]. Qed.

Lemma sim_call id f a : sim reps (call id f a) (do_call id f a).
Proof. unfold call, do_call. simulate; apply sim_wops. Qed.

(** ** Waiting *)

Lemma fetch_nonneg mbox timeout (k : kst E W) r k' : tls_arch_mbox_fetch mbox timeout k = Some (r, k') -> 0 <= fst r.
Proof using.
  unfold tls_arch_mbox_fetch, tls_os_get_time, on_world. run_code.
  match goal with |- context [w_receive mbox ?x] => destruct (w_receive mbox x (world k)) as [[[p|] w]|] end; cbn; [|by intros [= <- _]|done].
  intros [= <- _]. cbn. apply Z.div_pos; [|done]. apply (wrap_bounds 32). lia.
Qed.

Lemma sim_after id e rest r k m hd ls log :
  reps (Wl k m hd) (Asys k ls log) -> ls !! Z.to_nat id = Some (e :: rest) -> 0 <= fst r ->
  sim_at reps (after_fetch id (blk e) r) (after_wait id e rest r) (Wl k m hd) (Asys k ls log).
Proof.
  intros HR El Hr. destruct (reps_line _ _ _ _ HR El) as (p0 & Hp0 & Hc & Hnd & Hsize & Hin). cbn in Hp0, Hsize, Hin.
  pose proof Hc as (-> & He0 & Hde & n & He & Hc'). cbn in He, Hc'. rewrite Z.sub_0_r in He. cbn in Hc. destruct r as [waited msg].
  unfold after_fetch, after_wait. destruct (waited =? SYS_ARCH_TIMEOUT).
  - eapply (sim_at_steps _ _
      ((if negb (fn e =? 0) then call id (fn e) (ctx e) else mret tt) ;; mret (inl tt)) _
      ((if negb (fn e =? 0) then do_call id (fn e) (ctx e) else mret tt) ;; mret (inl tt)) _
      (Wl (freed (blk e) k) (delete (blk e) m) (<[Z.to_nat id := n]> hd)) _
      (Asys (freed (blk e) k) (<[Z.to_nat id := overtaken (due e) <$> rest]> ls) (log ++ [Fire id e (w_ticks (world k))]))).
    + unfold load, set_head, free_timeo, load, set_timeos, on_kern, on_host. run_code. rewrite He. run_code. rewrite He. done.
    + unfold expire, set_line, release, on_akern, on_host. run_code. unfold now. cbn. by destruct (negb (fn e =? 0)).
    + assert (HR' : reps (Wl (freed (blk e) k) (delete (blk e) m) (<[Z.to_nat id := n]> hd))
        (Asys (freed (blk e) k) (<[Z.to_nat id := overtaken (due e) <$> rest]> ls) (log ++ [Fire id e (w_ticks (world k))]))).
      { apply (reps_removed k m hd ls log _ (e :: rest)); try done.
        - by rewrite fmap_cons, <- list_fmap_compose.
        - by apply chain_expire.
        - intros q _ [Hq _]%not_elem_of_cons. by lookups.
        - apply dom_delete_L. }
      revert HR'. generalize (Wl (freed (blk e) k) (delete (blk e) m) (<[Z.to_nat id := n]> hd)).
      generalize (Asys (freed (blk e) k) (<[Z.to_nat id := overtaken (due e) <$> rest]> ls) (log ++ [Fire id e (w_ticks (world k))])).
      intros t s HR'. revert s t HR'. apply sim_bind; [|intros []; simulate]. destruct (negb (fn e =? 0)); simulate. apply sim_call.
  - set (d := waited `min` due e). assert (Hd : 0 <= d <= due e) by (cbn in Hr; lia).
    eapply (sim_at_steps _ _ (m ← must msg; mret (inr m)) _ (m ← must msg; mret (inr m)) _
      (Wl k (<[blk e := Timeo n (due e - d) (fn e) (ctx e)]> m) hd) _ (Asys k (<[Z.to_nat id := sooner d <$> e :: rest]> ls) log)).
    + unfold update, load, set_timeos. run_code. rewrite He. run_code. unfold with_time. cbn.
      replace (u32 _) with (due e - d); [done|]. unfold d. destruct (Z.ltb_spec waited (due e)); rewrite wrap_id; cbn in Hr; lia.
    + reflexivity.
    + assert (HR' : reps (Wl k (<[blk e := Timeo n (due e - d) (fn e) (ctx e)]> m) hd)
        (Asys k (<[Z.to_nat id := sooner d <$> e :: rest]> ls) log)).
      { rewrite <- (list_insert_id hd _ _ Hp0). apply (reps_update (Wl k m hd) (Asys k ls log) _ (e :: rest)); try done.
        all: cbn [timeos kern next_timeout]; change (blocks (sooner d <$> e :: rest)) with (blk e :: blocks (sooner d <$> rest));
          rewrite <- ?list_fmap_compose; change (blk ∘ sooner d) with blk.
        - by apply chain_sooner.
        - done.
        - intros q Hq. by left.
        - intros q _ [Hq _]%not_elem_of_cons. by lookups.
        - intros q. rewrite dom_update by (by eexists). change (blocks (e :: rest)) with (blk e :: blocks rest).
          destruct (decide (q ∈ blk e :: blocks rest)); naive_solver.
        - rewrite dom_update by (by eexists). apply (rp_blocks _ _ HR). }
      revert HR'. generalize (Wl k (<[blk e := Timeo n (due e - d) (fn e) (ctx e)]> m) hd).
      generalize (Asys k (<[Z.to_nat id := sooner d <$> e :: rest]> ls) log). intros t s HR'. revert s t HR'.
      apply sim_bind; [unfold must; simulate|intros p; simulate].
Qed.

Lemma sim_round id mbox : sim reps (fetch_body id mbox) (wait_round id mbox).
Proof.
  intros s t HR. change (sim_at reps (fetch_body id mbox) (wait_round id mbox) s t).
  destruct s as [k m hd], t as [k' ls log]. pose proof (rp_kern _ _ HR) as Hk. cbn in Hk. subst k'.
  destruct (ls !! Z.to_nat id) as [[|e rest]|] eqn:El.
  - destruct (reps_line _ _ _ _ HR El) as (p0 & Hp0 & Hc & _). cbn in Hp0, Hc. subst p0.
    eapply (sim_at_steps _ _ (r ← on_kern (tls_arch_mbox_fetch mbox 0); m ← must (snd r); mret (inr m)) _
      (r ← on_akern (tls_arch_mbox_fetch mbox 0); m ← must (snd r); mret (inr m))).
    + unfold fetch_body, get_head. run_code. by rewrite Hp0.
    + unfold wait_round, line. run_code. by rewrite El.
    + revert HR. generalize (Wl k m hd) (Asys k ls log). apply sim_bind; [apply sim_kern, keeps_fetch|].
      intros r. apply sim_bind; [unfold must|intros p]; simulate.
  - destruct (reps_line _ _ _ _ HR El) as (p0 & Hp0 & Hc & _). cbn in Hp0, Hc. destruct Hc as (-> & He0 & Hde & n & He & _).
    rewrite Z.sub_0_r in He.
    eapply (sim_at_steps _ _ (r ← (if 0 <? due e then on_kern (tls_arch_mbox_fetch mbox (due e)) else mret (SYS_ARCH_TIMEOUT, None));
        after_fetch id (blk e) r) _
      (r ← (if 0 <? due e then on_akern (tls_arch_mbox_fetch mbox (due e)) else mret (SYS_ARCH_TIMEOUT, None));
        after_wait id e rest r)).
    + unfold fetch_body, get_head, load. run_code. rewrite Hp0. run_code. rewrite (proj2 (Z.eqb_neq _ _)) by done. run_code. by rewrite He.
    + unfold wait_round, line. run_code. by rewrite El.
    + destruct (0 <? due e); [|by apply sim_after].
      unfold sim_at, mbind, M_bind, on_kern, on_akern, zoom. cbn.
      destruct (tls_arch_mbox_fetch mbox (due e) k) as [[r k1]|] eqn:Ef; [|done]. apply sim_after; [|done|by eapply fetch_nonneg].
      destruct HR as [_ Hch Hnd Hd Hb]. split; [done|done|done|done|]. cbn in *. by eapply keeps_fetch.
  - apply sim_at_stuck.
    + pose proof (reps_none _ _ _ HR El) as Hn. cbn in Hn. unfold fetch_body, get_head. run_code. by rewrite Hn.
    + unfold wait_round, line. run_code. by rewrite El.
Qed.

(** ** The task *)

Lemma sim_wait fuel id mbox : sim reps (tls_timeouts_mbox_fetch_p fuel id mbox) (wait fuel id mbox).
Proof. apply sim_loop. intros []. apply sim_round. Qed.

Lemma sim_serve id p : sim reps (serve_msg id p) (serve id p).
Proof.
  unfold serve_msg, serve. apply sim_bind; [apply sim_kern, keeps_read|]. intros msg.
  destruct (type msg); simulate; apply sim_call.
Qed.

Lemma sim_task fuel tp : sim reps (task_thread fuel tp) (task fuel tp).
Proof.
  unfold task_thread, task. apply sim_bind; [apply sim_kern; unfold mbox_of; keep|]. intros mbox.
  apply sim_bind; [apply sim_wait|]. intros p. apply sim_serve.
Qed.
End refine.
