(* ===== verification/WlTiming.v ===== *)
(** * When the handlers of a work-queue task are called

    Invariants of the schedule, over a kernel whose clock does not go back
    and whose timed waits last: every list is in the order in which its
    entries fall due, first come first served; and no handler is called
    early, but for the rounding of each wait to ticks of two milliseconds. *)
From S2P Require Import Prelude CMonad Keeps HostEnv WlMbox WlTimers WlSched WlTimersSpec WlRefine.
From Stdlib Require Import Sorting.Sorted.

(** What the kernel promises about time. *)
Class WorldLaws (W : Type) `{World W} := {
  w_receive_later mb n w r w' : w_receive mb n w = Some (r, w') -> w_ticks w <= w_ticks w';
  (** A wait that ends without a message has lasted. *)
  w_receive_lasts mb n w w' : n <> 0 -> w_receive mb n w = Some (None, w') -> w_ticks w + n <= w_ticks w';
  w_send_later mb m w : w_ticks w <= w_ticks (snd (w_send mb m w));
  w_delay_later n w : w_ticks w <= w_ticks (w_delay n w);
  w_call_later f a w : w_ticks w <= w_ticks (snd (w_call f a w))
}.

(** Delays from here on overflow the computation of the ticks to wait. *)
Definition tick_limit : Z := 8589935.

Definition msg_short (m : task_msg) : Prop := type m = TASK_MSG_TIMEOUT -> u32 (tmo_msecs m) < tick_limit.
Definition cop_short (c : cop) : Prop := match c with AddTimeout _ msecs _ _ => u32 msecs < tick_limit | _ => True end.
Definition wop_short (o : wop) : Prop :=
  match o with Arm msecs _ _ => u32 msecs < tick_limit | Client c => cop_short c | Disarm _ _ => True end.

Record msgs_short {E W} (k : kst E W) : Prop := {
  ms_heap p m : hmsgs k !! p = Some m -> msg_short m;
  ms_static m : m ∈ wl_msg k -> msg_short m
}.

(** Time goes on, and messages stay within the limit. *)
Definition orderly {E W} `{World W} (k k' : kst E W) : Prop :=
  w_ticks (world k) <= w_ticks (world k') /\ (msgs_short k -> msgs_short k').

#[export] Instance orderly_preorder {E W} `{World W} : PreOrder (orderly (E := E) (W := W)).
Proof. split; [by intros k|]. intros a b c [H1 H2] [H3 H4]. split; [lia|auto]. Qed.

Section kernel.
Context {E W : Type} `{Host E} `{WorldLaws W}.
Abbreviation od := (orderly (E := E) (W := W)).

Lemma orderly_world {A} (f : W -> A * W) : (forall w, w_ticks w <= w_ticks (snd (f w))) -> keeps od (on_world f).
Proof.
  intros Hf k x k'. unfold on_world. run_code. destruct (f (world k)) as [y w] eqn:Ef. intros [= _ <-].
  specialize (Hf (world k)). rewrite Ef in Hf. split; [done|]. by intros [Hh Hs].
Qed.

Lemma orderly_read p : keeps od (read_msg p).
Proof. destruct p; cbn [read_msg]; unfold must; keep. Qed.

Lemma orderly_update p f : (forall m, msg_short m -> msg_short (f m)) -> keeps od (update_msg p f).
Proof.
  intros Hf k x k'. unfold update_msg. destruct p as [|i|a]; [done| |]; run_code.
  - destruct (wl_msg k !! Z.to_nat i) as [m|] eqn:Em; run_code; [|done]. intros [= _ <-]. split; [done|]. intros [Hh Hs].
    split; cbn; [done|]. intros m' [j Hj]%list_elem_of_lookup_1. apply list_lookup_insert_Some in Hj as [(<- & <- & _)|[_ Hj]].
    + apply Hf, Hs. by eapply list_elem_of_lookup_2.
    + apply Hs. by eapply list_elem_of_lookup_2.
  - destruct (hmsgs k !! a) as [m|] eqn:Em; run_code; [|done]. intros [= _ <-]. split; [done|]. intros [Hh Hs].
    split; cbn; [|done]. intros p m' [(<- & <-)|[_ Hp]]%lookup_insert_Some; eauto.
Qed.

Lemma orderly_alloc : keeps od alloc_msg.
Proof.
  intros k x k'. unfold alloc_msg. run_code.
  destruct (h_alloc sizeof_task_msg (host k)) as [[[p l]|] e]; intros [= _ <-]; (split; [done|]); intros [Hh Hs]; split; cbn; try done.
  intros q m [(<- & <-)|[_ Hq]]%lookup_insert_Some; [by intros|eauto].
Qed.

Lemma orderly_free p : keeps od (free_msg p).
Proof.
  intros k x k'. unfold free_msg. destruct p as [|i|a]; [done|done|]. run_code.
  destruct (hmsgs k !! a) as [m|]; run_code; [|done]. intros [= _ <-]. split; [done|]. intros [Hh Hs]. split; cbn; [|done].
  intros q m' [_ Hq]%lookup_delete_Some. eauto.
Qed.

Lemma orderly_send mb m : keeps od (on_world (w_send mb m)).
Proof. apply orderly_world. intros w. apply w_send_later. Qed.
Lemma orderly_delay n : keeps od (on_world (fun w => (tt, w_delay n w))).
Proof. apply orderly_world. intros w. apply w_delay_later. Qed.
#[local] Hint Resolve orderly_read orderly_alloc orderly_free orderly_send orderly_delay : keeps.

Lemma orderly_post mb m : keeps od (tls_mbox_post mb m).
Proof. unfold tls_mbox_post. keep. Qed.
#[local] Hint Resolve orderly_post : keeps.

Lemma orderly_client c : cop_short c -> keeps od (run_client c).
Proof.
  intros Hc. destruct c; cbn [run_client];
    unfold tls_wl_task_callback, tls_wl_task_callback_static, tls_wl_task_add_timeout, tls_wl_task_untimeout, mbox_of, tls_mbox_trypost, must;
    keep; apply orderly_update; intros m Hm; first [exact Hm | by intros [=] | by intros _].
Qed.

(** Ticks of a wait of [t] milliseconds. *)
Definition wait_ticks (t : Z) : Z := if (negb (t =? 0)) && (u32 (t * HZ) / 1000 =? 0) then 1 else u32 (t * HZ) / 1000.

Lemma wait_ticks_short t : 0 < t < tick_limit -> t <= 2 * wait_ticks t + 1 /\ 0 < wait_ticks t.
Proof using.
  unfold wait_ticks, tick_limit, HZ. intros Ht. rewrite wrap_id by lia. rewrite (proj2 (Z.eqb_neq t 0)) by lia. cbn.
  destruct (Z.eqb_spec (t * 500 / 1000) 0); dlia.
Qed.

Definition with_world (k : kst E W) (w : W) : kst E W := Kst (host k) w (task_mbox k) (hmsgs k) (wl_msg k).

(** The milliseconds that the code reckons between two ticks of its clock. *)
Definition reckoned (t0 t1 : Z) : Z :=
  u32 ((if u32 t0 <=? u32 t1 then u32 t1 - u32 t0 else u32 (0xFFFFFFFF - u32 t0 + u32 t1)) * 1000) / HZ.

Lemma fetch_run mb t (k : kst E W) :
  tls_arch_mbox_fetch mb t k =
  match w_receive mb (wait_ticks t) (world k) with
  | None => None
  | Some (None, w) => Some ((SYS_ARCH_TIMEOUT, None), with_world k w)
  | Some (Some m, w) => Some ((reckoned (w_ticks (world k)) (w_ticks w), Some m), with_world k w)
  end.
Proof using.
  unfold tls_arch_mbox_fetch, tls_os_get_time, on_world. run_code. unfold wait_ticks, with_world.
  destruct (w_receive mb _ (world k)) as [[[m|] w]|]; reflexivity.
Qed.

(** It never reckons more than has passed, and never the mark of a timeout. *)
Lemma reckoned_bounds t0 t1 : t0 <= t1 -> 0 <= reckoned t0 t1 <= 2 * (t1 - t0) /\ reckoned t0 t1 <> SYS_ARCH_TIMEOUT.
Proof using.
  intros Ht. unfold reckoned, HZ, SYS_ARCH_TIMEOUT, wrap.
  set (el := if t0 mod 2 ^ 32 <=? t1 mod 2 ^ 32 then _ else _ : Z).
  assert (Hel : 0 <= el <= t1 - t0).
  { unfold el. destruct (Z.leb_spec (t0 mod 2 ^ 32) (t1 mod 2 ^ 32)); [dlia|].
    rewrite Z.mod_small; dlia. }
  assert (0 <= (el * 1000) mod 2 ^ 32 <= el * 1000) by (split; [apply Z.mod_pos_bound; lia|apply Z.mod_le; lia]).
  assert ((el * 1000) mod 2 ^ 32 < 2 ^ 32) by (apply Z.mod_pos_bound; lia).
  dlia.
Qed.

(** What a wait for a message says of the time that has passed. *)
Lemma fetch_time mb t (k : kst E W) waited msg k' :
  tls_arch_mbox_fetch mb t k = Some ((waited, msg), k') ->
  orderly k k' /\ 0 <= waited /\
  (waited = SYS_ARCH_TIMEOUT -> wait_ticks t <> 0 -> w_ticks (world k) + wait_ticks t <= w_ticks (world k')) /\
  (waited <> SYS_ARCH_TIMEOUT -> waited <= 2 * (w_ticks (world k') - w_ticks (world k))).
Proof.
  rewrite fetch_run. destruct (w_receive mb (wait_ticks t) (world k)) as [[r w]|] eqn:Er; [|done].
  pose proof (w_receive_later _ _ _ _ _ Er) as Hl.
  assert (Hod : orderly k (with_world k w)) by (split; [done|]; by intros [Hh Hs]).
  destruct r as [m|]; intros [= <- <- <-]; (split; [done|]).
  - destruct (reckoned_bounds _ _ Hl) as [? ?]. cbn. split; [lia|]. split; [done|]. intros _. lia.
  - split; [done|]. split; [|done]. intros _ Hn. by eapply w_receive_lasts.
Qed.
End kernel.

(** ** The schedule *)

(** [x] falls due before [y], or with it and was started first. *)
Definition before (x y : entry) : Prop := due x < due y \/ due x = due y /\ born x <= born y.

(** What is left of the delay, at tick [n]. *)
Record entry_ok (n : Z) (e : entry) : Prop := {
  eo_due : 0 <= due e < tick_limit;
  eo_born : born e <= n;
  eo_passed : 0 <= passed e;
  eo_left : 2 * born e + span e <= 2 * n + due e + passed e
}.
Definition line_ok (n : Z) (l : list entry) : Prop := StronglySorted before l /\ Forall (entry_ok n) l.

(** A handler was called when the delay was over, but for a millisecond for
    its own expiry and for each one since it was started. *)
Definition fire_ok (f : fire) : Prop :=
  2 * born (f_entry f) + span (f_entry f) <= 2 * f_tick f + passed (f_entry f) + 1.

Section lines.
Implicit Types l : list entry.

Lemma line_later n n' l : n <= n' -> line_ok n l -> line_ok n' l.
Proof.
  intros Hn [Hs Hl]. split; [done|]. apply (Forall_impl _ _ _ Hl). intros e [Hd Hb Hp Hr]. split; (done || lia).
Qed.

Lemma before_trans x y z : before x y -> before y z -> before x z.
Proof. unfold before. lia. Qed.

Lemma in_place e l x : x ∈ place e l -> x = e \/ x ∈ l.
Proof.
  induction l as [|y l IH]; cbn; [by intros ->%list_elem_of_singleton; left|].
  destruct (due e <? due y).
  - intros [->|Hx]%elem_of_cons; [by left|by right].
  - intros [->|Hx]%elem_of_cons; [right; left|]. destruct (IH Hx) as [->|]; [by left|right; by right].
Qed.

Lemma place_ok n e l : line_ok n l -> entry_ok n e -> born e = n -> line_ok n (place e l).
Proof.
  intros [Hs Hl] He Hb. split.
  - induction Hs as [|x l Hs IH Hx]; cbn; [repeat constructor|]. apply Forall_cons in Hl as [Hxo Hl].
    destruct (Z.ltb_spec (due e) (due x)) as [Hlt|Hge].
    + constructor; [by constructor|]. constructor; [by left|]. apply (Forall_impl _ _ _ Hx).
      intros y Hy. apply (before_trans _ x); [by left|done].
    + constructor; [by apply IH|]. apply Forall_forall. intros y [->|Hy]%in_place.
      * unfold before. destruct Hxo as [_ Hxb _ _]. lia.
      * by apply (proj1 (Forall_forall _ _) Hx).
  - apply Forall_forall. intros y [->|Hy]%in_place; [done|]. by apply (proj1 (Forall_forall _ _) Hl).
Qed.

Lemma pick_ok n f a l e l' : pick f a l = Some (e, l') -> line_ok n l -> line_ok n l'.
Proof.
  revert e l'. induction l as [|x l IH]; intros e l'; [done|]. cbn. intros Hp [[Hs Hx]%StronglySorted_inv [Hxo Hl]%Forall_cons].
  destruct ((fn x =? f) && (ctx x =? a)); [injection Hp as <- <-; done|].
  destruct (pick f a l) as [[e1 l1]|] eqn:Ep; [|done]. injection Hp as <- <-. destruct (IH e1 l1 eq_refl) as [Hs1 Hl1]; [by split|].
  split; [|by constructor]. constructor; [done|]. pose proof (pick_perm _ _ _ _ _ Ep) as Hperm.
  rewrite Hperm in Hx. by apply Forall_cons in Hx as [_ ?].
Qed.

Lemma sorted_map (g : entry -> entry) d l :
  (forall x, due (g x) = due x - d /\ born (g x) = born x) -> StronglySorted before l -> StronglySorted before (g <$> l).
Proof.
  intros Hg. induction 1 as [|x l Hs IH Hx]; cbn; [constructor|]. constructor; [done|]. apply Forall_fmap.
  apply (Forall_impl _ _ _ Hx). intros y Hy. unfold before in *. cbn. destruct (Hg x) as [-> ->], (Hg y) as [-> ->]. lia.
Qed.

(** Everything behind the first entry is due no earlier. *)
Lemma due_behind n e rest x : line_ok n (e :: rest) -> x ∈ rest -> due e <= due x.
Proof.
  intros [[_ He]%StronglySorted_inv _] Hx. apply (proj1 (Forall_forall _ _) He) in Hx. unfold before in Hx. lia.
Qed.

Lemma overtaken_ok n n' e rest :
  line_ok n (e :: rest) -> n <= n' -> due e <= 2 * (n' - n) + 1 -> line_ok n' (overtaken (due e) <$> rest).
Proof.
  intros Hl Hn Hd. pose proof (due_behind n e rest) as Hb. pose proof Hl as [[Hs _]%StronglySorted_inv [Heo Ho]%Forall_cons].
  split; [by apply sorted_map with (d := due e)|]. apply Forall_fmap, Forall_forall. intros x Hx.
  specialize (Hb x Hl Hx). destruct (proj1 (Forall_forall _ _) Ho x Hx) as [Hxd Hxb Hxp Hxl], Heo.
  split; cbn; lia.
Qed.

Lemma sooner_ok n n' e rest d :
  line_ok n (e :: rest) -> 0 <= d <= due e -> d <= 2 * (n' - n) -> line_ok n' (sooner d <$> e :: rest).
Proof.
  intros Hl Hd Hn. pose proof (due_behind n e rest) as Hb. pose proof Hl as [Hs Ho].
  split; [by apply sorted_map with (d := d)|]. apply Forall_fmap, Forall_forall. intros x Hx.
  destruct (proj1 (Forall_forall _ _) Ho x Hx) as [Hxd Hxb Hxp Hxl].
  assert (due e <= due x) by (apply elem_of_cons in Hx as [->|Hx]; [lia|by apply Hb]). split; cbn; lia.
Qed.
End lines.

Section sched.
Context {E W : Type} `{HostLaws E} `{!HostBlocks E} `{WorldLaws W}.
Abbreviation ast := (asys E W).

Record sched_ok (t : ast) : Prop := {
  so_msgs : msgs_short (akern t);
  so_lines : Forall (line_ok (now t)) (lines t);
  so_fired : Forall fire_ok (fired t)
}.

Definition stays_ok (t t' : ast) : Prop := sched_ok t -> sched_ok t'.
#[local] Instance stays_ok_preorder : PreOrder stays_ok.
Proof. split; [by intros t Ht|]. intros a b c H3 H4 H5. by apply H4, H3. Qed.

Lemma ok_akern t k : sched_ok t -> orderly (akern t) k -> sched_ok (Asys k (lines t) (fired t)).
Proof.
  intros [Hm Hl Hf] [Hn Hk]. split; cbn; [by apply Hk| |done]. apply (Forall_impl _ _ _ Hl). intros l. by apply line_later.
Qed.

Lemma ok_line t k i l log : sched_ok t -> orderly (akern t) k -> line_ok (w_ticks (world k)) l -> Forall fire_ok log ->
  sched_ok (Asys k (<[i := l]> (lines t)) log).
Proof.
  intros [Hm Hl Hf] [Hn Hk] Hok Hlog. split; cbn; [by apply Hk| |done]. apply Forall_insert; [|done].
  apply (Forall_impl _ _ _ Hl). intros l'. by apply line_later.
Qed.

Lemma ok_get t i l : sched_ok t -> lines t !! i = Some l -> line_ok (now t) l.
Proof. intros [_ Hl _] Hi. exact (proj1 (Forall_lookup _ _) Hl i l Hi). Qed.

Lemma keeps_akern {A} (m : M (kst E W) A) : keeps orderly m -> keeps stays_ok (on_akern m).
Proof.
  intros Hm t x t'. unfold on_akern, zoom. destruct (m (akern t)) as [[y k]|] eqn:Em; [|done]. intros [= _ <-] Ht.
  apply ok_akern; [done|]. by eapply Hm.
Qed.

Lemma orderly_host (k : kst E W) e : orderly k (with_host k e).
Proof. split; [done|]. by intros [Hh Hs]. Qed.
#[local] Hint Resolve orderly_host : core.

Lemma start_ok id msecs f a : u32 msecs < tick_limit -> keeps stays_ok (start id msecs f a).
Proof.
  intros Hs [k ls log] [] t'. rewrite start_run. destruct (h_alloc sizeof_timeo (host k)) as [[[p bs]|] e].
  - destruct (ls !! Z.to_nat id) as [l|] eqn:El; [|done]. intros [= <-] Ht.
    apply (ok_line (Asys k ls log)); [done|done| |apply Ht]. apply place_ok; [by apply (ok_get (Asys k ls log) (Z.to_nat id))| |done].
    pose proof (wrap_bounds 32 msecs). split; cbn; lia.
  - intros [= <-] Ht. by apply (ok_akern (Asys k ls log)).
Qed.

Lemma cancel_ok id f a : keeps stays_ok (cancel id f a).
Proof.
  intros t [] t'. unfold cancel, line. run_code. destruct (lines t !! Z.to_nat id) as [l|] eqn:El; run_code; [|done].
  destruct (pick f a l) as [[e l']|] eqn:Ep; [|by intros [= <-]]. unfold set_line, release, on_akern, on_host. run_code.
  intros [= <-] Ht. apply ok_line; [done|apply orderly_host| |apply Ht]. eapply pick_ok; [done|]. by eapply ok_get.
Qed.

Lemma wop_ok id o : wop_short o -> keeps stays_ok (do_wop id o).
Proof.
  destruct o as [msecs f a|f a|c]; cbn; intros Ho; [by apply start_ok|apply cancel_ok|].
  apply keeps_bind; [exact _|by apply keeps_akern, orderly_client|intros r; apply keeps_ret; exact _].
Qed.

Lemma wops_ok id os : Forall wop_short os -> keeps stays_ok (do_wops id os).
Proof.
  induction 1 as [|o os Ho _ IH]; cbn; [apply keeps_ret; exact _|]. apply keeps_bind; [exact _|by apply wop_ok|by intros []].
Qed.

(** Functions called by the task start no timer beyond the limit. *)
Context (short_calls : forall f a w, Forall wop_short (fst (w_call f a w))).

Lemma call_ok id f a : keeps stays_ok (do_call id f a).
Proof.
  intros t [] t'. unfold do_call. destruct (f =? 0); [done|]. unfold on_akern, on_world. run_code.
  pose proof (short_calls f a (world (akern t))) as Hs. pose proof (w_call_later f a (world (akern t))) as Hl.
  destruct (w_call f a (world (akern t))) as [os w]. cbn in Hs, Hl. intros Hr Ht.
  eapply wops_ok; [exact Hs|exact Hr|]. apply ok_akern; [done|]. split; [done|]. by intros [? ?].
Qed.

(** The clock may have gone on by less than a millisecond too little. *)
Lemma expire_ok id e rest t t' : sched_ok t -> lines t !! Z.to_nat id = Some (e :: rest) -> forall k x,
  orderly (akern t) k -> due e <= 2 * (w_ticks (world k) - now t) + 1 ->
  expire id e rest (Asys k (lines t) (fired t)) = Some (x, t') -> sched_ok t'.
Proof.
  intros Ht El k x Hk Hd. unfold expire, set_line, release, on_akern, on_host. run_code. unfold now. cbn. 
  pose proof (ok_get _ _ _ Ht El) as Hl. pose proof Hl as [_ [[Hdue Hborn Hpass Hleft] _]%Forall_cons].
  pose proof (proj1 Hk) as Hn.
  set (t1 := Asys _ _ _ : ast). assert (Ht1 : sched_ok t1).
  { unfold t1. apply ok_line; [done| | |].
    - etransitivity; [done|]. apply orderly_host.
    - cbn. by eapply overtaken_ok.
    - apply Forall_app. split; [apply Ht|]. apply Forall_singleton. unfold fire_ok. cbn. unfold now in *. lia. }
  destruct (negb (fn e =? 0)); cbn; [|by intros [= _ <-]]. intros Hc. destruct x. by eapply call_ok.
Qed.

Lemma round_ok id mbox : keeps stays_ok (wait_round id mbox).
Proof.
  intros t x t' Hr Ht. revert Hr. unfold wait_round, line. run_code.
  destruct (lines t !! Z.to_nat id) as [[|e rest]|] eqn:El; run_code; [| |done].
  - unfold on_akern, zoom. destruct (tls_arch_mbox_fetch mbox 0 (akern t)) as [[[w msg] k]|] eqn:Ef; [|done]. cbn.
    destruct msg as [m|]; cbn; [|done]. intros [= _ <-]. apply ok_akern; [done|]. by destruct (fetch_time _ _ _ _ _ _ Ef).
  - pose proof (ok_get _ _ _ Ht El) as Hl. pose proof Hl as [_ [[Hdue _ _ _] _]%Forall_cons].
    destruct (Z.ltb_spec 0 (due e)) as [Hpos|Hzero].
    + unfold on_akern, zoom. destruct (tls_arch_mbox_fetch mbox (due e) (akern t)) as [[[w msg] k]|] eqn:Ef; [|done].
      destruct (fetch_time _ _ _ _ _ _ Ef) as (Hod & Hw & Hto & Hms). cbn. unfold after_wait.
      destruct (Z.eqb_spec w SYS_ARCH_TIMEOUT) as [Heq|Hne].
      * destruct (wait_ticks_short (due e)) as [Hb Hp]; [lia|]. specialize (Hto Heq). unfold mbind at 1, M_bind at 1.
        destruct (expire id e rest _) as [[y t1]|] eqn:Ee; [|done]. intros [= _ <-].
        eapply expire_ok; [done|done|done| |exact Ee]. unfold now. lia.
      * unfold set_line. run_code. destruct msg as [m|]; cbn; [|done]. intros [= _ <-].
        apply ok_line; [done|done| |apply Ht]. specialize (Hms Hne). eapply sooner_ok; [done|lia|]. unfold now. lia.
    + unfold after_wait. rewrite Z.eqb_refl. unfold mbind at 1, M_bind at 1. cbn.
      destruct (expire id e rest _) as [[y t1]|] eqn:Ee; [|done]. intros [= _ <-]. destruct t as [k ls log].
      eapply (expire_ok id e rest (Asys k ls log)); [done|done|done| |exact Ee]. unfold now. lia.
Qed.
End sched.
