(* ===== verification/WlProps.v ===== *)
(** * Properties of the work-queue tasks *)
From S2P Require Import Prelude CMonad Keeps Simul HostEnv WlMbox WlTimers WlSched WlTimersSpec WlRefine WlTiming.
From Stdlib Require Import Sorting.Sorted.

(** ** What happens in a system with work-queue tasks *)

(** A task's round; a part of one, up to the next [again:]; a request by
    another task; something else that changes the world. *)
Inductive act (W : Type) :=
  | Round (fuel : nat) (tp : task_parameter)
  | Turn (tp : task_parameter)
  | Request (c : cop)
  | Meanwhile (g : W -> W).
Arguments Round {W}.
Arguments Turn {W}.
Arguments Request {W}.
Arguments Meanwhile {W}.

Section acts.
Context {E W : Type} `{Host E} `{World W}.

(** One turn of the loop in [tls_timeouts_mbox_fetch_p], and the message if
    it was the last. *)
Definition task_turn (tp : task_parameter) : M (wl E W) unit :=
  mbox ← on_kern (mbox_of tp);
  r ← fetch_body (timeo_id tp) mbox;
  match r with inl _ => mret tt | inr p => serve_msg (timeo_id tp) p end.

Definition run_act (a : act W) : M (wl E W) unit :=
  match a with
  | Round fuel tp => task_thread fuel tp
  | Turn tp => task_turn tp
  | Request c => on_kern (run_client c) ;; mret tt
  | Meanwhile g => on_kern (on_world (fun w => (tt, g w)))
  end.
Fixpoint run_acts (l : list (act W)) : M (wl E W) unit :=
  match l with [] => mret tt | a :: l => run_act a ;; run_acts l end.

(** The same on the schedule. *)
Definition turn (tp : task_parameter) : M (asys E W) unit :=
  mbox ← on_akern (mbox_of tp);
  r ← wait_round (timeo_id tp) mbox;
  match r with inl _ => mret tt | inr p => serve (timeo_id tp) p end.

Definition do_act (a : act W) : M (asys E W) unit :=
  match a with
  | Round fuel tp => task fuel tp
  | Turn tp => turn tp
  | Request c => on_akern (run_client c) ;; mret tt
  | Meanwhile g => on_akern (on_world (fun w => (tt, g w)))
  end.
Fixpoint do_acts (l : list (act W)) : M (asys E W) unit :=
  match l with [] => mret tt | a :: l => do_act a ;; do_acts l end.

(** Nothing is started beyond the limit, and time does not go back. *)
Definition act_short (a : act W) : Prop :=
  match a with
  | Request c => cop_short c
  | Meanwhile g => forall w, w_ticks w <= w_ticks (g w)
  | _ => True
  end.
End acts.

Section properties.
Context {E W : Type} `{HostLaws E} `{!HostBlocks E} `{World W}.

Lemma sim_turn tp : sim reps (task_turn tp) (turn tp).
Proof.
  unfold task_turn, turn. apply sim_bind; [apply sim_kern; unfold mbox_of; keep|]. intros mbox.
  apply sim_bind; [apply sim_round|]. intros [u|p]; [simulate|apply sim_serve].
Qed.

Lemma sim_act a : sim reps (run_act a) (do_act a).
Proof.
  destruct a as [fuel tp|tp|c|g]; cbn [run_act do_act]; [apply sim_task|apply sim_turn| |].
  - apply sim_bind; [apply sim_kern; auto with keeps|]. intros r. simulate.
  - apply sim_kern. auto with keeps.
Qed.

Lemma sim_acts l : sim reps (run_acts l) (do_acts l).
Proof. induction l as [|a l IH]; cbn; [simulate|]. apply sim_bind; [apply sim_act|by intros []]. Qed.

(** No timers. *)
Lemma reps_empty (k : kst E W) : blocks_ok ∅ k ->
  reps (Wl k ∅ (replicate (Z.to_nat TLS_TIMEO_ALL_COUONT) 0)) (Asys k (replicate (Z.to_nat TLS_TIMEO_ALL_COUONT) []) []).
Proof.
  intros Hb. split; cbn [kern timeos next_timeout akern lines].
  - done.
  - apply Forall2_replicate. done.
  - cbn. constructor.
  - intros q. cbn. set_solver.
  - by rewrite dom_empty_L.
Qed.

(** The state after [tls_wl_timer_init]. *)
Lemma reps_init (k : kst E W) hd : blocks_ok ∅ k ->
  wp tls_wl_timer_init (Wl k ∅ hd) (fun _ s => reps s (Asys k (replicate (Z.to_nat TLS_TIMEO_ALL_COUONT) []) [])).
Proof. intros Hb. apply wp_bind, wp_modify, wp_ret. by apply reps_empty. Qed.

(** C6. The code is its schedule.  From a state whose pointer structures
    represent a schedule, any sequence of rounds of the tasks, turns of their
    waiting loops, requests of other tasks and changes of the world runs on
    the code exactly if it runs on the schedule - neither blocks for ever nor
    leaves its memory where the other does not - and ends in a state that
    represents the end of the schedule: relative delays in linked blocks,
    inserted, removed, shortened and expired by pointer surgery, are sorted
    lists of absolute delays. *)
Theorem wl_tasks_refine l s t : reps s t -> sim_at reps (run_acts l) (do_acts l) s t.
Proof. apply sim_acts. Qed.
End properties.

Section timing.
Context {E W : Type} `{HostLaws E} `{!HostBlocks E} `{WorldLaws W}.
Context (short_calls : forall f a w, Forall wop_short (fst (w_call f a w))).

Abbreviation ok := (stays_ok (E := E) (W := W)).
#[local] Existing Instance stays_ok_preorder.
#[local] Hint Extern 1 (keeps _ (on_akern _)) => apply keeps_akern; solve [auto with keeps] : keeps.

Lemma orderly_mbox tp : keeps (orderly (E := E) (W := W)) (mbox_of tp).
Proof. unfold mbox_of, must. keep. Qed.
#[local] Hint Resolve orderly_mbox orderly_read orderly_free : keeps.

Lemma orderly_count p : keeps (orderly (E := E) (W := W)) (update_msg p (fun m => set_cnt (cbs_cnt m - 1) m)).
Proof. apply orderly_update. intros m Hm. exact Hm. Qed.
#[local] Hint Resolve orderly_count : keeps.

(** The message at hand is one of the store. *)
Lemma serve_ok id p : keeps ok (serve id p).
Proof.
  intros t [] t' Hr Ht. revert Hr. unfold serve. unfold mbind at 1, M_bind at 1, on_akern at 1, zoom at 1.
  destruct (read_msg p (akern t)) as [[m k]|] eqn:Em; [|done].
  assert (Hk : k = akern t /\ msg_short m).
  { revert Em. destruct Ht as [[Hh Hs] _ _]. destruct p as [|i|a]; cbn [read_msg]; run_code; [done| |].
    - destruct (wl_msg (akern t) !! Z.to_nat i) eqn:Ei; run_code; [|done]. intros [= <- <-]. split; [done|].
      apply Hs. by eapply list_elem_of_lookup_2.
    - destruct (hmsgs (akern t) !! a) eqn:Ei; run_code; [|done]. intros [= <- <-]. split; [done|]. by eapply Hh. }
  destruct Hk as [-> Hm]. intros Hr. assert (Ht' : sched_ok (Asys (akern t) (lines t) (fired t))) by by destruct t.
  revert Hr Ht'. generalize (Asys (akern t) (lines t) (fired t)). intros t0 Hr Ht0. revert t0 t' Hr Ht0.
  assert (Hkeep : keeps ok (match type m with
     | TASK_MSG_CALLBACK => do_call id (cb_function m) (cb_ctx m) ;; on_akern (free_msg p)
     | TASK_MSG_CALLBACK_STATIC =>
         on_akern (update_msg p (fun m => set_cnt (cbs_cnt m - 1) m)) ;; do_call id (cbs_function m) (cbs_ctx m)
     | TASK_MSG_TIMEOUT => start id (tmo_msecs m) (tmo_h m) (tmo_arg m) ;; on_akern (free_msg p)
     | TASK_MSG_UNTIMEOUT => cancel id (tmo_h m) (tmo_arg m) ;; on_akern (free_msg p)
     | _ => mret tt
     end)).
  { destruct (type m) eqn:Et; keep; try (by apply start_ok, Hm); try (by apply cancel_ok); by apply call_ok. }
  intros t0 t' Hr. by apply (Hkeep t0 tt t').
Qed.

Lemma act_ok a : act_short a -> keeps ok (do_act a).
Proof.
  destruct a as [fuel tp|tp|c|g]; cbn [do_act act_short]; intros Ha.
  - unfold task, wait. keep; [by apply round_ok|by apply serve_ok].
  - unfold turn. keep; [by apply round_ok|by apply serve_ok].
  - keep. by apply keeps_akern, orderly_client.
  - apply keeps_akern, orderly_world. exact Ha.
Qed.

Lemma acts_ok l : Forall act_short l -> keeps ok (do_acts l).
Proof. induction 1 as [|a l Ha _ IH]; cbn; [keep|]. apply keeps_bind; [exact _|by apply act_ok|by intros []]. Qed.

(** C23. Handlers are not called early.  As long as no delay reaches
    [tick_limit] (8589935 ms), after any sequence of rounds, turns, requests
    and other changes of the world, every list is in the order in which its
    entries fall due, those that fall due together in the order in which they
    were started; and every handler that was called was called when its delay
    had passed on the clock of the kernel, less one millisecond for each
    expiry of the list since it was started and one for its own: a wait of an
    odd number of milliseconds is one millisecond short, and the code never
    looks at the clock to make up for it. *)
Theorem timers_never_early l s t s' :
  reps s t -> sched_ok t -> Forall act_short l -> run_acts l s = Some (tt, s') ->
  wp (do_acts l) t (fun _ t' => reps s' t' /\
    (forall i line, lines t' !! i = Some line -> StronglySorted before line) /\
    (forall f, f ∈ fired t' ->
       span (f_entry f) - (passed (f_entry f) + 1) <= 2 * (f_tick f - born (f_entry f)))).
Proof.
  intros HR Hok Hl Hrun. pose proof (sim_acts l s t HR) as Hs. rewrite Hrun in Hs.
  destruct (do_acts l t) as [[[] t']|] eqn:Ed; [|done]. destruct Hs as [_ HR']. apply (wp_eq _ _ tt t'); [done|].
  pose proof (acts_ok l Hl t tt t' Ed Hok) as Hok'. split; [done|]. split.
  - intros i line Hi. apply (ok_get _ _ _ Hok' Hi).
  - intros f Hf. pose proof (proj1 (Forall_forall _ _) (so_fired _ Hok') f Hf) as Hfire. unfold fire_ok in Hfire. lia.
Qed.
End timing.
