(* ===== verification/WlLive.v ===== *)
(** * A waiting work-queue task gets its message

    With a message on its way to the mailbox, and handlers that do not start
    timers of no delay, the loop of [tls_timeouts_mbox_fetch_p] ends: each
    round delivers the message, or lets time pass, or uses up one of the
    timeouts that were due. *)
From S2P Require Import Prelude CMonad Keeps Simul HostEnv WlMbox WlTimers WlSched WlTimersSpec WlRefine WlTiming WlProps.

(** [w_expects mb T w]: the mailbox has a message at tick [T] at the latest,
    whatever the task does until it takes one. *)
Class WorldLive (W : Type) `{World W} := {
  w_expects : Z -> Z -> W -> Prop;
  w_expects_now mb T n w : w_expects mb T w -> n = 0 \/ T <= w_ticks w + n -> exists m w', w_receive mb n w = Some (Some m, w');
  w_expects_wait mb T n w : w_expects mb T w -> n <> 0 ->
    exists r w', w_receive mb n w = Some (r, w') /\ (r = None -> w_expects mb T w');
  w_expects_send mb T q m w : w_expects mb T w -> w_expects mb T (snd (w_send q m w));
  w_expects_delay mb T n w : w_expects mb T w -> w_expects mb T (w_delay n w);
  w_expects_call mb T f a w : w_expects mb T w -> w_expects mb T (snd (w_call f a w))
}.

(** Requests that name existing mailboxes and messages; timers with a delay. *)
Definition tp_ready (tp : task_parameter) : Prop := 0 <= mbox_id tp < TLS_MBOX_ALL_COUNT.
Definition cop_ready (c : cop) : Prop :=
  match c with
  | Callback tp _ _ _ | AddTimeout tp _ _ _ | Untimeout tp _ _ => tp_ready tp
  | CallbackStatic tp _ _ _ msg_id => tp_ready tp /\ 0 <= msg_id < TLS_MSG_ALL_COUONT
  end.
Definition wop_ready (o : wop) : Prop :=
  match o with Arm msecs _ _ => u32 msecs <> 0 | Disarm _ _ => True | Client c => cop_ready c end.

Section live.
Context {E W : Type} `{HostLaws E} `{!HostBlocks E} `{WorldLaws W} `{!WorldLive W}.
Context (mb T : Z).
Implicit Types k : kst E W.

(** The message is still on its way, and tick [n] has been. *)
Record live (n : Z) k : Prop := {
  lv_mbox : length (task_mbox k) = Z.to_nat TLS_MBOX_ALL_COUNT;
  lv_msgs : length (wl_msg k) = Z.to_nat TLS_MSG_ALL_COUONT;
  lv_expects : w_expects mb T (world k);
  lv_later : n <= w_ticks (world k)
}.

Lemma wp_world {A} (f : W -> A * W) k (Q : A -> kst E W -> Prop) :
  (forall x w, f (world k) = (x, w) -> Q x (with_world k w)) -> wp (on_world f) k Q.
Proof using. intros HQ. apply wp_zoom. cbn. destruct (f (world k)) as [x w] eqn:Ef. by apply HQ. Qed.

Lemma send_live q m n k (Q : bool -> kst E W -> Prop) :
  live n k -> (forall ok k', live n k' -> hmsgs k' = hmsgs k -> Q ok k') -> wp (on_world (w_send q m)) k Q.
Proof.
  intros [Hb Hm He Hl] HQ. apply wp_world. intros ok w Ew. apply HQ; [|done]. split; cbn; [done|done| |].
  - replace w with (snd (w_send q m (world k))) by (by rewrite Ew). by apply w_expects_send.
  - pose proof (w_send_later q m (world k)) as Hs. rewrite Ew in Hs. cbn in Hs. lia.
Qed.

Lemma post_live q m n k (Q : unit -> kst E W -> Prop) :
  live n k -> (forall k', live n k' -> hmsgs k' = hmsgs k -> Q tt k') -> wp (tls_mbox_post q m) k Q.
Proof.
  intros Hl HQ. apply (wp_loop (fun i k' => 0 <= i <= 10 /\ live n k' /\ hmsgs k' = hmsgs k) (fun i => Z.to_nat (10 - i))); [lia|by split; [lia|]|].
  intros i k1 (Hi & Hl1 & Hh1). destruct (Z.ltb_spec i 10) as [Hlt|]; [|apply wp_ret; by apply HQ].
  apply wp_bind. eapply send_live; [done|]. intros [] k2 Hl2 Hh2; [apply wp_ret, HQ; [done|congruence]|].
  apply wp_bind, wp_world. intros x w [= _ <-]. apply wp_ret. rewrite wrap_id by lia. split; [lia|]. split; [lia|].
  destruct Hl2 as [Hb Hm He Hl2]. split; [|by rewrite <- Hh1, <- Hh2]. split; cbn; [done|done|by apply w_expects_delay|].
  pose proof (w_delay_later 5 (world k2)). lia.
Qed.

Lemma mbox_live tp n k (Q : Z -> kst E W -> Prop) : tp_ready tp -> live n k -> (forall q, Q q k) -> wp (mbox_of tp) k Q.
Proof using.
  intros Htp [Hb _ _ _] HQ. apply wp_bind, wp_gets. unfold tp_ready, TLS_MBOX_ALL_COUNT in *.
  destruct (lookup_lt_is_Some_2 (task_mbox k) (Z.to_nat (mbox_id tp))) as [q Hq]; [lia|]. eapply wp_must; [done|]. apply HQ.
Qed.

Lemma alloc_live n k (Q : Z -> kst E W -> Prop) :
  live n k -> (forall k', live n k' -> Q 0 k') ->
  (forall p m k', live n k' -> hmsgs k' !! p = Some m -> Q p k') -> wp alloc_msg k Q.
Proof.
  intros [Hb Hm He Hl] H0' HQ. apply wp_bind, wp_zoom. cbn.
  destruct (h_alloc sizeof_task_msg (host k)) as [[[p l]|] e]; [|by apply wp_ret, H0'].
  apply wp_bind, wp_modify, wp_ret. eapply HQ; [by split|]. cbn. apply lookup_insert_eq.
Qed.

Lemma update_live p m f n k (Q : unit -> kst E W -> Prop) :
  live n k -> hmsgs k !! p = Some m -> (forall k', live n k' -> hmsgs k' !! p = Some (f m) -> Q tt k') ->
  wp (update_msg (MHeap p) f) k Q.
Proof using.
  intros [Hb Hm He Hl] Hp HQ. apply wp_bind, wp_bind, wp_gets. eapply wp_must; [done|]. apply wp_modify, HQ; [by split|].
  cbn. apply lookup_insert_eq.
Qed.

Lemma update_static_live i f n k (Q : unit -> kst E W -> Prop) :
  live n k -> 0 <= i < TLS_MSG_ALL_COUONT -> (forall k', live n k' -> Q tt k') -> wp (update_msg (MStatic i) f) k Q.
Proof using.
  intros [Hb Hm He Hl] Hi HQ. apply wp_bind, wp_bind, wp_gets. unfold TLS_MSG_ALL_COUONT in *.
  destruct (lookup_lt_is_Some_2 (wl_msg k) (Z.to_nat i)) as [m Hi']; [lia|]. eapply wp_must; [done|]. apply wp_modify, HQ.
  split; cbn; [done|by rewrite length_insert|done|done].
Qed.

Lemma free_live p m n k (Q : unit -> kst E W -> Prop) :
  live n k -> hmsgs k !! p = Some m -> (forall k', live n k' -> Q tt k') -> wp (free_msg (MHeap p)) k Q.
Proof using.
  intros [Hb Hm He Hl] Hp HQ. apply wp_bind, wp_bind, wp_gets. eapply wp_must; [done|]. apply wp_bind, wp_modify, wp_zoom. cbn.
  apply HQ. by split.
Qed.

(** ** Requests return *)

Lemma callback_live tp f a block n k (Q : Z -> kst E W -> Prop) :
  tp_ready tp -> live n k -> (forall r k', live n k' -> Q r k') -> wp (tls_wl_task_callback tp f a block) k Q.
Proof.
  intros Htp Hl HQ. apply wp_bind. eapply mbox_live; [done..|]. intros q. destruct (negb _); [|by apply wp_ret, HQ].
  apply wp_bind. eapply alloc_live; [done|intros k1 Hl1; by apply wp_ret, HQ|]. intros p m k1 Hl1 Hp.
  destruct (p =? 0); [by apply wp_ret, HQ|]. apply wp_bind. eapply update_live; [done..|]. intros k2 Hl2 Hp2.
  destruct (negb _).
  - apply wp_bind. eapply post_live; [done|]. intros k3 Hl3 _. by apply wp_ret, HQ.
  - apply wp_bind, wp_bind. eapply send_live; [done|]. intros ok k3 Hl3 Hh3. apply wp_ret.
    destruct (negb _); [|by apply wp_ret, HQ]. apply wp_bind. eapply free_live; [done|by rewrite Hh3|]. intros k4 Hl4. by apply wp_ret, HQ.
Qed.

Lemma static_live tp f a block i n k (Q : Z -> kst E W -> Prop) :
  tp_ready tp -> 0 <= i < TLS_MSG_ALL_COUONT -> live n k -> (forall r k', live n k' -> Q r k') ->
  wp (tls_wl_task_callback_static tp f a block i) k Q.
Proof.
  intros Htp Hi Hl HQ. unfold tls_wl_task_callback_static.
  assert (Hm : exists m, wl_msg k !! Z.to_nat i = Some m).
  { destruct Hl as [_ Hm _ _]. unfold TLS_MSG_ALL_COUONT in *. apply lookup_lt_is_Some_2. lia. }
  destruct Hm as [m Hm]. apply wp_bind, wp_bind, wp_gets. eapply wp_must; [done|]. destruct (0 <? cbs_cnt m); [by apply wp_ret, HQ|].
  apply wp_bind. eapply mbox_live; [done..|]. intros q. destruct (negb _); [|by apply wp_ret, HQ].
  apply wp_bind. eapply update_static_live; [done..|]. intros k1 Hl1. apply wp_bind.
  apply (wp_mono _ _ (fun _ k' => live n k')).
  - destruct (negb _); [apply wp_bind; eapply post_live; [done|]; intros k2 Hl2 _; by apply wp_ret|].
    apply wp_bind, wp_bind. eapply send_live; [done|]. intros ok k2 Hl2 _. by apply wp_ret, wp_ret.
  - intros sent k2 Hl2. destruct sent; [|by apply wp_ret, HQ]. apply wp_bind. eapply update_static_live; [done..|].
    intros k3 Hl3. by apply wp_ret, HQ.
Qed.

(** [tls_wl_task_add_timeout] and [tls_wl_task_untimeout] send a message. *)
Lemma message_live tp f n k (Q : Z -> kst E W -> Prop) :
  tp_ready tp -> live n k -> (forall r k', live n k' -> Q r k') ->
  wp (mbox ← mbox_of tp;
      if negb (tls_mbox_valid mbox =? 0) then
        p ← alloc_msg;
        if p =? 0 then mret TLS_OS_ERROR
        else update_msg (MHeap p) f ;; tls_mbox_post mbox (MHeap p) ;; mret TLS_OS_SUCCESS
      else mret TLS_OS_ERROR) k Q.
Proof.
  intros Htp Hl HQ. apply wp_bind. eapply mbox_live; [done..|]. intros q. destruct (negb _); [|by apply wp_ret, HQ].
  apply wp_bind. eapply alloc_live; [done|intros k1 Hl1; by apply wp_ret, HQ|]. intros p m k1 Hl1 Hp.
  destruct (p =? 0); [by apply wp_ret, HQ|]. apply wp_bind. eapply update_live; [done..|]. intros k2 Hl2 _.
  apply wp_bind. eapply post_live; [done|]. intros k3 Hl3 _. by apply wp_ret, HQ.
Qed.

Lemma client_live c n k (Q : Z -> kst E W -> Prop) :
  cop_ready c -> live n k -> (forall r k', live n k' -> Q r k') -> wp (run_client c) k Q.
Proof.
  intros Hc Hl HQ. destruct c as [tp f a block|tp f a block i|tp msecs f a|tp f a]; cbn in Hc |- *.
  - by eapply callback_live.
  - destruct Hc. by eapply static_live.
  - by eapply message_live.
  - by eapply message_live.
Qed.
End live.

(** ** The waiting loop *)

(** The entries that are due. *)
Definition zeros (l : list entry) : nat := length (filter (fun e => due e = 0) l).

Lemma zeros_perm l l' : l ≡ₚ l' -> zeros l = zeros l'.
Proof. intros Hl. unfold zeros. by rewrite Hl. Qed.

Lemma zeros_cons e l : zeros (e :: l) = Nat.add (if decide (due e = 0) then 1%nat else 0%nat) (zeros l).
Proof. unfold zeros. rewrite filter_cons. by case_decide. Qed.

Lemma place_perm e l : place e l ≡ₚ e :: l.
Proof.
  induction l as [|x l IH]; [done|]. cbn. destruct (due e <? due x); [done|]. rewrite IH. apply Permutation_swap.
Qed.

Section waiting.
Context {E W : Type} `{HostLaws E} `{!HostBlocks E} `{WorldLaws W} `{!WorldLive W}.
Context (mb T id : Z).
Context (short_calls : forall f a w, Forall wop_short (fst (w_call f a w))).
Context (ready_calls : forall f a w, Forall wop_ready (fst (w_call f a w))).
Implicit Types t : asys E W.

(** At most [z] entries of the task's list are due. *)
Definition alive (n : Z) (z : nat) t : Prop :=
  live mb T n (akern t) /\ exists l, lines t !! Z.to_nat id = Some l /\ (zeros l <= z)%nat.

Lemma wp_akern {A} (m : M (kst E W) A) n z t (Q : A -> asys E W -> Prop) :
  alive n z t -> wp m (akern t) (fun x k => live mb T n k /\ (forall t', akern t' = k -> alive n z t' -> Q x t')) -> wp (on_akern m) t Q.
Proof using.
  intros [Hl Hz] Hm. apply wp_zoom. apply wp_run in Hm as (x & k & -> & Hk & HQ). by apply HQ.
Qed.

Lemma wop_live o n z t : wop_ready o -> alive n z t -> wp (do_wop id o) t (fun _ t' => alive n z t').
Proof.
  intros Ho Ha. destruct o as [msecs f a|f a|c]; cbn in Ho |- *.
  - destruct t as [k ls log], Ha as [[Hb Hm He Hl] (l & El & Hz)]. cbn in *. unfold wp. rewrite start_run, El.
    destruct (h_alloc sizeof_timeo (host k)) as [[[p bs]|] e]; cbn.
    + split; [by split|]. eexists. cbn. split; [apply list_lookup_insert_eq; by eapply lookup_lt_Some|].
      rewrite (zeros_perm _ _ (place_perm _ _)), zeros_cons. cbn. by rewrite decide_False.
    + split; [by split|]. by exists l.
  - destruct t as [k ls log], Ha as [[Hb Hm He Hl] (l & El & Hz)]. cbn in *.
    apply wp_bind, wp_bind, wp_gets. eapply wp_must; [done|]. destruct (pick f a l) as [[e l']|] eqn:Ep.
    + apply wp_bind, wp_modify, wp_zoom. cbn. split; [by split|]. eexists. cbn.
      split; [apply list_lookup_insert_eq; by eapply lookup_lt_Some|].
      rewrite (zeros_perm _ _ (pick_perm _ _ _ _ _ Ep)), zeros_cons in Hz. lia.
    + apply wp_ret. split; [by split|]. by exists l.
  - apply wp_bind. eapply wp_akern; [done|]. eapply client_live; [done|apply Ha|]. intros r k' Hl'.
    split; [done|]. intros t' _ Ha'. by apply wp_ret.
Qed.

Lemma wops_live os n z t : Forall wop_ready os -> alive n z t -> wp (do_wops id os) t (fun _ t' => alive n z t').
Proof.
  intros Ho. revert t. induction Ho as [|o os Ho _ IH]; intros t Ha; cbn; [by apply wp_ret|].
  apply wp_bind. eapply wp_mono; [by apply wop_live|]. intros [] t' Ha'. by apply IH.
Qed.

Lemma call_live f a n z t : f <> 0 -> alive n z t -> wp (do_call id f a) t (fun _ t' => alive n z t').
Proof.
  intros Hf Ha. unfold do_call. rewrite (proj2 (Z.eqb_neq _ _)) by done. apply wp_bind. eapply wp_akern; [done|].
  destruct Ha as [[Hb Hm He Hl] _]. apply wp_world. intros os w Ew. split.
  - split; cbn; [done|done| |].
    + replace w with (snd (w_call f a (world (akern t)))) by (by rewrite Ew). by apply w_expects_call.
    + pose proof (w_call_later f a (world (akern t))) as Hc. rewrite Ew in Hc. cbn in Hc. lia.
  - intros t' _ Ha'. apply wops_live; [|done]. pose proof (ready_calls f a (world (akern t))) as Hr. by rewrite Ew in Hr.
Qed.

Lemma expire_live e rest n z k ls log :
  live mb T n k -> (Z.to_nat id < length ls)%nat -> (zeros (overtaken (due e) <$> rest) <= z)%nat ->
  wp (expire id e rest) (Asys k ls log) (fun _ t' => alive n z t').
Proof.
  intros Hl Hid Hz. apply wp_bind, wp_modify, wp_bind, wp_zoom. cbn. apply wp_bind, wp_modify. cbn.
  match goal with |- wp _ ?t0 _ => assert (Ha : alive n z t0) end.
  { split; [by destruct Hl|]. eexists. cbn. split; [by apply list_lookup_insert_eq|done]. }
  destruct (Z.eqb_spec (fn e) 0) as [|Hf]; [by apply wp_ret|]. by apply call_live.
Qed.

Lemma zeros_overtaken rest : zeros (overtaken 0 <$> rest) = zeros rest.
Proof using.
  induction rest as [|x l IH]; [done|]. rewrite fmap_cons, !zeros_cons, IH. cbn. by rewrite Z.sub_0_r.
Qed.

(** A round delivers the message, lets time pass before it is there, or
    leaves one entry less that is due. *)
Lemma round_live z t : sched_ok t -> alive (now t) z t ->
  wp (wait_round id mb) t (fun r t' => match r with
    | inr _ => True
    | inl _ => (now t < T /\ exists z', alive (now t + 1) z' t') \/ (exists z', z = S z' /\ alive (now t) z' t')
    end).
Proof.
  intros Hok [Hl (l & El & Hz)]. pose proof (ok_get _ _ _ Hok El) as Hlok. destruct t as [k ls log]. cbn in *.
  apply wp_bind, wp_bind, wp_gets. eapply wp_must; [done|]. destruct l as [|e rest].
  - apply wp_bind, wp_zoom. cbn. rewrite fetch_run.
    destruct (w_expects_now mb T 0 _ (lv_expects _ _ _ _ Hl)) as (m & w & Er); [by left|].
    change (wait_ticks 0) with 0. rewrite Er. by apply wp_bind, wp_ret, wp_ret.
  - assert (Hid : (Z.to_nat id < length ls)%nat) by (by eapply lookup_lt_Some).
    pose proof Hlok as [_ [[Hdue _ _ _] _]%Forall_cons]. apply wp_bind. destruct (Z.ltb_spec 0 (due e)) as [Hpos|Hzero].
    + destruct (wait_ticks_short (due e)) as [_ Hwt]; [lia|]. apply wp_zoom. cbn. rewrite fetch_run.
      destruct (w_expects_wait mb T (wait_ticks (due e)) _ (lv_expects _ _ _ _ Hl)) as (r & w & Er & Hx); [lia|]. rewrite Er.
      pose proof (w_receive_later _ _ _ _ _ Er) as Hlater. destruct r as [m|].
      * destruct (reckoned_bounds _ _ Hlater) as [_ Hne]. cbn. rewrite (proj2 (Z.eqb_neq _ _)) by done.
        by apply wp_bind, wp_modify, wp_bind, wp_ret, wp_ret.
      * assert (HnT : w_ticks (world k) + wait_ticks (due e) < T).
        { destruct (Z.lt_ge_cases (w_ticks (world k) + wait_ticks (due e)) T) as [|Hge]; [done|].
          destruct (w_expects_now mb T (wait_ticks (due e)) _ (lv_expects _ _ _ _ Hl)) as (m & w' & Er'); [by right|]. congruence. }
        pose proof (w_receive_lasts mb (wait_ticks (due e)) _ w ltac:(lia) Er) as Hlast.
        cbn. apply wp_bind. eapply wp_mono; [apply (expire_live _ _ (now (Asys k ls log) + 1)); [|done|reflexivity]|].
        { destruct Hl. split; cbn; [done|done|by apply Hx|]. unfold now. cbn. lia. }
        intros [] t' Ha. apply wp_ret. left. split; [unfold now; cbn; lia|]. by eexists.
    + assert (Hd0 : due e = 0) by lia. rewrite zeros_cons, decide_True in Hz by done. destruct z as [|z]; [lia|].
      apply wp_ret. unfold after_wait. rewrite Z.eqb_refl. apply wp_bind.
      eapply wp_mono; [apply (expire_live _ _ (now (Asys k ls log)) z); [done|done|]|].
      { rewrite Hd0, zeros_overtaken. lia. }
      intros [] t' Ha. apply wp_ret. right. by exists z.
Qed.

Lemma wait_live (d : nat) : forall z t, sched_ok t -> alive (now t) z t -> T - now t <= Z.of_nat d ->
  exists fuel p t', wait fuel id mb t = Some (p, t').
Proof.
  induction d as [d IHd] using lt_wf_ind. intros z. induction z as [z IHz] using lt_wf_ind. intros t Hok Ha Hd.
  destruct (proj1 (wp_run _ _ _) (round_live z t Hok Ha)) as (r & t1 & Er & Hr). destruct r as [[]|p].
  - assert (Hok1 : sched_ok t1) by (by eapply round_ok).
    assert (Hrec : exists fuel p t', wait fuel id mb t1 = Some (p, t')).
    { destruct Hr as [[HT (z' & Ha1)]|(z' & -> & Ha1)].
      - pose proof (lv_later _ _ _ _ (proj1 Ha1)) as Hn. eapply (IHd (Z.to_nat (T - now t1)) _ z'); [done| |lia].
        destruct Ha1 as [[Hb Hm He _] Hz]. split; [|done]. by split.
      - pose proof (lv_later _ _ _ _ (proj1 Ha1)) as Hn. apply (IHz z'); [lia|done| |unfold now in *; lia].
        destruct Ha1 as [[Hb Hm He _] Hz]. split; [|done]. by split. }
    destruct Hrec as (fuel & p & t' & Hw). exists (S fuel), p, t'. unfold wait in *. cbn [mloop].
    unfold mbind, M_bind. by rewrite Er.
  - exists 1%nat, p, t1. unfold wait. cbn [mloop]. unfold mbind, M_bind. by rewrite Er.
  Unshelve. unfold now in *. lia.
Qed.

(** C22. Waiting ends.  With a message on its way to the mailbox of the task,
    [tls_timeouts_mbox_fetch_p] returns a message, however many timeouts
    expire before it, if those on the lists are below the limit of 8589935 ms
    ([sched_ok]), their handlers start no timer of delay 0 and none beyond it, and name mailboxes and messages that exist
    ([ready_calls], [short_calls]); what they start, stop and request otherwise
    is free.  (The first condition is needed: what is due is served before the
    mailbox is looked at, so that a handler that starts itself again without
    delay keeps the task from its messages.) *)
Theorem wl_fetch_returns s t :
  reps s t -> sched_ok t -> 0 <= id < TLS_TIMEO_ALL_COUONT -> length (next_timeout s) = Z.to_nat TLS_TIMEO_ALL_COUONT ->
  length (task_mbox (kern s)) = Z.to_nat TLS_MBOX_ALL_COUNT -> length (wl_msg (kern s)) = Z.to_nat TLS_MSG_ALL_COUONT ->
  w_expects mb T (world (kern s)) ->
  exists fuel p s', tls_timeouts_mbox_fetch_p fuel id mb s = Some (p, s').
Proof.
  intros HR Hok Hid Hn Hb Hm He. rewrite (rp_kern _ _ HR) in Hb, Hm, He.
  assert (Hlen : length (lines t) = Z.to_nat TLS_TIMEO_ALL_COUONT) by (by rewrite <- (Forall2_length _ _ _ (rp_chains _ _ HR))).
  destruct (lookup_lt_is_Some_2 (lines t) (Z.to_nat id)) as [l El]; [lia|].
  destruct (wait_live (Z.to_nat (T - now t)) (zeros l) t) as (fuel & p & t' & Hw); [done| |lia|].
  { split; [split; try done; unfold now; lia|]. exists l. by split. }
  pose proof (sim_wait fuel id mb s t HR) as Hs. rewrite Hw in Hs. exists fuel, p.
  destruct (tls_timeouts_mbox_fetch_p fuel id mb s) as [[p' s']|]; [|done]. destruct Hs as [-> _]. by exists s'.
Qed.
End waiting.
