(* ===== verification/WlWorld.v ===== *)
(** * A concrete world for the work-queue tasks

    Mailboxes of bounded size with messages that arrive at given ticks, a
    clock, and functions that note their calls; one of them starts a timer
    for itself again.  The laws asked of the kernel hold of it. *)
From S2P Require Import Prelude CMonad HostEnv WlMbox WlTimers WlSched WlTiming WlLive.

(** [inbox]: mailbox, tick of arrival, message; [calls]: function, argument,
    tick. *)
Record simw := Simw { tick : Z; inbox : list (Z * Z * msg_ptr); room : Z; calls : list (Z * Z * Z) }.

Fixpoint next_for (mb : Z) (l : list (Z * Z * msg_ptr)) : option (Z * msg_ptr * list (Z * Z * msg_ptr)) :=
  match l with
  | [] => None
  | (q, T, m) :: l =>
      if q =? mb then Some (T, m, l)
      else match next_for mb l with Some (T', m', l') => Some (T', m', (q, T, m) :: l') | None => None end
  end.

Lemma next_for_app mb l x T m r : next_for mb l = Some (T, m, r) -> next_for mb (l ++ [x]) = Some (T, m, r ++ [x]).
Proof.
  revert T m r. induction l as [|[[q T0] m0] l IH]; intros T m r; [done|]. cbn. destruct (q =? mb); [by intros [= <- <- <-]|].
  destruct (next_for mb l) as [[[T1 m1] r1]|]; [|done]. intros [= <- <- <-]. by rewrite (IH T1 m1 r1 eq_refl).
Qed.

(** The function 5 starts itself again after 10 ms; the function 6 asks for a
    timer for the function 8. *)
Definition sample_task : task_parameter := TaskParameter 6 0x20002000 512 4 1 2.
Definition script (f a : Z) : list wop :=
  if f =? 5 then [Arm 10 5 a] else if f =? 6 then [Client (AddTimeout sample_task 20 8 a); Disarm 9 a] else [].

Definition sim_receive (mb n : Z) (w : simw) : option (option msg_ptr * simw) :=
  match next_for mb (inbox w) with
  | Some (T, m, r) =>
      if (n =? 0) || (T <=? tick w + Z.max 0 n) then Some (Some m, Simw (tick w `max` T) r (room w) (calls w))
      else Some (None, Simw (tick w + Z.max 0 n) (inbox w) (room w) (calls w))
  | None => if n =? 0 then None else Some (None, Simw (tick w + Z.max 0 n) (inbox w) (room w) (calls w))
  end.
Definition sim_send (mb : Z) (m : msg_ptr) (w : simw) : bool * simw :=
  if zlen (inbox w) <? room w then (true, Simw (tick w) (inbox w ++ [(mb, tick w, m)]) (room w) (calls w)) else (false, w).

#[export] Instance sim_world : World simw := {|
  w_ticks := tick;
  w_receive := sim_receive;
  w_send := sim_send;
  w_delay n w := Simw (tick w + Z.max 0 n) (inbox w) (room w) (calls w);
  w_queue_create _ w := (Some 100, w);
  w_task_create _ _ _ w := (true, w);
  w_call f a w := (script f a, Simw (tick w) (inbox w) (room w) (calls w ++ [(f, a, tick w)]))
|}.

#[export] Instance sim_world_laws : WorldLaws simw.
Proof.
  split; cbn.
  - intros mb n w r w'. unfold sim_receive. destruct (next_for mb (inbox w)) as [[[T m] l]|]; case_match; try done; intros [= _ <-]; cbn; lia.
  - intros mb n w w' Hn. unfold sim_receive. destruct (next_for mb (inbox w)) as [[[T m] l]|]; case_match; try done; intros [= <-]; cbn; lia.
  - intros mb m w. unfold sim_send. case_match; cbn; lia.
  - intros n w. lia.
  - intros f a w. lia.
Qed.

#[export] Program Instance sim_world_live : WorldLive simw := {|
  w_expects mb T w := exists T0 m r, next_for mb (inbox w) = Some (T0, m, r) /\ T0 <= T
|}.
Next Obligation.
  intros mb T n w (T0 & m & r & Hx & HT) Hn. cbn. unfold sim_receive. rewrite Hx.
  assert (Hb : (n =? 0) || (T0 <=? tick w + 0 `max` n) = true).
  { change (w_ticks w) with (tick w) in Hn. apply orb_true_iff. destruct Hn as [Hn|Hn]; [left; by apply Z.eqb_eq|right; apply Z.leb_le; lia]. }
  rewrite Hb. by do 2 eexists.
Qed.
Next Obligation.
  intros mb T n w (T0 & m & r & Hx & HT) Hn. cbn. unfold sim_receive. rewrite Hx.
  destruct (_ || _); do 2 eexists; (split; [reflexivity|]); [done|]. intros _. cbn. eauto.
Qed.
Next Obligation.
  intros mb T q m w (T0 & m0 & r & Hx & HT). cbn. unfold sim_send. case_match; cbn; [|by eauto].
  exists T0, m0, (r ++ [(q, tick w, m)]). split; [by apply next_for_app|done].
Qed.
Next Obligation. intros mb T n w Hx. exact Hx. Qed.
Next Obligation. intros mb T f a w Hx. exact Hx. Qed.

Lemma script_short f a (w : simw) : Forall wop_short (fst (w_call f a w)).
Proof. cbn. unfold script. repeat case_match; repeat constructor. Qed.

Lemma script_ready f a (w : simw) : Forall wop_ready (fst (w_call f a w)).
Proof. cbn. unfold script. repeat case_match; repeat constructor; cbn; done. Qed.
