(* ===== verification/WlRequests.v ===== *)
(** * Requests to a work-queue task, from the sender to the handler

    What a request leaves in the mailbox, what the task makes of it, and how
    requests get lost: a mailbox that stays full, a heap without room, a
    delay beyond the limit. *)
From S2P Require Import Prelude CMonad Keeps Simul HostEnv WlMbox WlTimers WlSched WlTimersSpec WlRefine WlTiming WlProps.

Section requests.
Context {E W : Type} `{HostLaws E} `{!HostBlocks E} `{World W}.
Implicit Types k : kst E W.

(** ** A mailbox that stays full *)

(** The world after [n] attempts to send that are all refused, with the
    pauses between them. *)
Fixpoint dropped (n : nat) (q : Z) (m : msg_ptr) (w : W) : option W :=
  match n with
  | O => Some w
  | S n => if fst (w_send q m w) then None else dropped n q m (w_delay 5 (snd (w_send q m w)))
  end.

Lemma post_dropped q m k w' : dropped 10 q m (world k) = Some w' ->
  wp (tls_mbox_post q m) k (fun _ k' => k' = with_world k w').
Proof.
  unfold tls_mbox_post. assert (Hgen : forall n i fuel k1, Z.of_nat n + i = 10 -> 0 <= i -> (n < fuel)%nat ->
    dropped n q m (world k1) = Some w' -> with_world k1 w' = with_world k w' ->
    wp (mloop fuel (fun i => if i <? 10 then
      ok ← on_world (w_send q m);
      if (ok : bool) then mret (inr tt) else on_world (fun w => (tt, w_delay 5 w)) ;; mret (inl (u8 (i + 1)))
    else mret (inr tt)) i) k1 (fun _ k' => k' = with_world k w')).
  { induction n as [|n IH]; intros i fuel k1 Hi Hi0 Hf Hd Hk; (destruct fuel as [|fuel]; [lia|]); cbn [mloop]; apply wp_bind.
    - rewrite (proj2 (Z.ltb_ge _ _)) by lia. apply wp_ret, wp_ret. cbn in Hd. injection Hd as <-. rewrite <- Hk. by destruct k1.
    - rewrite (proj2 (Z.ltb_lt _ _)) by lia. apply wp_bind, wp_zoom. cbn in Hd |- *.
      destruct (w_send q m (world k1)) as [ok w]. cbn in Hd. destruct ok; [done|]. apply wp_bind, wp_zoom, wp_ret. cbn.
      rewrite wrap_id by lia. apply IH; [lia|lia|lia|done|done]. }
  intros Hd. apply (Hgen 10%nat); (done || lia).
Qed.

(** The block of a message. *)
Lemma alloc_msg_some p bs e k (Q : Z -> kst E W -> Prop) :
  h_alloc sizeof_task_msg (host k) = (Some (p, bs), e) ->
  (forall m, p <> 0 -> Q p (Kst e (world k) (task_mbox k) (<[p := m]> (hmsgs k)) (wl_msg k))) -> wp alloc_msg k Q.
Proof.
  intros Ea HQ. destruct (h_alloc_spec sizeof_task_msg _ p bs e ltac:(done) Ea) as (_ & Hp & _).
  apply wp_bind, wp_zoom. cbn. rewrite Ea. apply wp_bind, wp_modify, wp_ret. by apply HQ.
Qed.

Lemma mbox_of_some tp q k (Q : Z -> kst E W -> Prop) :
  task_mbox k !! Z.to_nat (mbox_id tp) = Some q -> Q q k -> wp (mbox_of tp) k Q.
Proof using. intros Hq HQ. apply wp_bind, wp_gets. by eapply wp_must. Qed.

Lemma update_heap p m f k (Q : unit -> kst E W -> Prop) :
  hmsgs k !! p = Some m -> Q tt (Kst (host k) (world k) (task_mbox k) (<[p := f m]> (hmsgs k)) (wl_msg k)) ->
  wp (update_msg (MHeap p) f) k Q.
Proof using. intros Hp HQ. apply wp_bind, wp_bind, wp_gets. eapply wp_must; [done|]. by apply wp_modify. Qed.

Lemma update_static i m f k (Q : unit -> kst E W -> Prop) :
  wl_msg k !! Z.to_nat i = Some m ->
  Q tt (Kst (host k) (world k) (task_mbox k) (hmsgs k) (<[Z.to_nat i := f m]> (wl_msg k))) ->
  wp (update_msg (MStatic i) f) k Q.
Proof using. intros Hp HQ. apply wp_bind, wp_bind, wp_gets. eapply wp_must; [done|]. by apply wp_modify. Qed.

(** A timer that nobody will start.  If the mailbox stays full for the ten
    attempts of [tls_mbox_post], [tls_wl_task_add_timeout] returns
    [TLS_OS_SUCCESS] like after a delivery: the message is in no mailbox, no
    handler will be called, and its block stays allocated. *)
Theorem add_timeout_lost tp msecs f a k q p bs e w' :
  task_mbox k !! Z.to_nat (mbox_id tp) = Some q -> q <> 0 ->
  h_alloc sizeof_task_msg (host k) = (Some (p, bs), e) -> dropped 10 q (MHeap p) (world k) = Some w' ->
  wp (tls_wl_task_add_timeout tp msecs f a) k (fun r k' =>
    r = TLS_OS_SUCCESS /\ world k' = w' /\ host k' = e /\
    exists m, hmsgs k' = <[p := m]> (hmsgs k) /\ type m = TASK_MSG_TIMEOUT /\ tmo_msecs m = msecs /\ tmo_h m = f /\ tmo_arg m = a).
Proof.
  intros Hq Hq0 Ea Hd. apply wp_bind. eapply mbox_of_some; [done|]. unfold tls_mbox_valid.
  rewrite (proj2 (Z.eqb_neq q 0)) by done. cbn [negb Z.eqb]. apply wp_bind. eapply alloc_msg_some; [done|]. intros m0 Hp.
  rewrite (proj2 (Z.eqb_neq p 0)) by done. apply wp_bind. eapply update_heap; [apply lookup_insert_eq|]. cbn.
  apply wp_bind. eapply wp_mono; [by apply post_dropped|]. intros [] k' ->. apply wp_ret. cbn.
  do 3 (split; [done|]). eexists. split; [by rewrite insert_insert_eq|done].
Qed.

(** ** The static messages *)

(** The count of [wl_msg[i]]. *)
Definition under_way (i : Z) k : Prop := exists m, wl_msg k !! Z.to_nat i = Some m /\ 0 < cbs_cnt m.

Lemma cnt_set n m : cbs_cnt (set_cnt n m) = u8 n.
Proof using.
  unfold cbs_cnt, set_cnt. cbn. pose proof (wrap_bounds 8 n ltac:(lia)) as Hn. change (2 ^ 8) with 256 in Hn. dlia.
Qed.

(** While a static message is under way it is refused, and requests leave its
    count alone. *)
Lemma static_refused tp f a block i k : under_way i k ->
  tls_wl_task_callback_static tp f a block i k = Some (TLS_OS_ERROR, k).
Proof using.
  intros (m & Hm & Hc). unfold tls_wl_task_callback_static, read_msg. unfold gets, must, mbind, M_bind, mret, M_ret.
  rewrite Hm. by rewrite (proj2 (Z.ltb_lt _ _)).
Qed.

Definition keeps_way (i : Z) k k' : Prop := under_way i k -> under_way i k'.
#[local] Instance keeps_way_preorder i : PreOrder (keeps_way i).
Proof using. split; [by intros k Hk|]. intros a b c H3 H4 H5. by apply H4, H3. Qed.

Lemma way_world {A} i (f : W -> A * W) : keeps (keeps_way i) (on_world f).
Proof using. apply keeps_zoom. by intros k w Hk. Qed.

Lemma way_read i p : keeps (keeps_way i) (read_msg (E := E) (W := W) p).
Proof using. destruct p; cbn [read_msg]; unfold must; keep. Qed.

Lemma way_other i p f : (forall j, p = MStatic j -> Z.to_nat j <> Z.to_nat i) -> keeps (keeps_way i) (update_msg (E := E) (W := W) p f).
Proof using.
  intros Hp k x k'. unfold update_msg. destruct p as [|j|a]; [done| |]; run_code.
  - destruct (wl_msg k !! Z.to_nat j) as [m|]; run_code; [|done]. intros [= _ <-] (mi & Hi & Hc). exists mi. cbn.
    rewrite list_lookup_insert_ne by (by apply Hp). done.
  - destruct (hmsgs k !! a) as [m|]; run_code; [|done]. intros [= _ <-] Hk. exact Hk.
Qed.

Lemma way_alloc i : keeps (keeps_way i) (alloc_msg (E := E) (W := W)).
Proof. intros k x k'. unfold alloc_msg. run_code. destruct (h_alloc _ _) as [[[p l]|] e]; by intros [= _ <-] Hk. Qed.

Lemma way_free i p : keeps (keeps_way i) (free_msg (E := E) (W := W) p).
Proof.
  intros k x k'. unfold free_msg. destruct p as [|j|a]; [done|done|]. run_code.
  destruct (hmsgs k !! a) as [m|]; run_code; [|done]. by intros [= _ <-] Hk.
Qed.
#[local] Hint Resolve way_world way_read way_alloc way_free : keeps.

Lemma way_client i c : keeps (keeps_way i) (run_client (E := E) (W := W) c).
Proof.
  destruct c as [tp f a block|tp f a block j|tp msecs f a|tp f a].
  - cbn [run_client]. unfold tls_wl_task_callback, mbox_of, tls_mbox_trypost, tls_mbox_post, must. keep; by apply way_other.
  - destruct (decide (Z.to_nat j = Z.to_nat i)) as [Hj|Hj].
    + intros k x k' Hr Hk. cbn [run_client] in Hr. rewrite static_refused in Hr; [by injection Hr as _ <-|].
      destruct Hk as (m & Hm & Hc). exists m. by rewrite Hj.
    + cbn [run_client]. unfold tls_wl_task_callback_static, mbox_of, tls_mbox_trypost, tls_mbox_post, must.
      keep; apply way_other; by intros ? [= <-].
  - cbn [run_client]. unfold tls_wl_task_add_timeout, mbox_of, tls_mbox_post, must. keep; by apply way_other.
  - cbn [run_client]. unfold tls_wl_task_untimeout, mbox_of, tls_mbox_post, must. keep; by apply way_other.
Qed.

Fixpoint requests (cs : list cop) : M (kst E W) unit :=
  match cs with [] => mret tt | c :: cs => run_client c ;; requests cs end.

(** A static message that is lost is lost for good.  If a blocking
    [tls_wl_task_callback_static] finds the mailbox full ten times, it counts
    the message as under way although it is in no mailbox, and returns
    [TLS_OS_SUCCESS]; after any further requests, every later use of that
    message is refused. *)
Theorem static_message_lost tp f a block i k q m w' cs tp' f' a' block' :
  task_mbox k !! Z.to_nat (mbox_id tp) = Some q -> q <> 0 -> wl_msg k !! Z.to_nat i = Some m -> cbs_cnt m = 0 -> block <> 0 ->
  dropped 10 q (MStatic i) (world k) = Some w' ->
  wp (tls_wl_task_callback_static tp f a block i) k (fun r k1 =>
    r = TLS_OS_SUCCESS /\ world k1 = w' /\
    forall k2, requests cs k1 = Some (tt, k2) ->
      tls_wl_task_callback_static tp' f' a' block' i k2 = Some (TLS_OS_ERROR, k2)).
Proof.
  intros Hq Hq0 Hm Hc Hb Hd. unfold tls_wl_task_callback_static at 1.
  apply wp_bind, wp_bind, wp_gets. eapply wp_must; [done|]. rewrite Hc. cbn [Z.ltb Z.compare].
  apply wp_bind. eapply mbox_of_some; [done|]. unfold tls_mbox_valid. rewrite (proj2 (Z.eqb_neq q 0)) by done. cbn [negb Z.eqb].
  apply wp_bind. eapply update_static; [done|]. apply wp_bind. rewrite (proj2 (Z.eqb_neq block 0)) by done. cbn [negb].
  apply wp_bind. eapply wp_mono; [by apply post_dropped|]. intros [] k1 ->. apply wp_ret.
  apply wp_bind. eapply update_static; [cbn; apply list_lookup_insert_eq; by eapply lookup_lt_Some|]. apply wp_ret.
  split; [done|]. split; [done|]. intros k2 Hr. apply static_refused.
  assert (Hk : forall cs, keeps (keeps_way i) (requests cs)).
  { intros l. induction l as [|c l IH]; cbn [requests]; [keep|]. apply keeps_bind; [exact _|apply way_client|by intros _]. }
  apply (Hk _ _ _ _ Hr). eexists. cbn. split.
  { apply list_lookup_insert_eq. rewrite length_insert. by eapply lookup_lt_Some. }
  rewrite cnt_set. unfold cbs_cnt in *. cbn. by rewrite Hc.
Qed.

(** ** What the task makes of a message *)

(** A timer is started when the task takes up the request for it: it joins
    the task's list behind everything that is due no later, with its delay
    counted from that moment, and the message goes back to the heap.  If
    there is no memory for the entry, the request is dropped without a
    trace. *)
Theorem timer_message_served id p sm msecs f a s t l :
  reps s t -> lines t !! Z.to_nat id = Some l ->
  hmsgs (kern s) !! p = Some (Msg TASK_MSG_TIMEOUT sm msecs f a) ->
  wp (serve_msg id (MHeap p)) s (fun _ s' => exists t', reps s' t' /\
    lines t' = match fst (h_alloc sizeof_timeo (host (kern s))) with
      | Some (b, _) => <[Z.to_nat id := place (Entry b (u32 msecs) f a (now t) (u32 msecs) 0) l]> (lines t)
      | None => lines t
      end /\
    hmsgs (kern s') = delete p (hmsgs (kern s)) /\ fired t' = fired t /\ world (kern s') = world (kern s) /\
    host (kern s') = h_free p (snd (h_alloc sizeof_timeo (host (kern s))))).
Proof.
  intros HR El Hp. rewrite (rp_kern _ _ HR) in Hp |- *. eapply wp_mono; [eapply sim_transfer; [apply (sim_serve id (MHeap p))|exact HR|]|].
  - instantiate (1 := fun _ t' => lines t' = match fst (h_alloc sizeof_timeo (host (akern t))) with
      | Some (b, _) => <[Z.to_nat id := place (Entry b (u32 msecs) f a (now t) (u32 msecs) 0) l]> (lines t)
      | None => lines t
      end /\
      hmsgs (akern t') = delete p (hmsgs (akern t)) /\ fired t' = fired t /\ world (akern t') = world (akern t) /\
      host (akern t') = h_free p (snd (h_alloc sizeof_timeo (host (akern t))))).
    destruct t as [k ls log]. cbn in El, Hp. unfold serve, read_msg, on_akern. apply wp_bind, wp_zoom. cbn. run_code. rewrite Hp.
    unfold mret, M_ret. cbn. apply wp_bind. unfold wp at 1. rewrite start_run, El. unfold now. cbn.
    destruct (h_alloc sizeof_timeo (host k)) as [[[b bs]|] e]; cbn; unfold wp, on_host, set_hmsgs; run_code; rewrite Hp; run_code; done.
  - intros [] s' (t' & HR' & Hl & Hh & Hf & Hw & Ho). exists t'. rewrite (rp_kern _ _ HR'). done.
Qed.

(** ** Delays beyond the limit *)

Lemma wait_ticks_long t : tick_limit <= t < 2 ^ 32 ->
  wait_ticks t = Z.max 1 (u32 (t * 500) / 1000) /\ wait_ticks t <= 4294967 /\ 2 * wait_ticks t < t.
Proof using.
  unfold tick_limit, wait_ticks, HZ. intros Ht. rewrite (proj2 (Z.eqb_neq t 0)) by lia. cbn [negb andb].
  pose proof (wrap_bounds 32 (t * 500)). destruct (Z.eqb_spec (u32 (t * 500) / 1000) 0) as [->|]; dlia.
Qed.

(** C24. A long delay is cut short.  The ticks to wait are computed with 32-bit
    arithmetic, so that from 8589935 ms on they wrap: when the first timer of
    a task's list has such a delay left and no message comes, its handler is
    called after [(delay * 500) mod 2^32 / 1000] ticks of 2 ms, but at least
    one - never more than 4294967 ticks (8589934 ms), always before the delay
    is over, and after a single tick when it is 8589935 ms, two hours and
    twenty-three minutes.  The timers behind it are brought forward by the
    whole delay too.  (The handler is one that starts and requests nothing,
    so that the state afterwards can be given.) *)
Theorem long_delay_fires_early id mb e rest s t w' w'' :
  reps s t -> lines t !! Z.to_nat id = Some (e :: rest) -> tick_limit <= due e ->
  w_receive mb (wait_ticks (due e)) (world (kern s)) = Some (None, w') ->
  w_ticks w' = w_ticks (world (kern s)) + wait_ticks (due e) -> fn e <> 0 -> w_call (fn e) (ctx e) w' = ([], w'') ->
  let waited := w_ticks w' - now t in
  wp (fetch_body id mb) s (fun _ s' => exists t', reps s' t' /\ world (kern s') = w'' /\
    fired t' = fired t ++ [Fire id e (w_ticks w')] /\ lines t' = <[Z.to_nat id := overtaken (due e) <$> rest]> (lines t) /\
    waited = Z.max 1 (u32 (due e * 500) / 1000) /\ waited <= 4294967 /\ 2 * waited < due e /\
    (due e = tick_limit -> waited = 1)).
Proof.
  intros HR El Hd Hr Hw Hf Hc waited. rewrite (rp_kern _ _ HR) in Hr, Hw.
  destruct (reps_line _ _ _ _ HR El) as (p0 & _ & (_ & _ & Hdue & _) & _).
  pose proof (wait_ticks_long (due e) ltac:(lia)) as (Hwt & Hmax & Hhalf).
  assert (Hwaited : waited = wait_ticks (due e)) by (unfold waited, now; lia).
  eapply wp_mono; [eapply sim_transfer; [apply (sim_round id mb)|exact HR|]|].
  - instantiate (1 := fun _ t' => world (akern t') = w'' /\ fired t' = fired t ++ [Fire id e (w_ticks w')] /\
      lines t' = <[Z.to_nat id := overtaken (due e) <$> rest]> (lines t)).
    destruct t as [k ls log]. cbn in El, Hr, Hw |- *. apply wp_bind, wp_bind, wp_gets. eapply wp_must; [done|].
    apply wp_bind. rewrite (proj2 (Z.ltb_lt _ _)) by (unfold tick_limit in Hd; lia). apply wp_zoom. cbn.
    rewrite fetch_run, Hr. cbn. apply wp_bind. unfold expire. apply wp_bind, wp_modify, wp_bind, wp_zoom. cbn.
    apply wp_bind, wp_modify. cbn. rewrite (proj2 (Z.eqb_neq _ _)) by done. cbn. unfold do_call.
    rewrite (proj2 (Z.eqb_neq _ _)) by done. apply wp_bind, wp_zoom. run_code. unfold on_world, zoom. cbn. rewrite Hc. cbn.
    apply wp_ret, wp_ret. done.
  - intros r s' (t' & HR' & Hw'' & Hfire & Hlines). exists t'. rewrite (rp_kern _ _ HR'), Hwaited.
    do 6 (split; [done|]). split; [done|]. intros ->. reflexivity.
Qed.
End requests.
