(* ===== verification/WlWitness.v ===== *)
(** * The theorems of the work-queue tasks at concrete inputs *)
From S2P Require Import Prelude CMonad Simul HostEnv WlMbox WlTimers WlSched WlTimersSpec WlRefine WlTiming WlProps WlLive WlWorld WlRequests.
From Stdlib Require Import Sorting.Sorted.
Import BumpHost.

(** Mailbox 1 is queue 100. *)
Definition sample_world : simw := Simw 0 [] 4 [].
Definition sample_kernel (w : simw) : kst bump simw :=
  Kst roomy w [0; 100; 0; 0; 0; 0; 0; 0] ∅
    (<[3%nat := Msg TASK_MSG_CALLBACK_STATIC 0 7 11 1]> (replicate 9 (Msg TASK_MSG_TIMEOUT 0 0 0 0))).
Definition sample_wl : wl bump simw := Wl (sample_kernel sample_world) ∅ (replicate 9 0).
Definition sample_sched : asys bump simw := Asys (sample_kernel sample_world) (replicate 9 []) [].

Lemma sample_reps : reps sample_wl sample_sched.
Proof. apply (reps_empty (sample_kernel sample_world)). exists ∅. cbn. set_solver. Qed.

Lemma sample_sched_ok : sched_ok sample_sched.
Proof.
  split; cbn.
  - split; cbn; [by intros p m|]. intros m Hm. unfold msg_short. 
    repeat (apply elem_of_cons in Hm as [->|Hm]; [vm_compute; done|]). by apply not_elem_of_nil in Hm.
  - repeat constructor.
  - constructor.
Qed.

(** Two requests - the function 8 after 25 ms, and 5, which goes on starting
    itself, after 30 ms; a static message arrives at tick 40; then the task. *)
Definition sample_acts : list (act simw) :=
  [Request (AddTimeout sample_task 25 8 1); Request (AddTimeout sample_task 30 5 2);
   Meanwhile (fun w => Simw (tick w) (inbox w ++ [(100, 40, MStatic 3)]) (room w) (calls w));
   Round 10 sample_task; Round 10 sample_task; Round 10 sample_task].

Lemma sample_acts_short : Forall act_short sample_acts.
Proof. repeat constructor. intros w. cbn. lia. Qed.

(** The handlers called, with the ticks. *)
Definition calls_of (r : option (unit * wl bump simw)) : option (list (Z * Z * Z)) :=
  match r with Some (_, s) => Some (calls (world (kern s))) | None => None end.

Lemma sample_calls : calls_of (run_acts sample_acts sample_wl) =
  Some [(8, 1, 12); (5, 2, 14); (5, 2, 19); (5, 2, 24); (5, 2, 29); (5, 2, 34); (5, 2, 39); (7, 11, 40)].
Proof. vm_compute. reflexivity. Qed.

Definition sample_end : wl bump simw :=
  Eval vm_compute in match run_acts sample_acts sample_wl with Some (_, s) => s | None => sample_wl end.

Lemma sample_end_run : run_acts sample_acts sample_wl = Some (tt, sample_end).
Proof. vm_compute. reflexivity. Qed.

Lemma wl_tasks_refine_witness :
  reps sample_wl sample_sched /\ sim_at reps (run_acts sample_acts) (do_acts sample_acts) sample_wl sample_sched.
Proof. split; [exact sample_reps|]. exact (wl_tasks_refine sample_acts sample_wl sample_sched sample_reps). Defined.

(** The handler of the second timer is called two milliseconds early. *)
Lemma timers_never_early_witness : run_acts sample_acts sample_wl = Some (tt, sample_end) /\
  wp (do_acts sample_acts) sample_sched (fun _ t' => reps sample_end t' /\
    (forall i line, lines t' !! i = Some line -> StronglySorted before line) /\
    (forall f, f ∈ fired t' ->
       span (f_entry f) - (passed (f_entry f) + 1) <= 2 * (f_tick f - born (f_entry f)))).
Proof.
  split; [exact sample_end_run|].
  exact (timers_never_early script_short sample_acts sample_wl sample_sched sample_end sample_reps sample_sched_ok
    sample_acts_short sample_end_run).
Defined.

(** A message arrives at tick 40 while no timer is pending. *)
Definition arrival : simw := Simw 7 [(100, 40, MStatic 3)] 4 [].

Lemma wl_fetch_returns_witness :
  reps (Wl (sample_kernel arrival) ∅ (replicate 9 0)) (Asys (sample_kernel arrival) (replicate 9 []) []) /\
  exists fuel p s', tls_timeouts_mbox_fetch_p fuel 2 100 (Wl (sample_kernel arrival) ∅ (replicate 9 0)) = Some (p, s').
Proof.
  assert (HR : reps (Wl (sample_kernel arrival) ∅ (replicate 9 0)) (Asys (sample_kernel arrival) (replicate 9 []) [])).
  { apply (reps_empty (sample_kernel arrival)). exists ∅. cbn. set_solver. }
  split; [exact HR|]. refine (wl_fetch_returns 100 40 2 script_short script_ready _ _ HR _ _ _ _ _ _); try reflexivity; try done.
  - destruct sample_sched_ok as [[Hh Hs] _ _]. split; [split; [exact Hh|exact Hs]|repeat constructor|constructor].
  - exists 40, (MStatic 3), []. split; [reflexivity|lia].
Defined.

(** A mailbox without room. *)
Definition crowded : simw := Simw 0 [(100, 0, MNull)] 1 [].

Lemma add_timeout_lost_witness :
  dropped 10 100 (MHeap 536870912) crowded = Some (Simw 50 [(100, 0, MNull)] 1 []) /\
  wp (tls_wl_task_add_timeout sample_task 25 8 1) (sample_kernel crowded) (fun r k' =>
    r = TLS_OS_SUCCESS /\ world k' = Simw 50 [(100, 0, MNull)] 1 [] /\ exists m, hmsgs k' = {[536870912 := m]}).
Proof.
  split; [vm_compute; reflexivity|].
  refine (wp_mono _ _ _ _ (add_timeout_lost sample_task 25 8 1 (sample_kernel crowded) 100 536870912 _ _ _ _ _ _ _) _).
  - reflexivity.
  - done.
  - reflexivity.
  - vm_compute. reflexivity.
  - intros r k' (Hr & Hw & _ & m & Hm & _). split; [exact Hr|]. split; [exact Hw|]. exists m. exact Hm.
Defined.

Lemma static_message_lost_witness :
  wp (tls_wl_task_callback_static sample_task 7 11 1 4) (sample_kernel crowded) (fun r k1 =>
    r = TLS_OS_SUCCESS /\
    forall k2, requests [CallbackStatic sample_task 7 11 0 4] k1 = Some (tt, k2) ->
      tls_wl_task_callback_static sample_task 7 11 0 4 k2 = Some (TLS_OS_ERROR, k2)).
Proof.
  refine (wp_mono _ _ _ _ (static_message_lost sample_task 7 11 1 4 (sample_kernel crowded) 100 (Msg TASK_MSG_TIMEOUT 0 0 0 0)
    (Simw 50 [(100, 0, MNull)] 1 []) [CallbackStatic sample_task 7 11 0 4] sample_task 7 11 0 _ _ _ _ _ _) _).
  - reflexivity.
  - done.
  - reflexivity.
  - reflexivity.
  - done.
  - vm_compute. reflexivity.
  - intros r k1 (Hr & _ & Hk). split; [exact Hr|exact Hk].
Defined.

(** A request for a timer of 25 ms in a block of the heap. *)
Definition requested : kst bump simw :=
  Kst (Bump 536870944 553648128 true) (Simw 3 [] 4 []) [0; 100; 0; 0; 0; 0; 0; 0]
    {[536870912 := Msg TASK_MSG_TIMEOUT 0 25 8 1]} (replicate 9 (Msg TASK_MSG_TIMEOUT 0 0 0 0)).

Lemma timer_message_served_witness :
  wp (serve_msg 2 (MHeap 536870912)) (Wl requested ∅ (replicate 9 0)) (fun _ s' => exists t', reps s' t' /\
    lines t' = <[2%nat := [Entry 536870944 25 8 1 3 25 0]]> (replicate 9 []) /\ hmsgs (kern s') = ∅).
Proof.
  assert (HR : reps (Wl requested ∅ (replicate 9 0)) (Asys requested (replicate 9 []) [])).
  { apply (reps_empty requested). exists {[536870912]}. cbn [host hmsgs requested]. rewrite dom_singleton_L.
    split; [|set_solver]. intros p ->%elem_of_singleton. cbn. lia. }
  refine (wp_mono _ _ _ _ (timer_message_served 2 536870912 0 25 8 1 _ _ [] HR _ _) _).
  - reflexivity.
  - cbn [kern hmsgs requested]. apply lookup_singleton_eq.
  - intros [] s' (t' & HR' & Hl & Hh & _). exists t'. split; [exact HR'|]. split; [rewrite Hl; reflexivity|].
    rewrite Hh. cbn [kern hmsgs requested]. by rewrite delete_singleton_eq.
Defined.

(** A timer of two hours and twenty-three minutes, started at tick 7. *)
Definition long_entry : entry := Entry 536870912 8589935 8 1 7 8589935 0.
Definition long_kernel : kst bump simw :=
  Kst (Bump 536870944 553648128 true) (Simw 7 [] 4 []) [0; 100; 0; 0; 0; 0; 0; 0] ∅ (replicate 9 (Msg TASK_MSG_TIMEOUT 0 0 0 0)).
Definition long_wl : wl bump simw := Wl long_kernel {[536870912 := Timeo 0 8589935 8 1]} [0; 0; 536870912; 0; 0; 0; 0; 0; 0].
Definition long_sched : asys bump simw := Asys long_kernel [[]; []; [long_entry]; []; []; []; []; []; []] [].

Lemma long_reps : reps long_wl long_sched.
Proof.
  split; cbn [kern akern timeos next_timeout lines fired long_wl long_sched].
  - done.
  - repeat (apply Forall2_cons; split; [|]); try apply Forall2_nil_2; try reflexivity.
    split; [done|]. split; [done|]. split; [cbn; lia|]. exists 0. split; [apply lookup_singleton_eq|reflexivity].
  - apply NoDup_singleton.
  - intros q. rewrite dom_singleton_L, elem_of_singleton. cbn. by rewrite list_elem_of_singleton.
  - exists {[536870912]}. cbn [host hmsgs long_kernel]. rewrite dom_singleton_L. split; [|set_solver].
    intros p ->%elem_of_singleton. cbn. lia.
Qed.

Lemma long_delay_fires_early_witness : reps long_wl long_sched /\
  wp (fetch_body 2 100) long_wl (fun _ s' => exists t', reps s' t' /\
    fired t' = [Fire 2 long_entry 8] /\ lines t' = replicate 9 [] /\ calls (world (kern s')) = [(8, 1, 8)]).
Proof.
  split; [exact long_reps|].
  refine (wp_mono _ _ _ _ (long_delay_fires_early 2 100 long_entry [] long_wl long_sched (Simw 8 [] 4 []) (Simw 8 [] 4 [(8, 1, 8)])
    long_reps _ _ _ _ _ _) _).
  - reflexivity.
  - unfold tick_limit. cbn. lia.
  - vm_compute. reflexivity.
  - vm_compute. reflexivity.
  - done.
  - vm_compute. reflexivity.
  - intros r s' (t' & HR & Hw & Hf & Hl & _). exists t'. split; [exact HR|]. split; [exact Hf|]. split; [exact Hl|]. by rewrite Hw.
Defined.
