(* ===== verification/Uart.v ===== *)
(** * The UART driver ([wm_uart.c])

    Six ports, each with a ring of received bytes that the interrupt handler
    fills and a task empties, and a list of messages to be sent that a task
    extends and the interrupt handler works off.  The registers of a port
    are a device of its own; what is read from it is for the device to say. *)
From S2P Require Import Prelude CMonad DlList HostEnv.

Definition WM_SUCCESS : Z := 0.
Definition WM_FAILED : Z := -1.

Definition TLS_UART_RX_BUF_SIZE : Z := 512.
Definition TLS_UART_TX_BUF_SIZE : Z := 512.
Definition RX_CACHE_LIMIT : Z := 128.
Definition TLS_UART_1 : Z := 1.
Definition TLS_UART_2 : Z := 2.
Definition TLS_UART_MAX : Z := 6.

(** ** Registers and their bits *)

Inductive ureg := UR_LC | UR_FC | UR_DMAC | UR_FIFOC | UR_BD | UR_INTM | UR_INTS | UR_FIFOS | UR_TXW | UR_RXW.

Definition ULCON_WL_MASK : Z := 0x03.
Definition ULCON_STOP_2 : Z := 0x04.
Definition ULCON_PMD_EN : Z := 0x08.
Definition ULCON_PMD_MASK : Z := 0x18.
Definition ULCON_PMD_ODD : Z := 0x18.
Definition ULCON_PMD_EVEN : Z := 0x08.
Definition ULCON_TX_EN : Z := 0x40.
Definition ULCON_RX_EN : Z := 0x80.

Definition UIS_TX_FIFO_EMPTY : Z := 1 ≪ 0.
Definition UIS_TX_FIFO : Z := 1 ≪ 1.
Definition UIS_RX_FIFO : Z := 1 ≪ 2.
Definition UIS_RX_FIFO_TIMEOUT : Z := 1 ≪ 3.
Definition UIS_CTS_CHNG : Z := 1 ≪ 4.
Definition UIS_BREAK : Z := 1 ≪ 5.
Definition UIS_FRM_ERR : Z := 1 ≪ 6.
Definition UIS_PARITY_ERR : Z := 1 ≪ 7.
Definition UIS_OVERRUN : Z := 1 ≪ 8.
Definition UART_RX_ERR_INT_FLAG : Z := UIS_BREAK ||| UIS_FRM_ERR ||| UIS_PARITY_ERR.
Definition UART_RX_INT_FLAG : Z :=
  UIS_RX_FIFO ||| UIS_RX_FIFO_TIMEOUT ||| UIS_BREAK ||| UIS_OVERRUN ||| UIS_FRM_ERR ||| UIS_PARITY_ERR.
Definition UART_TX_INT_FLAG : Z := UIS_TX_FIFO ||| UIS_TX_FIFO_EMPTY.
Definition UFS_TX_FIFO_CNT_MASK : Z := 0x3F.
Definition UFS_CST_STS : Z := 1 ≪ 12.

(** A register access may change the device: reading [UR_RXW] takes a byte
    out of the receive FIFO, and between two accesses bytes come and go. *)
Class UartRegs (D : Type) := {
  reg_read : ureg -> D -> Z * D;
  reg_write : ureg -> Z -> D -> D
}.

(** What the driver relies on.  [rx_log] and [tx_log] are the histories of the
    bytes taken out of the receive FIFO and of those the transmit FIFO has
    accepted; [tx_cnt] is how many the latter holds.  It takes 32 bytes, gives
    its count in the low bits of [UR_FIFOS], and fills only by writes to
    [UR_TXW]. *)
Class UartRegsLaws (D : Type) `{UartRegs D} := {
  rx_log : D -> list Z;
  tx_log : D -> list Z;
  tx_cnt : D -> Z;
  read_rx_log r d :
    rx_log (snd (reg_read r d)) = rx_log d ++ match r with UR_RXW => [u8 (fst (reg_read r d))] | _ => [] end;
  read_tx_log r d : tx_log (snd (reg_read r d)) = tx_log d;
  read_tx_cnt r d : tx_cnt (snd (reg_read r d)) <= tx_cnt d;
  read_fifos_cnt d : fst (reg_read UR_FIFOS d) &&& UFS_TX_FIFO_CNT_MASK = tx_cnt (snd (reg_read UR_FIFOS d));
  write_rx_log r v d : rx_log (reg_write r v d) = rx_log d;
  write_tx_log r v d : r <> UR_TXW -> tx_log (reg_write r v d) = tx_log d;
  write_tx_cnt r v d : r <> UR_TXW -> tx_cnt (reg_write r v d) <= tx_cnt d;
  write_tx v d :
    tx_cnt d < 32 -> tx_log (reg_write UR_TXW v d) = tx_log d ++ [u8 v] /\ tx_cnt (reg_write UR_TXW v d) <= tx_cnt d + 1
}.

(** The code behind the function pointers a client registers, on the
    client's own state; it is given the port's number or private data.  It
    does not call the driver back. *)
Class UartClient (W : Type) := {
  rx_called : Z -> Z -> Z -> W -> W;
  tx_called : Z -> Z -> W -> W
}.

(** The addresses of the two list heads in a port, and the bytes in front of
    a block of the heap. *)
Class UartMem := {
  pending_head : Z -> Z;
  freed_head : Z -> Z;
  before_block : Z -> Z -> Z
}.

(** No block of the heap is at the address of a list head. *)
Class UartMemLaws (E : Type) `{Host E} `{UartMem} := {
  heads_differ no : pending_head no <> freed_head no;
  heads_apart no n e p l e' : h_alloc n e = (Some (p, l), e') -> p <> pending_head no /\ p <> freed_head no
}.

(** ** Data *)

(** [struct tls_uart_circ_buf]; [buf] is NULL or a block with its bytes. *)
Record circ := Circ { buf : option (Z * list Z); head : Z; tail : Z }.

Definition CIRC_CNT (head tail : Z) : Z := u32 (head - tail) &&& (TLS_UART_RX_BUF_SIZE - 1).
Definition CIRC_SPACE (head tail : Z) : Z := CIRC_CNT tail (head + 1).

Inductive finish := NoFinish | Uart_tx_finish_callback.

(** [struct tls_uart_tx_msg]; its list node is at its address in the store of
    links, [m_bytes] is the memory at [m_buf]. *)
Record tx_msg := TxMsg {
  m_buf : Z;
  m_bytes : list Z;
  buflen : Z;
  m_offset : Z;
  finish_callback : finish;
  callback_arg : Z
}.

Record uart_options := Options { baudrate : Z; charlength : Z; paritytype : Z; flow_ctrl : Z; stopbits : Z }.

Definition TLS_UART_FLOW_CTRL_NONE : Z := 0.
Definition TLS_UART_FLOW_CTRL_HARDWARE : Z := 1.
Definition TLS_UART_RX_DISABLE : Z := 0.
Definition TLS_UART_RX_ENABLE : Z := 1.
Definition TLS_UART_PMODE_DISABLED : Z := 0.
Definition TLS_UART_PMODE_ODD : Z := 1.
Definition TLS_UART_PMODE_EVEN : Z := 2.
Definition TLS_UART_TWO_STOPBITS : Z := 1.

(** A [tx_callback]: none, the driver's own, or a client's. *)
Inductive tx_cb := NoTx | Free_tx_sent_data | Client_tx (fn : Z).

(** [struct tls_uart_port], without the statistics and the members that
    nothing uses; [regs_at] is the pointer to the registers. *)
Record port := Port {
  uart_no : Z;
  plus_char_cnt : Z;
  opts : uart_options;
  fcStatus : Z;
  rxstatus : Z;
  tx_fifofull : Z;
  regs_at : Z;
  icount_tx : Z;
  recv : circ;
  hw_stopped : Z;
  rx_callback : Z;
  tx_callback : tx_cb;
  tx_sent_callback : Z;
  tx_dma_on : bool;
  priv_data : Z
}.

(** What the functions on a port see: the heap, the client's state, the
    port, its registers, and the objects of its lists. *)
Record uart (E D W : Type) := Uart {
  heap : E;
  world : W;
  dev : D;
  prt : port;
  lnk : gmap Z DlList.node;
  msgs : gmap Z tx_msg
}.
Arguments Uart {E D W}.
Arguments heap {E D W}.
Arguments world {E D W}.
Arguments dev {E D W}.
Arguments prt {E D W}.
Arguments lnk {E D W}.
Arguments msgs {E D W}.

Section port_ops.
Context {E D W : Type} `{Host E} `{UartRegs D} `{UartClient W} `{UartMem}.
Abbreviation st := (uart E D W).

Definition rd (r : ureg) : M st Z :=
  zoom dev (fun d s => Uart (heap s) (world s) d (prt s) (lnk s) (msgs s)) (fun d => Some (reg_read r d)).
Definition wr (r : ureg) (v : Z) : M st unit := modify (fun s =>
  Uart (heap s) (world s) (reg_write r (u32 v) (dev s)) (prt s) (lnk s) (msgs s)).
(** [port->regs->r = f(port->regs->r)] *)
Definition upd_reg (r : ureg) (f : Z -> Z) : M st unit := v ← rd r; wr r (f v).

Definition set_prt (f : port -> port) : M st unit := modify (fun s =>
  Uart (heap s) (world s) (dev s) (f (prt s)) (lnk s) (msgs s)).
Definition on_world (f : W -> W) : M st unit := modify (fun s =>
  Uart (heap s) (f (world s)) (dev s) (prt s) (lnk s) (msgs s)).
Definition on_lnk {A} (m : M DlList.mem A) : M st A :=
  zoom lnk (fun l s => Uart (heap s) (world s) (dev s) (prt s) l (msgs s)) m.
Definition set_lnk (f : gmap Z DlList.node -> gmap Z DlList.node) : M st unit := modify (fun s =>
  Uart (heap s) (world s) (dev s) (prt s) (f (lnk s)) (msgs s)).
Definition set_msgs (f : gmap Z tx_msg -> gmap Z tx_msg) : M st unit := modify (fun s =>
  Uart (heap s) (world s) (dev s) (prt s) (lnk s) (f (msgs s))).
Definition tls_mem_alloc (n : Z) : M st (option (Z * list Z)) :=
  zoom heap (fun e s => Uart e (world s) (dev s) (prt s) (lnk s) (msgs s)) (fun e => Some (h_alloc n e)).
Definition tls_mem_free (p : Z) : M st unit := modify (fun s =>
  Uart (h_free p (heap s)) (world s) (dev s) (prt s) (lnk s) (msgs s)).
Definition the_msg (p : Z) : M st tx_msg := fun s => m ← msgs s !! p; Some (m, s).

(** *** Members of the port *)

Definition set_recv (c : circ) (p : port) : port :=
  Port (uart_no p) (plus_char_cnt p) (opts p) (fcStatus p) (rxstatus p) (tx_fifofull p) (regs_at p) (icount_tx p) c
    (hw_stopped p) (rx_callback p) (tx_callback p) (tx_sent_callback p) (tx_dma_on p) (priv_data p).
Definition set_plus (v : Z) (p : port) : port :=
  Port (uart_no p) v (opts p) (fcStatus p) (rxstatus p) (tx_fifofull p) (regs_at p) (icount_tx p) (recv p)
    (hw_stopped p) (rx_callback p) (tx_callback p) (tx_sent_callback p) (tx_dma_on p) (priv_data p).
Definition set_opts (f : uart_options -> uart_options) (p : port) : port :=
  Port (uart_no p) (plus_char_cnt p) (f (opts p)) (fcStatus p) (rxstatus p) (tx_fifofull p) (regs_at p) (icount_tx p) (recv p)
    (hw_stopped p) (rx_callback p) (tx_callback p) (tx_sent_callback p) (tx_dma_on p) (priv_data p).
Definition set_fcStatus (v : Z) (p : port) : port :=
  Port (uart_no p) (plus_char_cnt p) (opts p) v (rxstatus p) (tx_fifofull p) (regs_at p) (icount_tx p) (recv p)
    (hw_stopped p) (rx_callback p) (tx_callback p) (tx_sent_callback p) (tx_dma_on p) (priv_data p).
Definition set_rxstatus (v : Z) (p : port) : port :=
  Port (uart_no p) (plus_char_cnt p) (opts p) (fcStatus p) v (tx_fifofull p) (regs_at p) (icount_tx p) (recv p)
    (hw_stopped p) (rx_callback p) (tx_callback p) (tx_sent_callback p) (tx_dma_on p) (priv_data p).
Definition set_icount (v : Z) (p : port) : port :=
  Port (uart_no p) (plus_char_cnt p) (opts p) (fcStatus p) (rxstatus p) (tx_fifofull p) (regs_at p) (u32 v) (recv p)
    (hw_stopped p) (rx_callback p) (tx_callback p) (tx_sent_callback p) (tx_dma_on p) (priv_data p).
Definition set_hw_stopped (v : Z) (p : port) : port :=
  Port (uart_no p) (plus_char_cnt p) (opts p) (fcStatus p) (rxstatus p) (tx_fifofull p) (regs_at p) (icount_tx p) (recv p)
    v (rx_callback p) (tx_callback p) (tx_sent_callback p) (tx_dma_on p) (priv_data p).
Definition set_rx_callback (fn priv : Z) (p : port) : port :=
  Port (uart_no p) (plus_char_cnt p) (opts p) (fcStatus p) (rxstatus p) (tx_fifofull p) (regs_at p) (icount_tx p) (recv p)
    (hw_stopped p) fn (tx_callback p) (tx_sent_callback p) (tx_dma_on p) priv.
Definition set_tx_callback (f : tx_cb) (p : port) : port :=
  Port (uart_no p) (plus_char_cnt p) (opts p) (fcStatus p) (rxstatus p) (tx_fifofull p) (regs_at p) (icount_tx p) (recv p)
    (hw_stopped p) (rx_callback p) f (tx_sent_callback p) (tx_dma_on p) (priv_data p).
Definition set_tx_sent_callback (fn : Z) (p : port) : port :=
  Port (uart_no p) (plus_char_cnt p) (opts p) (fcStatus p) (rxstatus p) (tx_fifofull p) (regs_at p) (icount_tx p) (recv p)
    (hw_stopped p) (rx_callback p) (tx_callback p) fn (tx_dma_on p) (priv_data p).
Definition set_tx_dma_on (b : bool) (p : port) : port :=
  Port (uart_no p) (plus_char_cnt p) (opts p) (fcStatus p) (rxstatus p) (tx_fifofull p) (regs_at p) (icount_tx p) (recv p)
    (hw_stopped p) (rx_callback p) (tx_callback p) (tx_sent_callback p) b (priv_data p).

(** ** Sending *)

Definition pending : M st Z := gets (fun s => pending_head (uart_no (prt s))).
Definition freed : M st Z := gets (fun s => freed_head (uart_no (prt s))).

(** [dl_list_first], for a list that is not empty. *)
Definition dl_list_first (h : Z) : M st Z := nd ← on_lnk (DlList.load h); mret (DlList.next nd).

Definition uart_tx_finish_callback (arg : Z) : M st unit :=
  if negb (arg =? 0) then tls_mem_free arg else mret tt.

(** The loop ends since every round takes a message off the list. *)
Definition tls_uart_free_tx_sent_data : M st Z :=
  h ← freed;
  fuel ← gets (fun s => size (lnk s));
  mloop fuel (fun _ : unit =>
    empty ← on_lnk (DlList.dl_list_empty h);
    if negb (empty =? 0) then mret (inr 0)
    else
      p ← dl_list_first h;
      on_lnk (DlList.dl_list_del p) ;;
      m ← the_msg p;
      (if negb (m_buf m =? 0) then
         match finish_callback m with
         | NoFinish => mret tt
         | Uart_tx_finish_callback => uart_tx_finish_callback (callback_arg m)
         end ;;
         tls_mem_free p ;;
         set_msgs (delete p) ;;
         set_lnk (delete p)
       else mret tt) ;;
      mret (inl tt)) tt.

(** [while (tx_count-- > 0 && tx_msg->offset < tx_msg->buflen)] *)
Fixpoint tx_burst (tx_count : nat) (p : Z) : M st unit :=
  match tx_count with
  | O => mret tt
  | Datatypes.S tx_count =>
      m ← the_msg p;
      if m_offset m <? buflen m then
        fifos ← rd UR_FIFOS;
        full ← gets (fun s => tx_fifofull (prt s));
        if fifos &&& UFS_TX_FIFO_CNT_MASK =? full then mret tt
        else
          wr UR_TXW (byte_at (m_bytes m) (m_offset m)) ;;
          set_msgs <[p := TxMsg (m_buf m) (m_bytes m) (buflen m) (u16 (m_offset m + 1)) (finish_callback m) (callback_arg m)]> ;;
          set_prt (fun q => set_icount (icount_tx q + 1) q) ;;
          tx_burst tx_count p
      else mret tt
  end.

Definition call_tx_callback : M st unit :=
  q ← gets prt;
  match tx_callback q with
  | NoTx => mret tt
  | Free_tx_sent_data => _ ← tls_uart_free_tx_sent_data; mret tt
  | Client_tx fn => on_world (tx_called fn (uart_no q))
  end.

(** [tls_uart_tx_chars] and [tls_uart_tx_chars_start] have the same body. *)
Definition tls_uart_tx_chars : M st unit :=
  h ← pending;
  empty ← on_lnk (DlList.dl_list_empty h);
  if empty =? 0 then
    p ← dl_list_first h;
    tx_burst 32 p ;;
    m ← the_msg p;
    if buflen m <=? m_offset m then
      on_lnk (DlList.dl_list_del p) ;;
      f ← freed;
      on_lnk (DlList.dl_list_add_tail f p) ;;
      q ← gets prt;
      (if negb (tx_sent_callback q =? 0) then on_world (tx_called (tx_sent_callback q) (uart_no q)) else mret tt) ;;
      call_tx_callback
    else mret tt
  else mret tt.
Definition tls_uart_tx_chars_start : M st unit := tls_uart_tx_chars.

(** The sum is kept in 16 bits. *)
Definition tls_uart_tx_remain_len : M st Z :=
  h ← pending;
  fuel ← gets (fun s => size (lnk s));
  nd ← on_lnk (DlList.load h);
  n ← mloop fuel (fun '(item, buf_len) =>
    if item =? h then mret (inr buf_len)
    else
      m ← the_msg item;
      nd ← on_lnk (DlList.load item);
      mret (inl (DlList.next nd, u16 (buf_len + buflen m)))) (DlList.next nd, 0);
  mret (TLS_UART_TX_BUF_SIZE - n).

Definition sizeof_tx_msg : Z := 24.

(** [bytes] is the memory at [buf]. *)
Definition tls_uart_fill_buf (bytes : list Z) (count : Z) : M st Z :=
  b ← tls_mem_alloc sizeof_tx_msg;
  match b with
  | None => mret (-1)
  | Some (p, _) =>
      set_lnk <[p := DlList.Node 0 0]> ;;
      on_lnk (DlList.dl_list_init p) ;;
      b ← tls_mem_alloc count;
      match b with
      | None => tls_mem_free p ;; set_lnk (delete p) ;; mret (-1)
      | Some (a, l) =>
          data ← must (if (count <=? zlen bytes) && (count <=? zlen l) then Some (memcpy_at 0 (take (Z.to_nat count) bytes) l) else None);
          set_msgs <[p := TxMsg a data (u16 count) 0 Uart_tx_finish_callback a]> ;;
          h ← pending;
          on_lnk (DlList.dl_list_add_tail h p) ;;
          mret 0
      end
  end.

(** [data] is the address of the caller's buffer. *)
Definition tls_uart_write_async (data : Z) (bytes : list Z) (writesize : Z) : M st Z :=
  if (data =? 0) || (writesize <? 1) then mret WM_FAILED
  else
    ret ← tls_uart_fill_buf bytes writesize;
    if ret =? 0 then tls_uart_tx_chars_start ;; mret ret else mret ret.
Definition tls_uart_write := tls_uart_write_async.

Definition tls_uart_tx_length : M st Z := gets (fun s => s32 (icount_tx (prt s))).

(** ** Receiving *)

(** [recv->buf[recv->head] = ch; recv->head = (recv->head + 1) & ...] *)
Definition put_char (ch : Z) : M st unit :=
  c ← gets (fun s => recv (prt s));
  match buf c with
  | Some (a, l) =>
      if (0 <=? head c) && (head c <? zlen l)
      then set_prt (set_recv (Circ (Some (a, memcpy_at (head c) [ch] l)) ((head c + 1) &&& (TLS_UART_RX_BUF_SIZE - 1)) (tail c)))
      else stuck
  | None => stuck
  end.

Definition call_rx (fn n : Z) : M st unit :=
  p ← gets (fun s => priv_data (prt s));
  on_world (rx_called fn (u16 n) p).
Definition rx_byte_called (flag : Z) : M st unit :=
  fn ← gets (fun s => rx_callback (prt s));
  if negb (fn =? 0) && negb (flag =? 0) then call_rx fn 1 else mret tt.
Definition rx_called_once (flag rxlen : Z) : M st unit :=
  fn ← gets (fun s => rx_callback (prt s));
  if negb (rxlen =? 0) && negb (fn =? 0) && (flag =? 0) then call_rx fn rxlen else mret tt.

(** [tls_set_uart_rx_status] changes [uart_port[1]] only, which this is if
    [uart_no] is 1. *)
Definition tls_set_uart_rx_status (uart_no status : Z) : M st unit :=
  if uart_no =? TLS_UART_1 then
    q ← gets prt;
    if (rxstatus q =? TLS_UART_RX_DISABLE) && (status =? TLS_UART_RX_DISABLE) ||
       (rxstatus q =? TLS_UART_RX_ENABLE) && (status =? TLS_UART_RX_ENABLE) then mret tt
    else if status =? TLS_UART_RX_DISABLE then
      if (flow_ctrl (opts q) =? TLS_UART_FLOW_CTRL_HARDWARE) && (fcStatus q =? TLS_UART_FLOW_CTRL_HARDWARE) then
        upd_reg UR_INTM (fun v => v ||| (0x1 ≪ 2 ||| 0x01 ≪ 8)) ;;
        set_prt (set_rxstatus TLS_UART_RX_DISABLE)
      else mret tt
    else
      upd_reg UR_INTM (fun v => v &&& Z.lnot (0x1 ≪ 2 ||| 0x01 ≪ 8)) ;;
      set_prt (set_rxstatus TLS_UART_RX_ENABLE)
  else mret tt.

Definition rx_fifo_cnt : M st Z := v ← rd UR_FIFOS; mret ((v ≫ 6) &&& 0x3F).
(** [(intr_src & UART_RX_INT_FLAG) && (0 == (port->regs->UR_INTM & UIS_RX_FIFO))] *)
Definition rx_due (intr_src : Z) : M st bool :=
  if negb (intr_src &&& UART_RX_INT_FLAG =? 0) then m ← rd UR_INTM; mret (m &&& UIS_RX_FIFO =? 0) else mret false.
Definition rx_err (intr_src : Z) : bool := negb (intr_src &&& UART_RX_ERR_INT_FLAG =? 0).

(** The loop of [UART0_IRQHandler]. *)
Fixpoint uart0_rx (rx_fifocnt : nat) (intr_src flag rxlen : Z) : M st Z :=
  match rx_fifocnt with
  | O => mret rxlen
  | Datatypes.S rx_fifocnt =>
      v ← rd UR_RXW;
      let ch := u8 v in
      if rx_err intr_src then
        upd_reg UR_INTS (fun v => v ||| UART_RX_ERR_INT_FLAG) ;;
        uart0_rx rx_fifocnt intr_src flag rxlen
      else
        q ← gets prt;
        if CIRC_SPACE (head (recv q)) (tail (recv q)) <=? 2 then
          if fcStatus q =? TLS_UART_FLOW_CTRL_HARDWARE then
            tls_set_uart_rx_status (uart_no q) TLS_UART_RX_DISABLE ;;
            put_char ch ;;
            rx_byte_called flag ;;
            mret (rxlen + 1)
          else mret rxlen
        else
          put_char ch ;;
          rx_byte_called flag ;;
          uart0_rx rx_fifocnt intr_src flag (rxlen + 1)
  end.

Definition tls_uart_tx_enable : M st unit := upd_reg UR_LC (fun v => v ||| ULCON_TX_EN).
Definition tls_uart_tx_disable : M st unit := upd_reg UR_LC (fun v => v &&& Z.lnot ULCON_TX_EN).
Definition tls_uart_rx_disable : M st unit := upd_reg UR_LC (fun v => v &&& Z.lnot ULCON_RX_EN).
Definition tls_uart_rx_enable : M st unit := upd_reg UR_LC (fun v => v ||| ULCON_RX_EN).

Definition uart_handle_cts_change (status : Z) : M st unit :=
  q ← gets prt;
  if (fcStatus q =? 1) && (flow_ctrl (opts q) =? TLS_UART_FLOW_CTRL_HARDWARE) && (uart_no q =? TLS_UART_1) then
    if negb (hw_stopped q =? 0) then
      if negb (status =? 0) then
        set_prt (set_hw_stopped 0) ;;
        tls_uart_tx_enable ;;
        tls_uart_tx_chars
      else mret tt
    else if status =? 0 then
      set_prt (set_hw_stopped 1) ;;
      tls_uart_tx_disable
    else mret tt
  else mret tt.

(** The end of the three handlers: sending and clear-to-send. *)
Definition irq_tx_cts (intr_src : Z) : M st unit :=
  (if negb (intr_src &&& UART_TX_INT_FLAG =? 0) then tls_uart_tx_chars else mret tt) ;;
  (if negb (intr_src &&& UIS_CTS_CHNG =? 0) then
     fifos ← rd UR_FIFOS;
     uart_handle_cts_change (fifos &&& UFS_CST_STS)
   else mret tt).

Definition uart0_irq_rx (flag intr_src : Z) : M st unit :=
  due ← rx_due intr_src;
  if (due : bool) then
    n ← rx_fifo_cnt;
    rxlen ← uart0_rx (Z.to_nat n) intr_src flag 0;
    rx_called_once flag rxlen
  else mret tt.

Definition UART0_IRQHandler (flag : Z) : M st unit :=
  intr_src ← rd UR_INTS;
  wr UR_INTS intr_src ;;
  uart0_irq_rx flag intr_src ;;
  irq_tx_cts intr_src.

(** [if (CIRC_SPACE(...) <= RX_CACHE_LIMIT) recv->tail = ...]: the oldest
    bytes make room. *)
Definition drop_oldest : M st unit :=
  c ← gets (fun s => recv (prt s));
  if CIRC_SPACE (head c) (tail c) <=? RX_CACHE_LIMIT
  then set_prt (set_recv (Circ (buf c) (head c) (u32 (tail c + RX_CACHE_LIMIT) &&& (TLS_UART_RX_BUF_SIZE - 1))))
  else mret tt.

(** Bytes out of the FIFO, into the ring; [ch] is the last one. *)
Fixpoint rx_flush (n : nat) (ch : Z) : M st Z :=
  match n with
  | O => mret ch
  | Datatypes.S n => v ← rd UR_RXW; rx_flush n (u8 v)
  end.
Fixpoint rx_store (n : nat) (flag ch : Z) : M st Z :=
  match n with
  | O => mret ch
  | Datatypes.S n =>
      v ← rd UR_RXW;
      put_char (u8 v) ;;
      rx_byte_called flag ;;
      rx_store n flag (u8 v)
  end.

(** [recv->buf[i]] for an index computed with 32 bits: behind a wrap-around
    the byte is one in front of the block. *)
Definition ring_at (i : Z) : M st Z :=
  c ← gets (fun s => recv (prt s));
  match buf c with
  | Some (a, l) =>
      let i := u32 i in
      if i <? zlen l then mret (byte_at l i)
      else if 2 ^ 31 <=? i then mret (before_block a (2 ^ 32 - i))
      else stuck
  | None => stuck
  end.

Definition PLUS : Z := 43.

(** [switch(recv->head-1)]: are the last three bytes the escape sequence? *)
Definition escape_at : M st bool :=
  h ← gets (fun s => head (recv (prt s)));
  let '(i, j) :=
    if u32 (h - 1) =? 0 then (TLS_UART_RX_BUF_SIZE - 1, TLS_UART_RX_BUF_SIZE - 2)
    else if u32 (h - 1) =? 1 then (0, TLS_UART_RX_BUF_SIZE - 1)
    else (h - 2, h - 3) in
  a ← ring_at i;
  if a =? PLUS then b ← ring_at j; mret (b =? PLUS) else mret false.
Definition escape_check (escapefifocnt ch : Z) : M st unit :=
  if (escapefifocnt =? 3) && (ch =? PLUS) then
    e ← escape_at;
    if (e : bool) then set_prt (set_plus 3) else mret tt
  else mret tt.

(** A set overrun flag is written back; a running DMA is restarted. *)
Definition irq_overrun (intr_src : Z) : M st unit :=
  if negb (intr_src &&& UIS_OVERRUN =? 0) then
    upd_reg UR_INTS (fun v => v ||| UIS_OVERRUN) ;;
    on ← gets (fun s => tx_dma_on (prt s));
    if (on : bool) then
      upd_reg UR_DMAC (fun v => v &&& Z.lnot 0x01) ;;
      upd_reg UR_DMAC (fun v => v ||| 0x01)
    else mret tt
  else mret tt.

Definition uart1_irq_rx (flag intr_src : Z) : M st unit :=
  due ← rx_due intr_src;
  if (due : bool) then
    n ← rx_fifo_cnt;
    set_prt (set_plus 0) ;;
    drop_oldest ;;
    x ← (if rx_err intr_src then
           ch ← rx_flush (Z.to_nat n) 0;
           upd_reg UR_INTS (fun v => v ||| UART_RX_ERR_INT_FLAG) ;;
           mret (0, ch)
         else
           ch ← rx_store (Z.to_nat n) flag 0;
           mret (n, ch));
    let '(rxlen, ch) := x in
    escape_check n ch ;;
    rx_called_once flag rxlen
  else mret tt.

Definition UART1_IRQHandler (flag : Z) : M st unit :=
  intr_src ← rd UR_INTS;
  wr UR_INTS intr_src ;;
  irq_overrun intr_src ;;
  uart1_irq_rx flag intr_src ;;
  irq_tx_cts intr_src.

(** The loop of [UART2_4_IRQHandler], which looks at the error flags for
    every byte. *)
Fixpoint uart24_rx (n : nat) (intr_src flag ch : Z) : M st Z :=
  match n with
  | O => mret ch
  | Datatypes.S n =>
      v ← rd UR_RXW;
      let ch := u8 v in
      if rx_err intr_src then
        upd_reg UR_INTS (fun v => v ||| UART_RX_ERR_INT_FLAG) ;;
        uart24_rx n intr_src flag ch
      else
        put_char ch ;;
        rx_byte_called flag ;;
        uart24_rx n intr_src flag ch
  end.

Definition uart24_irq_rx (flag intr_src : Z) : M st unit :=
  due ← rx_due intr_src;
  if (due : bool) then
    n ← rx_fifo_cnt;
    set_prt (set_plus 0) ;;
    drop_oldest ;;
    ch ← uart24_rx (Z.to_nat n) intr_src flag 0;
    escape_check n ch ;;
    rx_called_once flag n
  else mret tt.

(** On the port that [findOutIntUart] has found. *)
Definition uart24_irq (flag : Z) : M st unit :=
  intr_src ← rd UR_INTS;
  irq_overrun intr_src ;;
  uart24_irq_rx flag intr_src ;;
  irq_tx_cts intr_src ;;
  wr UR_INTS intr_src.

(** [tls_uart_read] in the three pieces between which an interrupt matters:
    how many bytes, the copy, and the new tail. *)
Definition read_count (readsize : Z) : M st Z :=
  c ← gets (fun s => recv (prt s));
  let data_cnt := CIRC_CNT (head c) (tail c) in
  mret (if readsize <=? data_cnt then readsize else data_cnt).
Definition read_copy (buflen : Z) : M st (list Z) :=
  c ← gets (fun s => recv (prt s));
  match buf c with
  | Some (_, l) =>
      if TLS_UART_RX_BUF_SIZE <? tail c + buflen then
        let bufcopylen := TLS_UART_RX_BUF_SIZE - tail c in
        mret (slice (tail c) bufcopylen l ++ slice 0 (buflen - bufcopylen) l)
      else mret (slice (tail c) buflen l)
  | None => if buflen =? 0 then mret [] else stuck
  end.
Definition read_advance (buflen : Z) : M st unit :=
  c ← gets (fun s => recv (prt s));
  set_prt (set_recv (Circ (buf c) (head c) (u32 (tail c + buflen) &&& (TLS_UART_RX_BUF_SIZE - 1)))).

(** The result and the bytes in the caller's buffer at [data]. *)
Definition tls_uart_read (data readsize : Z) : M st (Z * list Z) :=
  if (data =? 0) || (readsize <? 1) then mret (WM_FAILED, [])
  else
    buflen ← read_count readsize;
    bytes ← read_copy buflen;
    read_advance buflen ;;
    mret (buflen, bytes).

Definition tls_uart_try_read (read_size : Z) : M st Z :=
  c ← gets (fun s => recv (prt s));
  mret (if read_size <=? CIRC_CNT (head c) (tail c) then read_size else 0).

(** [tls_uart_push] on port 1, whatever its index says. *)
Fixpoint tls_uart_push (data : list Z) : M st unit :=
  match data with
  | [] => mret tt
  | b :: data => put_char b ;; tls_uart_push data
  end.

(** ** Configuration *)

Definition baud_rates : list Z :=
  [2000000; 1500000; 1250000; 1000000; 921600; 460800; 230400; 115200; 57600; 38400; 19200; 9600; 4800; 2400; 1800; 1200; 600].
Definition tls_uart_check_baudrate (baudrate : Z) : Z := if existsb (Z.eqb baudrate) baud_rates then 1 else -1.

(** The divisor for the rate [baudrate]: whole part and sixteenths. *)
Definition baud_value (apbclk baudrate : Z) : Z :=
  u32 (apbclk / u32 (16 * baudrate) - 1) |||
  u32 ((u32 (apbclk mod u32 (baudrate * 16) * 16) / u32 (baudrate * 16)) ≪ 16).

(** [mhz] is what [tls_sys_clk_get] reports as the clock of the bus. *)
Definition tls_uart_set_baud_rate_inside (mhz baudrate : Z) : M st Z :=
  if tls_uart_check_baudrate baudrate <? 0 then mret WM_FAILED
  else
    wr UR_BD (baud_value (u32 (mhz * 1000000)) baudrate) ;;
    set_prt (set_opts (fun o => Options baudrate (charlength o) (paritytype o) (flow_ctrl o) (stopbits o))) ;;
    mret WM_SUCCESS.

Definition tls_uart_set_parity_inside (p : Z) : M st Z :=
  set_prt (set_opts (fun o => Options (baudrate o) (charlength o) p (flow_ctrl o) (stopbits o))) ;;
  if p =? TLS_UART_PMODE_DISABLED then upd_reg UR_LC (fun v => v &&& Z.lnot ULCON_PMD_EN) ;; mret WM_SUCCESS
  else if p =? TLS_UART_PMODE_EVEN then
    upd_reg UR_LC (fun v => v &&& Z.lnot ULCON_PMD_MASK) ;; upd_reg UR_LC (fun v => v ||| ULCON_PMD_EVEN) ;; mret WM_SUCCESS
  else if p =? TLS_UART_PMODE_ODD then
    upd_reg UR_LC (fun v => v &&& Z.lnot ULCON_PMD_MASK) ;; upd_reg UR_LC (fun v => v ||| ULCON_PMD_ODD) ;; mret WM_SUCCESS
  else mret WM_FAILED.

(** The four codes are the values of the field. *)
Definition tls_uart_set_data_bits (n : Z) : M st Z :=
  set_prt (set_opts (fun o => Options (baudrate o) n (paritytype o) (flow_ctrl o) (stopbits o))) ;;
  upd_reg UR_LC (fun v => v &&& Z.lnot ULCON_WL_MASK) ;;
  if (0 <=? n) && (n <=? 3) then upd_reg UR_LC (fun v => v ||| n) ;; mret WM_SUCCESS else mret WM_FAILED.

Definition tls_uart_set_stop_bits_inside (n : Z) : M st Z :=
  set_prt (set_opts (fun o => Options (baudrate o) (charlength o) (paritytype o) (flow_ctrl o) n)) ;;
  (if n =? TLS_UART_TWO_STOPBITS then upd_reg UR_LC (fun v => v ||| ULCON_STOP_2)
   else upd_reg UR_LC (fun v => v &&& Z.lnot ULCON_STOP_2)) ;;
  mret WM_SUCCESS.

Definition TLS_UART_STATUS_OK : Z := 0.
Definition TLS_UART_STATUS_ERROR : Z := 1.

Definition tls_uart_set_flow_ctrl (fc : Z) : M st Z :=
  if fc =? TLS_UART_FLOW_CTRL_NONE then wr UR_FC 0 ;; mret TLS_UART_STATUS_OK
  else if fc =? TLS_UART_FLOW_CTRL_HARDWARE then
    q ← gets prt;
    (if flow_ctrl (opts q) =? TLS_UART_FLOW_CTRL_HARDWARE then wr UR_FC (1 ≪ 0 ||| 6 ≪ 2) else mret tt) ;;
    mret TLS_UART_STATUS_OK
  else mret TLS_UART_STATUS_ERROR.

Definition tls_uart_set_fc_status (status : Z) : M st unit :=
  set_prt (set_fcStatus status) ;;
  _ ← tls_uart_set_flow_ctrl status;
  q ← gets prt;
  if (flow_ctrl (opts q) =? TLS_UART_FLOW_CTRL_HARDWARE) && (status =? 0) && negb (hw_stopped q =? 0) then
    tls_uart_tx_enable ;;
    tls_uart_tx_chars ;;
    set_prt (set_hw_stopped 0)
  else mret tt.

Definition tls_uart_get_baud_rate : M st Z :=
  q ← gets prt;
  mret (if negb (regs_at q =? 0) then baudrate (opts q) else 0).

(** The results of the settings are not looked at. *)
Definition tls_uart_config (mhz : Z) (o : uart_options) : M st Z :=
  _ ← tls_uart_set_baud_rate_inside mhz (baudrate o);
  _ ← tls_uart_set_parity_inside (paritytype o);
  _ ← tls_uart_set_data_bits (charlength o);
  _ ← tls_uart_set_stop_bits_inside (stopbits o);
  set_prt (set_opts (fun o' => Options (baudrate o') (charlength o') (paritytype o') (flow_ctrl o) (stopbits o'))) ;;
  _ ← tls_uart_set_flow_ctrl (flow_ctrl o);
  wr UR_INTS 0xFFFFFFFF ;;
  wr UR_INTM 0x0 ;;
  wr UR_DMAC (4 ≪ 3 ||| 1 ≪ 2) ;;
  wr UR_FIFOC (3 ≪ 2 ||| 3 ≪ 4 ||| 0x01 ||| 0x02) ;;
  upd_reg UR_LC (fun v => v &&& Z.lnot (ULCON_TX_EN ||| ULCON_RX_EN)) ;;
  upd_reg UR_LC (fun v => v ||| (ULCON_RX_EN ||| ULCON_TX_EN)) ;;
  mret WM_SUCCESS.

Definition UartRegInit (mhz uart_no : Z) : M st unit :=
  if uart_no =? 0 then
    wr UR_BD (baud_value (u32 (mhz * 1000000)) 115200) ;;
    wr UR_LC (0x03 ||| ULCON_TX_EN) ;;
    wr UR_FC 0 ;;
    wr UR_DMAC 0 ;;
    wr UR_FIFOC 0 ;;
    wr UR_INTM 0xFF
  else
    wr UR_FIFOC (0x01 ≪ 2 ||| 0x02 ≪ 4) ;;
    wr UR_DMAC (8 ≪ 3 ||| 1 ≪ 2) ;;
    wr UR_INTM (Z.lnot (3 ≪ 2)).

Definition zero_port : port :=
  Port 0 0 (Options 0 0 0 0 0) 0 0 0 0 0 (Circ None 0 0) 0 0 NoTx 0 false 0.
Definition default_options : uart_options := Options 115200 3 TLS_UART_PMODE_DISABLED TLS_UART_FLOW_CTRL_NONE 0.
Definition uart_base (uart_no : Z) : Z := 0x40010600 + uart_no * 0x200.

Definition set_identity (no at_ : Z) (p : port) : port :=
  Port no (plus_char_cnt p) (opts p) (fcStatus p) (rxstatus p) (tx_fifofull p) at_ (icount_tx p) (recv p)
    (hw_stopped p) (rx_callback p) (tx_callback p) (tx_sent_callback p) (tx_dma_on p) (priv_data p).
Definition set_fifofull (v : Z) (p : port) : port :=
  Port (uart_no p) (plus_char_cnt p) (opts p) (fcStatus p) (rxstatus p) v (regs_at p) (icount_tx p) (recv p)
    (hw_stopped p) (rx_callback p) (tx_callback p) (tx_sent_callback p) (tx_dma_on p) (priv_data p).

(** The end of [tls_uart_port_init]: a ring, and two empty lists. *)
Definition port_ring (uart_no : Z) : M st Z :=
  set_prt (set_rxstatus TLS_UART_RX_ENABLE) ;;
  b ← tls_mem_alloc TLS_UART_RX_BUF_SIZE;
  match b with
  | None => mret WM_FAILED
  | Some (a, _) =>
      set_prt (set_recv (Circ (Some (a, replicate (Z.to_nat TLS_UART_RX_BUF_SIZE) 0)) 0 0)) ;;
      set_prt (set_fifofull 16) ;;
      set_lnk (fun m => <[pending_head uart_no := DlList.Node 0 0]> (<[freed_head uart_no := DlList.Node 0 0]> m)) ;;
      on_lnk (DlList.dl_list_init (pending_head uart_no)) ;;
      on_lnk (DlList.dl_list_init (freed_head uart_no)) ;;
      set_prt (set_tx_callback Free_tx_sent_data) ;;
      mret WM_SUCCESS
  end.

(** Its middle: the port is cleared, and the options are set. *)
Definition port_mode (uart_no modeChoose : Z) : M st unit :=
  if uart_no =? TLS_UART_2 then
    if modeChoose =? 1 then upd_reg UR_LC (fun v => v ||| 1 ≪ 24) else upd_reg UR_LC (fun v => v &&& Z.lnot 0x1000000)
  else mret tt.
Definition port_setup (mhz uart_no : Z) (o : option uart_options) (modeChoose : Z) : M st Z :=
  set_prt (fun _ => set_identity uart_no (uart_base uart_no) zero_port) ;;
  port_mode uart_no modeChoose ;;
  ret ← tls_uart_config mhz (default default_options o);
  if negb (ret =? WM_SUCCESS) then mret WM_FAILED else port_ring uart_no.

(** [tls_uart_port_init] between the two calls that switch the port's
    interrupt off and on; the second is left out when it fails. *)
Definition port_init (mhz uart_no : Z) (o : option uart_options) (modeChoose : Z) : M st Z :=
  UartRegInit mhz uart_no ;;
  q ← gets prt;
  match buf (recv q) with Some (a, _) => tls_mem_free a | None => mret tt end ;;
  port_setup mhz uart_no o modeChoose.

Definition tls_uart_rx_callback_register (fn priv : Z) : M st unit := set_prt (set_rx_callback fn priv).
Definition tls_uart_tx_callback_register (f : tx_cb) : M st unit := set_prt (set_tx_callback f).
Definition tls_uart_tx_sent_callback_register (fn : Z) : M st unit := set_prt (set_tx_sent_callback fn).
(** On the port of the given number. *)
Definition tls_uart_set_parity (p : Z) : M st Z := tls_uart_set_parity_inside p.
Definition tls_uart_set_baud_rate (mhz baudrate : Z) : M st Z := tls_uart_set_baud_rate_inside mhz baudrate.
Definition tls_uart_set_stop_bits (n : Z) : M st Z := tls_uart_set_stop_bits_inside n.
Definition tls_uart_dma_off : M st Z := set_prt (set_tx_dma_on false) ;; mret WM_SUCCESS.

End port_ops.
