(* ===== verification/UartRing.v ===== *)
(** * The ring of received bytes

    What a ring holds, as a list: storing a byte appends it, advancing the
    tail takes bytes off the front, and the copy of [tls_uart_read] is a
    prefix - also where the bytes go round the end of the block. *)
From S2P Require Import Prelude CMonad DlList HostEnv Uart.

Lemma CIRC_CNT_mod h t : CIRC_CNT h t = (h - t) mod 512.
Proof.
  unfold CIRC_CNT, TLS_UART_RX_BUF_SIZE. change (512 - 1) with (Z.ones 9). rewrite Z.land_ones by lia.
  unfold wrap. change (2 ^ 9) with 512. change (2 ^ 32) with 4294967296. dlia.
Qed.

Lemma mask_mod x : x &&& (TLS_UART_RX_BUF_SIZE - 1) = x mod 512.
Proof. unfold TLS_UART_RX_BUF_SIZE. change (512 - 1) with (Z.ones 9). by rewrite Z.land_ones by lia. Qed.

Lemma rx_byte_ok v : byte_ok (u8 v).
Proof. unfold byte_ok, wrap. apply Z.mod_pos_bound. done. Qed.

Lemma wrap_mod512 x : u32 x mod 512 = x mod 512.
Proof. unfold wrap. dlia. Qed.

Record ring_ok (c : circ) : Prop := {
  rg_buf : exists a l, buf c = Some (a, l) /\ zlen l = 512 /\ bytes_ok l;
  rg_head : 0 <= head c < 512;
  rg_tail : 0 <= tail c < 512
}.

(** [n] bytes of [l] from [t] on, round the end. *)
Definition around (l : list Z) (t : Z) (n : nat) : list Z := (fun i => byte_at l ((t + i) mod 512)) <$> seqZ 0 (Z.of_nat n).

Definition bytes_of_block (c : circ) : list Z := match buf c with Some (_, l) => l | None => [] end.
Definition count (c : circ) : nat := Z.to_nat ((head c - tail c) mod 512).
Definition content (c : circ) : list Z := around (bytes_of_block c) (tail c) (count c).

Lemma length_around l t n : length (around l t n) = n.
Proof. unfold around. rewrite length_fmap, length_seqZ. lia. Qed.

Lemma byte_at_around l t n i : 0 <= i < Z.of_nat n -> byte_at (around l t n) i = byte_at l ((t + i) mod 512).
Proof.
  intros Hi. unfold around. unfold byte_at at 1. rewrite nth_lookup, list_lookup_fmap, lookup_seqZ_lt by lia. cbn.
  do 2 f_equal. f_equal. lia.
Qed.

Lemma length_content c : zlen (content c) = (head c - tail c) mod 512.
Proof. unfold content. rewrite length_around. unfold count. pose proof (Z.mod_pos_bound (head c - tail c) 512). lia. Qed.

Lemma content_bound c : zlen (content c) <= 511.
Proof. rewrite length_content. pose proof (Z.mod_pos_bound (head c - tail c) 512). lia. Qed.

Lemma space_content c : ring_ok c -> CIRC_SPACE (head c) (tail c) = 511 - zlen (content c).
Proof. intros [_ ? ?]. unfold CIRC_SPACE. rewrite CIRC_CNT_mod, length_content. dlia. Qed.

Lemma content_bytes c : ring_ok c -> bytes_ok (content c).
Proof.
  intros [(a & l & Hb & Hl & Hok) _ _]. unfold content, around, bytes_of_block. rewrite Hb.
  apply Forall_fmap, Forall_forall. intros i _. cbn. by apply byte_at_ok.
Qed.

(** ** Storing and taking *)

(** What [put_char] makes of a ring. *)
Definition stored (ch : Z) (c : circ) : circ :=
  match buf c with
  | Some (a, l) => Circ (Some (a, memcpy_at (head c) [ch] l)) ((head c + 1) mod 512) (tail c)
  | None => c
  end.
Definition advanced (n : Z) (c : circ) : circ := Circ (buf c) (head c) ((tail c + n) mod 512).

Lemma stored_ok ch c : ring_ok c -> byte_ok ch -> ring_ok (stored ch c).
Proof.
  intros [(a & l & Hb & Hl & Hok) Hh Ht] Hch. unfold stored. rewrite Hb. split; cbn [buf head tail]; [|apply Z.mod_pos_bound; lia|done].
  eexists _, _. split; [done|]. rewrite length_memcpy_at. split; [done|]. apply memcpy_bytes_ok; [by constructor|done].
Qed.

Lemma stored_content ch c : ring_ok c -> zlen (content c) < 511 -> content (stored ch c) = content c ++ [ch].
Proof.
  intros [(a & l & Hb & Hl & Hok) Hh Ht] Hroom. rewrite length_content in Hroom. unfold content, stored, bytes_of_block, count.
  rewrite Hb. cbn [buf head tail]. pose proof (Z.mod_pos_bound (head c - tail c) 512 ltac:(lia)) as Hm.
  set (k := (head c - tail c) mod 512) in *.
  assert (Hk : ((head c + 1) mod 512 - tail c) mod 512 = k + 1) by (unfold k in *; dlia).
  rewrite Hk. apply byte_list_eq; rewrite ?length_app, !length_around; cbn [length]; [lia|].
  intros i Hi. rewrite byte_at_around by lia. rewrite byte_at_memcpy by (cbn [length]; dlia). cbn [length].
  destruct (Z.eq_dec i k) as [->|Hne].
  - assert (Hp : (tail c + k) mod 512 = head c) by (unfold k; dlia). rewrite Hp.
    rewrite (proj2 (Z.leb_le _ _)), (proj2 (Z.ltb_lt _ _)) by lia. cbn [andb]. rewrite Z.sub_diag.
    unfold byte_at. rewrite app_nth2 by (rewrite length_around; lia). rewrite length_around. by replace (_ - _)%nat with O by lia.
  - assert (Hp : (tail c + i) mod 512 <> head c) by (unfold k in *; dlia).
    destruct (Z.leb_spec (head c) ((tail c + i) mod 512)), (Z.ltb_spec ((tail c + i) mod 512) (head c + Z.of_nat 1)); cbn [andb]; try lia.
    all: unfold byte_at at 2; rewrite app_nth1 by (rewrite length_around; lia); change (nth (Z.to_nat i) ?l 0) with (byte_at l i);
      by rewrite byte_at_around by lia.
Qed.

(** The byte that fills the last place empties the ring. *)
Lemma stored_wraps ch c : ring_ok c -> zlen (content c) = 511 -> content (stored ch c) = [].
Proof.
  intros [(a & l & Hb & Hl & Hok) Hh Ht] Hfull. apply length_zero_iff_nil. rewrite length_content in Hfull.
  pose proof (length_content (stored ch c)) as Hc. unfold stored in *. rewrite Hb in *. cbn in *. dlia.
Qed.

Lemma advanced_ok n c : ring_ok c -> ring_ok (advanced n c).
Proof. intros [? ? ?]. split; cbn; [done|done|]. apply Z.mod_pos_bound. lia. Qed.

Lemma advanced_content n c :
  ring_ok c -> 0 <= n <= zlen (content c) -> content (advanced n c) = drop (Z.to_nat n) (content c).
Proof.
  intros [(a & l & Hb & Hl & Hok) Hh Ht] Hn. rewrite length_content in Hn.
  unfold content, advanced, bytes_of_block, count. cbn [buf head tail]. rewrite Hb.
  pose proof (Z.mod_pos_bound (head c - tail c) 512 ltac:(lia)) as Hm.
  assert (Hk : (head c - (tail c + n) mod 512) mod 512 = (head c - tail c) mod 512 - n) by dlia. rewrite Hk.
  apply byte_list_eq; rewrite ?length_drop, !length_around; [lia|]. intros i Hi.
  rewrite byte_at_around by lia. transitivity (byte_at (around l (tail c) (Z.to_nat ((head c - tail c) mod 512))) (n + i)).
  - rewrite byte_at_around by lia. f_equal. dlia.
  - unfold byte_at at 2. rewrite nth_lookup, lookup_drop, <- nth_lookup. unfold byte_at. f_equal. lia.
Qed.

(** The copy of [tls_uart_read]: what is there, in one piece or in two. *)
Definition copied (n : Z) (c : circ) : list Z :=
  let l := bytes_of_block c in
  if 512 <? tail c + n then slice (tail c) (512 - tail c) l ++ slice 0 (n - (512 - tail c)) l else slice (tail c) n l.

Lemma copied_around n c : ring_ok c -> 0 <= n <= 512 -> copied n c = around (bytes_of_block c) (tail c) (Z.to_nat n).
Proof.
  intros [(a & l & Hb & Hl & Hok) Hh Ht] Hn. unfold copied, bytes_of_block. rewrite Hb.
  destruct (Z.ltb_spec 512 (tail c + n)) as [Hw|Hw].
  - apply byte_list_eq; rewrite ?length_app, ?length_around, !length_slice by lia; [lia|]. intros i Hi.
    rewrite byte_at_around by lia. destruct (Z.lt_ge_cases i (512 - tail c)).
    + unfold byte_at at 1. rewrite app_nth1 by (rewrite length_slice; lia). change (nth (Z.to_nat i) ?l 0) with (byte_at l i).
      rewrite byte_at_slice by lia. f_equal. dlia.
    + unfold byte_at at 1. rewrite app_nth2 by (rewrite length_slice; lia). rewrite length_slice by lia.
      replace (Z.to_nat i - Z.to_nat (512 - tail c))%nat with (Z.to_nat (i - (512 - tail c))) by lia.
      change (nth (Z.to_nat ?j) ?l 0) with (byte_at l j). rewrite byte_at_slice by lia. f_equal. dlia.
  - apply byte_list_eq; rewrite ?length_around, ?length_slice by lia; [lia|]. intros i Hi.
    rewrite byte_at_around, byte_at_slice by lia. f_equal. dlia.
Qed.

Lemma around_prefix l t n m : (n <= m)%nat -> around l t n = take n (around l t m).
Proof.
  intros Hn. apply byte_list_eq; rewrite ?length_take, !length_around; [lia|]. intros i Hi. rewrite byte_at_around by lia.
  unfold byte_at at 2. rewrite nth_lookup, lookup_take_lt, <- nth_lookup by lia. change (nth (Z.to_nat i) ?l 0) with (byte_at l i).
  by rewrite byte_at_around by lia.
Qed.

Lemma copied_content n c : ring_ok c -> 0 <= n <= zlen (content c) -> copied n c = take (Z.to_nat n) (content c).
Proof.
  intros Hc Hn. pose proof (content_bound c). rewrite copied_around by (done || lia). unfold content.
  apply around_prefix. rewrite length_content in Hn. unfold count. lia.
Qed.
