(* ===== verification/UartTx.v ===== *)
(** * Sending over a UART

    The messages of a port are a queue of bytes: what was accepted by
    [tls_uart_write] comes out of the transmitter in that order, nothing
    twice, and when everything has been sent all the memory has been given
    back. *)
From S2P Require Import Prelude CMonad Keeps DlList HostEnv Uart.

Definition with_dev {E D W} (d : D) (s : uart E D W) : uart E D W := Uart (heap s) (world s) d (prt s) (lnk s) (msgs s).
Definition with_prt {E D W} (p : port) (s : uart E D W) : uart E D W := Uart (heap s) (world s) (dev s) p (lnk s) (msgs s).

(** A message: its bytes are in a block that its callback frees. *)
Record msg_mem (m : tx_msg) : Prop := {
  mm_len : buflen m = zlen (m_bytes m) /\ zlen (m_bytes m) < 2 ^ 16;
  mm_bytes : bytes_ok (m_bytes m);
  mm_buf : m_buf m <> 0 /\ callback_arg m = m_buf m /\ finish_callback m = Uart_tx_finish_callback
}.

(** What is left of the messages [q], and the blocks they occupy. *)
Definition unsent_of (m : tx_msg) : list Z := drop (Z.to_nat (m_offset m)) (m_bytes m).
Definition unsent (q : list (Z * tx_msg)) : list Z := concat ((fun x => unsent_of (snd x)) <$> q).
Definition owned (q : list (Z * tx_msg)) : list Z := concat ((fun x => [fst x; m_buf (snd x)]) <$> q).

Section tx.
Context {E D W : Type} `{HostLaws E} `{!HostBlocks E} `{UartRegsLaws D} `{UartClient W} `{!UartMem} `{!UartMemLaws E}.
Implicit Types s : uart E D W.

(** The lists of the port: [q] is waiting to be sent, [f] to be freed, and
    apart from [base] the heap holds these messages alone. *)
Record lists (base : gset Z) (q f : list (Z * tx_msg)) s : Prop := {
  ls_pend : DlList.dll (lnk s) (pending_head (uart_no (prt s))) (fst <$> q);
  ls_freed : DlList.dll (lnk s) (freed_head (uart_no (prt s))) (fst <$> f);
  ls_heads : forall x, x ∈ pending_head (uart_no (prt s)) :: (fst <$> q) -> x ∈ freed_head (uart_no (prt s)) :: (fst <$> f) -> False;
  ls_msgs : Forall (fun x => msgs s !! fst x = Some (snd x) /\ msg_mem (snd x)) (q ++ f);
  ls_nodup : NoDup (owned (q ++ f));
  ls_base : forall x, x ∈ base -> x ∈ owned (q ++ f) -> False;
  ls_heap : h_blocks (heap s) (base ∪ list_to_set (owned (q ++ f)))
}.

(** Between the calls: nothing is to be freed, and every message has bytes
    left. *)
Record sends (base : gset Z) (q : list (Z * tx_msg)) s : Prop := {
  sd_lists : lists base q [] s;
  sd_port : tx_callback (prt s) = Free_tx_sent_data /\ tx_fifofull (prt s) = 16;
  sd_cnt : tx_cnt (dev s) <= 16;
  sd_left : Forall (fun x => 0 <= m_offset (snd x) < buflen (snd x)) q
}.

(** ** The pieces *)

Lemma rd_spec r s (Q : Z -> uart E D W -> Prop) :
  Q (fst (reg_read r (dev s))) (with_dev (snd (reg_read r (dev s))) s) -> wp (rd r) s Q.
Proof using. intros HQ. apply wp_zoom. unfold with_dev in HQ. by destruct (reg_read r (dev s)). Qed.

Lemma on_lnk_spec {A} (m : M DlList.mem A) s (Q : A -> uart E D W -> Prop) :
  wp m (lnk s) (fun a l => Q a (Uart (heap s) (world s) (dev s) (prt s) l (msgs s))) -> wp (on_lnk m) s Q.
Proof using. intros Hm. apply wp_zoom. unfold wp in Hm. by destruct (m (lnk s)) as [[a l]|]. Qed.

Lemma the_msg_spec p m s (Q : tx_msg -> uart E D W -> Prop) : msgs s !! p = Some m -> Q m s -> wp (the_msg p) s Q.
Proof using. intros Hm HQ. eapply wp_eq; [|exact HQ]. unfold the_msg. by rewrite Hm. Qed.

(** The burst: some bytes of the message go out, none if the FIFO is full. *)
Definition moved (k : Z) (m : tx_msg) : tx_msg :=
  TxMsg (m_buf m) (m_bytes m) (buflen m) (m_offset m + k) (finish_callback m) (callback_arg m).

Lemma moved_0 m : moved 0 m = m.
Proof using. unfold moved. rewrite Z.add_0_r. by destruct m. Qed.

(** The same port, up to the number of bytes sent. *)
Definition same_port (p p' : port) : Prop := set_icount 0 p' = set_icount 0 p.

Lemma same_port_fields p p' : same_port p p' ->
  recv p' = recv p /\ uart_no p' = uart_no p /\ tx_callback p' = tx_callback p /\ tx_fifofull p' = tx_fifofull p /\
  tx_sent_callback p' = tx_sent_callback p.
Proof using. unfold same_port, set_icount. destruct p, p'. cbn. intros [= -> -> -> -> -> -> -> -> -> -> -> -> -> ->]. done. Qed.

Lemma slice_cons off k (l : list Z) : 0 <= off < zlen l -> 0 <= k -> slice off (1 + k) l = byte_at l off :: slice (off + 1) k l.
Proof using.
  intros Ho Hk. rewrite slice_app by lia. change (byte_at l off :: slice (off + 1) k l) with ([byte_at l off] ++ slice (off + 1) k l).
  f_equal. apply byte_list_eq; [rewrite length_slice by lia; done|]. intros i Hi. rewrite length_slice in Hi by lia.
  rewrite byte_at_slice by lia. replace i with 0 by lia. by rewrite Z.add_0_r.
Qed.

Definition burst_to n p m s (Q : unit -> uart E D W -> Prop) : Prop :=
  forall k d pt, 0 <= k <= buflen m - m_offset m -> tx_log d = tx_log (dev s) ++ slice (m_offset m) k (m_bytes m) ->
    rx_log d = rx_log (dev s) -> tx_cnt d <= 16 -> same_port (prt s) pt ->
    ((0 < n)%nat -> m_offset m < buflen m -> fst (reg_read UR_FIFOS (dev s)) &&& UFS_TX_FIFO_CNT_MASK <> 16 -> 0 < k) ->
    Q tt (Uart (heap s) (world s) d pt (lnk s) (<[p := moved k m]> (msgs s))).

Lemma burst_stay n p m d s Q :
  msgs s !! p = Some m -> m_offset m <= buflen m -> tx_log d = tx_log (dev s) -> rx_log d = rx_log (dev s) -> tx_cnt d <= 16 ->
  ((0 < n)%nat -> m_offset m < buflen m -> fst (reg_read UR_FIFOS (dev s)) &&& UFS_TX_FIFO_CNT_MASK <> 16 -> False) ->
  burst_to n p m s Q -> Q tt (with_dev d s).
Proof using.
  intros Hm Hoff Ht Hr Hc Hno HQ. specialize (HQ 0 d (prt s)). cbn in HQ. rewrite moved_0, insert_id in HQ by done.
  apply HQ; try done; [lia|by rewrite app_nil_r|]. intros. exfalso. eauto.
Qed.

Lemma burst_same n p m s Q :
  msgs s !! p = Some m -> m_offset m <= buflen m -> tx_cnt (dev s) <= 16 -> (n = 0)%nat \/ buflen m <= m_offset m ->
  burst_to n p m s Q -> Q tt s.
Proof using.
  intros Hm Hoff Hc Hno HQ. assert (s = with_dev (dev s) s) as -> by by destruct s.
  eapply burst_stay; [exact Hm|exact Hoff|done|done|exact Hc| |exact HQ]. intros. destruct Hno; lia.
Qed.

Lemma tx_burst_spec n p m s (Q : unit -> uart E D W -> Prop) :
  msgs s !! p = Some m -> buflen m = zlen (m_bytes m) /\ zlen (m_bytes m) < 2 ^ 16 -> 0 <= m_offset m <= buflen m ->
  bytes_ok (m_bytes m) -> tx_fifofull (prt s) = 16 -> tx_cnt (dev s) <= 16 ->
  burst_to n p m s Q ->
  wp (tx_burst n p) s Q.
Proof.
  revert m s. induction n as [|n IH]; intros m s Hm [Hlen Hmax] Hoff Hb Hfull Hcnt HQ; cbn [tx_burst].
  { eapply wp_ret, burst_same; [exact Hm|lia|exact Hcnt|by left|exact HQ]. }
  apply wp_bind, (the_msg_spec p m); [done|]. destruct (Z.ltb_spec (m_offset m) (buflen m)) as [Hlt|Hge].
  2: { eapply wp_ret, burst_same; [exact Hm|lia|exact Hcnt|right; lia|exact HQ]. }
  apply wp_bind, rd_spec. set (d1 := snd (reg_read UR_FIFOS (dev s))).
  pose proof (read_tx_log UR_FIFOS (dev s)) as Htl. pose proof (read_rx_log UR_FIFOS (dev s)) as Hrl.
  pose proof (read_tx_cnt UR_FIFOS (dev s)) as Htc. pose proof (read_fifos_cnt (dev s)) as Hfc. fold d1 in Htl, Hrl, Htc, Hfc.
  rewrite app_nil_r in Hrl. apply wp_bind, wp_gets. cbn [with_dev prt]. rewrite Hfull.
  destruct (Z.eqb_spec (fst (reg_read UR_FIFOS (dev s)) &&& UFS_TX_FIFO_CNT_MASK) 16) as [Heq|Hne].
  { eapply wp_ret, burst_stay; [exact Hm|lia|exact Htl|exact Hrl|lia|by intros _ _ []|exact HQ]. }
  apply wp_bind, wp_modify, wp_bind, wp_modify, wp_bind, wp_modify. cbn.
  set (b := byte_at (m_bytes m) (m_offset m)). assert (Hbk : byte_ok b) by by apply byte_at_ok.
  destruct (write_tx (u32 b) d1) as [Hw1 Hw2]; [lia|].
  rewrite (wrap_id 16) by lia. change (TxMsg _ _ _ (m_offset m + 1) _ _) with (moved 1 m).
  eapply (IH (moved 1 m)); [apply lookup_insert_eq|by split|cbn; lia|done|done|cbn; lia|].
  intros k d pt Hk Htx Hrx Hc Hsame _. cbn in *. rewrite insert_insert_eq in *.
  assert (Hmv : moved k (moved 1 m) = moved (1 + k) m) by (unfold moved; cbn; f_equal; lia). rewrite Hmv.
  apply HQ; [lia| | |exact Hc| |lia].
  - rewrite Htx, Hw1, Htl, <- app_assoc. f_equal. rewrite slice_cons by lia. cbn. f_equal. fold b. unfold byte_ok in Hbk.
    by rewrite (wrap_id 32 b), (wrap_id 8 b) by lia.
  - by rewrite Hrx, write_rx_log, Hrl.
  - unfold same_port in *. rewrite Hsame. destruct (prt s). reflexivity.
Qed.

(** ** Freeing *)

Lemma owned_cons x q : owned (x :: q) = fst x :: m_buf (snd x) :: owned q.
Proof using. reflexivity. Qed.
Lemma owned_app q1 q2 : owned (q1 ++ q2) = owned q1 ++ owned q2.
Proof using. unfold owned. by rewrite fmap_app, concat_app. Qed.
Lemma owned_fst q x : x ∈ fst <$> q -> x ∈ owned q.
Proof using.
  induction q as [|y q IH]; [by intros ?%not_elem_of_nil|]. rewrite fmap_cons, owned_cons, !elem_of_cons. intros [->|?]; auto.
Qed.


Lemma owned_rotate x q f : owned ((x :: q) ++ f) ≡ₚ owned (q ++ f ++ [x]).
Proof using. rewrite <- app_comm_cons, app_assoc, (owned_app (q ++ f) [x]), (Permutation_app_comm _ (owned [x])). done. Qed.

(** A message that has been sent goes from one list to the other. *)
Lemma lists_move base x q f s l :
  lists base (x :: q) f s ->
  DlList.dll l (pending_head (uart_no (prt s))) (fst <$> q) ->
  DlList.dll l (freed_head (uart_no (prt s))) (fst <$> (f ++ [x])) ->
  lists base q (f ++ [x]) (Uart (heap s) (world s) (dev s) (prt s) l (msgs s)).
Proof using.
  intros [Hp Hf Hh Hm Hnd Hb Hheap] Hp' Hf'. split; cbn; try done.
  - intros y Hy1 Hy2. rewrite fmap_cons in *. rewrite fmap_app, elem_of_cons, elem_of_app in Hy2.
    destruct Hp as [Hndp _]. destruct Hy2 as [Hy2|[Hy2|Hy2]].
    + apply (Hh y); rewrite !elem_of_cons in *; tauto.
    + apply (Hh y); rewrite !elem_of_cons in *; tauto.
    + apply list_elem_of_singleton in Hy2 as ->. apply NoDup_cons in Hndp as [H1' [H2' _]%NoDup_cons].
      apply elem_of_cons in Hy1 as [Hy1|Hy1]; [|done]. apply H1'. rewrite <- Hy1. by left.
  - rewrite !Forall_app in *. rewrite !Forall_cons in *. pose proof (Forall_nil_2 (fun x => msgs s !! fst x = Some (snd x) /\ msg_mem (snd x))). tauto.
  - by rewrite <- owned_rotate.
  - intros y. rewrite <- owned_rotate. apply Hb.
  - by rewrite <- owned_rotate.
Qed.

(** The first message to be freed goes back to the heap. *)
Lemma lists_free base x q f s l :
  lists base q (x :: f) s -> DlList.dll l (pending_head (uart_no (prt s))) (fst <$> q) ->
  DlList.dll l (freed_head (uart_no (prt s))) (fst <$> f) ->
  lists base q f (Uart (h_free (fst x) (h_free (m_buf (snd x)) (heap s))) (world s) (dev s) (prt s) l (delete (fst x) (msgs s))).
Proof.
  intros [Hp Hf Hh Hm Hnd Hb Hheap] Hp' Hf'.
  assert (Hperm : owned (q ++ x :: f) ≡ₚ fst x :: m_buf (snd x) :: owned (q ++ f)).
  { rewrite !owned_app, owned_cons. by rewrite <- !Permutation_middle. }
  rewrite Hperm in Hnd. apply NoDup_cons in Hnd as [Hn1 [Hn2 Hnd]%NoDup_cons].
  assert (Hb' : forall y, y ∈ base -> y ∈ fst x :: m_buf (snd x) :: owned (q ++ f) -> False) by (intros y; rewrite <- Hperm; apply Hb).
  split; cbn; try done.
  - intros y Hy1 Hy2. apply (Hh y); [done|]. rewrite fmap_cons. rewrite !elem_of_cons in *. tauto.
  - rewrite Forall_app, Forall_cons in Hm. destruct Hm as (Hm1 & _ & Hm2). rewrite Forall_app.
    assert (Hdel : forall q', (forall y, y ∈ fst <$> q' -> y ∈ owned (q ++ f)) ->
      Forall (fun y => msgs s !! fst y = Some (snd y) /\ msg_mem (snd y)) q' ->
      Forall (fun y => delete (fst x) (msgs s) !! fst y = Some (snd y) /\ msg_mem (snd y)) q').
    { intros q' Hq' Hall. rewrite Forall_forall in *. intros y Hy. destruct (Hall y Hy). split; [|done].
      rewrite lookup_delete_ne; [done|]. intros Eq. apply Hn1. right. rewrite Eq. apply Hq'. by apply list_elem_of_fmap_2. }
    split; apply Hdel; try done; intros y Hy%owned_fst; rewrite owned_app, elem_of_app; auto.
  - intros y Hy1 Hy2. apply (Hb' y Hy1). by do 2 right.
  - assert (HB : base ∪ list_to_set (owned (q ++ x :: f)) = {[fst x]} ∪ ({[m_buf (snd x)]} ∪ (base ∪ list_to_set (owned (q ++ f)))) :> gset Z).
    { rewrite (list_to_set_perm_L _ _ Hperm). cbn [list_to_set foldr]. set_solver. }
    rewrite HB in Hheap. apply (h_free_blocks _ _ (m_buf (snd x))) in Hheap; [|set_solver].
    apply (h_free_blocks _ _ (fst x)) in Hheap.
    + match goal with _ : h_blocks ?e ?B |- h_blocks ?e ?B' => replace B' with B; [done|] end.
      apply set_eq. intros y. rewrite !elem_of_difference, !elem_of_union, !elem_of_singleton, elem_of_list_to_set.
      rewrite elem_of_cons in Hn1. specialize (Hb' y). rewrite !elem_of_cons in Hb'.
      split; [tauto|]. intros Hy. destruct (decide (y = fst x)) as [->|]; [tauto|]. destruct (decide (y = m_buf (snd x))) as [->|]; tauto.
    + rewrite elem_of_cons in Hn1. apply elem_of_difference. rewrite elem_of_union, !elem_of_singleton. split; [by left|]. intros Eq. apply Hn1. by left.
Qed.

Lemma dl_list_first_spec h x l s (Q : Z -> uart E D W -> Prop) :
  DlList.dll (lnk s) h (x :: l) -> Q x s -> wp (dl_list_first h) s Q.
Proof using.
  intros Hd HQ. destruct (DlList.dll_first _ _ _ Hd) as [(n & Hn & Hx)%DlList.nxt_Some _]. cbn in Hx. subst x.
  apply wp_bind, on_lnk_spec. eapply wp_eq; [unfold DlList.load; by rewrite Hn|]. apply wp_ret. by destruct s.
Qed.

Lemma dl_list_empty_at h l s (Q : Z -> uart E D W -> Prop) :
  DlList.dll (lnk s) h l -> Q (b2z (bool_decide (l = []))) s -> wp (on_lnk (DlList.dl_list_empty h)) s Q.
Proof using.
  intros Hd HQ. apply on_lnk_spec. eapply wp_mono; [by apply DlList.dl_list_empty_spec|]. cbv beta. intros r m [-> ->]. by destruct s.
Qed.

(** A change at nodes of one list does not concern another. *)
Lemma dll_apart (l l' : gmap Z DlList.node) h k c :
  DlList.dll l h k -> DlList.others l l' c -> (forall x, x ∈ h :: k -> x ∈ c -> False) -> DlList.dll l' h k.
Proof using. intros Hd Ho Hc. by eapply DlList.dll_frame. Qed.

(** Nodes that are on no list. *)
Lemma dll_delete (l : gmap Z DlList.node) h k x : DlList.dll l h k -> x ∉ h :: k -> DlList.dll (delete x l) h k.
Proof using.
  intros Hd Hx. eapply (DlList.dll_frame l _ _ _ [x]); [exact Hd| |].
  - intros y Hy. apply lookup_delete_ne. intros ->. apply Hy. by left.
  - intros y Hy1 Hy2%list_elem_of_singleton. by subst.
Qed.
Lemma dll_put (l : gmap Z DlList.node) h k x n : DlList.dll l h k -> x ∉ h :: k -> DlList.dll (<[x := n]> l) h k.
Proof using.
  intros Hd Hx. eapply (DlList.dll_frame l _ _ _ [x]); [exact Hd| |].
  - intros y Hy. apply lookup_insert_ne. intros ->. apply Hy. by left.
  - intros y Hy1 Hy2%list_elem_of_singleton. by subst.
Qed.

Lemma free_loop_spec base q f n s (Q : Z -> uart E D W -> Prop) :
  lists base q f s -> (length f < n)%nat ->
  (forall h l ms, lists base q [] (Uart h (world s) (dev s) (prt s) l ms) -> Q 0 (Uart h (world s) (dev s) (prt s) l ms)) ->
  let h := freed_head (uart_no (prt s)) in
  wp (mloop n (fun _ : unit =>
    empty ← on_lnk (DlList.dl_list_empty h);
    if negb (empty =? 0) then mret (inr 0)
    else
      p ← dl_list_first h;
      on_lnk (DlList.dl_list_del p) ;;
      m ← the_msg p;
      (if negb (m_buf m =? 0) then
         match finish_callback m with
         | NoFinish => mret tt
         | Uart_tx_finish_callback => uart_tx_finish_callback (callback_arg m)
         end ;;
         tls_mem_free p ;;
         set_msgs (delete p) ;;
         set_lnk (delete p)
       else mret tt) ;;
      mret (inl tt)) tt) s Q.
Proof.
  revert n s. induction f as [|x f IH]; intros [|n] s Hl Hn HQ; [cbn in Hn; lia| |cbn in Hn; lia|]; cbn [mloop].
  { apply wp_bind, wp_bind, (dl_list_empty_at _ []); [apply Hl|]. apply wp_ret, wp_ret. destruct s. by apply HQ. }
  pose proof Hl as [Hp Hf Hh Hm Hnd Hb Hheap]. rewrite fmap_cons in Hf.
  apply wp_bind, wp_bind, (dl_list_empty_at _ (fst x :: (fst <$> f))); [exact Hf|]. rewrite bool_decide_false by done. cbn [b2z Z.eqb negb].
  apply wp_bind, (dl_list_first_spec _ (fst x) (fst <$> f)); [exact Hf|]. apply wp_bind, on_lnk_spec.
  eapply wp_mono; [by apply (DlList.dl_list_del_spec _ (freed_head (uart_no (prt s))) [] (fst x) (fst <$> f))|]. cbv beta. intros [] l (Hd1 & _ & Ho). cbn [app] in Hd1, Ho.
  rewrite Forall_app, Forall_cons in Hm. destruct Hm as (_ & [Hmx [_ _ (Hmb & Hma & Hmf)]] & _).
  apply wp_bind, (the_msg_spec _ (snd x)); [exact Hmx|]. rewrite (proj2 (Z.eqb_neq _ _)) by done. cbn [negb]. rewrite Hmf.
  apply wp_bind, wp_bind. unfold uart_tx_finish_callback. rewrite Hma, (proj2 (Z.eqb_neq _ _)) by done. cbn [negb].
  apply wp_modify, wp_bind, wp_modify, wp_bind, wp_modify, wp_modify, wp_ret. cbn.
  assert (Hxf : fst x ∉ freed_head (uart_no (prt s)) :: (fst <$> f)).
  { destruct Hf as [[Hx1 [Hx2 _]%NoDup_cons]%NoDup_cons _]. rewrite elem_of_cons in *. intros [E'|E']; [|done]. apply Hx1. by left. }
  assert (Hxp : fst x ∉ pending_head (uart_no (prt s)) :: (fst <$> q)).
  { intros Hx. apply (Hh _ Hx). rewrite fmap_cons. right. by left. }
  apply (IH n (Uart _ (world s) (dev s) (prt s) (delete (fst x) l) (delete (fst x) (msgs s)))); [|cbn in Hn; lia|exact HQ].
  apply lists_free; [done| |by apply dll_delete].
  apply dll_delete; [|done]. eapply dll_apart; [exact Hp|exact Ho|]. intros y Hy1 Hy2. by apply (Hh y).
Qed.

(** As many rounds as the memory has nodes are enough. *)
Lemma dll_size (l : gmap Z DlList.node) h k : DlList.dll l h k -> (length k < size l)%nat.
Proof using.
  intros Hd. assert (Hsub : list_to_set (h :: k) ⊆ dom l).
  { intros x Hx%elem_of_list_to_set. apply elem_of_dom. by eapply DlList.dll_nodes. }
  apply subseteq_size in Hsub. rewrite size_dom, size_list_to_set in Hsub by apply Hd. cbn in Hsub. lia.
Qed.

Lemma free_sent_spec base q f s (Q : Z -> uart E D W -> Prop) :
  lists base q f s ->
  (forall h l ms, lists base q [] (Uart h (world s) (dev s) (prt s) l ms) -> Q 0 (Uart h (world s) (dev s) (prt s) l ms)) ->
  wp tls_uart_free_tx_sent_data s Q.
Proof.
  intros Hl HQ. apply wp_bind, wp_gets, wp_bind, wp_gets. apply (free_loop_spec base q f); [done| |exact HQ].
  pose proof (dll_size _ _ _ (ls_freed _ _ _ _ Hl)). by rewrite length_fmap in *.
Qed.

(** ** The transmitter *)

Lemma unsent_cons x q : unsent (x :: q) = unsent_of (snd x) ++ unsent q.
Proof using. reflexivity. Qed.
Lemma unsent_app q1 q2 : unsent (q1 ++ q2) = unsent q1 ++ unsent q2.
Proof using. unfold unsent. by rewrite fmap_app, concat_app. Qed.

Lemma unsent_moved k m :
  0 <= k -> 0 <= m_offset m -> slice (m_offset m) k (m_bytes m) ++ unsent_of (moved k m) = unsent_of m.
Proof using.
  intros Hk Ho. unfold unsent_of, slice. cbn [moved m_offset m_bytes]. rewrite Z2Nat.inj_add, <- drop_drop by lia. apply take_drop.
Qed.

(** The burst has changed the first message. *)
Lemma lists_moved base x q f k s d pt :
  lists base (x :: q) f s -> same_port (prt s) pt ->
  lists base ((fst x, moved k (snd x)) :: q) f (Uart (heap s) (world s) d pt (lnk s) (<[fst x := moved k (snd x)]> (msgs s))).
Proof using.
  intros [Hp Hf Hh Hm Hnd Hb Hheap] (_ & Hno & _)%same_port_fields. split; cbn; rewrite ?Hno; try done.
  rewrite <- app_comm_cons, Forall_cons in *. destruct Hm as [[Hm1 [? ? ?]] Hm2]. split; [split; [apply lookup_insert_eq|by split]|].
  rewrite <- ?app_comm_cons, owned_cons in Hnd. apply NoDup_cons in Hnd as [Hn _].
  rewrite Forall_forall in *. intros y Hy. destruct (Hm2 y Hy). split; [|done].
  rewrite lookup_insert_ne; [done|]. intros Eq. apply Hn. right. rewrite Eq. apply owned_fst. by apply list_elem_of_fmap_2.
Qed.

(** What a step of the transmitter leaves: the bytes [k] have gone from the
    messages to the transmit FIFO, none if that was full. *)
Definition tx_step (base : gset Z) (q : list (Z * tx_msg)) s s' : Prop :=
  exists q' k, sends base q' s' /\ tx_log (dev s') = tx_log (dev s) ++ k /\ unsent q = k ++ unsent q' /\
    rx_log (dev s') = rx_log (dev s) /\ same_port (prt s) (prt s') /\
    (q <> [] -> fst (reg_read UR_FIFOS (dev s)) &&& UFS_TX_FIFO_CNT_MASK <> 16 -> k <> []).

(** The end of a message that has been sent. *)
Lemma tx_done_spec base p m q s (Q : unit -> uart E D W -> Prop) :
  lists base ((p, m) :: q) [] s -> tx_callback (prt s) = Free_tx_sent_data ->
  (forall h w l ms, lists base q [] (Uart h w (dev s) (prt s) l ms) -> Q tt (Uart h w (dev s) (prt s) l ms)) ->
  wp (on_lnk (DlList.dl_list_del p) ;;
      f ← freed;
      on_lnk (DlList.dl_list_add_tail f p) ;;
      q ← gets prt;
      (if negb (tx_sent_callback q =? 0) then on_world (tx_called (tx_sent_callback q) (uart_no q)) else mret tt) ;;
      call_tx_callback) s Q.
Proof.
  intros Hl Hcb HQ. pose proof Hl as [Hp Hf Hh _ _ _ _]. rewrite fmap_cons in Hp, Hh. cbn [fst] in Hp, Hh. rewrite fmap_nil in Hf, Hh.
  apply wp_bind, on_lnk_spec.
  eapply wp_mono; [by apply (DlList.dl_list_del_spec _ (pending_head (uart_no (prt s))) [] p (fst <$> q))|].
  cbv beta. intros [] l (Hd1 & Hp1 & Ho). cbn [app] in Hd1, Ho. apply wp_bind, wp_gets, wp_bind, on_lnk_spec. cbn.
  assert (Hf1 : DlList.dll l (freed_head (uart_no (prt s))) []).
  { eapply dll_apart; [exact Hf|exact Ho|]. intros y Hy1 Hy2. by apply (Hh y). }
  assert (Hpf : p ∉ [freed_head (uart_no (prt s))]).
  { intros Hx. apply (Hh p); [right; by left|done]. }
  eapply wp_mono; [apply (DlList.dl_list_add_tail_spec _ _ [] p); [exact Hf1|by eexists|exact Hpf]|].
  cbv beta. intros [] l2 [Hd2 Ho2]. cbn [app] in Hd2.
  assert (Hpp : p ∉ pending_head (uart_no (prt s)) :: (fst <$> q)).
  { destruct Hp as [[H1' [H2' _]%NoDup_cons]%NoDup_cons _]. rewrite elem_of_cons in *. intros [E'|E']; [|done]. apply H1'. by left. }
  assert (Hmoved : lists base q [(p, m)] (Uart (heap s) (world s) (dev s) (prt s) l2 (msgs s))).
  { apply (lists_move base (p, m) q []); [exact Hl| |exact Hd2]. eapply dll_apart; [exact Hd1|exact Ho2|].
    intros y Hy1 [->|[->|Hy2%not_elem_of_nil]%elem_of_cons]%elem_of_cons; [|done|done].
    apply (Hh (freed_head (uart_no (prt s)))); [|by left]. rewrite !elem_of_cons in *. tauto. }
  apply wp_bind, wp_gets. cbn.
  assert (Hcall : forall w, wp call_tx_callback (Uart (heap s) w (dev s) (prt s) l2 (msgs s)) Q).
  { intros w. apply wp_bind, wp_gets. cbn. rewrite Hcb. apply wp_bind, (free_sent_spec base q [(p, m)]).
    - destruct Hmoved as [? ? ? ? ? ? ?]. by split.
    - intros h l3 ms Hl3. apply wp_ret. cbn in *. by apply HQ. }
  apply wp_bind. destruct (negb _); [apply wp_modify|apply wp_ret]; apply Hcall.
Qed.

Lemma tx_chars_spec base q s : sends base q s -> wp tls_uart_tx_chars s (fun _ s' => tx_step base q s s').
Proof.
  intros Hs. pose proof Hs as [Hl [Hcb Hfull] Hcnt Hleft]. apply wp_bind, wp_gets. destruct q as [|[p m] q].
  { apply wp_bind, (dl_list_empty_at _ []); [apply Hl|]. apply wp_ret. exists [], []. split; [done|]. by rewrite app_nil_r. }
  pose proof (ls_pend _ _ _ _ Hl) as Hp. rewrite fmap_cons in Hp. cbn [fst] in Hp.
  apply wp_bind, (dl_list_empty_at _ (p :: (fst <$> q))); [exact Hp|]. rewrite bool_decide_false by done. cbn [b2z Z.eqb].
  apply wp_bind, (dl_list_first_spec _ p (fst <$> q)); [exact Hp|].
  apply Forall_cons in Hleft as [Hoff Hleft]. cbn [snd] in Hoff.
  pose proof (ls_msgs _ _ _ _ Hl) as Hm. rewrite app_nil_r in Hm. apply Forall_cons in Hm as [[Hm [Hlen Hb Hbuf]] _]. cbn [fst snd] in *.
  apply wp_bind, (tx_burst_spec 32 p m); [done|done|lia|done|done|done|].
  intros k d pt Hk Htx Hrx Hc Hsame Hprog. pose proof (same_port_fields _ _ Hsame) as (_ & Hno & Hcb' & Hfull' & _).
  pose proof (lists_moved base (p, m) q [] k s d pt Hl Hsame) as Hl'. cbn [fst snd] in Hl'.
  apply wp_bind, (the_msg_spec p (moved k m)); [apply lookup_insert_eq|]. cbn [moved buflen m_offset].
  assert (Hpr : fst (reg_read UR_FIFOS (dev s)) &&& UFS_TX_FIFO_CNT_MASK <> 16 -> slice (m_offset m) k (m_bytes m) <> []).
  { intros Hne Hnil. apply (f_equal length) in Hnil. rewrite length_slice in Hnil by lia. cbn in Hnil. assert (0 < k) by (apply Hprog; [lia|lia|done]). lia. }
  pose proof (unsent_moved k m ltac:(lia) ltac:(lia)) as Hun.
  destruct (Z.leb_spec (buflen m) (m_offset m + k)) as [Hdone|Hmore].
  - assert (Hnil : unsent_of (moved k m) = []) by (apply drop_ge; cbn; lia). rewrite Hnil, app_nil_r in Hun.
    eapply tx_done_spec; [exact Hl'|cbn; congruence|]. cbn. intros h w l ms Hl2. exists q, (slice (m_offset m) k (m_bytes m)).
    split; [by split; cbn; rewrite ?Hcb', ?Hfull'|]. split; [exact Htx|]. split; [by rewrite unsent_cons; cbn [snd]; rewrite <- Hun|]. done.
  - apply wp_ret. exists ((p, moved k m) :: q), (slice (m_offset m) k (m_bytes m)). split.
    { split; cbn; [exact Hl'|by rewrite Hcb', Hfull'|done|]. apply Forall_cons. split; [cbn; lia|done]. }
    split; [exact Htx|]. split; [by rewrite !unsent_cons, app_assoc; cbn [snd]; rewrite Hun|]. done.
Qed.

(** ** New messages *)

Lemma lists_add base q p m h l s :
  lists base q [] s -> p ∉ base ∪ list_to_set (owned q) -> m_buf m ∉ {[p]} ∪ (base ∪ list_to_set (owned q)) ->
  p <> freed_head (uart_no (prt s)) -> msg_mem m ->
  h_blocks h ({[m_buf m]} ∪ ({[p]} ∪ (base ∪ list_to_set (owned q)))) ->
  DlList.dll l (pending_head (uart_no (prt s))) ((fst <$> q) ++ [p]) ->
  DlList.dll l (freed_head (uart_no (prt s))) [] ->
  lists base (q ++ [(p, m)]) [] (Uart h (world s) (dev s) (prt s) l (<[p := m]> (msgs s))).
Proof.
  intros [_ _ Hh Hm Hnd Hb _] Hp Ha Hpf Hmem Hheap Hp' Hf'. rewrite app_nil_r in Hm, Hnd, Hb.
  rewrite not_elem_of_union, elem_of_list_to_set in Hp. destruct Hp as [Hpb Hpo].
  rewrite !not_elem_of_union, elem_of_list_to_set, elem_of_singleton in Ha. destruct Ha as (Hap & Hab & Hao).
  assert (Ho : owned ((q ++ [(p, m)]) ++ []) = owned q ++ [p; m_buf m]) by by rewrite app_nil_r, owned_app.
  split; cbn; rewrite ?Ho; try done.
  - by rewrite fmap_app.
  - intros x Hx ->%list_elem_of_singleton. rewrite fmap_app, elem_of_cons, elem_of_app in Hx.
    destruct Hx as [Hx|[Hx|Hx%list_elem_of_singleton]]; [| |by symmetry in Hx]; apply (Hh (freed_head (uart_no (prt s)))); try by left.
    + rewrite Hx. by left.
    + by right.
  - rewrite app_nil_r, Forall_app. split; [|apply Forall_cons; split; [split; [apply lookup_insert_eq|done]|constructor]].
    rewrite Forall_forall in *. intros y Hy. destruct (Hm y Hy). split; [|done].
    rewrite lookup_insert_ne; [done|]. intros Eq. apply Hpo. rewrite Eq. apply owned_fst. by apply list_elem_of_fmap_2.
  - apply NoDup_app. split; [done|]. split.
    + intros x Hx [->|[->|Hn%not_elem_of_nil]%elem_of_cons]%elem_of_cons; done.
    + apply NoDup_cons. split; [rewrite list_elem_of_singleton; congruence|apply NoDup_singleton].
  - intros x Hx1 Hx2. apply elem_of_app in Hx2 as [Hx2|[->|[->|Hn%not_elem_of_nil]%elem_of_cons]%elem_of_cons]; try done. by apply (Hb x).
  - match goal with _ : h_blocks ?e ?B |- h_blocks ?e ?B' => replace B' with B; [done|] end.
    rewrite list_to_set_app_L. cbn [list_to_set foldr]. set_solver.
Qed.

(** A message that gets no block for its bytes is given up again. *)
Lemma lists_undo base q p h l s :
  lists base q [] s -> DlList.dll l (pending_head (uart_no (prt s))) (fst <$> q) -> DlList.dll l (freed_head (uart_no (prt s))) [] ->
  p ∉ pending_head (uart_no (prt s)) :: (fst <$> q) -> p ∉ [freed_head (uart_no (prt s))] ->
  h_blocks h ({[p]} ∪ (base ∪ list_to_set (owned q))) -> p ∉ base ∪ list_to_set (owned q) ->
  lists base q [] (Uart (h_free p h) (world s) (dev s) (prt s) (delete p l) (msgs s)).
Proof.
  intros [_ _ Hh Hm Hnd Hb _] Hp Hf Hpq Hpf Hheap Hfresh. split; cbn; try done; [by apply dll_delete|by apply dll_delete|].
  rewrite app_nil_r. apply (h_free_blocks _ _ p) in Hheap; [|set_solver].
  match goal with _ : h_blocks ?e ?B |- h_blocks ?e ?B' => replace B' with B; [done|] end. set_solver.
Qed.

(** Handing over a message: it waits behind the others, or there was no
    memory and nothing has changed. *)
Lemma fill_buf_spec base q bytes n s :
  sends base q s -> 0 < n < 2 ^ 16 -> n <= zlen bytes -> bytes_ok bytes ->
  wp (tls_uart_fill_buf bytes n) s (fun r s' =>
    dev s' = dev s /\ prt s' = prt s /\
    ((r = -1 /\ sends base q s') \/
     (r = 0 /\ exists q', sends base q' s' /\ unsent q' = unsent q ++ take (Z.to_nat n) bytes))).
Proof.
  intros Hs Hn Hlen Hb. assert (Hn31 : 0 < n < 2 ^ 31) by lia. assert (Hsz : 0 < sizeof_tx_msg < 2 ^ 31) by (unfold sizeof_tx_msg; lia).
  pose proof Hs as [Hl Hport Hcnt Hleft]. pose proof Hl as [Hp Hf Hh _ _ _ Hheap].
  rewrite app_nil_r in Hheap. rewrite fmap_nil in Hf, Hh.
  apply wp_bind, wp_zoom. destruct (h_alloc sizeof_tx_msg (heap s)) as [[[p bl]|] e1] eqn:E1; cbn.
  2: { apply (h_alloc_none _ _ _ _ Hsz Hheap) in E1. split; [done|]. split; [done|]. left. split; [done|].
       destruct Hl. split; try done. split; cbn; rewrite ?app_nil_r in *; done. }
  destruct (heads_apart (uart_no (prt s)) _ _ _ _ _ E1) as [Hpp Hpf].
  apply (h_alloc_some _ _ _ _ _ _ Hsz Hheap) in E1 as [Hfresh Hheap1].
  assert (Hpq : p ∉ pending_head (uart_no (prt s)) :: (fst <$> q)).
  { rewrite elem_of_cons. intros [?|Hx%owned_fst]; [done|]. apply Hfresh. apply elem_of_union_r. by apply elem_of_list_to_set. }
  assert (Hpf' : p ∉ [freed_head (uart_no (prt s))]) by by rewrite list_elem_of_singleton.
  apply wp_bind, wp_modify, wp_bind, on_lnk_spec. cbn.
  eapply wp_mono; [apply DlList.dl_list_init_spec; eexists; apply lookup_insert_eq|]. cbv beta. intros [] l1 [Hd1 Ho1]. cbn.
  assert (Hp1 : DlList.dll l1 (pending_head (uart_no (prt s))) (fst <$> q)).
  { eapply dll_apart; [apply (dll_put (lnk s) _ _ p (DlList.Node 0 0)); [exact Hp|done]|exact Ho1|].
    intros y Hy1 ->%list_elem_of_singleton. done. }
  assert (Hf1 : DlList.dll l1 (freed_head (uart_no (prt s))) []).
  { eapply dll_apart; [apply (dll_put (lnk s) _ _ p (DlList.Node 0 0)); [exact Hf|done]|exact Ho1|].
    intros y Hy1 ->%list_elem_of_singleton. done. }
  apply wp_bind, wp_zoom. cbn. destruct (h_alloc n e1) as [[[a al]|] e2] eqn:E2; cbn.
  2: { apply (h_alloc_none _ _ _ _ Hn31 Hheap1) in E2. split; [done|]. split; [done|]. left. split; [done|].
       split; [apply (lists_undo base q p e2 l1 s); [exact Hl|exact Hp1|exact Hf1|exact Hpq|exact Hpf'|exact E2|exact Hfresh]|done|done|done]. }
  assert (Hn0 : 0 <= n) by lia. pose proof (h_alloc_spec _ _ _ _ _ Hn0 E2) as (_ & Ha0 & Hal & Halb).
  apply (h_alloc_some _ _ _ _ _ _ Hn31 Hheap1) in E2 as [Hafresh Hheap2].
  set (data := memcpy_at 0 (take (Z.to_nat n) bytes) al). apply wp_bind, (wp_must _ data).
  { rewrite !(proj2 (Z.leb_le _ _)) by lia. done. }
  assert (Hdata : data = take (Z.to_nat n) bytes) by (apply memcpy_at_all; rewrite length_take; lia).
  apply wp_bind, wp_modify, wp_bind, wp_gets, wp_bind, on_lnk_spec. cbn.
  eapply wp_mono; [apply (DlList.dl_list_add_tail_spec _ _ (fst <$> q) p); [exact Hp1| |exact Hpq]|].
  { eapply (DlList.dll_nodes l1 p []); [exact Hd1|by apply list_elem_of_here]. }
  cbv beta. intros [] l2 [Hd2 Ho2]. apply wp_ret. cbn. split; [done|]. split; [done|]. right. split; [done|].
  set (m := TxMsg a data (u16 n) 0 Uart_tx_finish_callback a).
  assert (Hmem : msg_mem m).
  { split; cbn; rewrite ?(wrap_id 16) by lia; rewrite ?Hdata, ?length_take; [lia|by apply Forall_take|done]. }
  exists (q ++ [(p, m)]). split.
  - split; cbn; [|done|done|].
    + apply lists_add; try done. eapply dll_apart; [exact Hf1|exact Ho2|].
      intros y ->%list_elem_of_singleton Hy. rewrite !elem_of_cons in Hy. destruct Hy as [Hy|[Hy|Hy]].
      * by apply (heads_differ (uart_no (prt s))).
      * by symmetry in Hy.
      * apply (Hh (freed_head (uart_no (prt s)))); [by right|by left].
    + apply Forall_app. split; [done|]. apply Forall_cons. split; [cbn; rewrite wrap_id by lia; lia|constructor].
  - rewrite unsent_app, unsent_cons. f_equal. unfold unsent. cbn. by rewrite app_nil_r.
Qed.

(** [tls_uart_write]: all of the bytes are accepted, or none. *)
Lemma write_async_spec base q data bytes n s :
  sends base q s -> data <> 0 -> 0 < n < 2 ^ 16 -> n <= zlen bytes -> bytes_ok bytes ->
  wp (tls_uart_write_async data bytes n) s (fun r s' =>
    exists q', sends base q' s' /\ rx_log (dev s') = rx_log (dev s) /\ same_port (prt s) (prt s') /\
      ((r = -1 /\ tx_log (dev s') = tx_log (dev s) /\ unsent q' = unsent q) \/
       (r = 0 /\ tx_log (dev s') ++ unsent q' = tx_log (dev s) ++ unsent q ++ take (Z.to_nat n) bytes))).
Proof.
  intros Hs Hd Hn Hlen Hb. unfold tls_uart_write_async. rewrite (proj2 (Z.eqb_neq _ _)), (proj2 (Z.ltb_ge n 1)) by (done || lia). cbn [orb].
  apply wp_bind. eapply wp_mono; [by apply (fill_buf_spec base q bytes n s)|]. cbv beta. intros r s1 (Hdev & Hprt & [[-> Hs1]|(-> & q1 & Hs1 & Hq1)]).
  - apply wp_ret. exists q. rewrite Hdev, Hprt. split; [done|]. split; [done|]. split; [done|]. by left.
  - cbn [Z.eqb]. apply wp_bind. eapply wp_mono; [by apply (tx_chars_spec base q1)|]. cbv beta.
    intros _ s2 (q2 & k & Hs2 & Htx & Hun & Hrx & Hsame & _). apply wp_ret. rewrite Hdev, Hprt in *.
    exists q2. split; [done|]. split; [done|]. split; [done|]. right. split; [done|]. by rewrite Htx, <- app_assoc, <- Hun, Hq1.
Qed.
End tx.
