(* ===== verification/UartRx.v ===== *)
(** * Receiving over a UART

    The three interrupt handlers move bytes from the receive FIFO into the
    ring.  What each of them makes of the ring is stated on its content, the
    queue of bytes that [tls_uart_read] will hand out; the escape sequence
    that switches a transparent link back to commands is looked for in the
    last three bytes. *)
From S2P Require Import Prelude CMonad Keeps DlList HostEnv Uart UartRing UartTx.

(** ** Several bytes *)

Definition stores (bs : list Z) (c : circ) : circ := fold_left (fun c b => stored b c) bs c.

Lemma stores_app bs b c : stores (bs ++ [b]) c = stored b (stores bs c).
Proof. unfold stores. by rewrite fold_left_app. Qed.

Lemma stores_ok bs c : ring_ok c -> bytes_ok bs -> ring_ok (stores bs c).
Proof.
  revert c. induction bs as [|b bs IH]; intros c Hc Hb; [done|]. apply Forall_cons in Hb as [Hb Hbs].
  apply IH; [by apply stored_ok|done].
Qed.

(** As long as there is room, the ring is a queue. *)
Lemma stores_content bs c :
  ring_ok c -> bytes_ok bs -> zlen (content c) + zlen bs <= 511 -> content (stores bs c) = content c ++ bs.
Proof.
  revert c. induction bs as [|b bs IH]; intros c Hc Hb Hroom; [by rewrite app_nil_r|].
  apply Forall_cons in Hb as [Hb Hbs]. cbn [length] in Hroom.
  assert (Hst : content (stored b c) = content c ++ [b]) by (apply stored_content; [done|lia]).
  change (stores (b :: bs) c) with (stores bs (stored b c)).
  rewrite IH; [by rewrite Hst, <- app_assoc|by apply stored_ok|done|]. rewrite Hst, length_app. cbn [length]. lia.
Qed.

(** The last bytes of the content are in front of the head. *)
Lemma content_last c l x k :
  ring_ok c -> content c = l ++ x -> 0 < k <= zlen x ->
  byte_at (bytes_of_block c) ((head c - k) mod 512) = byte_at x (zlen x - k).
Proof.
  intros [_ Hh Ht] Hc Hk. pose proof (length_content c) as Hl. rewrite Hc, length_app in Hl.
  pose proof (Z.mod_pos_bound (head c - tail c) 512 ltac:(lia)) as Hm.
  transitivity (byte_at (content c) (zlen (l ++ x) - k)).
  - unfold content. rewrite byte_at_around by (rewrite length_app; unfold count; lia). f_equal. rewrite length_app. dlia.
  - rewrite Hc. unfold byte_at at 1. rewrite app_nth2 by (rewrite length_app; lia). unfold byte_at. f_equal. rewrite length_app. lia.
Qed.

(** What [drop_oldest] makes of a ring. *)
Definition relieved (c : circ) : circ := if CIRC_SPACE (head c) (tail c) <=? RX_CACHE_LIMIT then advanced RX_CACHE_LIMIT c else c.

(** The queue in front of the bytes that are about to come. *)
Definition room_made (q : list Z) : list Z := if 511 - zlen q <=? 128 then drop 128 q else q.

Lemma relieved_ok c : ring_ok c -> ring_ok (relieved c).
Proof. intros Hc. unfold relieved. destruct (_ <=? _); [by apply advanced_ok|done]. Qed.

Lemma relieved_content c : ring_ok c -> content (relieved c) = room_made (content c).
Proof.
  intros Hc. unfold relieved, room_made, RX_CACHE_LIMIT. rewrite space_content by done.
  destruct (Z.leb_spec (511 - zlen (content c)) 128); [|done]. apply advanced_content; [done|lia].
Qed.

Lemma room_made_short q : zlen q <= 511 -> zlen (room_made q) <= 383.
Proof. intros Hq. unfold room_made. destruct (Z.leb_spec (511 - zlen q) 128); rewrite ?length_drop; lia. Qed.

(** ** What receiving leaves alone *)

Section rx.
Context {E D W : Type} `{HostLaws E} `{UartRegsLaws D} `{UartClient W} `{!UartMem}.
Implicit Types s : uart E D W.

(** Everything that sending is about. *)
Definition rx_keep s s' : Prop :=
  (heap s' = heap s /\ lnk s' = lnk s /\ msgs s' = msgs s) /\
  (tx_log (dev s') = tx_log (dev s) /\ tx_cnt (dev s') <= tx_cnt (dev s)) /\
  (forall c v w, set_recv c (set_plus v (set_rxstatus w (prt s'))) = set_recv c (set_plus v (set_rxstatus w (prt s)))).

#[global] Instance rx_keep_preorder : PreOrder rx_keep.
Proof using.
  split; [intros s; by repeat split|]. intros s1 s2 s3 ((E1 & E2 & E3) & (E4 & E5) & E6) ((F1 & F2 & F3) & (F4 & F5) & F6).
  split; [split; [|split]; congruence|]. split; [split; [congruence|lia]|]. intros c v w. by rewrite F6, E6.
Qed.

Lemma rd_keeps r : keeps rx_keep (rd r).
Proof using.
  intros s a s'. unfold rd, zoom. destruct (reg_read r (dev s)) as [v d] eqn:Er. intros [= <- <-].
  pose proof (read_tx_log r (dev s)) as Ht. pose proof (read_tx_cnt r (dev s)) as Hc. rewrite Er in Ht, Hc. by repeat split.
Qed.
Lemma wr_keeps r v : r <> UR_TXW -> keeps rx_keep (wr r v).
Proof using. intros Hr. apply keeps_modify. intros s. repeat split; [by apply write_tx_log|by apply write_tx_cnt]. Qed.
Lemma upd_reg_keeps r f : r <> UR_TXW -> keeps rx_keep (upd_reg r f).
Proof using. intros Hr. apply keeps_bind; [exact _|apply rd_keeps|]. intros v. by apply wr_keeps. Qed.
Lemma set_recv_keeps c : keeps rx_keep (set_prt (set_recv c)).
Proof using. apply keeps_modify. intros s. by repeat split. Qed.
Lemma set_plus_keeps v : keeps rx_keep (set_prt (set_plus v)).
Proof using. apply keeps_modify. intros s. by repeat split. Qed.
Lemma set_rxstatus_keeps v : keeps rx_keep (set_prt (set_rxstatus v)).
Proof using. apply keeps_modify. intros s. by repeat split. Qed.
Lemma on_world_keeps f : keeps rx_keep (on_world f).
Proof using. apply keeps_modify. intros s. by repeat split. Qed.
Hint Resolve rd_keeps set_recv_keeps set_plus_keeps set_rxstatus_keeps on_world_keeps : keeps.
Hint Extern 1 (keeps rx_keep (wr _ _)) => apply wr_keeps; discriminate : keeps.
Hint Extern 1 (keeps rx_keep (upd_reg _ _)) => apply upd_reg_keeps; discriminate : keeps.

Lemma put_char_keeps ch : keeps rx_keep (put_char ch).
Proof using. unfold put_char. keep. Qed.
Lemma rx_byte_called_keeps flag : keeps rx_keep (rx_byte_called flag).
Proof using. unfold rx_byte_called, call_rx. keep. Qed.
Lemma rx_called_once_keeps flag n : keeps rx_keep (rx_called_once flag n).
Proof using. unfold rx_called_once, call_rx. keep. Qed.
Lemma rx_status_keeps n v : keeps rx_keep (tls_set_uart_rx_status n v).
Proof using. unfold tls_set_uart_rx_status. keep. Qed.
Lemma rx_fifo_cnt_keeps : keeps rx_keep rx_fifo_cnt.
Proof using. unfold rx_fifo_cnt. keep. Qed.
Lemma rx_due_keeps src : keeps rx_keep (rx_due src).
Proof using. unfold rx_due. keep. Qed.
Lemma irq_overrun_keeps src : keeps rx_keep (irq_overrun src).
Proof using. unfold irq_overrun. keep. Qed.
Hint Resolve put_char_keeps rx_byte_called_keeps rx_called_once_keeps rx_status_keeps rx_fifo_cnt_keeps rx_due_keeps irq_overrun_keeps : keeps.

Lemma uart0_rx_keeps n src flag rxlen : keeps rx_keep (uart0_rx n src flag rxlen).
Proof using. revert rxlen. induction n as [|n IH]; intros rxlen; cbn [uart0_rx]; keep; apply IH. Qed.
Lemma rx_flush_keeps n ch : keeps rx_keep (rx_flush n ch).
Proof using. revert ch. induction n as [|n IH]; intros ch; cbn [rx_flush]; keep; apply IH. Qed.
Lemma rx_store_keeps n flag ch : keeps rx_keep (rx_store n flag ch).
Proof using. revert ch. induction n as [|n IH]; intros ch; cbn [rx_store]; keep; apply IH. Qed.
Lemma uart24_rx_keeps n src flag ch : keeps rx_keep (uart24_rx n src flag ch).
Proof using. revert ch. induction n as [|n IH]; intros ch; cbn [uart24_rx]; keep; apply IH. Qed.
Lemma ring_at_keeps i : keeps rx_keep (ring_at i).
Proof using. unfold ring_at. keep. Qed.
Hint Resolve uart0_rx_keeps rx_flush_keeps rx_store_keeps uart24_rx_keeps ring_at_keeps : keeps.

Lemma escape_check_keeps n ch : keeps rx_keep (escape_check n ch).
Proof using. unfold escape_check, escape_at. keep. Qed.
Lemma drop_oldest_keeps : keeps rx_keep drop_oldest.
Proof using. unfold drop_oldest. keep. Qed.
Hint Resolve escape_check_keeps drop_oldest_keeps : keeps.

Lemma uart0_irq_rx_keeps flag src : keeps rx_keep (uart0_irq_rx flag src).
Proof using. unfold uart0_irq_rx. keep. Qed.
Lemma uart1_irq_rx_keeps flag src : keeps rx_keep (uart1_irq_rx flag src).
Proof using. unfold uart1_irq_rx. keep. Qed.
Lemma uart24_irq_rx_keeps flag src : keeps rx_keep (uart24_irq_rx flag src).
Proof using. unfold uart24_irq_rx. keep. Qed.
End rx.

(** ** The pieces of the handlers *)

Section rx_spec.
Context {E D W : Type} `{HostLaws E} `{UartRegsLaws D} `{UartClient W} `{!UartMem}.
Implicit Types s : uart E D W.

(** The last byte read, the two in front of it in the ring, and what is in
    front of the block instead when the head has just come round. *)
Definition last_byte (bs : list Z) : Z := List.last bs 0.
Definition ring_back (c : circ) (k : Z) : Z :=
  match buf c with
  | Some (a, l) => if head c =? 0 then before_block a k else byte_at l ((head c - k) mod 512)
  | None => 0
  end.
Definition escape_seen (c : circ) : bool := (ring_back c 2 =? PLUS) && (ring_back c 3 =? PLUS).

Lemma put_char_spec ch s (Q : unit -> uart E D W -> Prop) :
  ring_ok (recv (prt s)) -> Q tt (with_prt (set_recv (stored ch (recv (prt s))) (prt s)) s) -> wp (put_char ch) s Q.
Proof using.
  intros [(a & l & Hb & Hl & Hok) Hh Ht] HQ. apply wp_bind, wp_gets. unfold stored in HQ. rewrite Hb in *.
  rewrite Hl, (proj2 (Z.leb_le _ _)), (proj2 (Z.ltb_lt _ _)) by lia. cbn [andb]. apply wp_modify. by rewrite mask_mod.
Qed.

(** The client's functions see neither the port nor its registers. *)
Definition quiet s s' : Prop := prt s' = prt s /\ dev s' = dev s.

Lemma rx_byte_called_spec flag s : wp (rx_byte_called flag) s (fun _ s' => quiet s s').
Proof using. apply wp_bind, wp_gets. destruct (_ && _); by wp_steps. Qed.
Lemma rx_called_once_spec flag n s : wp (rx_called_once flag n) s (fun _ s' => quiet s s').
Proof using. apply wp_bind, wp_gets. destruct (_ && _); by wp_steps. Qed.

Lemma rd_at r s (Q : Z -> uart E D W -> Prop) :
  (forall v d, rx_log d = rx_log (dev s) ++ match r with UR_RXW => [u8 v] | _ => [] end -> Q v (with_dev d s)) -> wp (rd r) s Q.
Proof using. intros HQ. apply rd_spec, HQ. apply read_rx_log. Qed.
Lemma upd_reg_spec r f s (Q : unit -> uart E D W -> Prop) :
  r <> UR_RXW -> (forall d, rx_log d = rx_log (dev s) -> Q tt (with_dev d s)) -> wp (upd_reg r f) s Q.
Proof using.
  intros Hr HQ. apply wp_bind, rd_at. intros v d Hd. apply wp_modify. cbn. apply (HQ (reg_write r (u32 (f v)) d)).
  rewrite write_rx_log, Hd. destruct r; by rewrite ?app_nil_r.
Qed.

Lemma last_byte_cons (b : Z) bs d : List.last (b :: bs) d = List.last bs b.
Proof using. revert b. induction bs as [|x bs IH]; intros b; [done|]. cbn [List.last] in *. by destruct bs. Qed.

(** [bs] have come out of the FIFO, [kept] of them are in the ring. *)
Definition took (bs kept : list Z) s s' : Prop :=
  rx_log (dev s') = rx_log (dev s) ++ bs /\ bytes_ok bs /\ prt s' = set_recv (stores kept (recv (prt s))) (prt s).

Lemma took_nil d s : rx_log d = rx_log (dev s) -> took [] [] s (with_dev d s).
Proof using. intros Hd. split; [cbn; by rewrite Hd, app_nil_r|]. split; [constructor|]. cbn. by destruct (prt s). Qed.

Lemma took_cons v d bs k1 kept s s1 s' :
  rx_log d = rx_log (dev s) ++ [u8 v] -> prt s1 = set_recv (stores k1 (recv (prt s))) (prt s) -> dev s1 = d ->
  took bs kept s1 s' -> took (u8 v :: bs) (k1 ++ kept) s s'.
Proof using.
  intros Hd Hp Hd1 (Hlog & Hb & Hprt). split; [by rewrite Hlog, Hd1, Hd, <- app_assoc|].
  split; [apply Forall_cons; split; [apply rx_byte_ok|done]|]. rewrite Hprt, Hp. cbn. unfold stores. by rewrite fold_left_app.
Qed.

Lemma rx_flush_spec n ch s :
  wp (rx_flush n ch) s (fun r s' => exists bs, length bs = n /\ took bs [] s s' /\ r = List.last bs ch).
Proof using.
  revert ch s. induction n as [|n IH]; intros ch s; cbn [rx_flush].
  { apply wp_ret. exists []. split; [done|]. split; [|done]. assert (s = with_dev (dev s) s) as Es by by destruct s.
    rewrite Es at 2. by apply took_nil. }
  apply wp_bind, rd_at. intros v d Hd. eapply wp_mono; [apply IH|]. cbv beta. intros r s' (bs & Hn & Ht & ->).
  exists (u8 v :: bs). split; [cbn; lia|]. split; [|by rewrite last_byte_cons].
  apply (took_cons v d bs [] [] s (with_dev d s)); [done|cbn; by destruct (prt s)|done|done].
Qed.

Lemma rx_store_spec n flag ch s :
  ring_ok (recv (prt s)) ->
  wp (rx_store n flag ch) s (fun r s' => exists bs, length bs = n /\ took bs bs s s' /\ r = List.last bs ch).
Proof using.
  revert ch s. induction n as [|n IH]; intros ch s Hr; cbn [rx_store].
  { apply wp_ret. exists []. split; [done|]. split; [|done]. assert (s = with_dev (dev s) s) as Es by by destruct s.
    rewrite Es at 2. by apply took_nil. }
  apply wp_bind, rd_at. intros v d Hd. apply wp_bind, put_char_spec; [done|]. apply wp_bind.
  eapply wp_mono; [apply rx_byte_called_spec|]. cbv beta. intros _ s1 [Hp Hd1]. cbn in Hp, Hd1.
  eapply wp_mono; [apply IH; rewrite Hp; apply stored_ok; [done|apply rx_byte_ok]|]. cbv beta. intros r s' (bs & Hn & Ht & ->).
  exists (u8 v :: bs). split; [cbn; lia|]. split; [|by rewrite last_byte_cons].
  by apply (took_cons v d bs [u8 v] bs s s1).
Qed.

Lemma uart24_rx_spec n src flag ch s :
  ring_ok (recv (prt s)) ->
  wp (uart24_rx n src flag ch) s (fun r s' =>
    exists bs, length bs = n /\ took bs (if rx_err src then [] else bs) s s' /\ r = List.last bs ch).
Proof using.
  revert ch s. induction n as [|n IH]; intros ch s Hr; cbn [uart24_rx].
  { apply wp_ret. exists []. split; [done|]. split; [|done]. assert (s = with_dev (dev s) s) as Es by by destruct s.
    destruct (rx_err src); rewrite Es at 2; by apply took_nil. }
  apply wp_bind, rd_at. intros v d Hd. destruct (rx_err src) eqn:Eerr.
  - apply wp_bind, upd_reg_spec; [done|]. intros d2 Hd2. cbn in Hd2.
    eapply wp_mono; [by apply (IH _ (with_dev d2 s))|]. cbv beta. intros r s' (bs & Hn & Ht & ->).
    exists (u8 v :: bs). split; [cbn; lia|]. split; [|by rewrite last_byte_cons].
    apply (took_cons v d2 bs [] [] s (with_dev d2 s)); [by rewrite Hd2|cbn; by destruct (prt s)|done|done].
  - apply wp_bind, put_char_spec; [done|]. apply wp_bind.
    eapply wp_mono; [apply rx_byte_called_spec|]. cbv beta. intros _ s1 [Hp Hd1]. cbn in Hp, Hd1.
    eapply wp_mono; [apply IH; rewrite Hp; apply stored_ok; [done|apply rx_byte_ok]|]. cbv beta. intros r s' (bs & Hn & Ht & ->).
    exists (u8 v :: bs). split; [cbn; lia|]. split; [|by rewrite last_byte_cons].
    by apply (took_cons v d bs [u8 v] bs s s1).
Qed.

Lemma drop_oldest_spec s (Q : unit -> uart E D W -> Prop) :
  Q tt (with_prt (set_recv (relieved (recv (prt s))) (prt s)) s) -> wp drop_oldest s Q.
Proof using.
  intros HQ. apply wp_bind, wp_gets. unfold relieved, advanced in HQ. destruct (_ <=? _).
  - apply wp_modify. by rewrite mask_mod, wrap_mod512.
  - apply wp_ret. destruct s as [h w d p l ms]. cbn in *. unfold with_prt in HQ. cbn in HQ. by destruct p.
Qed.

Lemma ring_at_spec k s (Q : Z -> uart E D W -> Prop) :
  ring_ok (recv (prt s)) -> 0 < k <= head (recv (prt s)) \/ head (recv (prt s)) = 0 /\ 0 < k < 2 ^ 31 ->
  Q (ring_back (recv (prt s)) k) s -> wp (ring_at (head (recv (prt s)) - k)) s Q.
Proof using.
  intros [(a & l & Hb & Hl & Hok) Hh Ht] Hk HQ. apply wp_bind, wp_gets. unfold ring_back in HQ. rewrite Hb in *. cbv zeta.
  destruct Hk as [Hk|[Hz Hk]].
  - rewrite wrap_id by lia. rewrite (proj2 (Z.ltb_lt _ _)) by lia.
    rewrite (proj2 (Z.eqb_neq _ _)) in HQ by lia. rewrite Z.mod_small in HQ by lia. exact HQ.
  - rewrite Hz in *. cbn [Z.eqb] in HQ. rewrite Z.sub_0_l. assert (Hw : u32 (- k) = 2 ^ 32 - k) by (unfold wrap; dlia).
    rewrite Hw, (proj2 (Z.ltb_ge _ _)), (proj2 (Z.leb_le _ _)) by lia. apply wp_ret. by replace (2 ^ 32 - (2 ^ 32 - k)) with k by lia.
Qed.

(** The three cases of the switch are one, but for a head that has just come
    round. *)
Lemma ring_at_wrapped i k s (Q : Z -> uart E D W -> Prop) :
  ring_ok (recv (prt s)) -> head (recv (prt s)) <> 0 -> i = (head (recv (prt s)) - k) mod 512 ->
  Q (ring_back (recv (prt s)) k) s -> wp (ring_at i) s Q.
Proof using.
  intros [(a & l & Hb & Hl & Hok) Hh Ht] Hz -> HQ. apply wp_bind, wp_gets. unfold ring_back in HQ. rewrite Hb in *. cbv zeta.
  pose proof (Z.mod_pos_bound (head (recv (prt s)) - k) 512 ltac:(done)). rewrite (proj2 (Z.eqb_neq _ _)) in HQ by done.
  rewrite wrap_id, (proj2 (Z.ltb_lt _ _)) by lia. exact HQ.
Qed.

Lemma escape_at_spec s (Q : bool -> uart E D W -> Prop) :
  ring_ok (recv (prt s)) -> Q (escape_seen (recv (prt s))) s -> wp escape_at s Q.
Proof using.
  intros Hr HQ. pose proof (rg_head _ Hr) as Hh. apply wp_bind, wp_gets. unfold escape_seen in HQ.
  assert (Hgo : forall i j, (forall R, R (ring_back (recv (prt s)) 2) s -> wp (ring_at i) s R) ->
    (forall R, R (ring_back (recv (prt s)) 3) s -> wp (ring_at j) s R) ->
    wp (a ← ring_at i; if a =? PLUS then b ← ring_at j; mret (b =? PLUS) else mret false) s Q).
  { intros i j Hi Hj. apply wp_bind, Hi. destruct (_ =? PLUS); [|done]. apply wp_bind, Hj. exact HQ. }
  unfold TLS_UART_RX_BUF_SIZE. destruct (Z.eqb_spec (u32 (head (recv (prt s)) - 1)) 0) as [E1|N1].
  { assert (head (recv (prt s)) = 1) as E2 by (unfold wrap in *; dlia).
    apply Hgo; intros R HR; (eapply ring_at_wrapped; [done|lia| |exact HR]); by rewrite E2. }
  destruct (Z.eqb_spec (u32 (head (recv (prt s)) - 1)) 1) as [E1|N2].
  { assert (head (recv (prt s)) = 2) as E2 by (unfold wrap in *; dlia).
    apply Hgo; intros R HR; (eapply ring_at_wrapped; [done|lia| |exact HR]); by rewrite E2. }
  apply Hgo; intros R HR; (apply ring_at_spec; [done| |exact HR]); unfold wrap in *; dlia.
Qed.

Lemma escape_check_spec n ch s :
  ring_ok (recv (prt s)) ->
  wp (escape_check n ch) s (fun _ s' => dev s' = dev s /\
    prt s' = if (n =? 3) && (ch =? PLUS) && escape_seen (recv (prt s)) then set_plus 3 (prt s) else prt s).
Proof using.
  intros Hr. unfold escape_check. destruct (_ && _); [|by wp_steps]. apply wp_bind, escape_at_spec; [done|]. cbn [andb].
  destruct (escape_seen _); by wp_steps.
Qed.

(** Whether the handler reads the FIFO at all. *)
Definition due src s : bool :=
  negb (src &&& UART_RX_INT_FLAG =? 0) && (fst (reg_read UR_INTM (dev s)) &&& UIS_RX_FIFO =? 0).

Lemma rx_due_spec src s (Q : bool -> uart E D W -> Prop) :
  (forall d, rx_log d = rx_log (dev s) -> Q (due src s) (with_dev d s)) -> wp (rx_due src) s Q.
Proof using.
  intros HQ. unfold rx_due, due in *. destruct (negb _); cbn [andb] in HQ.
  - apply wp_bind, rd_spec. apply wp_ret, HQ. by rewrite (read_rx_log UR_INTM), app_nil_r.
  - apply wp_ret. destruct s. by apply HQ.
Qed.

Lemma rx_fifo_cnt_spec s (Q : Z -> uart E D W -> Prop) :
  (forall n d, 0 <= n <= 63 -> rx_log d = rx_log (dev s) -> Q n (with_dev d s)) -> wp rx_fifo_cnt s Q.
Proof using.
  intros HQ. apply wp_bind, rd_spec. apply wp_ret, HQ; [|by rewrite (read_rx_log UR_FIFOS), app_nil_r].
  change 0x3F with (Z.ones 6). rewrite Z.land_ones by done. pose proof (Z.mod_pos_bound (fst (reg_read UR_FIFOS (dev s)) ≫ 6) (2 ^ 6) ltac:(done)) as Hm. change (Z.ones 6) with 63. change (2 ^ 6) with 64 in *. lia.
Qed.

(** What the handlers of port 1 and of ports 2 to 5 make of the port when
    [popped] has come out of the FIFO. *)
Definition packet (err : bool) (popped : list Z) (p : port) : port :=
  let c := stores (if err then [] else popped) (relieved (recv p)) in
  set_plus (if (zlen popped =? 3) && (last_byte popped =? PLUS) && escape_seen c then 3 else 0) (set_recv c p).

Definition packet_rx src s s' : Prop := exists popped,
  rx_log (dev s') = rx_log (dev s) ++ popped /\ bytes_ok popped /\ zlen popped <= 63 /\
  (due src s = false -> popped = []) /\
  prt s' = if due src s then packet (rx_err src) popped (prt s) else prt s.

Lemma packet_end flag n src bs p s s1 s2 :
  ring_ok (recv p) -> due src s = true -> p = prt s -> 0 <= n <= 63 -> length bs = Z.to_nat n -> rx_log (dev s1) = rx_log (dev s) ->
  prt s1 = set_recv (relieved (recv p)) (set_plus 0 p) ->
  took bs (if rx_err src then [] else bs) s1 s2 -> forall k,
  wp (escape_check n (last_byte bs) ;; rx_called_once flag k) s2 (fun _ s' => packet_rx src s s').
Proof using.
  intros Hr Hdue -> Hn Hlen Hlog Hp1 (Hlog2 & Hb & Hp2) k.
  assert (Hr2 : recv (prt s2) = stores (if rx_err src then [] else bs) (relieved (recv (prt s)))) by by rewrite Hp2, Hp1.
  apply wp_bind. eapply wp_mono.
  { apply escape_check_spec. rewrite Hr2. apply stores_ok; [by apply relieved_ok|destruct (rx_err src); [constructor|done]]. }
  cbv beta. intros _ s3 [Hd3 Hp3]. eapply wp_mono; [apply rx_called_once_spec|]. cbv beta. intros _ s4 [Hp4 Hd4].
  exists bs. rewrite Hd4, Hd3, Hlog2, Hlog, Hdue. split; [done|]. split; [done|]. split; [lia|]. split; [done|].
  rewrite Hr2 in Hp3. rewrite Hp4, Hp3. unfold packet. assert (Hz : zlen bs = n) by lia. rewrite Hz.
  destruct (_ && _ && escape_seen _); rewrite Hp2, Hp1; reflexivity.
Qed.

Lemma uart1_irq_rx_spec flag src s : ring_ok (recv (prt s)) -> wp (uart1_irq_rx flag src) s (fun _ s' => packet_rx src s s').
Proof using.
  intros Hr. apply wp_bind, rx_due_spec. intros d1 Hd1. destruct (due src s) eqn:Hdue.
  2: { apply wp_ret. exists []. rewrite Hdue, app_nil_r. by repeat split. }
  apply wp_bind, rx_fifo_cnt_spec. intros n d2 Hn Hd2. cbn in Hd2. apply wp_bind, wp_modify, wp_bind, drop_oldest_spec, wp_bind.
  cbn. set (s1 := with_prt _ _). assert (Hr1 : ring_ok (recv (prt s1))) by (cbn; by apply relieved_ok). destruct (rx_err src) eqn:Eerr.
  - apply wp_bind. eapply wp_mono; [apply rx_flush_spec|]. cbv beta. intros ch s2 (bs & Hlen & Ht & ->).
    apply wp_bind, upd_reg_spec; [done|]. intros d3 Hd3. apply wp_ret.
    apply (packet_end flag n src bs (prt s) s s1); try done; [cbn; by rewrite Hd2|]. rewrite Eerr.
    destruct Ht as (Ht1 & Ht2 & Ht3). split; [cbn; by rewrite Hd3|]. split; done.
  - apply wp_bind. eapply wp_mono; [by apply rx_store_spec|]. cbv beta. intros ch s2 (bs & Hlen & Ht & ->). apply wp_ret.
    apply (packet_end flag n src bs (prt s) s s1); try done; [cbn; by rewrite Hd2|]. by rewrite Eerr.
Qed.

Lemma uart24_irq_rx_spec flag src s : ring_ok (recv (prt s)) -> wp (uart24_irq_rx flag src) s (fun _ s' => packet_rx src s s').
Proof using.
  intros Hr. apply wp_bind, rx_due_spec. intros d1 Hd1. destruct (due src s) eqn:Hdue.
  2: { apply wp_ret. exists []. rewrite Hdue, app_nil_r. by repeat split. }
  apply wp_bind, rx_fifo_cnt_spec. intros n d2 Hn Hd2. cbn in Hd2. apply wp_bind, wp_modify, wp_bind, drop_oldest_spec, wp_bind.
  cbn. set (s1 := with_prt _ _). assert (Hr1 : ring_ok (recv (prt s1))) by (cbn; by apply relieved_ok).
  eapply wp_mono; [by apply uart24_rx_spec|]. cbv beta. intros ch s2 (bs & Hlen & Ht & ->).
  apply (packet_end flag n src bs (prt s) s s1); try done. cbn. by rewrite Hd2.
Qed.
End rx_spec.
