(* ===== verification/UartIrq.v ===== *)
(** * The interrupt handlers of a UART

    One interrupt serves both directions.  Here the handlers are put
    together: what they take out of the receive FIFO goes to the ring, what
    they put into the transmit FIFO comes from the messages, and neither
    disturbs the other. *)
From S2P Require Import Prelude CMonad Keeps DlList HostEnv Uart UartRing UartTx UartRx.

(** ** Port 0: the bytes that find no room *)

(** Out of [popped], [kept] went into the ring [c].  Without flow control the
    handler gives up with the first byte that finds less than three places
    free; with flow control it stores that one too, and a ring that was full
    is empty then. *)
Definition uart0_took (err flow : bool) (n : nat) (c : circ) (popped kept : list Z) : Prop :=
  if err then kept = [] /\ length popped = n
  else if flow then
    popped = kept /\ (509 <= zlen (content c) -> length kept = Nat.min 1 n) /\
    content (stores kept c) = if decide (zlen (content c) = 511 /\ kept <> []) then [] else content c ++ kept
  else content (stores kept c) = content c ++ kept /\
    (popped = kept /\ length kept = n \/ exists b, popped = kept ++ [b] /\ 509 <= zlen (content c ++ kept)).

Lemma uart0_took_none err fl c : uart0_took err fl 0 c [] [].
Proof.
  unfold uart0_took. destruct err; [done|]. cbn. rewrite app_nil_r. destruct fl; [|split; [done|by left]].
  do 2 (split; [done|]). by rewrite decide_False by (by intros [_ Hne]).
Qed.

(** The byte that is stored although the ring is nearly full. *)
Lemma uart0_took_last n c v :
  ring_ok c -> byte_ok v -> 509 <= zlen (content c) -> uart0_took false true (S n) c [v] [v].
Proof.
  intros Hr Hv Hc. split; [done|]. split; [done|]. change (stores [v] c) with (stored v c). pose proof (content_bound c).
  destruct (decide _) as [[H511 _]|Hne]; [by apply stored_wraps|]. apply stored_content; [done|].
  destruct (Z.eq_dec (zlen (content c)) 511); [exfalso; by apply Hne|lia].
Qed.

Section irq.
Context {E D W : Type} `{HostLaws E} `{!HostBlocks E} `{UartRegsLaws D} `{UartClient W} `{!UartMem} `{!UartMemLaws E}.
Implicit Types s : uart E D W.

Definition flow s : bool := fcStatus (prt s) =? TLS_UART_FLOW_CTRL_HARDWARE.

Lemma rx_status_spec no v s :
  wp (tls_set_uart_rx_status no v) s (fun _ s' => recv (prt s') = recv (prt s) /\ rx_log (dev s') = rx_log (dev s)).
Proof using.
  unfold tls_set_uart_rx_status. destruct (no =? TLS_UART_1); [|by wp_steps]. apply wp_bind, wp_gets.
  destruct (_ || _); [by wp_steps|]. destruct (v =? TLS_UART_RX_DISABLE).
  - destruct (_ && _); [|by wp_steps]. apply wp_bind, upd_reg_spec; [done|]. intros d Hd. by apply wp_modify.
  - apply wp_bind, upd_reg_spec; [done|]. intros d Hd. by apply wp_modify.
Qed.

Definition uart0_post src n rxlen s (r : Z) s' : Prop := exists popped kept,
  rx_log (dev s') = rx_log (dev s) ++ popped /\ bytes_ok kept /\ (length popped <= n)%nat /\ r = rxlen + zlen kept /\
  recv (prt s') = stores kept (recv (prt s)) /\ uart0_took (rx_err src) (flow s) n (recv (prt s)) popped kept.

Lemma uart0_post_stop src rxlen n v d s :
  rx_log d = rx_log (dev s) ++ [u8 v] -> rx_err src = false -> flow s = false -> 509 <= zlen (content (recv (prt s))) ->
  uart0_post src (S n) rxlen s rxlen (with_dev d s).
Proof using.
  intros Hd He Hf Hc. exists [u8 v], []. split; [done|]. split; [constructor|]. split; [cbn; lia|]. split; [cbn; lia|]. split; [done|].
  rewrite He, Hf. cbn. rewrite app_nil_r. split; [done|]. right. exists (u8 v). done.
Qed.

Lemma uart0_rx_spec n src flag rxlen s :
  ring_ok (recv (prt s)) -> wp (uart0_rx n src flag rxlen) s (uart0_post src n rxlen s).
Proof using.
  revert rxlen s. induction n as [|n IH]; intros rxlen s Hr; cbn [uart0_rx].
  { apply wp_ret. exists [], []. rewrite app_nil_r. do 2 (split; [done|]). split; [done|]. split; [cbn; lia|]. split; [done|].
    apply uart0_took_none. }
  apply wp_bind, rd_at. intros v d Hd. destruct (rx_err src) eqn:Eerr.
  { apply wp_bind, upd_reg_spec; [done|]. intros d2 Hd2. cbn in Hd2. eapply wp_mono; [by apply (IH _ (with_dev d2 s))|]. cbv beta.
    intros r s' (bs & kept & Hlog & Hk & Hn & Hrl & Hrc & Ht). rewrite Eerr in Ht. destruct Ht as [-> Hlen]. exists (u8 v :: bs), [].
    split; [rewrite Hlog; cbn; by rewrite Hd2, Hd, <- app_assoc|]. rewrite Eerr. cbn in *. repeat split; try done; lia. }
  apply wp_bind, wp_gets. cbn [with_dev prt]. rewrite space_content by done. destruct (Z.leb_spec (511 - zlen (content (recv (prt s)))) 2) as [Hfull|Hroom].
  - destruct (flow s) eqn:Hf; unfold flow in Hf; rewrite Hf.
    + apply wp_bind. eapply wp_mono; [apply rx_status_spec|]. cbv beta. intros _ s1 [Hr1 Hl1]. cbn in Hr1, Hl1.
      apply wp_bind, put_char_spec; [by rewrite Hr1|]. apply wp_bind. eapply wp_mono; [apply rx_byte_called_spec|].
      cbv beta. intros _ s2 [Hp2 Hd2]. apply wp_ret. exists [u8 v], [u8 v]. split; [rewrite Hd2; cbn; by rewrite Hl1, Hd|].
      split; [constructor; [apply rx_byte_ok|constructor]|]. split; [cbn; lia|]. split; [done|]. split; [rewrite Hp2; cbn; by rewrite Hr1|].
      unfold flow. rewrite Eerr, Hf. apply uart0_took_last; [done|apply rx_byte_ok|lia].
    + apply wp_ret. eapply uart0_post_stop; [exact Hd|done|exact Hf|lia].
  - apply wp_bind, put_char_spec; [done|]. apply wp_bind. eapply wp_mono; [apply rx_byte_called_spec|].
    cbv beta. intros _ s1 [Hp1 Hd1]. cbn in Hp1, Hd1. assert (Hrc1 : recv (prt s1) = stored (u8 v) (recv (prt s))) by by rewrite Hp1.
    assert (Hst : content (recv (prt s1)) = content (recv (prt s)) ++ [u8 v]) by (rewrite Hrc1; apply stored_content; [done|lia]).
    eapply wp_mono; [apply IH; rewrite Hrc1; apply stored_ok; [done|apply rx_byte_ok]|]. cbv beta.
    intros r s' (bs & kept & Hlog & Hk & Hn & Hrl & Hrc & Ht). exists (u8 v :: bs), (u8 v :: kept).
    split; [by rewrite Hlog, Hd1, Hd, <- app_assoc|]. split; [constructor; [apply rx_byte_ok|done]|]. split; [cbn; lia|].
    split; [cbn [length]; lia|]. split; [rewrite Hrc, Hrc1; done|]. rewrite Eerr in Ht |- *.
    assert (Hf1 : flow s1 = flow s) by (unfold flow; by rewrite Hp1). unfold uart0_took in *. rewrite Hf1, Hst in Ht.
    destruct (flow s).
    { destruct Ht as (-> & _ & Ht). split; [done|]. split; [lia|]. rewrite decide_False by (rewrite ?length_app; cbn [length]; lia). rewrite decide_False in Ht by (rewrite ?length_app; cbn [length]; lia).
      change (stores (u8 v :: kept) (recv (prt s))) with (stores kept (stored (u8 v) (recv (prt s)))). rewrite <- Hrc1, Ht, <- app_assoc. done. }
    destruct Ht as [Ht1 Ht2]. rewrite Hrc1 in Ht1. rewrite <- !app_assoc in *. cbn [app] in *. split; [exact Ht1|].
    destruct Ht2 as [[-> Hl]|(b & -> & Hb)]; [left; split; [done|cbn; lia]|right; by exists b].
Qed.

(** What a handler has taken in, as far as port 0 is concerned. *)
Definition rx0 (src : Z) s s' : Prop := exists n popped kept,
  rx_log (dev s') = rx_log (dev s) ++ popped /\ bytes_ok kept /\
  recv (prt s') = stores kept (recv (prt s)) /\ uart0_took (rx_err src) (flow s) n (recv (prt s)) popped kept.

Lemma uart0_irq_rx_spec flag src s : ring_ok (recv (prt s)) -> wp (uart0_irq_rx flag src) s (fun _ s' => rx0 src s s').
Proof using.
  intros Hr. apply wp_bind, rx_due_spec. intros d Hd. destruct (due src s).
  2: { apply wp_ret. exists O, [], []. rewrite app_nil_r. repeat split; [done|constructor|apply uart0_took_none]. }
  apply wp_bind, rx_fifo_cnt_spec. intros n d2 Hn Hd2. cbn in Hd2. apply wp_bind.
  eapply wp_mono; [by apply (uart0_rx_spec _ src flag 0)|]. cbv beta.
  intros r s2 (popped & kept & Hlog & Hk & _ & _ & Hrc & Ht). eapply wp_mono; [apply rx_called_once_spec|]. cbv beta.
  intros _ s3 [Hp3 Hd3]. exists (Z.to_nat n), popped, kept. rewrite Hd3, Hp3, Hlog. cbn [with_dev dev prt] in *. by rewrite Hd2, Hd.
Qed.

(** ** Sending *)

(** What the sending half of a handler leaves; [k] has been sent. *)
Definition tx_eff base q (k : list Z) q' s s' : Prop :=
  sends base q' s' /\ tx_log (dev s') = tx_log (dev s) ++ k /\ unsent q = k ++ unsent q' /\
  rx_log (dev s') = rx_log (dev s) /\ recv (prt s') = recv (prt s) /\ fcStatus (prt s') = fcStatus (prt s).

Lemma sends_keep base q s s' : sends base q s -> rx_keep s s' -> sends base q s'.
Proof using.
  intros [[Hp Hf Hh Hm Hnd Hb Hheap] [Hcb Hfull] Hcnt Hleft] ((E1 & E2 & E3) & (E4 & E5) & E6).
  specialize (E6 (Circ None 0 0) 0 0). unfold set_recv, set_plus, set_rxstatus in E6. cbn in E6. injection E6 as F1 F2 F3 F4 F5 F6 F7 F8 F9 F10 F11 F12.
  split; [|by rewrite F9, F4|lia|done]. split; rewrite ?E1, ?E2, ?E3, ?F1; done.
Qed.

Lemma rx_keep_flow s s' : rx_keep s s' -> fcStatus (prt s') = fcStatus (prt s).
Proof using. intros (_ & _ & E6). by specialize (E6 (Circ None 0 0) 0 0) as [= _ _ ?]. Qed.

Lemma tx_eff_refl base q s s' :
  sends base q s' -> tx_log (dev s') = tx_log (dev s) -> rx_log (dev s') = rx_log (dev s) -> recv (prt s') = recv (prt s) ->
  fcStatus (prt s') = fcStatus (prt s) -> tx_eff base q [] q s s'.
Proof using. intros Hs Ht Hr Hc Hf. split; [done|]. by rewrite Ht, app_nil_r. Qed.

Lemma tx_eff_trans base q1 k1 q2 k2 q3 s1 s2 s3 :
  tx_eff base q1 k1 q2 s1 s2 -> tx_eff base q2 k2 q3 s2 s3 -> tx_eff base q1 (k1 ++ k2) q3 s1 s3.
Proof using.
  intros (_ & Ht1 & Hu1 & Hr1 & Hc1 & Hf1) (Hs & Ht2 & Hu2 & Hr2 & Hc2 & Hf2). split; [done|].
  rewrite Ht2, Ht1, Hu1, Hu2, !app_assoc. split; [done|]. split; [done|]. split; [congruence|]. split; congruence.
Qed.

(** A state that sending cannot tell from [s], for the parts that it reads. *)
Lemma sends_same base q s s' :
  sends base q s -> heap s' = heap s -> lnk s' = lnk s -> msgs s' = msgs s -> tx_cnt (dev s') <= tx_cnt (dev s) ->
  uart_no (prt s') = uart_no (prt s) -> tx_callback (prt s') = tx_callback (prt s) -> tx_fifofull (prt s') = tx_fifofull (prt s) ->
  sends base q s'.
Proof using.
  intros [[Hp Hf Hh Hm Hnd Hb Hheap] [Hcb Hfull] Hcnt Hleft] E1 E2 E3 E5 F1 F9 F4.
  split; [|by rewrite F9, F4|lia|done]. split; rewrite ?E1, ?E2, ?E3, ?F1; done.
Qed.

Lemma tx_chars_eff base q s :
  sends base q s -> wp tls_uart_tx_chars s (fun _ s' => exists k q', tx_eff base q k q' s s' /\ (q <> [] -> tx_cnt (dev s) < 16 -> k <> [])).
Proof.
  intros Hs. eapply wp_mono; [by apply tx_chars_spec|]. cbv beta. intros _ s' (q' & k & Hs' & Ht & Hu & Hr & Hp & Hpr).
  exists k, q'. pose proof (same_port_fields _ _ Hp) as (Hrc & _). split; [|].
  - do 5 (split; [done|]). exact (f_equal fcStatus Hp).
  - intros Hq Hc. apply Hpr; [done|]. rewrite read_fifos_cnt. pose proof (read_tx_cnt UR_FIFOS (dev s)). lia.
Qed.

Lemma upd_reg_eff base q r f s (Q : unit -> uart E D W -> Prop) :
  sends base q s -> r <> UR_TXW -> r <> UR_RXW ->
  (forall d, tx_eff base q [] q s (with_dev d s) -> tx_cnt d <= tx_cnt (dev s) -> Q tt (with_dev d s)) -> wp (upd_reg r f) s Q.
Proof using.
  intros Hs Hr1 Hr2 HQ. apply wp_bind, rd_spec, wp_modify. cbn. apply (HQ (reg_write r (u32 (f (fst (reg_read r (dev s))))) (snd (reg_read r (dev s))))).
  - apply tx_eff_refl; cbn; [|by rewrite write_tx_log, read_tx_log| |done|done].
    + eapply sends_same; [exact Hs|done..| |done|done|done]. cbn. etransitivity; [by apply write_tx_cnt|apply read_tx_cnt].
    + rewrite write_rx_log, read_rx_log. destruct r; by rewrite ?app_nil_r.
  - etransitivity; [by apply write_tx_cnt|apply read_tx_cnt].
Qed.

Lemma cts_change_eff base q status s :
  sends base q s -> wp (uart_handle_cts_change status) s (fun _ s' => exists k q', tx_eff base q k q' s s').
Proof.
  intros Hs. apply wp_bind, wp_gets. assert (Hstay : wp (mret tt) s (fun _ s' => exists k q', tx_eff base q k q' s s')).
  { apply wp_ret. exists [], q. by apply tx_eff_refl. }
  destruct (_ && _ && _); [|done]. destruct (negb _).
  - destruct (negb _); [|done]. apply wp_bind, wp_modify, wp_bind.
    set (s1 := Uart _ _ _ _ _ _). assert (Hs1 : sends base q s1) by by eapply sends_same.
    assert (He1 : tx_eff base q [] q s s1) by by apply tx_eff_refl.
    eapply (upd_reg_eff base q); [exact Hs1|done|done|]. intros d He2 _. eapply wp_mono; [apply (tx_chars_eff base q); apply He2|]. cbv beta.
    intros _ s' (k & q' & He3 & _). eexists _, _.
    exact (tx_eff_trans _ _ _ _ _ _ _ _ _ He1 (tx_eff_trans _ _ _ _ _ _ _ _ _ He2 He3)).
  - destruct (status =? 0); [|done]. apply wp_bind, wp_modify.
    set (s1 := Uart _ _ _ _ _ _). assert (Hs1 : sends base q s1) by by eapply sends_same.
    assert (He1 : tx_eff base q [] q s s1) by by apply tx_eff_refl.
    eapply (upd_reg_eff base q); [exact Hs1|done|done|]. intros d He2 _. eexists _, _. exact (tx_eff_trans _ _ _ _ _ _ _ _ _ He1 He2).
Qed.

Lemma irq_tx_cts_eff base q src s :
  sends base q s -> wp (irq_tx_cts src) s (fun _ s' => exists k q', tx_eff base q k q' s s' /\
    (src &&& UART_TX_INT_FLAG <> 0 -> q <> [] -> tx_cnt (dev s) < 16 -> k <> [])).
Proof.
  intros Hs. apply wp_bind.
  assert (Hcts : forall k1 q1 s1, tx_eff base q k1 q1 s s1 -> (src &&& UART_TX_INT_FLAG <> 0 -> q <> [] -> tx_cnt (dev s) < 16 -> k1 <> []) ->
    wp (if negb (src &&& UIS_CTS_CHNG =? 0) then fifos ← rd UR_FIFOS; uart_handle_cts_change (fifos &&& UFS_CST_STS) else mret tt) s1
      (fun _ s' => exists k q', tx_eff base q k q' s s' /\ (src &&& UART_TX_INT_FLAG <> 0 -> q <> [] -> tx_cnt (dev s) < 16 -> k <> []))).
  { intros k1 q1 s1 He1 Hpr. destruct (negb _); [|apply wp_ret; by exists k1, q1]. apply wp_bind, rd_spec. set (s2 := with_dev _ _).
    assert (Hs2 : sends base q1 s2) by (eapply sends_same; [apply He1|done..|apply read_tx_cnt|done|done|done]).
    assert (He2 : tx_eff base q1 [] q1 s1 s2) by (apply tx_eff_refl; try done; cbn; [apply read_tx_log|by rewrite read_rx_log, app_nil_r]).
    eapply wp_mono; [by apply (cts_change_eff base q1)|]. cbv beta. intros _ s' (k & q' & He3). exists (k1 ++ ([] ++ k)), q'.
    split; [exact (tx_eff_trans _ _ _ _ _ _ _ _ _ He1 (tx_eff_trans _ _ _ _ _ _ _ _ _ He2 He3))|]. intros ? ? ? [Hk _]%app_eq_nil. by apply Hpr. }
  destruct (Z.eqb_spec (src &&& UART_TX_INT_FLAG) 0) as [Hz|Hnz]; cbn [negb].
  - apply wp_ret, (Hcts [] q); [by apply tx_eff_refl|done].
  - eapply wp_mono; [by apply tx_chars_eff|]. cbv beta. intros _ s1 (k & q1 & He & Hpr). by apply (Hcts k q1).
Qed.

(** ** The handlers *)

(** How the ring of port 0 changes, and that of the other ports. *)
Definition ring0 (err fl : bool) (popped : list Z) (c c' : circ) : Prop :=
  exists n kept, bytes_ok kept /\ c' = stores kept c /\ uart0_took err fl n c popped kept.
Definition ring1 (err : bool) (popped : list Z) (c c' : circ) : Prop :=
  bytes_ok popped /\ zlen popped <= 63 /\
  (c' = c /\ popped = [] \/ c' = stores (if err then [] else popped) (relieved c)).

(** A handler has taken [popped] out of the receive FIFO, changed the ring as
    [R] says, and put [k], the next bytes to be sent, into the transmit FIFO. *)
Definition handled (R : list Z -> circ -> circ -> Prop) (src : Z) base q s s' : Prop := exists k q' popped,
  sends base q' s' /\ tx_log (dev s') = tx_log (dev s) ++ k /\ unsent q = k ++ unsent q' /\
  rx_log (dev s') = rx_log (dev s) ++ popped /\ fcStatus (prt s') = fcStatus (prt s) /\
  R popped (recv (prt s)) (recv (prt s')) /\
  (src &&& UART_TX_INT_FLAG <> 0 -> q <> [] -> tx_cnt (dev s) < 16 -> k <> []).

(** [s1] is where sending starts. *)
Lemma handled_tx R base q src popped s s1 :
  sends base q s -> rx_keep s s1 -> rx_log (dev s1) = rx_log (dev s) ++ popped -> R popped (recv (prt s)) (recv (prt s1)) ->
  wp (irq_tx_cts src) s1 (fun _ s' => handled R src base q s s').
Proof using H0 HostBlocks0 H2 UartMemLaws0.
  intros Hs Hk Hlog HR. eapply wp_mono; [eapply irq_tx_cts_eff, sends_keep; [exact Hs|exact Hk]|]. cbv beta.
  intros _ s' (k & q' & (Hs' & Ht & Hu & Hr & Hc & Hf) & Hpr). exists k, q', popped. pose proof Hk as (_ & (E4 & E5) & _).
  split; [done|]. split; [by rewrite Ht, E4|]. split; [done|]. split; [by rewrite Hr, Hlog|].
  split; [by rewrite Hf; apply rx_keep_flow|]. split; [by rewrite Hc|]. intros ? ? ?. apply Hpr; [done|done|lia].
Qed.

Lemma irq_overrun_spec src s :
  wp (irq_overrun src) s (fun _ s' => prt s' = prt s /\ rx_log (dev s') = rx_log (dev s)).
Proof using H2.
  unfold irq_overrun. destruct (negb _); [|by wp_steps]. apply wp_bind, upd_reg_spec; [done|]. intros d Hd.
  apply wp_bind, wp_gets. destruct (tx_dma_on _); [|by wp_steps].
  apply wp_bind, upd_reg_spec; [done|]. intros d2 Hd2. apply upd_reg_spec; [done|]. intros d3 Hd3. cbn in *. by rewrite Hd3, Hd2.
Qed.

(** The interrupt register is read and written back. *)
Lemma ints_read s : rx_keep s (with_dev (snd (reg_read UR_INTS (dev s))) s) /\
  rx_log (snd (reg_read UR_INTS (dev s))) = rx_log (dev s).
Proof using.
  split; [|by rewrite read_rx_log, app_nil_r]. repeat split; cbn; [apply read_tx_log|apply read_tx_cnt].
Qed.
Lemma ints_written v s : rx_keep s (with_dev (reg_write UR_INTS v (dev s)) s) /\
  rx_log (reg_write UR_INTS v (dev s)) = rx_log (dev s).
Proof using. split; [|apply write_rx_log]. repeat split; cbn; [by apply write_tx_log|by apply write_tx_cnt]. Qed.

Lemma uart0_handled flag base q s :
  ring_ok (recv (prt s)) -> sends base q s ->
  wp (UART0_IRQHandler flag) s (fun _ s' =>
    let src := fst (reg_read UR_INTS (dev s)) in handled (ring0 (rx_err src) (flow s)) src base q s s').
Proof.
  intros Hr Hs. apply wp_bind, rd_spec. set (src := fst _). destruct (ints_read s) as [Hk1 Hl1]. set (s1 := with_dev _ s) in *.
  apply wp_bind, wp_modify. destruct (ints_written (u32 src) s1) as [Hk2 Hl2]. set (s2 := with_dev _ s1) in *.
  apply wp_bind. eapply wp_mono; [apply (wp_keeps rx_keep); [apply uart0_irq_rx_keeps|by apply uart0_irq_rx_spec]|]. cbv beta.
  intros _ s3 [(n & popped & kept & Hlog & Hb & Hc & Ht) Hk3].
  apply (handled_tx _ base q src popped); [done| | |by exists n, kept].
  - etransitivity; [exact Hk1|]. etransitivity; [exact Hk2|exact Hk3].
  - rewrite Hlog. cbn [s2 s1 with_dev dev] in *. by rewrite Hl2, Hl1.
Qed.

Lemma packet_ring1 src s s1 s2 popped :
  prt s1 = prt s -> (due src s1 = false -> popped = []) -> bytes_ok popped -> zlen popped <= 63 ->
  prt s2 = (if due src s1 then packet (rx_err src) popped (prt s1) else prt s1) ->
  ring1 (rx_err src) popped (recv (prt s)) (recv (prt s2)).
Proof using.
  intros <- Hno Hb Hn ->. split; [done|]. split; [done|]. destruct (due src s1); [by right|left]. split; [done|by apply Hno].
Qed.

Lemma uart1_handled flag base q s :
  ring_ok (recv (prt s)) -> sends base q s ->
  wp (UART1_IRQHandler flag) s (fun _ s' =>
    let src := fst (reg_read UR_INTS (dev s)) in handled (ring1 (rx_err src)) src base q s s').
Proof.
  intros Hr Hs. apply wp_bind, rd_spec. set (src := fst _). destruct (ints_read s) as [Hk1 Hl1]. set (s1 := with_dev _ s) in *.
  apply wp_bind, wp_modify. destruct (ints_written (u32 src) s1) as [Hk2 Hl2]. set (s2 := with_dev _ s1) in *.
  apply wp_bind. eapply wp_mono; [apply (wp_keeps rx_keep); [apply irq_overrun_keeps|apply irq_overrun_spec]|]. cbv beta.
  intros _ s3 [[Hp3 Hl3] Hk3]. apply wp_bind.
  eapply wp_mono; [apply (wp_keeps rx_keep); [apply uart1_irq_rx_keeps|apply uart1_irq_rx_spec; by rewrite Hp3]|]. cbv beta.
  intros _ s4 [(popped & Hlog & Hb & Hn & Hno & Hp4) Hk4].
  apply (handled_tx _ base q src popped); [done| | |by eapply (packet_ring1 src s s3)].
  - etransitivity; [exact Hk1|]. etransitivity; [exact Hk2|]. etransitivity; [exact Hk3|exact Hk4].
  - rewrite Hlog, Hl3. cbn [s2 s1 with_dev dev] in *. by rewrite Hl2, Hl1.
Qed.

Lemma uart24_handled flag base q s :
  ring_ok (recv (prt s)) -> sends base q s ->
  wp (uart24_irq flag) s (fun _ s' =>
    let src := fst (reg_read UR_INTS (dev s)) in handled (ring1 (rx_err src)) src base q s s').
Proof.
  intros Hr Hs. apply wp_bind, rd_spec. set (src := fst _). destruct (ints_read s) as [Hk1 Hl1]. set (s1 := with_dev _ s) in *.
  apply wp_bind. eapply wp_mono; [apply (wp_keeps rx_keep); [apply irq_overrun_keeps|apply irq_overrun_spec]|]. cbv beta.
  intros _ s3 [[Hp3 Hl3] Hk3]. apply wp_bind.
  eapply wp_mono; [apply (wp_keeps rx_keep); [apply uart24_irq_rx_keeps|apply uart24_irq_rx_spec; by rewrite Hp3]|]. cbv beta.
  intros _ s4 [(popped & Hlog & Hb & Hn & Hno & Hp4) Hk4]. apply wp_bind. eapply wp_mono.
  { apply (handled_tx (ring1 (rx_err src)) base q src popped s s4); [done| | |by eapply (packet_ring1 src s s3)].
    - etransitivity; [exact Hk1|]. etransitivity; [exact Hk3|exact Hk4].
    - rewrite Hlog, Hl3. cbn [s1 with_dev dev] in *. by rewrite Hl1. }
  cbv beta. intros _ s5 (k & q' & popped' & Hs5 & Ht5 & Hu5 & Hr5 & Hf5 & HR5 & Hpr5). apply wp_modify.
  destruct (ints_written (u32 src) s5) as [Hk6 Hl6]. exists k, q', popped'. split; [by eapply sends_keep|]. cbn.
  rewrite Hl6, write_tx_log by done. done.
Qed.
End irq.
