(* ===== verification/UartRead.v ===== *)
(** * Reading while bytes arrive

    [tls_uart_read] works on the ring without masking the interrupt: it
    counts, copies, and then moves the tail.  The handler may run in
    between.  The handler of port 0 only appends, so the reader still hands
    out the queue; the handlers of the other ports also move the tail, and
    what the reader then writes makes old bytes new. *)
From S2P Require Import Prelude CMonad Keeps DlList HostEnv Uart UartRing UartTx UartRx UartIrq.

Section read.
Context {E D W : Type} `{HostLaws E} `{!HostBlocks E} `{UartRegsLaws D} `{UartClient W} `{!UartMem} `{!UartMemLaws E}.
Implicit Types s : uart E D W.

(** [tls_uart_read] with [i1] running before the copy and [i2] after it. *)
Definition read_with (i1 i2 : M (uart E D W) unit) (data readsize : Z) : M (uart E D W) (Z * list Z) :=
  if (data =? 0) || (readsize <? 1) then mret (WM_FAILED, [])
  else
    buflen ← read_count readsize;
    i1 ;;
    bytes ← read_copy buflen;
    i2 ;;
    read_advance buflen ;;
    mret (buflen, bytes).

Lemma read_with_quiet data readsize : read_with (mret tt) (mret tt) data readsize = tls_uart_read data readsize.
Proof using. reflexivity. Qed.

Lemma read_count_spec readsize s (Q : Z -> uart E D W -> Prop) :
  Q (Z.min readsize (zlen (content (recv (prt s))))) s -> wp (read_count readsize) s Q.
Proof using.
  intros HQ. apply wp_bind, wp_gets, wp_ret. rewrite CIRC_CNT_mod, <- length_content.
  destruct (Z.leb_spec readsize (zlen (content (recv (prt s))))); [by rewrite Z.min_l in HQ by lia|by rewrite Z.min_r in HQ by lia].
Qed.

Lemma read_copy_spec n s (Q : list Z -> uart E D W -> Prop) :
  ring_ok (recv (prt s)) -> Q (copied n (recv (prt s))) s -> wp (read_copy n) s Q.
Proof using.
  intros [(a & l & Hb & Hl & Hok) Hh Ht] HQ. apply wp_bind, wp_gets. unfold copied, bytes_of_block in HQ. rewrite Hb in *.
  unfold TLS_UART_RX_BUF_SIZE. by destruct (512 <? _).
Qed.

Lemma read_advance_spec n s (Q : unit -> uart E D W -> Prop) :
  Q tt (with_prt (set_recv (advanced n (recv (prt s))) (prt s)) s) -> wp (read_advance n) s Q.
Proof using. intros HQ. apply wp_bind, wp_gets, wp_modify. by rewrite mask_mod, wrap_mod512. Qed.

(** ** One producer, one consumer *)

(** Between the steps of the reader only bytes are appended. *)
Definition appends s s' : Prop := exists more,
  ring_ok (recv (prt s')) /\ content (recv (prt s')) = content (recv (prt s)) ++ more.

Lemma appends_read i1 i2 data readsize (I : uart E D W -> Prop) s :
  (forall s1, I s1 -> ring_ok (recv (prt s1)) -> wp i1 s1 (fun _ s2 => I s2 /\ appends s1 s2)) ->
  (forall s1, I s1 -> ring_ok (recv (prt s1)) -> wp i2 s1 (fun _ s2 => I s2 /\ appends s1 s2)) ->
  I s -> ring_ok (recv (prt s)) -> data <> 0 -> 1 <= readsize ->
  wp (read_with i1 i2 data readsize) s (fun r s' => exists arrived,
    r.2 = take (Z.to_nat readsize) (content (recv (prt s))) /\ r.1 = zlen r.2 /\ ring_ok (recv (prt s')) /\
    r.2 ++ content (recv (prt s')) = content (recv (prt s)) ++ arrived).
Proof.
  intros Hi1 Hi2 HI Hr Hd Hn. unfold read_with. rewrite (proj2 (Z.eqb_neq _ _)), (proj2 (Z.ltb_ge _ _)) by (done || lia). cbn [orb].
  apply wp_bind, read_count_spec. set (n := Z.min _ _). apply wp_bind. eapply wp_mono; [by apply Hi1|]. cbv beta.
  intros _ s1 [HI1 (m1 & Hr1 & Hc1)]. apply wp_bind, read_copy_spec; [done|].
  assert (Hn1 : 0 <= n <= zlen (content (recv (prt s1)))) by (rewrite Hc1, length_app; lia).
  assert (Hcp : copied n (recv (prt s1)) = take (Z.to_nat readsize) (content (recv (prt s)))).
  { rewrite copied_content by done. rewrite Hc1. unfold n. destruct (Z.le_ge_cases readsize (zlen (content (recv (prt s))))).
    - rewrite Z.min_l by lia. by rewrite take_app_le by lia.
    - rewrite Z.min_r, Nat2Z.id by lia. by rewrite take_app_length, take_ge by lia. }
  apply wp_bind. eapply wp_mono; [by apply Hi2|]. cbv beta. intros _ s2 [HI2 (m2 & Hr2 & Hc2)].
  apply wp_bind, read_advance_spec, wp_ret. exists (m1 ++ m2). cbn [fst snd]. rewrite Hcp. split; [done|].
  split; [rewrite length_take; lia|]. cbn. split; [by apply advanced_ok|].
  rewrite advanced_content; [|done|rewrite Hc2, length_app; lia]. rewrite Hc2, Hc1, <- app_assoc.
  assert (Ht : take (Z.to_nat readsize) (content (recv (prt s))) = take (Z.to_nat n) (content (recv (prt s)) ++ m1 ++ m2)).
  { unfold n. destruct (Z.le_ge_cases readsize (zlen (content (recv (prt s))))).
    - rewrite Z.min_l by lia. by rewrite take_app_le by lia.
    - rewrite Z.min_r, Nat2Z.id by lia. by rewrite take_app_length, take_ge by lia. }
  rewrite Ht. apply take_drop.
Qed.

(** The handler of port 0 is such a producer. *)
Definition idle0 base s : Prop := (exists q, sends base q s) /\ flow s = false.

Lemma uart0_producer flag base s :
  idle0 base s -> ring_ok (recv (prt s)) -> wp (UART0_IRQHandler flag) s (fun _ s' => idle0 base s' /\ appends s s').
Proof.
  intros [[q Hs] Hf] Hr. eapply wp_mono; [by apply uart0_handled|]. cbv beta zeta.
  intros _ s' (k & q' & popped & Hs' & _ & _ & _ & Hfc & (n & kept & Hb & Hc & Ht) & _). rewrite Hf in Ht. unfold uart0_took in Ht.
  split; [split; [by exists q'|unfold flow in *; by rewrite Hfc]|]. exists kept. rewrite Hc. split; [by apply stores_ok|].
  destruct (rx_err _); [destruct Ht as [-> _]; by rewrite app_nil_r|apply Ht].
Qed.

(** Any number of interrupts, with the flags the client has set meanwhile. *)
Fixpoint irqs (handler : Z -> M (uart E D W) unit) (flags : list Z) : M (uart E D W) unit :=
  match flags with
  | [] => mret tt
  | flag :: flags => handler flag ;; irqs handler flags
  end.

Lemma irqs_append flags base s :
  idle0 base s -> ring_ok (recv (prt s)) -> wp (irqs UART0_IRQHandler flags) s (fun _ s' => idle0 base s' /\ appends s s').
Proof.
  revert s. induction flags as [|flag flags IH]; intros s Hi Hr; cbn [irqs].
  - apply wp_ret. split; [done|]. exists []. by rewrite app_nil_r.
  - apply wp_bind. eapply wp_mono; [by apply uart0_producer|]. cbv beta. intros _ s1 [Hi1 (m1 & Hr1 & Hc1)].
    eapply wp_mono; [by apply IH|]. cbv beta. intros _ s2 [Hi2 (m2 & Hr2 & Hc2)]. split; [done|].
    exists (m1 ++ m2). split; [done|]. by rewrite Hc2, Hc1, app_assoc.
Qed.

(** ** Two writers of the tail *)

(** An interrupt of another port between the copy and the new tail, when
    everything has been read and less than [RX_CACHE_LIMIT] places were free. *)
Lemma relieved_behind c n popped :
  ring_ok c -> bytes_ok popped -> zlen popped <= 63 -> n = zlen (content c) -> 383 <= n ->
  zlen (content (advanced n (stores popped (relieved c)))) = 384 + zlen popped.
Proof using.
  intros Hr Hb Hp -> Hn. rewrite length_content.
  assert (Hrel : ring_ok (relieved c)) by by apply relieved_ok.
  assert (Hlen : zlen (content (stores popped (relieved c))) = zlen (content c) - 128 + zlen popped).
  { rewrite stores_content, length_app, relieved_content; [|done..|].
    - unfold room_made. rewrite (proj2 (Z.leb_le _ _)), length_drop by lia. lia.
    - rewrite relieved_content by done. pose proof (room_made_short (content c) ltac:(apply content_bound)). lia. }
  rewrite length_content in Hlen. unfold advanced. cbn [head tail]. pose proof (content_bound c). dlia.
Qed.
End read.
