(* ===== verification/UartProps.v ===== *)
(** * A UART port in operation

    The properties of the driver: what was written is sent, in order and
    once, and all the memory comes back; what was received is read, and
    where it is not. *)
From S2P Require Import Prelude CMonad Keeps DlList HostEnv Uart UartRing UartTx UartRx UartIrq UartRead.

(** ** A port's history *)

(** Which of the three handlers a port has. *)
Inductive line := Line0 | Line1 | Line24.

(** What happens at a port: a client writes or reads, an interrupt is
    served, the device goes on by itself. *)
Inductive event (D : Type) :=
  | EWrite (data : Z) (bytes : list Z)
  | ERead (data readsize : Z)
  | EIrq (l : line) (flag : Z)
  | EDevice (f : D -> D).
Arguments EWrite {D}.
Arguments ERead {D}.
Arguments EIrq {D}.
Arguments EDevice {D}.

Section history.
Context {E D W : Type} `{HostLaws E} `{!HostBlocks E} `{UartRegsLaws D} `{UartClient W} `{!UartMem} `{!UartMemLaws E}.
Implicit Types s : uart E D W.

Definition handler (l : line) (flag : Z) : M (uart E D W) unit :=
  match l with
  | Line0 => UART0_IRQHandler flag
  | Line1 => UART1_IRQHandler flag
  | Line24 => uart24_irq flag
  end.

(** The bytes that the driver has accepted. *)
Definition happen (ev : event D) : M (uart E D W) (list Z) :=
  match ev with
  | EWrite data bytes => r ← tls_uart_write data bytes (zlen bytes); mret (if r =? WM_SUCCESS then bytes else [])
  | ERead data readsize => _ ← tls_uart_read data readsize; mret []
  | EIrq l flag => handler l flag ;; mret []
  | EDevice f => modify (fun s => with_dev (f (dev s)) s) ;; mret []
  end.
Fixpoint history (evs : list (event D)) : M (uart E D W) (list Z) :=
  match evs with
  | [] => mret []
  | ev :: evs => a ← happen ev; b ← history evs; mret (a ++ b)
  end.

(** The device may send bytes and receive some, but not forge any to send. *)
Definition fair (ev : event D) : Prop :=
  match ev with
  | EWrite _ bytes => bytes_ok bytes /\ zlen bytes < 2 ^ 16
  | EDevice f => forall d, tx_log (f d) = tx_log d /\ tx_cnt (f d) <= tx_cnt d
  | _ => True
  end.

(** A port that works: its ring is one, its messages are a queue. *)
Definition works base q s : Prop := ring_ok (recv (prt s)) /\ sends base q s.

(** The parts of a queue in which every message has bytes left. *)
Lemma unsent_nil base q s : sends base q s -> unsent q = [] -> q = [].
Proof using.
  intros [Hl _ _ Hleft] Hu. destruct q as [|[p m] q]; [done|]. rewrite unsent_cons in Hu. apply app_eq_nil in Hu as [Hu _].
  apply Forall_cons in Hleft as [Hleft _]. pose proof (ls_msgs _ _ _ _ Hl) as Hm. rewrite app_nil_r in Hm.
  apply Forall_cons in Hm as [[_ [Hlen _ _]] _]. cbn [snd] in *. apply (f_equal length) in Hu. unfold unsent_of in Hu. rewrite length_drop in Hu. cbn in Hu. lia.
Qed.

Lemma sends_memory base q s : sends base q s -> unsent q = [] -> h_blocks (heap s) base.
Proof using.
  intros Hs Hu. assert (Hq : q = []) by by eapply unsent_nil. subst. destruct Hs as [Hl _ _ _]. pose proof (ls_heap _ _ _ _ Hl) as Hh.
  cbn in Hh. by rewrite union_empty_r_L in Hh.
Qed.

Lemma ring0_ok err fl popped c c' : ring_ok c -> ring0 err fl popped c c' -> ring_ok c'.
Proof using. intros Hr (n & kept & Hb & -> & _). by apply stores_ok. Qed.
Lemma ring1_ok err popped c c' : ring_ok c -> ring1 err popped c c' -> ring_ok c'.
Proof using.
  intros Hr (Hb & _ & [[-> _]| ->]); [done|]. apply stores_ok; [by apply relieved_ok|]. by destruct err.
Qed.

(** A handler in one line: [k] goes out. *)
Lemma handler_works l flag base q s :
  works base q s ->
  wp (handler l flag) s (fun _ s' => exists k q', works base q' s' /\ tx_log (dev s') = tx_log (dev s) ++ k /\ unsent q = k ++ unsent q' /\
    (fst (reg_read UR_INTS (dev s)) &&& UART_TX_INT_FLAG <> 0 -> unsent q <> [] -> tx_cnt (dev s) < 16 -> k <> [])).
Proof.
  intros [Hr Hs].
  assert (Hgo : forall R s', handled R (fst (reg_read UR_INTS (dev s))) base q s s' -> (forall popped, R popped (recv (prt s)) (recv (prt s')) -> ring_ok (recv (prt s'))) ->
    exists k q', works base q' s' /\ tx_log (dev s') = tx_log (dev s) ++ k /\ unsent q = k ++ unsent q' /\
    (fst (reg_read UR_INTS (dev s)) &&& UART_TX_INT_FLAG <> 0 -> unsent q <> [] -> tx_cnt (dev s) < 16 -> k <> [])).
  { intros R s' (k & q' & popped & Hs' & Ht & Hu & _ & _ & HR & Hpr) Hok. exists k, q'. split; [split; [by eapply Hok|done]|]. split; [done|]. split; [done|].
    intros ? Hne ?. apply Hpr; [done| |done]. intros ->. by apply Hne. }
  destruct l; cbn [handler]; (eapply wp_mono; [first [by apply uart0_handled|by apply uart1_handled|by apply uart24_handled]|]);
    cbv beta zeta; intros _ s' Hh; (eapply Hgo; [exact Hh|]); intros popped HR; [by eapply ring0_ok|by eapply ring1_ok..].
Qed.

Lemma read_works data readsize base q s :
  works base q s ->
  wp (tls_uart_read data readsize) s (fun _ s' => works base q s' /\ dev s' = dev s).
Proof.
  intros [Hr Hs]. unfold tls_uart_read. destruct (_ || _); [by apply wp_ret|]. apply wp_bind, read_count_spec, wp_bind, read_copy_spec; [done|].
  apply wp_bind, read_advance_spec, wp_ret. split; [|done]. split; [by apply advanced_ok|]. by eapply sends_same.
Qed.

Lemma happen_works ev base q s :
  works base q s -> fair ev ->
  wp (happen ev) s (fun acc s' => exists q', works base q' s' /\ tx_log (dev s') ++ unsent q' = tx_log (dev s) ++ unsent q ++ acc).
Proof.
  intros [Hr Hs] Hf. destruct ev as [data bytes|data n|l flag|f]; cbn [happen].
  - destruct Hf as [Hb Hlen]. apply wp_bind.
    destruct (decide (data = 0 \/ bytes = [])) as [Hno|Hyes].
    { unfold tls_uart_write, tls_uart_write_async. apply (wp_same _ (mret WM_FAILED)); [by destruct Hno as [->| ->]; rewrite ?orb_true_r|].
      apply wp_ret, wp_ret. exists q. split; [done|]. by rewrite app_nil_r. }
    assert (Hne : 0 < zlen bytes) by (destruct bytes; [tauto|cbn; lia]).
    eapply wp_mono; [apply (write_async_spec base q); [done|tauto|lia|lia|done]|]. cbv beta.
    intros r s1 (q1 & Hs1 & Hrx & Hp & Hcase). apply wp_ret. exists q1. pose proof (same_port_fields _ _ Hp) as (Hrc & _).
    split; [split; [by rewrite Hrc|done]|]. destruct Hcase as [(-> & Ht & Hu)|(-> & Ht)]; cbn [Z.eqb WM_SUCCESS].
    + by rewrite Ht, Hu, app_nil_r.
    + by rewrite Ht, Nat2Z.id, firstn_all.
  - apply wp_bind. eapply wp_mono; [by apply (read_works _ _ base q)|]. cbv beta. intros _ s1 [Hw Hd]. apply wp_ret. exists q.
    split; [done|]. by rewrite Hd, app_nil_r.
  - apply wp_bind. eapply wp_mono; [by apply (handler_works _ _ base q)|]. cbv beta. intros _ s1 (k & q1 & Hw & Ht & Hu & _). apply wp_ret.
    exists q1. split; [done|]. by rewrite Ht, Hu, app_nil_r, <- app_assoc.
  - apply wp_bind, wp_modify, wp_ret. exists q. destruct (Hf (dev s)) as [Ht Hc]. split; [split; [done|by eapply sends_same]|]. cbn. by rewrite Ht, app_nil_r.
Qed.

(** C16. Whatever happens at a port - writes, reads, interrupts on any of the
    three lines, the device at work - the driver returns, and the bytes that
    were waiting before, followed by those it has accepted since, are the
    bytes it has given to the transmitter, in order and each once, followed
    by those still waiting; as soon as none is waiting, every block that was
    allocated for sending has been given back. *)
Theorem uart_sends_in_order evs base q s :
  works base q s -> Forall fair evs ->
  wp (history evs) s (fun acc s' => exists q', works base q' s' /\
    tx_log (dev s') ++ unsent q' = tx_log (dev s) ++ unsent q ++ acc /\ (unsent q' = [] -> h_blocks (heap s') base)).
Proof.
  intros Hw Hf. revert q s Hw. induction Hf as [|ev evs Hev Hf IH]; intros q s Hw; cbn [history].
  - apply wp_ret. exists q. split; [done|]. rewrite app_nil_r. split; [done|]. apply sends_memory, Hw.
  - apply wp_bind. eapply wp_mono; [by apply (happen_works _ base q)|]. cbv beta. intros a s1 (q1 & Hw1 & H1').
    apply wp_bind. eapply wp_mono; [by apply (IH q1)|]. cbv beta. intros b s2 (q2 & Hw2 & H2' & Hm). apply wp_ret. exists q2.
    split; [done|]. split; [|done]. by rewrite H2', !app_assoc, H1', !app_assoc.
Qed.

(** ** The messages get sent *)

(** [n] times: the device makes room, and its interrupt is served. *)
Fixpoint rounds (n : nat) (f : D -> D) (l : line) (flag : Z) : M (uart E D W) unit :=
  match n with
  | O => mret tt
  | Datatypes.S n => modify (fun s => with_dev (f (dev s)) s) ;; handler l flag ;; rounds n f l flag
  end.

(** C31. If the device always makes room in its transmit FIFO and then raises
    a transmit interrupt, then as many interrupts as there are bytes waiting
    are enough: all of them have been sent, in order, no message is left, and
    all the memory has been given back. *)
Theorem uart_drains n f l flag base q s :
  works base q s -> (length (unsent q) <= n)%nat ->
  (forall d, tx_log (f d) = tx_log d /\ tx_cnt (f d) <= tx_cnt d) ->
  (forall d, tx_cnt (f d) < 16 /\ fst (reg_read UR_INTS (f d)) &&& UART_TX_INT_FLAG <> 0) ->
  wp (rounds n f l flag) s (fun _ s' => tx_log (dev s') = tx_log (dev s) ++ unsent q /\ h_blocks (heap s') base /\ works base [] s').
Proof.
  intros Hw Hn Hf Hroom. revert q s Hw Hn. induction n as [|n IH]; intros q s Hw Hn; cbn [rounds].
  - assert (Hu : unsent q = []) by by apply length_zero_iff_nil; lia. apply wp_ret. rewrite Hu, app_nil_r. split; [done|].
    split; [by eapply sends_memory; [apply Hw|]|]. by rewrite (unsent_nil base q s) in Hw by (done || apply Hw).
  - apply wp_bind, wp_modify, wp_bind. set (s1 := with_dev _ _). destruct (Hf (dev s)) as [Ht Hc]. destruct (Hroom (dev s)) as [Hroom1 Hint].
    assert (Hw1 : works base q s1) by (destruct Hw; split; [done|by eapply sends_same]).
    eapply wp_mono; [by apply (handler_works l flag base q s1)|]. cbv beta. intros _ s2 (k & q2 & Hw2 & Ht2 & Hu2 & Hpr).
    eapply wp_mono; [apply (IH q2); [done|]|].
    + destruct (decide (unsent q = [])) as [He|He]; [rewrite He in Hu2; symmetry in Hu2; apply app_eq_nil in Hu2 as [_ ->]; cbn; lia|].
      assert (Hk : k <> []) by by apply Hpr. rewrite Hu2, length_app in Hn. destruct k; [done|]. cbn in Hn. lia.
    + cbv beta. intros _ s3 (Ht3 & Hm3 & Hw3). split; [|done]. rewrite Ht3, Ht2, Hu2, <- app_assoc. cbn. by rewrite Ht.
Qed.
End history.
