(* ===== verification/UartRecv.v ===== *)
(** * Receiving: what the client gets

    The receive interrupt and [tls_uart_read] share a ring without a lock.
    Port 0 and its reader are a single producer and a single consumer; the
    other ports' handlers also drop old bytes, which is a second writer of
    the tail. *)
From S2P Require Import Prelude CMonad Keeps DlList HostEnv Uart UartRing UartTx UartRx UartIrq UartRead UartProps.

Section recv.
Context {E D W : Type} `{HostLaws E} `{!HostBlocks E} `{UartRegsLaws D} `{UartClient W} `{!UartMem} `{!UartMemLaws E}.
Implicit Types s : uart E D W.

(** ** The queue of port 0 *)

(** C35. The handler of port 0 appends to what the client will read, and on a
    line error nothing.  Without flow control it appends everything that it
    takes out of the FIFO, but for the last byte if the ring holds 509 bytes
    or more.  With hardware flow control it appends that one too: every
    interrupt stores one more byte in a nearly full ring, and the byte that
    finds 511 makes the whole ring vanish. *)
Theorem uart0_appends flag base q s :
  works base q s ->
  wp (UART0_IRQHandler flag) s (fun _ s' => let c := content (recv (prt s)) in exists popped kept,
    rx_log (dev s') = rx_log (dev s) ++ popped /\
    if rx_err (fst (reg_read UR_INTS (dev s))) then kept = [] /\ content (recv (prt s')) = c
    else if decide (fcStatus (prt s) = TLS_UART_FLOW_CTRL_HARDWARE) then
      popped = kept /\ (509 <= zlen c -> (length kept <= 1)%nat) /\
      content (recv (prt s')) = if decide (zlen c = 511 /\ kept <> []) then [] else c ++ kept
    else content (recv (prt s')) = c ++ kept /\
      (popped = kept \/ exists b, popped = kept ++ [b] /\ 509 <= zlen (content (recv (prt s'))))).
Proof.
  intros [Hr Hs]. eapply wp_mono; [by apply uart0_handled|]. cbv beta zeta.
  intros _ s' (k & q' & popped & Hs' & _ & _ & Hrx & _ & (n & kept & Hb & Hc & Ht) & _). exists popped, kept.
  rewrite Hc. split; [done|]. unfold uart0_took, flow in Ht. destruct (rx_err _); [by destruct Ht as [-> _]|].
  destruct (Z.eqb_spec (fcStatus (prt s)) TLS_UART_FLOW_CTRL_HARDWARE) as [Hf|Hf].
  - rewrite decide_True by done. destruct Ht as (-> & Hl & Hc'). split; [done|]. split; [|done]. intros Hfull. rewrite Hl by done. lia.
  - rewrite decide_False by done. destruct Ht as [Hc' Ht]. split; [done|]. rewrite Hc'. destruct Ht as [[-> _]|Ht]; [by left|by right].
Qed.

(** ** Port 1 *)

(** C18. The receive interrupt of port 1 keeps the ring a queue: if less than
    129 places are free the 128 oldest bytes are dropped, then everything
    taken out of the FIFO is appended, or on a line error nothing.  Afterwards
    [plus_char_cnt] is 3 or 0, and 3 exactly if the packet was [+++] - except
    when the head has just come round to the start of the ring, where two
    bytes in front of the block decide. *)
Theorem uart1_packet_and_escape flag src s :
  ring_ok (recv (prt s)) ->
  wp (uart1_irq_rx flag src) s (fun _ s' => exists popped,
    rx_log (dev s') = rx_log (dev s) ++ popped /\ ring_ok (recv (prt s')) /\
    if due src s then
      content (recv (prt s')) = room_made (content (recv (prt s))) ++ (if rx_err src then [] else popped) /\
      (plus_char_cnt (prt s') = 0 \/ plus_char_cnt (prt s') = 3) /\
      (rx_err src = false -> head (recv (prt s')) <> 0 -> (plus_char_cnt (prt s') = 3 <-> popped = [PLUS; PLUS; PLUS])) /\
      (rx_err src = false -> head (recv (prt s')) = 0 -> popped = [PLUS; PLUS; PLUS] ->
        exists a l, buf (recv (prt s')) = Some (a, l) /\
        (plus_char_cnt (prt s') = 3 <-> before_block a 2 = PLUS /\ before_block a 3 = PLUS))
    else popped = [] /\ prt s' = prt s).
Proof.
  intros Hr. eapply wp_mono; [by apply uart1_irq_rx_spec|]. cbv beta. intros _ s' (popped & Hlog & Hb & Hn & Hno & Hp).
  exists popped. split; [done|]. destruct (due src s); [|rewrite Hp; split; [done|]; split; [by apply Hno|done]].
  assert (Hrel : ring_ok (relieved (recv (prt s)))) by by apply relieved_ok.
  set (c := stores (if rx_err src then [] else popped) (relieved (recv (prt s)))) in *.
  assert (Hrc : recv (prt s') = c) by by rewrite Hp.
  assert (Hcok : ring_ok c) by (apply stores_ok; [done|by destruct (rx_err src)]).
  assert (Hcc : content c = room_made (content (recv (prt s))) ++ (if rx_err src then [] else popped)).
  { unfold c. rewrite stores_content, relieved_content; [done|done|done|by destruct (rx_err src)|].
    rewrite relieved_content by done. pose proof (room_made_short (content (recv (prt s))) ltac:(apply content_bound)).
    destruct (rx_err src); cbn [length]; lia. }
  assert (Hplus : plus_char_cnt (prt s') = if (zlen popped =? 3) && (last_byte popped =? PLUS) && escape_seen c then 3 else 0) by by rewrite Hp.
  rewrite Hrc, Hplus. split; [done|]. split; [done|]. split; [destruct (_ && _); auto|]. clear Hp Hplus Hrc.
  split; intros He; rewrite He in Hcc.
  - intros Hz. destruct Hcok as [(a & l & Hba & Hl & Hlb) Hh Ht]. assert (Hback : forall k, ring_back c k = byte_at (bytes_of_block c) ((head c - k) mod 512)).
    { intros k. unfold ring_back, bytes_of_block. rewrite Hba. by rewrite (proj2 (Z.eqb_neq _ _)). }
    assert (Hcok : ring_ok c) by (split; [by eexists _, _|done|done]).
    unfold escape_seen. rewrite !Hback. destruct (Z.eqb_spec (zlen popped) 3) as [Hl3|Hl3]; cbn [andb].
    2: { split; [done|]. intros ->. done. }
    rewrite !(content_last c _ popped) by (done || lia). rewrite Hl3.
    destruct popped as [|x [|y [|z [|? ?]]]]; cbn in Hl3; try lia. change (last_byte [x; y; z]) with z.
    change (byte_at [x; y; z] (3 - 2)) with y. change (byte_at [x; y; z] (3 - 3)) with x.
    destruct (Z.eqb_spec z PLUS), (Z.eqb_spec y PLUS), (Z.eqb_spec x PLUS); cbn [andb]; split; try done; congruence.
  - intros Hz ->. destruct Hcok as [(a & l & Hba & _) _ _]. exists a, l. split; [done|]. unfold escape_seen, ring_back. rewrite Hba, Hz. cbn.
    destruct (Z.eqb_spec (before_block a 2) PLUS), (Z.eqb_spec (before_block a 3) PLUS); cbn [andb]; split; try done; tauto.
Qed.

(** ** The reader and the interrupt *)

(** C17. Port 0 without hardware flow control.  However many interrupts of the
    port come in before and after the copy, [tls_uart_read] returns the oldest
    bytes in the order they came, as many as asked for or all that were there,
    and the ring goes on with exactly what follows: nothing that was in it is
    lost, nothing read twice.  (With hardware flow control the interrupt
    empties a full ring: [uart0_appends].) *)
Theorem uart0_read_is_a_queue before after base data readsize q s :
  works base q s -> fcStatus (prt s) <> TLS_UART_FLOW_CTRL_HARDWARE -> data <> 0 -> 1 <= readsize ->
  wp (read_with (irqs UART0_IRQHandler before) (irqs UART0_IRQHandler after) data readsize) s (fun r s' => exists arrived,
    r.2 = take (Z.to_nat readsize) (content (recv (prt s))) /\ r.1 = zlen r.2 /\ ring_ok (recv (prt s')) /\
    r.2 ++ content (recv (prt s')) = content (recv (prt s)) ++ arrived).
Proof.
  intros [Hr Hs] Hf Hd Hn. apply (appends_read _ _ data readsize (idle0 base)); [intros; by apply irqs_append..| |done|done|done].
  split; [by exists q|]. by apply Z.eqb_neq.
Qed.

(** C36. On port 1 the interrupt that comes between the copy and the new tail
    breaks the ring: when the client reads everything there is, 383 bytes or
    more, then besides the bytes that have just arrived, 384 old ones will be
    read as new. *)
Theorem uart1_read_race flag base data readsize q s :
  works base q s -> data <> 0 -> 383 <= zlen (content (recv (prt s))) <= readsize -> rx_err (fst (reg_read UR_INTS (dev s))) = false ->
  wp (read_with (mret tt) (UART1_IRQHandler flag) data readsize) s (fun r s' =>
    r.2 = content (recv (prt s)) /\ exists popped, rx_log (dev s') = rx_log (dev s) ++ popped /\
    (popped <> [] -> zlen (content (recv (prt s'))) = 384 + zlen popped)).
Proof.
  intros [Hr Hs] Hd Hn He. unfold read_with. rewrite (proj2 (Z.eqb_neq _ _)), (proj2 (Z.ltb_ge _ _)) by (done || lia). cbn [orb].
  apply wp_bind, read_count_spec. rewrite Z.min_r by lia. apply wp_bind, wp_ret, wp_bind, read_copy_spec; [done|].
  rewrite copied_content by (done || lia). rewrite Nat2Z.id, firstn_all. apply wp_bind.
  eapply wp_mono; [by apply uart1_handled|]. cbv beta zeta.
  intros _ s1 (k & q' & popped & Hs1 & _ & _ & Hrx & _ & (Hb & Hp & Hc) & _). apply wp_bind, read_advance_spec, wp_ret.
  split; [done|]. exists popped. split; [done|]. intros Hne. destruct Hc as [[_ ->]|Hc]; [done|]. rewrite He in Hc.
  change (recv (prt (with_prt (set_recv ?c ?p) s1))) with c. rewrite Hc. apply relieved_behind; try done. lia.
Qed.
End recv.
