(* ===== verification/UartInit.v ===== *)
(** * Setting up a UART port

    The baud rate divisor, the options, and that a port that has been
    initialised is one that works. *)
From S2P Require Import Prelude CMonad Keeps DlList HostEnv Uart UartRing UartTx UartRx UartIrq UartRead UartProps.

(** ** The divisor *)

Lemma lor_fields a f : 0 <= a < 2 ^ 16 -> a ||| (f ≪ 16) = a + f * 2 ^ 16.
Proof.
  intros Ha. rewrite Z.shiftl_mul_pow2 by lia. rewrite Z.add_nocarry_lxor; [symmetry; apply Z.lxor_lor|];
    apply Z.bits_inj'; intros n Hn; rewrite Z.land_spec, Z.bits_0, (Z.mul_comm f), Z.mul_comm.
  all: destruct (Z.lt_ge_cases n 16);
    [rewrite Z.mul_pow2_bits_low by lia; apply andb_false_r|rewrite (Z.bits_above_log2 a), andb_false_l; [done|lia|]].
  all: destruct (Z.eq_dec a 0) as [->|]; [cbn; lia|]; apply Z.log2_lt_pow2; [lia|];
    apply Z.lt_le_trans with (2 ^ 16); [lia|apply Z.pow_le_mono_r; lia].
Qed.

(** C38. For every rate of the table and every bus clock up to 240 MHz that is
    at least sixteen times the rate, the divisor register gets the exact
    number of clock sixteenths: sixteen times (whole part + 1) plus the
    fraction is the clock divided by the rate.  With a slower clock the whole
    part wraps around to its largest value. *)
Theorem baud_divisor_exact mhz b :
  In b baud_rates -> 0 < mhz <= 240 ->
  let v := baud_value (u32 (mhz * 1000000)) b in
  if 16 * b <=? mhz * 1000000 then 0 <= v ≫ 16 < 16 /\ 16 * ((v &&& 0xFFFF) + 1) + (v ≫ 16) = mhz * 1000000 / b
  else v &&& 0xFFFF = 0xFFFF.
Proof.
  intros Hb Hm v. assert (Hrange : 600 <= b <= 2000000) by (cbn in Hb; lia). set (A := mhz * 1000000) in *.
  assert (HA : 0 < A < 2 ^ 28) by (unfold A; lia).
  assert (Hmod : 0 <= A mod (b * 16) < b * 16) by (apply Z.mod_pos_bound; lia).
  assert (Hf : 0 <= A mod (b * 16) / b < 16) by (split; [apply Z.div_pos; lia|apply Z.div_lt_upper_bound; lia]).
  assert (Hv : v = u32 (A / (16 * b) - 1) ||| (((A mod (b * 16)) / b) ≪ 16)).
  { unfold v, baud_value. rewrite (wrap_id 32 A), (wrap_id 32 (16 * b)), (wrap_id 32 (b * 16)), (wrap_id 32 (_ * 16)) by lia.
    rewrite Z.div_mul_cancel_r by lia. f_equal. apply wrap_id. rewrite Z.shiftl_mul_pow2 by lia.
    lia. }
  destruct (Z.leb_spec (16 * b) A) as [Hfast|Hslow].
  - assert (Hq : 0 <= A / (16 * b) - 1 < 2 ^ 16).
    { assert (1 <= A / (16 * b)) by (apply Z.div_le_lower_bound; lia). assert (A / (16 * b) < 2 ^ 16) by (apply Z.div_lt_upper_bound; lia). lia. }
    rewrite wrap_id in Hv by lia. rewrite lor_fields in Hv by done.
    assert (Hs : v ≫ 16 = A mod (b * 16) / b) by (rewrite Hv, Z.shiftr_div_pow2, Z.div_add, Z.div_small by lia; lia).
    assert (Hl : v &&& 0xFFFF = A / (16 * b) - 1) by (change 0xFFFF with (Z.ones 16); rewrite Z.land_ones by lia; rewrite Hv, Z.mod_add, Z.mod_small by lia; done).
    rewrite Hs, Hl. split; [done|]. rewrite (Z.mul_comm 16 b) in *.
    pose proof (Z.div_mod A (b * 16) ltac:(lia)) as Hdm. apply Z.div_unique with (A mod (b * 16) mod b); [left; apply Z.mod_pos_bound; lia|].
    pose proof (Z.div_mod (A mod (b * 16)) b ltac:(lia)). nia.
  - assert (Hz : A / (16 * b) = 0) by (apply Z.div_small; lia). rewrite Hz in Hv. change (u32 (0 - 1)) with (Z.ones 32) in Hv.
    rewrite Hv, Z.land_lor_distr_l. change 0xFFFF with (Z.ones 16). rewrite (Z.land_ones (_ ≪ 16)) by lia.
    rewrite Z.shiftl_mul_pow2, Z.mod_mul by lia. done.
Qed.

(** ** The port *)

Section init.
Context {E D W : Type} `{HostLaws E} `{!HostBlocks E} `{UartRegsLaws D} `{UartClient W} `{!UartMem} `{!UartMemLaws E}.
Implicit Types s : uart E D W.

(** Settings change registers and options alone, and send nothing. *)
Definition set_keep s s' : Prop :=
  (heap s' = heap s /\ lnk s' = lnk s /\ msgs s' = msgs s) /\ tx_log (dev s') = tx_log (dev s) /\ tx_cnt (dev s') <= tx_cnt (dev s) /\
  set_opts (fun _ => default_options) (prt s') = set_opts (fun _ => default_options) (prt s).

#[global] Instance set_keep_preorder : PreOrder set_keep.
Proof using.
  split; [intros s; by repeat split|]. intros s1 s2 s3 ((E1 & E2 & E3) & E4 & E5 & E6) ((F1 & F2 & F3) & F4 & F5 & F6).
  split; [split; [|split]; congruence|]. split; [congruence|]. split; [lia|congruence].
Qed.

Lemma wr_set_keeps r v : r <> UR_TXW -> keeps set_keep (wr r v).
Proof using. intros Hr. apply keeps_modify. intros s. repeat split; [by apply write_tx_log|by apply write_tx_cnt]. Qed.
Lemma rd_set_keeps r : keeps set_keep (rd r).
Proof using.
  intros s a s'. unfold rd, zoom. destruct (reg_read r (dev s)) as [v d] eqn:Er. intros [= <- <-].
  pose proof (read_tx_log r (dev s)) as Ht. pose proof (read_tx_cnt r (dev s)) as Hc. rewrite Er in Ht, Hc. by repeat split.
Qed.
Lemma set_opts_keeps f : keeps set_keep (set_prt (set_opts f)).
Proof using. apply keeps_modify. intros s. by repeat split. Qed.
Lemma upd_set_keeps r f : r <> UR_TXW -> keeps set_keep (upd_reg r f).
Proof using. intros Hr. apply keeps_bind; [exact _|apply rd_set_keeps|]. intros v. by apply wr_set_keeps. Qed.
Hint Resolve set_opts_keeps : keeps.
Hint Extern 1 (keeps set_keep (wr _ _)) => apply wr_set_keeps; discriminate : keeps.
Hint Extern 1 (keeps set_keep (upd_reg _ _)) => apply upd_set_keeps; discriminate : keeps.

Lemma baud_keeps mhz b : keeps set_keep (tls_uart_set_baud_rate_inside mhz b).
Proof using. unfold tls_uart_set_baud_rate_inside. keep. Qed.
Lemma parity_keeps p : keeps set_keep (tls_uart_set_parity_inside p).
Proof using. unfold tls_uart_set_parity_inside. keep. Qed.
Lemma data_bits_keeps n : keeps set_keep (tls_uart_set_data_bits n).
Proof using. unfold tls_uart_set_data_bits. keep. Qed.
Lemma stop_bits_keeps n : keeps set_keep (tls_uart_set_stop_bits_inside n).
Proof using. unfold tls_uart_set_stop_bits_inside. keep. Qed.
Lemma flow_ctrl_keeps fc : keeps set_keep (tls_uart_set_flow_ctrl fc).
Proof using. unfold tls_uart_set_flow_ctrl. keep. Qed.
Hint Resolve baud_keeps parity_keeps data_bits_keeps stop_bits_keeps flow_ctrl_keeps : keeps.
Lemma config_keeps mhz o : keeps set_keep (tls_uart_config mhz o).
Proof using. unfold tls_uart_config. keep. Qed.
Lemma reg_init_keeps mhz no : keeps set_keep (UartRegInit mhz no).
Proof using. unfold UartRegInit. keep. Qed.
Lemma mode_keeps no mode : keeps set_keep (port_mode no mode).
Proof using. unfold port_mode. keep. Qed.

(** The options afterwards, of each of the settings. *)
Definition opts_by (f : uart_options -> uart_options) {A} (m : M (uart E D W) A) : Prop :=
  forall s, wp m s (fun _ s' => opts (prt s') = f (opts (prt s))).

Lemma opts_by_id {A} (m : M (uart E D W) A) f : (forall o, f o = o) -> (forall s, wp m s (fun _ s' => prt s' = prt s)) -> opts_by f m.
Proof using. intros Hf Hm s. eapply wp_mono; [apply Hm|]. cbv beta. intros _ s' ->. by rewrite Hf. Qed.

Lemma upd_prt r f s : wp (upd_reg r f) s (fun _ s' => prt s' = prt s).
Proof using. by apply wp_bind, rd_spec, wp_modify. Qed.

Lemma opts_set f {A} (m : M (uart E D W) A) : (forall s, wp m s (fun _ s' => prt s' = prt s)) -> opts_by f (set_prt (set_opts f) ;; m).
Proof using. intros Hm s. apply wp_bind, wp_modify. eapply wp_mono; [apply Hm|]. cbv beta. by intros _ s' ->. Qed.

Lemma baud_opts mhz b : opts_by
  (fun o => if tls_uart_check_baudrate b <? 0 then o else Options b (charlength o) (paritytype o) (flow_ctrl o) (stopbits o))
  (tls_uart_set_baud_rate_inside mhz b).
Proof using. intros s. unfold tls_uart_set_baud_rate_inside. destruct (_ <? 0); [done|]. by apply wp_bind, wp_modify, wp_bind, wp_modify. Qed.
Lemma parity_opts p : opts_by (fun o => Options (baudrate o) (charlength o) p (flow_ctrl o) (stopbits o)) (tls_uart_set_parity_inside p).
Proof using.
  apply opts_set. intros s. destruct (p =? _); [|destruct (p =? _); [|destruct (p =? _); [|by apply wp_ret]]]; apply wp_bind.
  - eapply wp_mono; [apply upd_prt|]. cbv beta. by intros _ s1 Hp.
  - eapply wp_mono; [apply upd_prt|]. cbv beta. intros _ s1 Hp. apply wp_bind. eapply wp_mono; [apply upd_prt|]. cbv beta. intros _ s2 Hp2. apply wp_ret. congruence.
  - eapply wp_mono; [apply upd_prt|]. cbv beta. intros _ s1 Hp. apply wp_bind. eapply wp_mono; [apply upd_prt|]. cbv beta. intros _ s2 Hp2. apply wp_ret. congruence.
Qed.
Lemma data_bits_opts n : opts_by (fun o => Options (baudrate o) n (paritytype o) (flow_ctrl o) (stopbits o)) (tls_uart_set_data_bits n).
Proof using.
  apply opts_set. intros s. apply wp_bind. eapply wp_mono; [apply upd_prt|]. cbv beta. intros _ s1 Hp. destruct (_ && _); [|by apply wp_ret].
  apply wp_bind. eapply wp_mono; [apply upd_prt|]. cbv beta. intros _ s2 Hp2. apply wp_ret. congruence.
Qed.
Lemma stop_bits_opts n : opts_by (fun o => Options (baudrate o) (charlength o) (paritytype o) (flow_ctrl o) n) (tls_uart_set_stop_bits_inside n).
Proof using.
  apply opts_set. intros s. apply wp_bind. destruct (_ =? _); (eapply wp_mono; [apply upd_prt|]); cbv beta; by intros _ s1 Hp.
Qed.
Lemma flow_ctrl_opts fc : opts_by (fun o => o) (tls_uart_set_flow_ctrl fc).
Proof using.
  apply opts_by_id; [done|]. intros s. unfold tls_uart_set_flow_ctrl. destruct (fc =? _); [by apply wp_bind, wp_modify, wp_ret|].
  destruct (fc =? _); [|by apply wp_ret]. apply wp_bind, wp_gets, wp_bind. by destruct (_ =? _).
Qed.

(** What a call of [tls_uart_config] makes of the options. *)
Definition configured (o old : uart_options) : uart_options :=
  Options (if tls_uart_check_baudrate (baudrate o) <? 0 then baudrate old else baudrate o)
    (charlength o) (paritytype o) (flow_ctrl o) (stopbits o).

Lemma config_spec mhz o s :
  wp (tls_uart_config mhz o) s (fun r s' => (r = WM_SUCCESS /\ opts (prt s') = configured o (opts (prt s))) /\ set_keep s s').
Proof using.
  apply (wp_keeps set_keep); [apply config_keeps|]. unfold tls_uart_config.
  apply wp_bind. eapply wp_mono; [apply baud_opts|]. cbv beta. intros _ s1 E1.
  apply wp_bind. eapply wp_mono; [apply parity_opts|]. cbv beta. intros _ s2 E2.
  apply wp_bind. eapply wp_mono; [apply data_bits_opts|]. cbv beta. intros _ s3 E3.
  apply wp_bind. eapply wp_mono; [apply stop_bits_opts|]. cbv beta. intros _ s4 E4.
  apply wp_bind, wp_modify, wp_bind. eapply wp_mono; [apply flow_ctrl_opts|]. cbv beta. intros _ s5 E5.
  do 4 (apply wp_bind, wp_modify). apply wp_bind. eapply wp_mono; [apply upd_prt|]. cbv beta. intros _ s6 E6.
  apply wp_bind. eapply wp_mono; [apply upd_prt|]. cbv beta. intros _ s7 E7. apply wp_ret. split; [done|].
  rewrite E7, E6. cbn. rewrite E5. cbn. rewrite E4, E3, E2, E1. unfold configured. by destruct (_ <? 0).
Qed.

Lemma reg_init_spec mhz no s : wp (UartRegInit mhz no) s (fun _ s' => prt s' = prt s /\ set_keep s s').
Proof using.
  apply (wp_keeps set_keep); [apply reg_init_keeps|]. unfold UartRegInit. destruct (no =? 0); repeat (apply wp_bind, wp_modify); by apply wp_modify.
Qed.

Lemma mode_spec no mode s : wp (port_mode no mode) s (fun _ s' => prt s' = prt s /\ set_keep s s').
Proof using.
  apply (wp_keeps set_keep); [apply mode_keeps|]. unfold port_mode. destruct (no =? _); [|by apply wp_ret]. destruct (mode =? 1); apply upd_prt.
Qed.

(** The two empty lists. *)
Lemma heads_spec no s (Q : unit -> uart E D W -> Prop) :
  (forall l, DlList.dll l (pending_head no) [] -> DlList.dll l (freed_head no) [] ->
    Q tt (Uart (heap s) (world s) (dev s) (prt s) l (msgs s))) ->
  wp (set_lnk (fun m => <[pending_head no := DlList.Node 0 0]> (<[freed_head no := DlList.Node 0 0]> m)) ;;
      on_lnk (DlList.dl_list_init (pending_head no)) ;;
      on_lnk (DlList.dl_list_init (freed_head no))) s Q.
Proof using UartMemLaws0.
  intros HQ. apply wp_bind, wp_modify, wp_bind, on_lnk_spec. cbn.
  eapply wp_mono; [apply DlList.dl_list_init_spec; eexists; apply lookup_insert_eq|]. cbv beta. intros [] l1 [Hd1 Ho1]. cbn.
  apply on_lnk_spec. cbn.
  assert (Hf : is_Some (l1 !! freed_head no)).
  { rewrite (Ho1 (freed_head no)) by (intros E'%list_elem_of_singleton; by apply (heads_differ no)).
    rewrite lookup_insert_ne by apply heads_differ. eexists. apply lookup_insert_eq. }
  eapply wp_mono; [by apply DlList.dl_list_init_spec|]. cbv beta. intros [] l2 [Hd2 Ho2]. apply HQ; [|done].
  eapply dll_apart; [exact Hd1|exact Ho2|]. intros x ->%list_elem_of_singleton E'%list_elem_of_singleton. by apply (heads_differ no).
Qed.

(** The blocks in use but for the old ring. *)
Definition without_ring (p : port) (B : gset Z) : gset Z := match buf (recv p) with Some (a, _) => B ∖ {[a]} | None => B end.

Lemma port_ring_spec no base s :
  h_blocks (heap s) base -> uart_no (prt s) = no -> tx_cnt (dev s) <= 16 ->
  wp (port_ring no) s (fun r s' => dev s' = dev s /\ opts (prt s') = opts (prt s) /\ uart_no (prt s') = no /\
        (r = WM_FAILED /\ recv (prt s') = recv (prt s) /\ h_blocks (heap s') base \/
         r = WM_SUCCESS /\ content (recv (prt s')) = [] /\ exists a, a ∉ base /\ works ({[a]} ∪ base) [] s')).
Proof using H0 HostBlocks0 UartMemLaws0.
  intros Hheap Hno Hcnt. apply wp_bind, wp_modify, wp_bind, wp_zoom. cbn [heap].
  assert (Hsz : 0 < TLS_UART_RX_BUF_SIZE < 2 ^ 31) by done. destruct (h_alloc TLS_UART_RX_BUF_SIZE (heap s)) as [[[a l]|] e] eqn:Ea.
  2: { apply (h_alloc_none _ _ _ _ Hsz Hheap) in Ea. apply wp_ret. cbn. do 3 (split; [done|]). by left. }
  apply (h_alloc_some _ _ _ _ _ _ Hsz Hheap) in Ea as [Hfresh Hheap']. cbv beta iota.
  apply wp_bind, wp_modify, wp_bind, wp_modify. apply (wp_same _ ((set_lnk (fun m => <[pending_head no := DlList.Node 0 0]> (<[freed_head no := DlList.Node 0 0]> m)) ;;
      on_lnk (DlList.dl_list_init (pending_head no)) ;; on_lnk (DlList.dl_list_init (freed_head no))) ;; set_prt (set_tx_callback Free_tx_sent_data) ;; mret WM_SUCCESS)).
  { unfold set_lnk, on_lnk, zoom, mbind, M_bind, modify. cbn. destruct (DlList.dl_list_init _ _) as [[? ?]|]; [|done]. by destruct (DlList.dl_list_init _ _) as [[? ?]|]. }
  apply wp_bind, heads_spec. intros l' Hp Hf. apply wp_bind, wp_modify, wp_ret. cbn. do 3 (split; [done|]). right. split; [done|].
  split; [done|]. exists a. split; [done|]. split.
  - split; cbn; [|lia|lia]. eexists _, _. split; [done|]. split; [done|]. apply Forall_replicate. unfold byte_ok. lia.
  - split; cbn; [|done|done|constructor]. split; cbn; rewrite ?Hno; try done.
    + intros x ->%list_elem_of_singleton E'%list_elem_of_singleton. by apply (heads_differ no).
    + constructor.
    + intros x _ Hx. by apply not_elem_of_nil in Hx.
    + by rewrite union_empty_r_L.
Qed.

(** What is left of a call, from a cleared port on. *)
Definition initialised base (o : option uart_options) no (l : list Z) (r : Z) s' : Prop :=
  tx_log (dev s') = l /\ uart_no (prt s') = no /\ opts (prt s') = configured (default default_options o) (Options 0 0 0 0 0) /\
  (r = WM_FAILED /\ buf (recv (prt s')) = None /\ h_blocks (heap s') base \/
   r = WM_SUCCESS /\ content (recv (prt s')) = [] /\ exists a, a ∉ base /\ works ({[a]} ∪ base) [] s').

Lemma port_setup_spec mhz no o mode base s :
  h_blocks (heap s) base -> tx_cnt (dev s) <= 16 -> wp (port_setup mhz no o mode) s (initialised base o no (tx_log (dev s))).
Proof using H0 HostBlocks0 H2 UartMemLaws0.
  intros He Hcnt. apply wp_bind, wp_modify, wp_bind. eapply wp_mono; [apply mode_spec|]. cbv beta. cbn.
  intros _ s2 [Hp2 ((Hh2 & _ & _) & Ht2 & Hc2 & _)]. cbn in *. apply wp_bind. eapply wp_mono; [apply config_spec|]. cbv beta.
  intros r s3 [[-> Ho3] ((Hh3 & _ & _) & Ht3 & Hc3 & Hp3)]. cbn [Z.eqb negb WM_SUCCESS]. rewrite Hp2 in *.
  eapply wp_mono; [apply (port_ring_spec no base); [by rewrite Hh3, Hh2|exact (f_equal uart_no Hp3)|lia]|]. cbv beta zeta.
  intros r s4 (Hd4 & Ho4 & Hn4 & Hres). unfold initialised. rewrite Hd4, Ht3, Ht2. split; [done|]. split; [done|].
  split; [rewrite Ho4, Ho3; done|]. destruct Hres as [(-> & Hrc & Hb)|Hok]; [left|by right]. split; [done|]. split; [|done].
  rewrite Hrc. exact (f_equal (fun p => buf (recv p)) Hp3).
Qed.

(** C32. [tls_uart_port_init] gives back the ring the port had and, if there is
    memory for a new one, leaves a port that works, with nothing received and
    nothing to be sent; otherwise it fails and the port has no ring.  It
    succeeds whatever the options say: a baud rate that is not in the table
    is passed over and the port says its rate is 0. *)
Theorem uart_init_works mhz no o mode B s :
  h_blocks (heap s) B -> (forall a l, buf (recv (prt s)) = Some (a, l) -> a ∈ B) -> tx_cnt (dev s) <= 16 ->
  wp (port_init mhz no o mode) s (fun r s' => let base := without_ring (prt s) B in
    tx_log (dev s') = tx_log (dev s) /\ uart_no (prt s') = no /\
    opts (prt s') = configured (default default_options o) (Options 0 0 0 0 0) /\
    (r = WM_FAILED /\ buf (recv (prt s')) = None /\ h_blocks (heap s') base \/
     r = WM_SUCCESS /\ content (recv (prt s')) = [] /\ exists a, a ∉ base /\ works ({[a]} ∪ base) [] s')).
Proof.
  intros Hheap Hring Hcnt. apply wp_bind. eapply wp_mono; [apply reg_init_spec|]. cbv beta. intros _ s1 [Hp1 ((Hh1 & _ & _) & Ht1 & Hc1 & _)].
  apply wp_bind, wp_gets, wp_bind. cbv zeta. rewrite <- Ht1, Hp1. unfold without_ring.
  destruct (buf (recv (prt s))) as [[a l]|] eqn:Eb.
  - apply wp_modify. apply (port_setup_spec mhz no o mode (B ∖ {[a]}) (Uart (h_free a (heap s1)) (world s1) (dev s1) (prt s1) (lnk s1) (msgs s1))); [|cbn; lia]. cbn. rewrite Hh1. apply h_free_blocks; [done|by eapply Hring].
  - apply wp_ret. apply (port_setup_spec mhz no o mode B); [by rewrite Hh1|lia].
Qed.
End init.
