(* ===== verification/UartBoard.v ===== *)
(** * The six ports

    The ports share the heap, the memory of the list nodes and messages, and
    an interrupt: that of ports 2 to 5 is one line, and its handler has to
    find out which of them it is for. *)
From S2P Require Import Prelude CMonad Keeps DlList HostEnv Uart UartRing UartTx UartRx UartIrq UartRead UartProps UartInit.

(** [uart_port] with the registers of each, [uart_rx_byte_cb_flag], and which
    interrupts the controller passes on. *)
Record board (E D W : Type) := Board {
  b_heap : E;
  b_world : W;
  uart_port : list (port * D);
  b_lnk : gmap Z DlList.node;
  b_msgs : gmap Z tx_msg;
  uart_rx_byte_cb_flag : list Z;
  irq_on : gset Z
}.
Arguments Board {E D W}.
Arguments b_heap {E D W}.
Arguments b_world {E D W}.
Arguments uart_port {E D W}.
Arguments b_lnk {E D W}.
Arguments b_msgs {E D W}.
Arguments uart_rx_byte_cb_flag {E D W}.
Arguments irq_on {E D W}.

Definition UART0_IRQn : Z := 16.
Definition UART24_IRQn : Z := 19.
(** [port->uart_irq_no] of a port. *)
Definition irq_no (no : Z) : Z := if no <? TLS_UART_2 then UART0_IRQn + no else UART24_IRQn.

Section board_ops.
Context {E D W : Type} `{Host E} `{UartRegs D} `{UartClient W} `{UartMem}.
Abbreviation bd := (board E D W).

(** [uart_port[i]]; there is nothing behind the last one. *)
Definition port_at (i : Z) (b : bd) : option (port * D) := if (0 <=? i) then uart_port b !! Z.to_nat i else None.
Definition view (pd : port * D) (b : bd) : uart E D W := Uart (b_heap b) (b_world b) (snd pd) (fst pd) (b_lnk b) (b_msgs b).
Definition unview (i : Z) (s : uart E D W) (b : bd) : bd :=
  Board (heap s) (world s) (<[Z.to_nat i := (prt s, dev s)]> (uart_port b)) (lnk s) (msgs s) (uart_rx_byte_cb_flag b) (irq_on b).

(** Code on one of the ports. *)
Definition on_port {A} (i : Z) (m : M (uart E D W) A) : M bd A := fun b =>
  pd ← port_at i b;
  match m (view pd b) with
  | Some (a, s) => Some (a, unview i s b)
  | None => None
  end.

(** The registers are at fixed addresses, also of a port that is not set up;
    [n] is how many ports are left. *)
Fixpoint find_int_uart (n : nat) (i : Z) : M bd Z :=
  match n with
  | O => mret i
  | Datatypes.S n =>
      regValue ← on_port i (rd UR_INTS);
      if negb (regValue &&& 0x1FF =? 0) then mret i else find_int_uart n (i + 1)
  end.
Definition findOutIntUart : M bd Z := find_int_uart (Z.to_nat (TLS_UART_MAX - TLS_UART_2)) TLS_UART_2.

Definition UART2_4_IRQHandler : M bd unit :=
  intUartNum ← findOutIntUart;
  flag ← gets (fun b => nth (Z.to_nat intUartNum) (uart_rx_byte_cb_flag b) 0);
  on_port intUartNum (uart24_irq flag).

Definition set_irq (f : gset Z -> gset Z) : M bd unit := modify (fun b =>
  Board (b_heap b) (b_world b) (uart_port b) (b_lnk b) (b_msgs b) (uart_rx_byte_cb_flag b) (f (irq_on b))).
Definition tls_irq_enable (n : Z) : M bd unit := set_irq (fun s => {[n]} ∪ s).
Definition tls_irq_disable (n : Z) : M bd unit := set_irq (fun s => s ∖ {[n]}).

Definition tls_uart_port_init (mhz uart_no : Z) (o : option uart_options) (modeChoose : Z) : M bd Z :=
  if TLS_UART_MAX <=? uart_no then mret WM_FAILED
  else
    tls_irq_disable (irq_no uart_no) ;;
    ret ← on_port uart_no (port_init mhz uart_no o modeChoose);
    if ret =? WM_SUCCESS then tls_irq_enable (irq_no uart_no) ;; mret WM_SUCCESS else mret WM_FAILED.

Definition tls_uart_rx_byte_callback_flag (uart_no flag : Z) : M bd unit := modify (fun b =>
  Board (b_heap b) (b_world b) (uart_port b) (b_lnk b) (b_msgs b) (<[Z.to_nat uart_no := flag]> (uart_rx_byte_cb_flag b)) (irq_on b)).
End board_ops.

Section board.
Context {E D W : Type} `{HostLaws E} `{!HostBlocks E} `{UartRegsLaws D} `{UartClient W} `{!UartMem} `{!UartMemLaws E}.
Implicit Types b : board E D W.

(** Reading the interrupt register of a port. *)
Definition int_src (pd : port * D) : Z := fst (reg_read UR_INTS (snd pd)) &&& 0x1FF.
Definition int_read (pd : port * D) : port * D := (fst pd, snd (reg_read UR_INTS (snd pd))).

Lemma on_port_spec {A} i (m : M (uart E D W) A) b pd (Q : A -> board E D W -> Prop) :
  0 <= i -> uart_port b !! Z.to_nat i = Some pd ->
  wp m (view pd b) (fun a s => Q a (unview i s b)) -> wp (on_port i m) b Q.
Proof using.
  intros Hi Hpd Hm. unfold wp, on_port, port_at in *. rewrite (proj2 (Z.leb_le _ _)), Hpd by done. cbn.
  by destruct (m (view pd b)) as [[a s]|].
Qed.

(** Nothing but the registers of ports [i], ..., [i + n - 1] is touched. *)
Definition polled (i n : Z) b b' : Prop :=
  b_heap b' = b_heap b /\ b_world b' = b_world b /\ b_lnk b' = b_lnk b /\ b_msgs b' = b_msgs b /\
  uart_rx_byte_cb_flag b' = uart_rx_byte_cb_flag b /\ irq_on b' = irq_on b /\ length (uart_port b') = length (uart_port b) /\
  forall j, uart_port b' !! j = (if bool_decide (i <= Z.of_nat j < i + n) then int_read else id) <$> uart_port b !! j.

Lemma polled_refl i b : polled i 0 b b.
Proof using.
  do 7 (split; [done|]). intros j. rewrite bool_decide_false by lia. by rewrite option_fmap_id.
Qed.

Lemma polled_step i n pd b b' :
  0 <= i -> 0 <= n -> uart_port b !! Z.to_nat i = Some pd ->
  polled (i + 1) n (unview i (with_dev (snd (reg_read UR_INTS (snd pd))) (view pd b)) b) b' -> polled i (n + 1) b b'.
Proof using.
  intros Hi Hn Hpd (E1 & E2 & E3 & E4 & E5 & E6 & E7 & E8). cbn in *. rewrite length_insert in E7. do 7 (split; [done|]).
  intros j. rewrite E8. destruct (decide (j = Z.to_nat i)) as [->|Hne].
  - rewrite list_lookup_insert_eq by (by eapply lookup_lt_Some). rewrite Hpd. cbn. rewrite bool_decide_false, bool_decide_true by lia. done.
  - rewrite list_lookup_insert_ne by done. destruct (decide (i + 1 <= Z.of_nat j < i + 1 + n)).
    + by rewrite !bool_decide_true by lia.
    + by rewrite !bool_decide_false by lia.
Qed.

(** The search ends at the first port with a pending interrupt, or behind
    the last. *)
Lemma find_int_uart_spec n i b :
  0 <= i -> i + Z.of_nat n <= zlen (uart_port b) ->
  wp (find_int_uart n i) b (fun r b' => exists k, r = i + Z.of_nat k /\ (k <= n)%nat /\
    polled i (Z.of_nat (if decide (k = n) then k else S k)) b b' /\
    (forall j, (j < k)%nat -> exists pd, uart_port b !! Z.to_nat (i + Z.of_nat j) = Some pd /\ int_src pd = 0) /\
    ((k < n)%nat -> exists pd, uart_port b !! Z.to_nat (i + Z.of_nat k) = Some pd /\ int_src pd <> 0)).
Proof.
  revert i b. induction n as [|n IH]; intros i b Hi Hlen; cbn [find_int_uart].
  { apply wp_ret. exists O. split; [lia|]. split; [lia|]. split; [apply polled_refl|]. split; lia. }
  destruct (lookup_lt_is_Some_2 (uart_port b) (Z.to_nat i) ltac:(lia)) as [pd Hpd].
  apply wp_bind, (on_port_spec _ _ _ pd); [done|done|]. apply rd_spec. cbn [view dev]. set (b1 := unview _ _ _).
  destruct (Z.eqb_spec (fst (reg_read UR_INTS (snd pd)) &&& 0x1FF) 0) as [Hz|Hnz]; cbn [negb].
  - eapply wp_mono; [apply (IH (i + 1) b1); [lia|cbn; rewrite length_insert; lia]|]. cbv beta.
    intros r b' (k & -> & Hk & Hpol & Hno & Hyes). exists (S k). split; [lia|]. split; [lia|].
    split; [|split].
    + eapply (polled_step i _ pd) in Hpol; [|lia|lia|done]. destruct (decide (k = n)), (decide (S k = S n)); try lia.
      * by replace (Z.of_nat (S k)) with (Z.of_nat k + 1) by lia.
      * by replace (Z.of_nat (S (S k))) with (Z.of_nat (S k) + 1) by lia.
    + intros [|j] Hj; [exists pd; rewrite Z.add_0_r; split; [done|exact Hz]|].
      destruct (Hno j ltac:(lia)) as (pd' & Hpd' & Hz'). exists pd'. split; [|done]. cbn in Hpd'.
      rewrite list_lookup_insert_ne in Hpd' by lia. rewrite <- Hpd'. f_equal. lia.
    + intros Hlt. destruct (Hyes ltac:(lia)) as (pd' & Hpd' & Hz'). exists pd'. split; [|done]. cbn in Hpd'.
      rewrite list_lookup_insert_ne in Hpd' by lia. rewrite <- Hpd'. f_equal. lia.
  - apply wp_ret. exists O. split; [lia|]. split; [lia|]. destruct (decide (0%nat = S n)); [lia|]. split; [|split; [lia|]].
    + change (Z.of_nat 1) with (0 + 1). eapply (polled_step i 0 pd); [lia|lia|done|apply polled_refl].
    + intros _. exists pd. rewrite Z.add_0_r. done.
Qed.

Lemma works_read base q pd b : works base q (view pd b) -> works base q (view (int_read pd) b).
Proof using. intros [Hr Hs]. split; [done|]. eapply sends_same; [exact Hs|done..| |done|done|done]. apply read_tx_cnt. Qed.

(** The handler once the port has been found. *)
Lemma serve_port i pd base q b :
  0 <= i -> uart_port b !! Z.to_nat i = Some pd -> works base q (view pd b) ->
  wp (flag ← gets (fun b => nth (Z.to_nat i) (uart_rx_byte_cb_flag b) 0); on_port i (uart24_irq flag)) b (fun _ b' =>
    exists pd', uart_port b' = <[Z.to_nat i := pd']> (uart_port b) /\
      let src := fst (reg_read UR_INTS (snd pd)) in handled (ring1 (rx_err src)) src base q (view pd b) (view pd' b')).
Proof.
  intros Hi Hpd [Hr Hs]. apply wp_bind, wp_gets, (on_port_spec _ _ _ pd); [done|done|].
  eapply wp_mono; [by apply (uart24_handled _ base q)|]. cbv beta zeta. intros _ s' Hh. exists (prt s', dev s'). split; [done|].
  by destruct s'.
Qed.

(** C37. The interrupt that ports 2 to 5 share is served for the first of them
    whose interrupt register shows anything: this port is handled as a port
    of its own, and the others keep all they have.  If none shows anything,
    the handler goes on with a port behind the last one. *)
Theorem uart24_serves_first_pending b :
  length (uart_port b) = 6%nat ->
  match list_find (fun pd => int_src pd <> 0) (drop 2 (uart_port b)) with
  | None => UART2_4_IRQHandler b = None
  | Some (j, pd) => forall base q, works base q (view pd b) ->
      wp UART2_4_IRQHandler b (fun _ b' => exists pd', uart_port b' !! (2 + j)%nat = Some pd' /\
        (forall m, m <> (2 + j)%nat -> fst <$> uart_port b' !! m = fst <$> uart_port b !! m) /\
        let src := fst (reg_read UR_INTS (snd (int_read pd))) in
        handled (ring1 (rx_err src)) src base q (view (int_read pd) b) (view pd' b'))
  end.
Proof.
  intros Hlen. pose proof (find_int_uart_spec 4 2 b ltac:(lia) ltac:(lia)) as Hfind.
  apply wp_run in Hfind as (r & b1 & Efind & k & -> & Hk & Hpol & Hno & Hyes).
  pose proof Hpol as (E1 & E2 & E3 & E4 & E5 & E6 & E7 & E8).
  destruct (list_find _ _) as [[j pd]|] eqn:Ef.
  - apply list_find_Some in Ef as (Hj & Hpend & Hbefore). rewrite lookup_drop in Hj.
    pose proof (lookup_lt_Some _ _ _ Hj) as Hj4.
    assert (k = j) as ->.
    { destruct (Nat.lt_trichotomy k j) as [Hlt|[Heq|Hgt]]; [|done|].
      - destruct (Hyes ltac:(lia)) as (pd' & Hpd' & Hnz). exfalso. apply (Hbefore k pd'); [|done|done].
        rewrite lookup_drop, <- Hpd'. f_equal. lia.
      - destruct (Hno j Hgt) as (pd' & Hpd' & Hz). replace (Z.to_nat (2 + Z.of_nat j)) with (2 + j)%nat in Hpd' by lia. congruence. }
    intros base q Hw. eapply (wp_bind findOutIntUart), wp_eq; [exact Efind|]. cbn beta.
    assert (Hpd1 : uart_port b1 !! Z.to_nat (2 + Z.of_nat j) = Some (int_read pd)).
    { replace (Z.to_nat (2 + Z.of_nat j)) with (2 + j)%nat by lia. rewrite E8, Hj, bool_decide_true; [done|].
      destruct (decide (j = 4%nat)); lia. }
    assert (Hv : view (int_read pd) b1 = view (int_read pd) b) by (unfold view; by rewrite E1, E2, E3, E4).
    eapply wp_mono; [apply (serve_port _ (int_read pd) base q); [lia|exact Hpd1|rewrite Hv; by apply works_read]|]. cbv beta zeta.
    intros _ b' (pd' & Hports & Hh). exists pd'. rewrite Hports, Hv in *. replace (Z.to_nat (2 + Z.of_nat j)) with (2 + j)%nat by lia.
    split; [apply list_lookup_insert_eq; lia|]. split; [|exact Hh]. intros m Hm. rewrite list_lookup_insert_ne by done. rewrite E8.
    destruct (uart_port b !! m) as [pdm|]; [|done]. by destruct (bool_decide _).
  - apply list_find_None in Ef. assert (k = 4%nat) as ->.
    { destruct (decide (k = 4%nat)); [done|]. destruct (Hyes ltac:(lia)) as (pd' & Hpd' & Hnz). exfalso. rewrite Forall_forall in Ef. apply (Ef pd'); [|done].
      apply list_elem_of_lookup. exists k. rewrite lookup_drop, <- Hpd'. f_equal. lia. }
    unfold UART2_4_IRQHandler, mbind, M_bind, findOutIntUart. change (Z.to_nat (TLS_UART_MAX - TLS_UART_2)) with 4%nat. change TLS_UART_2 with 2.
    rewrite Efind. cbn [gets]. assert (Hend : port_at (2 + Z.of_nat 4) b1 = None) by (apply lookup_ge_None; lia).
    unfold gets, on_port. by rewrite Hend.
Qed.
End board.
