(* ===== verification/UartWitness.v ===== *)
(** * The theorems of the UART driver at concrete inputs

    A simulated port: FIFOs, their histories, and the two interrupt
    registers. *)
From S2P Require Import Prelude CMonad Keeps DlList HostEnv Uart UartRing UartTx UartRx UartIrq UartRead UartProps UartRecv UartInit UartBoard.
Import BumpHost.

Module SimUart.

Record sim := Sim { fifo : list Z; rlog : list Z; tlog : list Z; cnt : Z; ints : Z; intm : Z }.

#[global] Instance sim_regs : UartRegs sim := {
  reg_read r d := match r with
    | UR_RXW => match fifo d with
        | [] => (0, Sim [] (rlog d ++ [0]) (tlog d) (cnt d) (ints d) (intm d))
        | b :: f => (b, Sim f (rlog d ++ [u8 b]) (tlog d) (cnt d) (ints d) (intm d))
        end
    | UR_FIFOS => (cnt d mod 64 + Z.min 63 (zlen (fifo d)) * 64, d)
    | UR_INTS => (ints d, d)
    | UR_INTM => (intm d, d)
    | _ => (0, d)
    end;
  reg_write r v d := match r with
    | UR_TXW => if cnt d mod 64 <? 32 then Sim (fifo d) (rlog d) (tlog d ++ [u8 v]) (cnt d mod 64 + 1) (ints d) (intm d) else d
    | UR_INTS => Sim (fifo d) (rlog d) (tlog d) (cnt d) (ints d &&& Z.lnot v) (intm d)
    | UR_INTM => Sim (fifo d) (rlog d) (tlog d) (cnt d) (ints d) v
    | _ => d
    end
}.

Lemma low_six a b : 0 <= a < 64 -> (a + b * 64) &&& 0x3F = a.
Proof. intros Ha. change 0x3F with (Z.ones 6). rewrite Z.land_ones by lia. change (2 ^ 6) with 64. rewrite Z.mod_add, Z.mod_small by lia. done. Qed.

#[global] Program Instance sim_laws : UartRegsLaws sim := {| rx_log := rlog; tx_log := tlog; tx_cnt := fun d => cnt d mod 64 |}.
Next Obligation. intros [] d; cbn; rewrite ?app_nil_r; try done. by destruct (fifo d). Qed.
Next Obligation. intros [] d; cbn; try done. by destruct (fifo d). Qed.
Next Obligation. intros [] d; cbn; try done. by destruct (fifo d). Qed.
Next Obligation. intros d. cbn. unfold UFS_TX_FIFO_CNT_MASK. apply low_six, Z.mod_pos_bound. done. Qed.
Next Obligation. intros [] v d; cbn; try done. by destruct (_ <? _). Qed.
Next Obligation. intros [] v d Hr; cbn; by try done. Qed.
Next Obligation. intros [] v d Hr; cbn; by try done. Qed.
Next Obligation.
  intros v d Hd. cbn. rewrite (proj2 (Z.ltb_lt _ _)) by done. cbn. split; [done|]. pose proof (Z.mod_pos_bound (cnt d) 64). rewrite Z.mod_small; lia.
Qed.

(** A client that counts the bytes it is told of. *)
#[global] Instance sim_client : UartClient Z := {
  rx_called _ n _ w := w + n;
  tx_called _ _ w := w
}.

(** Heads at odd addresses. *)
#[global] Instance sim_mem : UartMem := {
  pending_head no := 8 * no + 1;
  freed_head no := 8 * no + 5;
  before_block _ _ := 0
}.
#[global] Instance sim_mem_laws : UartMemLaws bump.
Proof.
  split; [intros no; cbn; lia|]. intros no n e p l e'. cbn. unfold alloc. destruct (Z.eqb_spec (brk e mod 4) 0) as [Hm|]; [|done].
  destruct (0 <? brk e); [|done]. cbn. case_match; [|done]. intros [= <- _ _]. split; dlia.
Qed.
End SimUart.
Import SimUart.

(** Port [no] with a ring at the end of the heap; nothing to be sent, or one
    message of 40 bytes of which 38 are left. *)
Definition ring_addr : Z := 536870000.
Definition sample_port (no fc h t : Z) (l : list Z) : port :=
  Port no 0 default_options fc TLS_UART_RX_ENABLE 16 (uart_base no) 0 (Circ (Some (ring_addr, l)) h t) 0 0 Free_tx_sent_data 0 false 0.
Definition empty_heads (no : Z) : gmap Z DlList.node :=
  <[8 * no + 1 := DlList.Node (8 * no + 1) (8 * no + 1)]> (<[8 * no + 5 := DlList.Node (8 * no + 5) (8 * no + 5)]> ∅).
Definition sample_uart (no fc h t : Z) (l : list Z) (d : sim) : uart bump sim Z :=
  Uart roomy 0 d (sample_port no fc h t l) (empty_heads no) ∅.

Definition the_ring : list Z := seqZ 0 256 ++ seqZ 0 256.
Definition the_base : gset Z := {[ring_addr]}.

Lemma the_ring_ok : zlen the_ring = 512 /\ bytes_ok the_ring.
Proof. split; [done|]. apply (bool_decide_unpack _). vm_compute. exact I. Qed.

Lemma empty_dll l h : l !! h = Some (DlList.Node h h) -> DlList.dll l h [].
Proof.
  intros Hl. split; [apply NoDup_singleton|]. split; [|done]. unfold DlList.linked, DlList.nxt, DlList.prv. by rewrite Hl.
Qed.

Lemma sample_works no fc h t d :
  0 <= h < 512 -> 0 <= t < 512 -> cnt d mod 64 <= 16 -> works the_base [] (sample_uart no fc h t the_ring d).
Proof.
  intros Hh Ht Hc. pose proof the_ring_ok as [Hl Hb]. split; [split; cbn; [by eexists _, _|done|done]|].
  split; cbn; [|done|done|constructor]. split; cbn; try done.
  - apply empty_dll, lookup_insert_eq.
  - apply empty_dll. unfold empty_heads; rewrite lookup_insert_ne by lia. apply lookup_insert_eq.
  - intros x ->%list_elem_of_singleton E%list_elem_of_singleton. lia.
  - constructor.
  - intros x _ Hx. by apply not_elem_of_nil in Hx.
  - rewrite union_empty_r_L. intros p ->%elem_of_singleton. cbn. unfold ring_addr. lia.
Qed.

(** The message. *)
Definition msg_addr : Z := 536870912.
Definition data_addr : Z := 536870944.
Definition sample_msg : tx_msg := TxMsg data_addr (seqZ 100 40) 40 2 Uart_tx_finish_callback data_addr.
Definition waiting_uart (no : Z) (d : sim) : uart bump sim Z :=
  Uart (Bump 536871000 553648128 true) 0 d (sample_port no 0 3 1 the_ring)
    (<[8 * no + 1 := DlList.Node msg_addr msg_addr]> (<[msg_addr := DlList.Node (8 * no + 1) (8 * no + 1)]> (<[8 * no + 5 := DlList.Node (8 * no + 5) (8 * no + 5)]> ∅)))
    {[msg_addr := sample_msg]}.

Lemma waiting_works d : cnt d mod 64 <= 16 -> works the_base [(msg_addr, sample_msg)] (waiting_uart 1 d).
Proof.
  intros Hc. pose proof the_ring_ok as [Hl Hb]. split; [split; cbn; [by eexists _, _|done|done]|].
  split; cbn; [|done|done|constructor; [done|constructor]]. split; cbn.
  - split; [apply (bool_decide_unpack _); vm_compute; exact I|]. repeat split; vm_compute; reflexivity.
  - apply empty_dll. vm_compute. reflexivity.
  - intros x Hx ->%list_elem_of_singleton. apply (bool_decide_unpack _) in Hx || (repeat (apply elem_of_cons in Hx as [Hx|Hx]; [done|]); by apply not_elem_of_nil in Hx).
  - constructor; [|constructor]. split; [reflexivity|]. split; [split; [vm_compute; reflexivity|vm_compute; reflexivity]| |by repeat split].
    apply (bool_decide_unpack _). vm_compute. exact I.
  - apply (bool_decide_unpack _). vm_compute. exact I.
  - intros x ->%elem_of_singleton Hx. repeat (apply elem_of_cons in Hx as [Hx|Hx]; [done|]). by apply not_elem_of_nil in Hx.
  - intros p Hp. repeat (apply elem_of_union in Hp as [Hp|Hp]); set_unfold; cbn; unfold ring_addr, msg_addr, data_addr in *; lia.
Qed.

(** ** The properties *)

(** Three bytes received, two in the transmit FIFO, interrupts [i] pending. *)
Definition sample_dev (i : Z) : sim := Sim [43; 43; 43] [5] [6; 7] 2 i 0.
(** The device sends what it has, and wants more. *)
Definition drained (d : sim) : sim := Sim (fifo d) (rlog d) (tlog d) 0 (UIS_TX_FIFO ||| UIS_RX_FIFO) (intm d).

Lemma drained_fair d : tx_log (drained d) = tx_log d /\ tx_cnt (drained d) <= tx_cnt d.
Proof. split; [done|]. cbn. apply Z.mod_pos_bound. done. Qed.

Definition sample_events : list (event sim) :=
  [EWrite 1 [1; 2]; EIrq Line1 0; ERead 1 5; EDevice drained; EIrq Line1 1; EIrq Line24 0].

Lemma uart_sends_in_order_witness :
  Forall fair sample_events /\
  wp (history sample_events) (waiting_uart 1 (sample_dev 6)) (fun acc s' => exists q', works the_base q' s' /\
    tx_log (dev s') ++ unsent q' = tx_log (sample_dev 6) ++ unsent [(msg_addr, sample_msg)] ++ acc /\
    (unsent q' = [] -> h_blocks (heap s') the_base)).
Proof.
  assert (Hf : Forall fair sample_events).
  { repeat (apply Forall_cons; split); try done; [|exact drained_fair]. apply (bool_decide_unpack _). vm_compute. exact I. }
  split; [exact Hf|]. apply (uart_sends_in_order sample_events the_base [(msg_addr, sample_msg)] (waiting_uart 1 (sample_dev 6))).
  - apply waiting_works. vm_compute. congruence.
  - exact Hf.
Defined.

Lemma uart_drains_witness :
  wp (rounds 38 drained Line1 0) (waiting_uart 1 (sample_dev 0)) (fun _ s' =>
    tx_log (dev s') = [6; 7] ++ seqZ 102 38 /\ h_blocks (heap s') the_base /\ works the_base [] s').
Proof.
  change ([6; 7] ++ seqZ 102 38) with (tx_log (dev (waiting_uart 1 (sample_dev 0))) ++ unsent [(msg_addr, sample_msg)]).
  apply (uart_drains 38 drained Line1 0 the_base [(msg_addr, sample_msg)] (waiting_uart 1 (sample_dev 0))).
  - apply waiting_works. vm_compute. congruence.
  - vm_compute. lia.
  - exact drained_fair.
  - intros d. split; [reflexivity|]. vm_compute. congruence.
Defined.

(** The full ring of a port with flow control. *)
Lemma uart0_appends_witness :
  let s := sample_uart 0 1 511 0 the_ring (sample_dev 4) in
  wp (UART0_IRQHandler 0) s (fun _ s' => let c := content (recv (prt s)) in exists popped kept,
    rx_log (dev s') = rx_log (dev s) ++ popped /\
    if rx_err (fst (reg_read UR_INTS (dev s))) then kept = [] /\ content (recv (prt s')) = c
    else if decide (fcStatus (prt s) = TLS_UART_FLOW_CTRL_HARDWARE) then
      popped = kept /\ (509 <= zlen c -> (length kept <= 1)%nat) /\
      content (recv (prt s')) = if decide (zlen c = 511 /\ kept <> []) then [] else c ++ kept
    else content (recv (prt s')) = c ++ kept /\
      (popped = kept \/ exists b, popped = kept ++ [b] /\ 509 <= zlen (content (recv (prt s'))))).
Proof.
  intros s. apply (uart0_appends 0 the_base [] s). apply sample_works; vm_compute; (congruence || split; congruence).
Defined.

(** It has taken one byte and holds none. *)
Example uart0_full_ring_emptied :
  match UART0_IRQHandler 0 (sample_uart 0 1 511 0 the_ring (sample_dev 4)) with
  | Some (_, s') => (rlog (dev s'), head (recv (prt s')), tail (recv (prt s'))) = ([5; 43], 0, 0)
  | None => False
  end.
Proof. vm_compute. reflexivity. Qed.

(** The head comes round with the last [+]. *)
Lemma uart1_packet_and_escape_witness :
  let s := sample_uart 1 0 509 100 the_ring (sample_dev 4) in
  wp (uart1_irq_rx 0 4) s (fun _ s' => exists popped,
    rx_log (dev s') = rx_log (dev s) ++ popped /\ ring_ok (recv (prt s')) /\
    if due 4 s then
      content (recv (prt s')) = room_made (content (recv (prt s))) ++ (if rx_err 4 then [] else popped) /\
      (plus_char_cnt (prt s') = 0 \/ plus_char_cnt (prt s') = 3) /\
      (rx_err 4 = false -> head (recv (prt s')) <> 0 -> (plus_char_cnt (prt s') = 3 <-> popped = [PLUS; PLUS; PLUS])) /\
      (rx_err 4 = false -> head (recv (prt s')) = 0 -> popped = [PLUS; PLUS; PLUS] ->
        exists a l, buf (recv (prt s')) = Some (a, l) /\
        (plus_char_cnt (prt s') = 3 <-> before_block a 2 = PLUS /\ before_block a 3 = PLUS))
    else popped = [] /\ prt s' = prt s).
Proof.
  intros s. apply (uart1_packet_and_escape 0 4 s).
  apply (sample_works 1 0 509 100 (sample_dev 4)); vm_compute; (congruence || split; congruence).
Defined.

Lemma uart0_read_is_a_queue_witness :
  let s := sample_uart 0 0 10 500 the_ring (sample_dev 4) in
  wp (read_with (irqs UART0_IRQHandler [0; 1]) (irqs UART0_IRQHandler [0]) 1 20) s (fun r s' => exists arrived,
    r.2 = take (Z.to_nat 20) (content (recv (prt s))) /\ r.1 = zlen r.2 /\ ring_ok (recv (prt s')) /\
    r.2 ++ content (recv (prt s')) = content (recv (prt s)) ++ arrived).
Proof.
  intros s. apply (uart0_read_is_a_queue [0; 1] [0] the_base 1 20 [] s).
  - apply sample_works; vm_compute; (congruence || split; congruence).
  - vm_compute. congruence.
  - congruence.
  - lia.
Defined.

Lemma uart1_read_race_witness :
  let s := sample_uart 1 0 400 0 the_ring (sample_dev 4) in
  wp (read_with (mret tt) (UART1_IRQHandler 0) 1 512) s (fun r s' =>
    r.2 = content (recv (prt s)) /\ exists popped, rx_log (dev s') = rx_log (dev s) ++ popped /\
    (popped <> [] -> zlen (content (recv (prt s'))) = 384 + zlen popped)).
Proof.
  intros s. apply (uart1_read_race 0 the_base 1 512 [] s).
  - apply sample_works; vm_compute; (congruence || split; congruence).
  - congruence.
  - rewrite length_content. vm_compute. split; congruence.
  - reflexivity.
Defined.

(** 115200 baud from a bus of 40 MHz: 21 and 11 sixteenths. *)
Lemma baud_divisor_exact_witness :
  baud_value (u32 (40 * 1000000)) 115200 = 0xB0014 /\
  (let v := baud_value (u32 (40 * 1000000)) 115200 in
  if 16 * 115200 <=? 40 * 1000000 then 0 <= v ≫ 16 < 16 /\ 16 * ((v &&& 0xFFFF) + 1) + (v ≫ 16) = 40 * 1000000 / 115200
  else v &&& 0xFFFF = 0xFFFF).
Proof. split; [vm_compute; reflexivity|]. apply (baud_divisor_exact 40 115200); [cbn; tauto|lia]. Defined.

(** A rate of 14400 baud, which is not in the table. *)
Definition odd_options : uart_options := Options 14400 3 0 0 0.
Lemma uart_init_works_witness :
  let s := sample_uart 3 0 400 0 the_ring (sample_dev 4) in
  wp (port_init 40 3 (Some odd_options) 0) s (fun r s' => let base := without_ring (prt s) the_base in
    tx_log (dev s') = tx_log (dev s) /\ uart_no (prt s') = 3 /\
    opts (prt s') = configured (default default_options (Some odd_options)) (Options 0 0 0 0 0) /\
    (r = WM_FAILED /\ buf (recv (prt s')) = None /\ h_blocks (heap s') base \/
     r = WM_SUCCESS /\ content (recv (prt s')) = [] /\ exists a, a ∉ base /\ works ({[a]} ∪ base) [] s')).
Proof.
  intros s. apply (uart_init_works 40 3 (Some odd_options) 0 the_base s).
  - intros p Hp. unfold the_base in Hp. apply elem_of_singleton in Hp as ->. vm_compute. reflexivity.
  - intros a l Hb. cbn in Hb. injection Hb as <- <-. by apply elem_of_singleton.
  - vm_compute. congruence.
Defined.

(** Port 3 has received something. *)
Definition sample_slot (no i : Z) : port * sim := (sample_port no 0 400 0 the_ring, sample_dev i).
Definition sample_board : board bump sim Z :=
  Board roomy 0 [sample_slot 0 4; sample_slot 1 4; sample_slot 2 0; sample_slot 3 4; sample_slot 4 4; sample_slot 5 0]
    (empty_heads 3) ∅ [0; 0; 0; 0; 0; 0] {[UART24_IRQn]}.

Lemma uart24_serves_first_pending_witness :
  let b := sample_board in let pd := sample_slot 3 4 in
  wp UART2_4_IRQHandler b (fun _ b' => exists pd', uart_port b' !! 3%nat = Some pd' /\
    (forall m, m <> 3%nat -> fst <$> uart_port b' !! m = fst <$> uart_port b !! m) /\
    let src := fst (reg_read UR_INTS (snd (int_read pd))) in
    handled (ring1 (rx_err src)) src the_base [] (view (int_read pd) b) (view pd' b')).
Proof.
  intros b pd. pose proof (uart24_serves_first_pending b eq_refl) as Hthm.
  assert (Hfind : list_find (fun pd => int_src pd <> 0) (drop 2 (uart_port b)) = Some (1%nat, pd)) by (vm_compute; reflexivity).
  rewrite Hfind in Hthm. apply Hthm. clear Hfind Hthm.
  assert (Hw : works the_base [] (sample_uart 3 0 400 0 the_ring (sample_dev 4))).
  { apply sample_works; vm_compute; (congruence || split; congruence). }
  exact Hw.
Defined.
