(* ===== verification/Dma.v ===== *)
(** * The DMA driver ([wm_dma.c])

    Eight channels that other drivers ask for, and the interrupts that tell
    them that a transfer is done; channels 4 to 7 share one.  The callback of
    a channel may call the driver back, so that what a function pointer does
    is a computation on the whole state. *)
From S2P Require Import Prelude CMonad.

Definition TLS_DMA_FLAGS_HARD_MODE : Z := 1 ≪ 0.
Definition TLS_DMA_FLAGS_CHANNEL_SEL (n : Z) : Z := n ≪ 2.
Definition TLS_DMA_FLAGS_CHANNEL_VALID : Z := 1 ≪ 7.
Definition TLS_DMA_IRQ_BURST_DONE : Z := 1 ≪ 0.
Definition TLS_DMA_IRQ_TRANSFER_DONE : Z := 1 ≪ 1.
Definition TLS_DMA_IRQ_BOTH_DONE : Z := TLS_DMA_IRQ_BURST_DONE ||| TLS_DMA_IRQ_TRANSFER_DONE.
Definition DMA_CHNL_CTRL_CHNL_ON : Z := 1 ≪ 0.
Definition DMA_CHNL_CTRL_CHNL_OFF : Z := 1 ≪ 1.
Definition DMA_Channel0_IRQn : Z := 4.

Inductive dreg :=
  | INT_MASK | INT_SRC | CHNL_SEL
  | SRC_ADDR (ch : Z) | DEST_ADDR (ch : Z) | SRC_WRAP_ADDR (ch : Z) | DEST_WRAP_ADDR (ch : Z)
  | WRAP_SIZE (ch : Z) | CHNL_CTRL (ch : Z) | DMA_MODE (ch : Z) | DMA_CTRL (ch : Z).

(** The controller; [dma_tick] is what a tick of the system's clock does to
    it. *)
Class DmaRegs (D : Type) := {
  dma_read : dreg -> D -> Z * D;
  dma_write : dreg -> Z -> D -> D;
  dma_tick : D -> D
}.

(** What the driver relies on.  [pend] are the interrupts that are pending:
    the source register shows them, and writing it clears those whose bits
    are set; others may come up at any time, and stay until they are cleared.  A channel that has been told to
    stop has done so within [off_wait] looks at its register. *)
Class DmaLaws (D : Type) `{DmaRegs D} := {
  pend : D -> Z;
  off_wait : nat;
  read_pend d : fst (dma_read INT_SRC d) = pend d;
  clear_pend v d i : Z.testbit v i = true -> Z.testbit (pend (dma_write INT_SRC v d)) i = false;
  read_keeps_pend r d i : Z.testbit (pend d) i = true -> Z.testbit (pend (snd (dma_read r d))) i = true;
  write_keeps_pend r v d i : r <> INT_SRC -> Z.testbit (pend d) i = true -> Z.testbit (pend (dma_write r v d)) i = true;
  pend_word d : 0 <= pend d < 2 ^ 32;
  stays_off ch v d : Z.land v DMA_CHNL_CTRL_CHNL_OFF <> 0 ->
    exists n, (n < off_wait)%nat /\
      fst (dma_read (CHNL_CTRL ch) (Nat.iter n (fun d => snd (dma_read (CHNL_CTRL ch) d)) (dma_write (CHNL_CTRL ch) v d))) &&& DMA_CHNL_CTRL_CHNL_ON = 0
}.

(** [struct dma_irq_context]; [F] are the function pointers. *)
Record dma_irq_context (F : Type) := Ctx {
  ctx_flags : Z;
  burst_done_pf : option F;
  burst_done_priv : Z;
  transfer_done_pf : option F;
  transfer_done_priv : Z
}.
Arguments Ctx {F}.
Arguments ctx_flags {F}.
Arguments burst_done_pf {F}.
Arguments burst_done_priv {F}.
Arguments transfer_done_pf {F}.
Arguments transfer_done_priv {F}.

(** The driver's variables ([len] is local to [dma_irq_proc]), the
    controller, its clock, the interrupts that are passed on, and the rest of
    the system. *)
Record dma (D F W : Type) := Dma {
  dma_used_bit : Z;
  channels : list Z;
  dma_context : list (dma_irq_context F);
  len : list Z;
  ctl : D;
  dma_clock : bool;
  dma_irqs : gset Z;
  rest : W
}.
Arguments Dma {D F W}.
Arguments dma_used_bit {D F W}.
Arguments channels {D F W}.
Arguments dma_context {D F W}.
Arguments len {D F W}.
Arguments ctl {D F W}.
Arguments dma_clock {D F W}.
Arguments dma_irqs {D F W}.
Arguments rest {D F W}.

(** [struct tls_dma_descriptor]. *)
Record descriptor := Desc { valid : Z; dma_ctrl : Z; src_addr : Z; dest_addr : Z }.

Section dma_ops.
Context {D F W : Type} `{DmaRegs D}.
Abbreviation st := (dma D F W).

Definition dma_rd (r : dreg) : M st Z :=
  zoom ctl (fun d s => Dma (dma_used_bit s) (channels s) (dma_context s) (len s) d (dma_clock s) (dma_irqs s) (rest s)) (fun d => Some (dma_read r d)).
Definition set_controller (f : D -> D) : M st unit := modify (fun s =>
  Dma (dma_used_bit s) (channels s) (dma_context s) (len s) (f (ctl s)) (dma_clock s) (dma_irqs s) (rest s)).
Definition dma_wr (r : dreg) (v : Z) : M st unit := set_controller (dma_write r (u32 v)).
Definition dma_upd (r : dreg) (f : Z -> Z) : M st unit := v ← dma_rd r; dma_wr r (f v).
Definition set_used (f : Z -> Z) : M st unit := modify (fun s =>
  Dma (u16 (f (dma_used_bit s))) (channels s) (dma_context s) (len s) (ctl s) (dma_clock s) (dma_irqs s) (rest s)).
Definition set_channels (f : list Z -> list Z) : M st unit := modify (fun s =>
  Dma (dma_used_bit s) (f (channels s)) (dma_context s) (len s) (ctl s) (dma_clock s) (dma_irqs s) (rest s)).
Definition set_context (f : list (dma_irq_context F) -> list (dma_irq_context F)) : M st unit := modify (fun s =>
  Dma (dma_used_bit s) (channels s) (f (dma_context s)) (len s) (ctl s) (dma_clock s) (dma_irqs s) (rest s)).
Definition set_len (f : list Z -> list Z) : M st unit := modify (fun s =>
  Dma (dma_used_bit s) (channels s) (dma_context s) (f (len s)) (ctl s) (dma_clock s) (dma_irqs s) (rest s)).
Definition set_dma_clock (b : bool) : M st unit := modify (fun s =>
  Dma (dma_used_bit s) (channels s) (dma_context s) (len s) (ctl s) b (dma_irqs s) (rest s)).
Definition irq_enabled (n : Z) : M st unit := modify (fun s =>
  Dma (dma_used_bit s) (channels s) (dma_context s) (len s) (ctl s) (dma_clock s) ({[n]} ∪ dma_irqs s) (rest s)).
Definition on_rest {A} (m : M W A) : M st A :=
  zoom rest (fun w s => Dma (dma_used_bit s) (channels s) (dma_context s) (len s) (ctl s) (dma_clock s) (dma_irqs s) w) m.
(** An element of one of the arrays of eight. *)
Definition at_ {A} (sel : st -> list A) (ch : Z) : M st A := l ← gets sel; must (if 0 <=? ch then l !! Z.to_nat ch else None).

(** ** Channels *)

(** [for (i = 0; i < 8; i++) if (!(channels.channels[i] & VALID)) break;] *)
Fixpoint first_free (n : nat) (i : Z) : M st Z :=
  match n with
  | O => mret 0xFF
  | Datatypes.S n =>
      c ← at_ channels i;
      if c &&& TLS_DMA_FLAGS_CHANNEL_VALID =? 0 then mret i else first_free n (i + 1)
  end.

(** [tls_dma_request] in two pieces: which channel, and taking it. *)
Definition request_pick (ch : Z) : M st Z :=
  wanted ← (if (0 <=? ch) && (ch <? 8) then
              c ← at_ channels ch;
              mret (if c &&& TLS_DMA_FLAGS_CHANNEL_VALID =? 0 then ch else 0xFF)
            else mret 0xFF);
  if wanted =? 0xFF then first_free 8 0 else mret wanted.
Definition request_take (freeCh flags : Z) : M st Z :=
  (if (0 <=? freeCh) && (freeCh <? 8) then
     used ← gets dma_used_bit;
     (if used =? 0 then set_dma_clock true else mret tt) ;;
     set_used (fun u => u ||| (1 ≪ freeCh)) ;;
     set_channels <[Z.to_nat freeCh := u8 (flags ||| TLS_DMA_FLAGS_CHANNEL_VALID)]> ;;
     dma_wr (DMA_MODE freeCh) flags
   else mret tt) ;;
  mret freeCh.
Definition tls_dma_request (ch flags : Z) : M st Z := freeCh ← request_pick ch; request_take freeCh flags.

(** [while (DMA_CHNLCTRL_REG(ch) & DMA_CHNL_CTRL_CHNL_ON);] *)
Definition wait_off (polls : nat) (ch : Z) : M st unit :=
  mloop polls (fun _ : unit => v ← dma_rd (CHNL_CTRL ch); mret (if v &&& DMA_CHNL_CTRL_CHNL_ON =? 0 then inr tt else inl tt)) tt.

Definition tls_dma_stop (polls : nat) (ch : Z) : M st Z :=
  if 7 <? ch then mret 1
  else
    v ← dma_rd (CHNL_CTRL ch);
    (if negb (v &&& DMA_CHNL_CTRL_CHNL_ON =? 0) then
       dma_upd (CHNL_CTRL ch) (fun v => v ||| DMA_CHNL_CTRL_CHNL_OFF) ;;
       wait_off polls ch
     else mret tt) ;;
    mret 0.

Definition tls_dma_free (polls : nat) (ch : Z) : M st unit :=
  if ch <? 8 then
    _ ← tls_dma_stop polls ch;
    dma_wr (SRC_ADDR ch) 0 ;;
    dma_wr (DEST_ADDR ch) 0 ;;
    dma_wr (DMA_MODE ch) 0 ;;
    dma_wr (DMA_CTRL ch) 0 ;;
    dma_upd INT_SRC (fun v => v ||| (0x03 ≪ (ch * 2))) ;;
    set_channels <[Z.to_nat ch := 0x00]> ;;
    set_used (fun u => u &&& Z.lnot (1 ≪ ch)) ;;
    used ← gets dma_used_bit;
    if used =? 0 then set_dma_clock false else mret tt
  else mret tt.

(** Whether [dma_desc] is NULL. *)
Definition tls_dma_start (ch : Z) (dma_desc : option descriptor) (auto_reload : Z) : M st Z :=
  if (7 <? ch) && negb (bool_decide (is_Some dma_desc)) then mret 1
  else
    set_used (fun u => if u &&& (1 ≪ ch) =? 0 then u ||| (1 ≪ ch) else u) ;;
    d ← must dma_desc;
    dma_wr (SRC_ADDR ch) (src_addr d) ;;
    dma_wr (DEST_ADDR ch) (dest_addr d) ;;
    dma_wr (DMA_CTRL ch) (((dma_ctrl d &&& 0x7fffff) ≪ 1) ||| (if negb (auto_reload =? 0) then 1 else 0)) ;;
    dma_upd (CHNL_CTRL ch) (fun v => v ||| DMA_CHNL_CTRL_CHNL_ON) ;;
    mret 0.

Definition tls_dma_start_by_wrap (ch : Z) (dma_desc : option descriptor) (auto_reload src_zize dest_zize : Z) : M st Z :=
  if (7 <? ch) && negb (bool_decide (is_Some dma_desc)) then mret 1
  else
    d ← must dma_desc;
    dma_wr (SRC_WRAP_ADDR ch) (src_addr d) ;;
    dma_wr (DEST_WRAP_ADDR ch) (dest_addr d) ;;
    dma_wr (WRAP_SIZE ch) ((dest_zize ≪ 16) ||| src_zize) ;;
    dma_wr (DMA_CTRL ch) (((dma_ctrl d &&& 0x7fffff) ≪ 1) ||| (if negb (auto_reload =? 0) then 1 else 0)) ;;
    dma_upd (CHNL_CTRL ch) (fun v => v ||| DMA_CHNL_CTRL_CHNL_ON) ;;
    mret 0.

(** At most 501 ticks of waiting. *)
Definition tls_dma_wait_complt (ch : Z) : M st Z :=
  mloop 502 (fun timeout =>
    v ← dma_rd (CHNL_CTRL ch);
    if v &&& DMA_CHNL_CTRL_CHNL_ON =? 0 then mret (inr 0)
    else
      set_controller dma_tick ;;
      if 500 <? timeout + 1 then mret (inr (-1)) else mret (inl (timeout + 1))) 0.

(** The bits of the channels that are not in use. *)
Fixpoint free_bits (n : nat) (used : Z) : Z :=
  match n with
  | O => 0
  | Datatypes.S n => if used &&& (1 ≪ Z.of_nat n) =? 0 then free_bits n used ||| (3 ≪ (Z.of_nat n * 2)) else free_bits n used
  end.
Definition tls_dma_init : M st unit :=
  used ← gets dma_used_bit;
  dma_wr INT_MASK (free_bits 8 used) ;;
  dma_wr INT_SRC (free_bits 8 used).

(** ** Interrupts *)

Definition tls_dma_irq_clr (ch flags : Z) : M st unit := dma_wr INT_SRC (flags ≪ (2 * ch)).

(** Without the interrupt's priority, which is the interrupt controller's. *)
Definition tls_dma_irq_register (ch : Z) (callback : option F) (arg flags : Z) : M st unit :=
  dma_upd INT_MASK (fun mask => (mask ||| (TLS_DMA_IRQ_BOTH_DONE ≪ (2 * ch))) &&& Z.lnot (flags ≪ (2 * ch))) ;;
  c ← at_ dma_context ch;
  (let burst := negb (flags &&& TLS_DMA_IRQ_BURST_DONE =? 0) in
   let transfer := negb (flags &&& TLS_DMA_IRQ_TRANSFER_DONE =? 0) in
   set_context <[Z.to_nat ch := Ctx flags
     (if burst then callback else burst_done_pf c) (if burst then arg else burst_done_priv c)
     (if transfer then callback else transfer_done_pf c) (if transfer then arg else transfer_done_priv c)]>) ;;
  irq_enabled (DMA_Channel0_IRQn + (if 3 <? ch then 4 else ch)).

(** What the function pointers point to. *)
Context (run : F -> Z -> M st unit) (polls : nat).

Definition call_done (pf : option F) (priv : Z) : M st unit :=
  match pf with Some f => run f priv | None => mret tt end.

(** The first of the channels from [ch] on that has anything pending. *)
Fixpoint first_pending (n : nat) (ch int_src : Z) : Z :=
  match n with
  | O => ch
  | Datatypes.S n => if negb (int_src &&& (TLS_DMA_IRQ_BOTH_DONE ≪ (ch * 2)) =? 0) then ch else first_pending n (ch + 1) int_src
  end.

(** A channel that reloads itself gets the next piece of a growing length. *)
Definition auto_reload_step (ch : Z) : M st unit :=
  c ← dma_rd (DMA_CTRL ch);
  if negb (c &&& 0x01 =? 0) then
    temp ← dma_rd (DMA_CTRL ch);
    l ← at_ len ch;
    (if l =? 0 then set_len <[Z.to_nat ch := (temp &&& 0xFFFF00) ≫ 8]> else mret tt) ;;
    l ← at_ len ch;
    let cur_len := (temp &&& 0xFFFF00) ≫ 8 in
    cur_len ← (if 0xFFFF <? u32 (cur_len + l) then
                 dma_upd (CHNL_CTRL ch) (fun v => v ||| (1 ≪ 1)) ;;
                 wait_off polls ch ;;
                 dma_upd (CHNL_CTRL ch) (fun v => v ||| (1 ≪ 0)) ;;
                 mret 0
               else mret cur_len);
    dma_wr (DMA_CTRL ch) ((temp &&& Z.lnot (0xFFFF ≪ 8)) ||| (u32 (cur_len + l) ≪ 8))
  else mret tt.

(** The three cases of a finished transfer. *)
Definition dma_dispatch (ch int_src : Z) : M st unit :=
  c ← at_ dma_context ch;
  let is_pending flags := negb (int_src &&& (flags ≪ (ch * 2)) =? 0) in
  if is_pending TLS_DMA_IRQ_BOTH_DONE && (ctx_flags c =? TLS_DMA_IRQ_BOTH_DONE) then
    tls_dma_irq_clr ch TLS_DMA_IRQ_BOTH_DONE ;; call_done (burst_done_pf c) (burst_done_priv c)
  else if is_pending TLS_DMA_IRQ_BURST_DONE && (ctx_flags c =? TLS_DMA_IRQ_BURST_DONE) then
    tls_dma_irq_clr ch TLS_DMA_IRQ_BOTH_DONE ;; call_done (burst_done_pf c) (burst_done_priv c)
  else if is_pending TLS_DMA_IRQ_TRANSFER_DONE && (ctx_flags c =? TLS_DMA_IRQ_TRANSFER_DONE) then
    tls_dma_irq_clr ch TLS_DMA_IRQ_BOTH_DONE ;; call_done (transfer_done_pf c) (transfer_done_priv c)
  else mret tt.

Definition dma_irq_proc (p : Z) : M st unit :=
  int_src ← dma_rd INT_SRC;
  let ch := if 3 <? u8 p then first_pending 4 4 int_src else u8 p in
  if ch =? 8 then mret tt
  else auto_reload_step ch ;; dma_dispatch ch int_src.

Definition DMA_Channel0_IRQHandler : M st unit := dma_irq_proc 0.
Definition DMA_Channel1_IRQHandler : M st unit := dma_irq_proc 1.
Definition DMA_Channel2_IRQHandler : M st unit := dma_irq_proc 2.
Definition DMA_Channel3_IRQHandler : M st unit := dma_irq_proc 3.
Definition DMA_Channel4_7_IRQHandler : M st unit := dma_irq_proc 4.
End dma_ops.
