(* ===== verification/DmaProps.v ===== *)
(** * Channels as a pool

    Requests and releases of channels behave like those of a pool of eight;
    what a release and the shared interrupt do to the other channels. *)
From S2P Require Import Prelude CMonad Keeps Dma.

(** The abstract pool: which of the eight are taken. *)
Abbreviation pool := (list bool).
Definition lowest_free (u : pool) : option nat := fst <$> list_find (fun b => b = false) u.
Definition is_free (ch : Z) (u : pool) : bool := (0 <=? ch) && bool_decide (u !! Z.to_nat ch = Some false).

Inductive pool_op := Request (ch flags : Z) | Release (ch : Z).

(** The channel wanted if it is free, else the lowest free one, else none. *)
Definition pool_step (o : pool_op) (u : pool) : Z * pool :=
  match o with
  | Request ch _ =>
      if is_free ch u then (ch, <[Z.to_nat ch := true]> u)
      else match lowest_free u with
           | Some i => (Z.of_nat i, <[i := true]> u)
           | None => (0xFF, u)
           end
  | Release ch => (0, <[Z.to_nat ch := false]> u)
  end.
Fixpoint pool_run (os : list pool_op) (u : pool) : list Z * pool :=
  match os with
  | [] => ([], u)
  | o :: os => let '(r, u) := pool_step o u in let '(rs, u) := pool_run os u in (r :: rs, u)
  end.

Section dma_props.
Context {D F W : Type} `{DmaLaws D}.
Implicit Types s : dma D F W.

(** The code, with enough looks at a channel that is to stop. *)
Definition code_step (polls : nat) (o : pool_op) : M (dma D F W) Z :=
  match o with
  | Request ch flags => tls_dma_request ch flags
  | Release ch => tls_dma_free polls ch ;; mret 0
  end.
Fixpoint code_run (polls : nat) (os : list pool_op) : M (dma D F W) (list Z) :=
  match os with
  | [] => mret []
  | o :: os => r ← code_step polls o; rs ← code_run polls os; mret (r :: rs)
  end.

(** The arguments are bytes; a channel that is released is one of the eight. *)
Definition op_ok (o : pool_op) : Prop :=
  match o with Request ch flags => 0 <= ch < 256 /\ 0 <= flags < 128 | Release ch => 0 <= ch < 8 end.

Definition chan_taken (c : Z) : bool := negb (c &&& TLS_DMA_FLAGS_CHANNEL_VALID =? 0).

(** The bits of [dma_used_bit] are the valid channels, and the clock runs
    while there are any. *)
Record pool_of (u : pool) s : Prop := {
  po_channels : chan_taken <$> channels s = u;
  po_len : length u = 8%nat;
  po_used : 0 <= dma_used_bit s < 2 ^ 8;
  po_bits : forall i, (i < 8)%nat -> u !! i = Some (Z.testbit (dma_used_bit s) (Z.of_nat i));
  po_clock : dma_clock s = negb (dma_used_bit s =? 0)
}.

(** The controller makes no difference. *)
Definition with_ctl (d : D) s : dma D F W :=
  Dma (dma_used_bit s) (channels s) (dma_context s) (len s) d (dma_clock s) (dma_irqs s) (rest s).

Lemma pool_of_ctl u s d : pool_of u s -> pool_of u (with_ctl d s).
Proof using. intros [? ? ? ? ?]. by split. Qed.

Lemma dma_rd_spec r s (Q : Z -> dma D F W -> Prop) :
  Q (fst (dma_read r (ctl s))) (with_ctl (snd (dma_read r (ctl s))) s) -> wp (dma_rd r) s Q.
Proof using. intros HQ. apply wp_zoom. unfold with_ctl in HQ. by destruct (dma_read r (ctl s)). Qed.
Lemma dma_upd_spec r f s (Q : unit -> dma D F W -> Prop) :
  (forall d, Q tt (with_ctl d s)) -> wp (dma_upd r f) s Q.
Proof using. intros HQ. apply wp_bind, dma_rd_spec, wp_modify. apply HQ. Qed.
Lemma dma_wr_spec r v s (Q : unit -> dma D F W -> Prop) : Q tt (with_ctl (dma_write r (u32 v) (ctl s)) s) -> wp (dma_wr r v) s Q.
Proof using. intros HQ. by apply wp_modify. Qed.

(** ** Requests *)

Lemma channel_at u s ch (Q : Z -> dma D F W -> Prop) :
  pool_of u s -> 0 <= ch < 8 -> (forall c, u !! Z.to_nat ch = Some (chan_taken c) -> Q c s) -> wp (at_ channels ch) s Q.
Proof using.
  intros [Hc Hl _ _ _] Hch HQ. apply wp_bind, wp_gets. rewrite (proj2 (Z.leb_le _ _)) by lia.
  destruct (lookup_lt_is_Some_2 u (Z.to_nat ch) ltac:(lia)) as [b Hb]. rewrite <- Hc, list_lookup_fmap in Hb.
  destruct (channels s !! Z.to_nat ch) as [c|] eqn:Ec; [|done]. injection Hb as Hb. apply (wp_must _ c); [done|]. apply HQ.
  by rewrite <- Hc, list_lookup_fmap, Ec.
Qed.

Lemma first_free_spec u n i s (Q : Z -> dma D F W -> Prop) :
  pool_of u s -> (i + n = 8)%nat ->
  Q (match lowest_free (drop i u) with Some k => Z.of_nat (i + k) | None => 0xFF end) s ->
  wp (first_free n (Z.of_nat i)) s Q.
Proof using.
  intros Hp. revert i. induction n as [|n IH]; intros i Hi HQ; cbn [first_free].
  - unfold lowest_free in HQ. rewrite drop_ge in HQ by (rewrite (po_len _ _ Hp); lia). by apply wp_ret.
  - apply wp_bind, (channel_at u); [done|lia|]. intros c Hc. rewrite Nat2Z.id in Hc.
    rewrite (drop_S u (chan_taken c) i) in HQ by done. assert (Ht : (c &&& TLS_DMA_FLAGS_CHANNEL_VALID =? 0) = negb (chan_taken c)) by (unfold chan_taken; by rewrite negb_involutive).
    rewrite Ht. unfold lowest_free in *. destruct (chan_taken c); cbn -[Z.of_nat Nat.add] in HQ |- *.
    + replace (Z.of_nat i + 1) with (Z.of_nat (S i)) by lia. apply IH; [lia|]. rewrite decide_False in HQ by done.
      destruct (list_find _ (drop (S i) u)) as [[k b]|]; [|done].
      cbn -[Z.of_nat Nat.add] in *. by replace (S i + k)%nat with (i + S k)%nat by lia.
    + rewrite decide_True in HQ by done. cbn -[Z.of_nat Nat.add] in HQ. replace (i + 0)%nat with i in HQ by lia. by apply wp_ret.
Qed.

(** What a request gives. *)
Definition picked (ch : Z) (u : pool) : Z :=
  if is_free ch u then ch else match lowest_free u with Some i => Z.of_nat i | None => 0xFF end.

Lemma request_pick_spec u ch s (Q : Z -> dma D F W -> Prop) :
  pool_of u s -> 0 <= ch < 256 -> Q (picked ch u) s -> wp (request_pick ch) s Q.
Proof using.
  intros Hp Hch HQ. apply wp_bind. unfold picked, is_free in HQ. rewrite (proj2 (Z.leb_le 0 ch)) in * by lia. cbn [andb] in *.
  assert (Hscan : bool_decide (u !! Z.to_nat ch = Some false) = false -> wp (first_free 8 0) s Q).
  { intros E. rewrite E in HQ. by apply (first_free_spec u 8 0). }
  destruct (Z.ltb_spec ch 8) as [Hlt|Hge].
  - apply wp_bind, (channel_at u); [done|lia|]. intros c Hc. apply wp_ret. rewrite Hc in HQ, Hscan. unfold chan_taken in HQ, Hscan.
    destruct (c &&& TLS_DMA_FLAGS_CHANNEL_VALID =? 0); cbn in *.
    + rewrite (proj2 (Z.eqb_neq ch 0xFF)) by lia. by apply wp_ret.
    + by apply Hscan.
  - apply wp_ret. cbn. apply Hscan. rewrite lookup_ge_None_2 by (rewrite (po_len _ _ Hp); lia). done.
Qed.

Lemma lowest_free_Some u i : lowest_free u = Some i -> u !! i = Some false /\ forall j, (j < i)%nat -> u !! j <> Some false.
Proof using.
  unfold lowest_free. destruct (list_find _ u) as [[k b]|] eqn:E; cbn; [|done]. intros [= ->].
  apply list_find_Some in E as (Hk & -> & Hmin). split; [done|]. intros j Hj Hf. by apply (Hmin j false).
Qed.

Lemma picked_free ch u : length u = 8%nat -> picked ch u = 0xFF \/ 0 <= picked ch u < 8 /\ u !! Z.to_nat (picked ch u) = Some false.
Proof using.
  intros Hl. unfold picked, is_free. destruct (Z.leb_spec 0 ch), (bool_decide_reflect (u !! Z.to_nat ch = Some false)) as [Hf|]; cbn [andb].
  1: { right. split; [|done]. apply lookup_lt_Some in Hf. lia. }
  all: destruct (lowest_free u) as [i|] eqn:E; [|by left]; apply lowest_free_Some in E as [E _]; right; rewrite Nat2Z.id; split; [|done];
    apply lookup_lt_Some in E; lia.
Qed.

Lemma taken_valid flags : 0 <= flags < 128 -> chan_taken (u8 (flags ||| TLS_DMA_FLAGS_CHANNEL_VALID)) = true.
Proof using.
  intros Hf. unfold chan_taken, TLS_DMA_FLAGS_CHANNEL_VALID. rewrite wrap_id by (apply (lor_bounds 8); lia || (vm_compute; split; congruence)).
  rewrite Z.land_lor_distr_l. change ((1 ≪ 7) &&& (1 ≪ 7)) with 128. destruct (Z.eqb_spec ((flags &&& (1 ≪ 7)) ||| 128) 0) as [E|]; [|done].
  apply Z.lor_eq_0_iff in E as [_ E]. done.
Qed.

(** One bit more, or less. *)
Lemma used_set used i : 0 <= used < 2 ^ 8 -> (i < 8)%nat ->
  let used' := u16 (used ||| (1 ≪ Z.of_nat i)) in 0 < used' < 2 ^ 8 /\ forall j, Z.testbit used' (Z.of_nat j) = if decide (j = i) then true else Z.testbit used (Z.of_nat j).
Proof using.
  intros Hu Hi. assert (Hb : 0 <= 1 ≪ Z.of_nat i < 2 ^ 8) by (rewrite Z.shiftl_1_l; split; [lia|apply Z.pow_lt_mono_r; lia]).
  pose proof (lor_bounds 8 used _ ltac:(lia) Hu Hb) as Hlor. cbv zeta. rewrite wrap_id by lia.
  assert (Hbits : forall j, Z.testbit (used ||| (1 ≪ Z.of_nat i)) (Z.of_nat j) = if decide (j = i) then true else Z.testbit used (Z.of_nat j)).
  { intros j. rewrite Z.lor_spec, Z.shiftl_1_l, Z.pow2_bits_eqb by lia. destruct (decide (j = i)) as [->|Hne].
    - by rewrite Z.eqb_refl, orb_true_r.
    - rewrite (proj2 (Z.eqb_neq _ _)) by lia. by rewrite orb_false_r. }
  split; [|exact Hbits]. destruct (Z.eq_dec (used ||| (1 ≪ Z.of_nat i)) 0) as [E|]; [|lia].
  specialize (Hbits i). rewrite E, Z.bits_0, decide_True in Hbits by done. done.
Qed.
Lemma used_clear used i : 0 <= used < 2 ^ 8 ->
  let used' := u16 (used &&& Z.lnot (1 ≪ Z.of_nat i)) in 0 <= used' < 2 ^ 8 /\ forall j, Z.testbit used' (Z.of_nat j) = if decide (j = i) then false else Z.testbit used (Z.of_nat j).
Proof using.
  intros Hu. pose proof (land_bounds_l 8 used (Z.lnot (1 ≪ Z.of_nat i)) ltac:(lia) Hu) as Hl.
  cbv zeta. rewrite wrap_id by lia. split; [lia|]. intros j. rewrite Z.land_spec, Z.lnot_spec, Z.shiftl_1_l, Z.pow2_bits_eqb by lia.
  destruct (decide (j = i)) as [->|Hne].
  - by rewrite Z.eqb_refl, andb_false_r.
  - rewrite (proj2 (Z.eqb_neq _ _)) by lia. by rewrite andb_true_r.
Qed.

Lemma request_take_spec u ch flags s (Q : Z -> dma D F W -> Prop) :
  pool_of u s -> 0 <= flags < 128 -> ch = 0xFF \/ 0 <= ch < 8 ->
  (forall s', pool_of (if ch =? 0xFF then u else <[Z.to_nat ch := true]> u) s' -> rest s' = rest s -> dma_context s' = dma_context s -> Q ch s') -> wp (request_take ch flags) s Q.
Proof using.
  intros Hp Hf Hch HQ. apply wp_bind. destruct Hch as [->|Hch]; [apply wp_ret, wp_ret; by apply HQ|].
  rewrite (proj2 (Z.leb_le _ _)), (proj2 (Z.ltb_lt _ _)) by lia. cbn [andb]. rewrite (proj2 (Z.eqb_neq ch 0xFF)) in HQ by lia.
  destruct Hp as [Hc Hl Hu Hb Hck]. destruct (used_set (dma_used_bit s) (Z.to_nat ch) Hu ltac:(lia)) as [Hu' Hb'].
  rewrite Z2Nat.id in Hu', Hb' by lia. apply wp_bind, wp_gets, wp_bind.
  assert (Hgo : forall ck, wp (set_used (fun u => u ||| (1 ≪ ch)) ;; set_channels <[Z.to_nat ch := u8 (flags ||| TLS_DMA_FLAGS_CHANNEL_VALID)]> ;; dma_wr (DMA_MODE ch) flags)
    (Dma (dma_used_bit s) (channels s) (dma_context s) (len s) (ctl s) ck (dma_irqs s) (rest s)) (fun _ s' => ck = true -> wp (mret ch) s' Q)).
  { intros ck. apply wp_bind, wp_modify, wp_bind, wp_modify, wp_modify. intros ->. apply wp_ret, HQ; [|done|done]. split; cbn.
    - by rewrite list_fmap_insert, taken_valid, Hc.
    - by rewrite length_insert.
    - lia.
    - intros i Hi. rewrite Hb'. destruct (decide (i = Z.to_nat ch)) as [->|Hne].
      + apply list_lookup_insert_eq. lia.
      + rewrite list_lookup_insert_ne by done. by apply Hb.
    - by rewrite (proj2 (Z.eqb_neq _ _)) by lia. }
  destruct (Z.eqb_spec (dma_used_bit s) 0) as [Ez|Ez].
  - apply wp_modify. eapply wp_mono; [apply (Hgo true)|]. cbv beta. auto.
  - apply wp_ret. assert (Hon : dma_clock s = true) by exact Hck.
    replace s with (Dma (dma_used_bit s) (channels s) (dma_context s) (len s) (ctl s) (dma_clock s) (dma_irqs s) (rest s)) at 1 by by destruct s.
    eapply wp_mono; [apply Hgo|]. cbv beta. auto.
Qed.

(** ** Releases *)

(** The looks at a channel that has been told to stop. *)
Definition looks (ch : Z) (n : nat) (d : D) : D := Nat.iter n (fun d => snd (dma_read (CHNL_CTRL ch) d)) d.

Lemma wait_off_spec n polls ch s (Q : unit -> dma D F W -> Prop) :
  (n < polls)%nat -> fst (dma_read (CHNL_CTRL ch) (looks ch n (ctl s))) &&& DMA_CHNL_CTRL_CHNL_ON = 0 ->
  (forall d, Q tt (with_ctl d s)) -> wp (wait_off polls ch) s Q.
Proof using.
  revert polls s. induction n as [|n IH]; intros [|polls] s Hn Hoff HQ; try lia; unfold wait_off; cbn [mloop].
  - apply wp_bind, wp_bind, dma_rd_spec. cbn in Hoff. rewrite Hoff. apply wp_ret, wp_ret, HQ.
  - apply wp_bind, wp_bind, dma_rd_spec. apply wp_ret. destruct (_ =? 0); [apply wp_ret, HQ|].
    apply (IH polls (with_ctl _ s)); [lia| |intros d; apply HQ].
    unfold looks in *. rewrite Nat.iter_succ_r in Hoff. exact Hoff.
Qed.

Lemma dma_stop_spec polls ch s (Q : Z -> dma D F W -> Prop) :
  (off_wait <= polls)%nat -> 0 <= ch < 8 -> (forall d, Q 0 (with_ctl d s)) -> wp (tls_dma_stop polls ch) s Q.
Proof using.
  intros Hpolls Hch HQ. unfold tls_dma_stop. rewrite (proj2 (Z.ltb_ge _ _)) by lia. apply wp_bind, dma_rd_spec, wp_bind.
  destruct (negb _); [|apply wp_ret, wp_ret, HQ]. apply wp_bind, wp_bind, dma_rd_spec, wp_modify.
  set (v := u32 _). set (d := snd (dma_read _ (ctl (with_ctl _ s)))).
  destruct (stays_off ch v d) as (n & Hn & Hoff).
  { unfold v. intros E. apply (f_equal (fun x => Z.testbit x 1)) in E. rewrite Z.land_spec in E. unfold wrap in E.
    rewrite Z.mod_pow2_bits_low, Z.lor_spec in E by lia. change (Z.testbit DMA_CHNL_CTRL_CHNL_OFF 1) with true in E. by rewrite orb_true_r in E. }
  apply (wait_off_spec n); [lia|exact Hoff|]. intros d'. apply wp_ret. apply (HQ d').
Qed.

Lemma dma_free_spec u polls ch s (Q : unit -> dma D F W -> Prop) :
  pool_of u s -> (off_wait <= polls)%nat -> 0 <= ch < 8 ->
  (forall s', pool_of (<[Z.to_nat ch := false]> u) s' -> rest s' = rest s -> dma_context s' = dma_context s -> Q tt s') -> wp (tls_dma_free polls ch) s Q.
Proof using.
  intros [Hc Hl Hu Hb Hck] Hpolls Hch HQ. unfold tls_dma_free. rewrite (proj2 (Z.ltb_lt _ _)) by lia.
  apply wp_bind, dma_stop_spec; [done|done|]. intros d1. do 4 (apply wp_bind, wp_modify). apply wp_bind, dma_upd_spec. intros d2.
  apply wp_bind, wp_modify, wp_bind, wp_modify, wp_bind, wp_gets. cbn [with_ctl dma_used_bit channels dma_clock].
  destruct (used_clear (dma_used_bit s) (Z.to_nat ch) Hu) as [Hu' Hb']. rewrite Z2Nat.id in Hu', Hb' by lia.
  set (used' := u16 _) in *.
  assert (Hgo : forall d ck, ck = negb (used' =? 0) ->
    pool_of (<[Z.to_nat ch := false]> u) (Dma used' (<[Z.to_nat ch := 0]> (channels s)) (dma_context s) (len s) d ck (dma_irqs s) (rest s))).
  { intros d ck ->. split; cbn.
    - by rewrite list_fmap_insert, Hc.
    - by rewrite length_insert.
    - lia.
    - intros i Hi. rewrite Hb'. destruct (decide (i = Z.to_nat ch)) as [->|Hne]; [apply list_lookup_insert_eq; lia|].
      rewrite list_lookup_insert_ne by done. by apply Hb.
    - done. }
  destruct (Z.eqb_spec used' 0) as [Ez|Ez].
  - apply wp_modify, HQ; [by apply Hgo|done|done].
  - apply wp_ret, HQ; [apply Hgo|done|done]. cbn. rewrite Hck.
    destruct (Z.eqb_spec (dma_used_bit s) 0) as [E0|]; [|done]. exfalso. apply Ez. unfold used'. by rewrite E0, Z.land_0_l.
Qed.

(** ** The pool *)

Lemma code_step_spec u polls o s :
  pool_of u s -> op_ok o -> (off_wait <= polls)%nat ->
  wp (code_step polls o) s (fun r s' => let '(r', u') := pool_step o u in r = r' /\ pool_of u' s' /\ rest s' = rest s).
Proof using.
  intros Hp Ho Hpolls. destruct o as [ch flags|ch]; cbn [code_step op_ok] in *.
  - apply wp_bind, (request_pick_spec u); [done|lia|]. pose proof (picked_free ch u (po_len _ _ Hp)) as Hpick.
    apply (request_take_spec u); [done|lia|tauto|]. intros s' Hp' Hr' _. unfold picked in *. cbn [pool_step].
    destruct (is_free ch u) eqn:Ef.
    + rewrite (proj2 (Z.eqb_neq ch 0xFF)) in Hp'; [done|]. unfold is_free in Ef. apply andb_true_iff in Ef as [_ Ef%bool_decide_eq_true].
      apply lookup_lt_Some in Ef. rewrite (po_len _ _ Hp) in Ef. lia.
    + destruct (lowest_free u) as [i|] eqn:El; [|done]. apply lowest_free_Some in El as [El _]. apply lookup_lt_Some in El. rewrite (po_len _ _ Hp) in El.
      rewrite (proj2 (Z.eqb_neq (Z.of_nat i) 0xFF)), Nat2Z.id in Hp' by lia. done.
  - apply wp_bind, (dma_free_spec u); [done|done|lia|]. intros s' Hp' Hr' _. by apply wp_ret.
Qed.

(** C33. Any sequence of requests and releases of channels gives what a pool
    of eight gives: the channel asked for if it is free, else the lowest free
    one, else 0xFF; and the controller's clock runs exactly while a channel
    is taken. *)
Theorem dma_channels_are_a_pool u polls os s :
  pool_of u s -> Forall op_ok os -> (off_wait <= polls)%nat ->
  wp (code_run polls os) s (fun rs s' => rs = fst (pool_run os u) /\ pool_of (snd (pool_run os u)) s').
Proof.
  intros Hp Ho Hpolls. revert u s Hp. induction Ho as [|o os Ho Hos IH]; intros u s Hp; cbn [code_run pool_run]; [by apply wp_ret|].
  apply wp_bind. eapply wp_mono; [by apply (code_step_spec u)|]. cbv beta. intros r s1. destruct (pool_step o u) as [r' u1].
  intros (-> & Hp1 & _). apply wp_bind. eapply wp_mono; [by apply (IH u1)|]. cbv beta. intros rs s2 [-> Hp2].
  destruct (pool_run os u1) as [rs' u2]. by apply wp_ret.
Qed.

(** ** What goes wrong between channels *)

(** Two tasks that ask at the same time get the same channel. *)
Lemma dma_request_race u ch f1 f2 s :
  pool_of u s -> 0 <= ch < 256 -> 0 <= f1 < 128 -> 0 <= f2 < 128 ->
  wp (c1 ← request_pick ch; c2 ← tls_dma_request ch f2; c1 ← request_take c1 f1; mret (c1, c2)) s (fun r _ => fst r = picked ch u /\ snd r = picked ch u).
Proof using.
  intros Hp Hch Hf1 Hf2. pose proof (picked_free ch u (po_len _ _ Hp)) as Hpick.
  apply wp_bind, (request_pick_spec u); [done|done|]. apply wp_bind, wp_bind, (request_pick_spec u); [done|done|].
  apply (request_take_spec u); [done|done|tauto|]. intros s1 Hp1 _ _. apply wp_bind.
  eapply request_take_spec; [exact Hp1|done|tauto|]. intros s2 _ _ _. by apply wp_ret.
Qed.

(** Everything that can be pending stays so until it is cleared. *)
Definition stays_pending i s s' : Prop := Z.testbit (pend (ctl s)) i = true -> Z.testbit (pend (ctl s')) i = true.

#[global] Instance still_preorder i : PreOrder (stays_pending i).
Proof using. split; [intros s Hs; exact Hs|]. intros s1 s2 s3 H12 H23 Hi. auto. Qed.

Lemma dma_rd_keeps i r : keeps (stays_pending i) (dma_rd r).
Proof using.
  intros s a s'. unfold dma_rd, zoom. destruct (dma_read r (ctl s)) as [v d] eqn:Er. intros [= <- <-] Hi. cbn.
  pose proof (read_keeps_pend r (ctl s) i Hi) as Hk. by rewrite Er in Hk.
Qed.
Lemma dma_wr_keeps i r v : r <> INT_SRC -> keeps (stays_pending i) (dma_wr r v).
Proof using. intros Hr. apply keeps_modify. intros s Hi. by apply write_keeps_pend. Qed.
Lemma dma_upd_keeps i r f : r <> INT_SRC -> keeps (stays_pending i) (dma_upd r f).
Proof using. intros Hr. apply keeps_bind; [exact _|apply dma_rd_keeps|]. intros v. by apply dma_wr_keeps. Qed.
Hint Resolve dma_rd_keeps : keeps.
Hint Extern 1 (keeps (stays_pending _) (dma_wr _ _)) => apply dma_wr_keeps; discriminate : keeps.
Hint Extern 1 (keeps (stays_pending _) (dma_upd _ _)) => apply dma_upd_keeps; discriminate : keeps.
Lemma dma_stop_keeps i polls ch : keeps (stays_pending i) (tls_dma_stop polls ch).
Proof using. unfold tls_dma_stop, wait_off. keep. Qed.

(** [DMA_INTSRC_REG |= bits] clears what it is read to be. *)
Lemma or_clears_all bits s i :
  Z.testbit (pend (ctl s)) i = true -> wp (dma_upd INT_SRC (fun v => v ||| bits)) s (fun _ s' => Z.testbit (pend (ctl s')) i = false).
Proof using.
  intros Hi. apply wp_bind, dma_rd_spec, wp_modify. cbn. apply clear_pend. rewrite read_pend. pose proof (pend_word (ctl s)) as Hw.
  assert (Hi32 : i < 32) by (destruct (Z.lt_ge_cases i 32); [done|]; rewrite (testbit_high 32) in Hi by done; done).
  unfold wrap. rewrite Z.mod_pow2_bits_low by done. by rewrite Z.lor_spec, Hi.
Qed.

(** A release clears the pending interrupts of all channels: that another
    transfer is done is never told. *)
Lemma dma_free_clears_all polls ch s i :
  (off_wait <= polls)%nat -> 0 <= ch < 8 -> Z.testbit (pend (ctl s)) i = true ->
  wp (tls_dma_free polls ch) s (fun _ s' => Z.testbit (pend (ctl s')) i = false).
Proof using.
  intros Hpolls Hch Hi. unfold tls_dma_free. rewrite (proj2 (Z.ltb_lt _ _)) by lia. apply wp_bind. eapply wp_mono.
  { apply (wp_keeps (stays_pending i)); [apply dma_stop_keeps|]. apply (dma_stop_spec polls ch s (fun _ _ => True)); done. }
  cbv beta. intros _ s1 [_ Hs1]. do 4 (apply wp_bind, wp_modify). apply wp_bind. eapply wp_mono; [apply (or_clears_all _ _ i)|].
  - cbn. do 4 (apply write_keeps_pend; [discriminate|]). by apply Hs1.
  - cbv beta. intros _ s2 Hs2. apply wp_bind, wp_modify, wp_bind, wp_modify, wp_bind, wp_gets. by destruct (_ =? 0).
Qed.

(** While a channel of 4 to 7 has something pending that its registration did
    not ask for, the interrupt of the four serves neither it nor those
    behind it: nothing is called and nothing is cleared. *)
Lemma dma_shared_starves run polls c s :
  fst (dma_read INT_SRC (ctl s)) &&& (TLS_DMA_IRQ_BOTH_DONE ≪ 8) <> 0 -> dma_context s !! 4%nat = Some c -> ctx_flags c = 0 ->
  fst (dma_read (DMA_CTRL 4) (snd (dma_read INT_SRC (ctl s)))) &&& 0x01 = 0 ->
  wp (dma_irq_proc run polls 4) s (fun _ s' => s' = with_ctl (ctl s') s /\ forall i, stays_pending i s s').
Proof using.
  intros Hp Hc Hf Hctl. apply wp_bind, dma_rd_spec. set (v := fst _) in *. set (s1 := with_ctl _ s).
  change (if 3 <? u8 4 then first_pending 4 4 v else u8 4) with (first_pending 4 4 v). cbn [first_pending].
  change (4 * 2) with 8. rewrite (proj2 (Z.eqb_neq (v &&& _) 0)) by done. cbn [negb]. change (4 =? 8) with false. cbv iota.
  apply wp_bind, wp_bind, dma_rd_spec. change (ctl s1) with (snd (dma_read INT_SRC (ctl s))). rewrite Hctl. cbn [Z.eqb negb]. apply wp_ret. set (s2 := with_ctl _ s1).
  apply wp_bind, wp_bind, wp_gets, (wp_must _ c); [exact Hc|]. cbv zeta beta. rewrite Hf. change (0 =? TLS_DMA_IRQ_BOTH_DONE) with false.
  change (0 =? TLS_DMA_IRQ_BURST_DONE) with false. change (0 =? TLS_DMA_IRQ_TRANSFER_DONE) with false. rewrite !andb_false_r.
  apply wp_ret. split; [done|]. intros i Hi. cbn. by apply read_keeps_pend, read_keeps_pend.
Qed.
End dma_props.
