(* ===== verification/UartDma.v ===== *)
(** * Sending over a UART by DMA

    [tls_uart_dma_write] and the callback that ends the transfer: the UART
    driver as a client of the DMA driver, which calls it back from its
    interrupt. *)
From S2P Require Import Prelude CMonad Keeps DlList HostEnv Uart UartRing UartTx UartRx UartIrq UartRead UartProps UartInit UartBoard Dma DmaProps.

Definition TLS_DMA_SEL_UART_TX : Z := 1.
Definition TLS_DMA_DESC_VALID : Z := 1 ≪ 31.
Definition TLS_DMA_DESC_CTRL_SRC_ADD_INC : Z := 1 ≪ 0.
Definition UR_TXW_OFFSET : Z := 0x20.

(** The callbacks of the DMA driver: this driver's, or a client's. *)
Inductive dma_fn := Uart_dma_write_complete | Dma_client (fn : Z).

Section uart_dma.
Context {E U W D : Type} `{Host E} `{UartRegs U} `{UartClient W} `{UartMem} `{DmaRegs D}.
Abbreviation st := (dma D dma_fn (board E U W)).

Definition at_port {A} (uart_no : Z) (m : M (uart E U W) A) : M st A := on_rest (on_port uart_no m).

Definition tls_uart_dma_write_complte_callback (polls : nat) (dma_uart_ch : Z) : M st unit :=
  let uart_no := u16 ((dma_uart_ch &&& 0x00FFFF00) ≫ 8) in
  let dma_ch := dma_uart_ch &&& 0xFF in
  tls_dma_free polls dma_ch ;;
  at_port uart_no (set_prt (set_tx_dma_on false)) ;;
  q ← at_port uart_no (gets prt);
  if negb (tx_sent_callback q =? 0) then at_port uart_no (on_world (tx_called (tx_sent_callback q) uart_no)) else mret tt.

(** What the function pointers in the DMA driver point to. *)
Definition run_dma (polls : nat) (f : dma_fn) (arg : Z) : M st unit :=
  match f with
  | Uart_dma_write_complete => tls_uart_dma_write_complte_callback polls arg
  | Dma_client fn => on_rest (modify (fun b =>
      Board (b_heap b) (tx_called fn arg (b_world b)) (uart_port b) (b_lnk b) (b_msgs b) (uart_rx_byte_cb_flag b) (irq_on b)))
  end.

Definition tls_uart_dma_write (buf writesize cmpl_callback uart_no : Z) : M st Z :=
  if (buf =? 0) || (writesize <? 1) || (4096 <=? writesize) then mret WM_FAILED
  else
    q ← at_port uart_no (gets prt);
    if tx_dma_on q then mret WM_FAILED
    else
      dmaCh ← tls_dma_request 0xFF (TLS_DMA_FLAGS_CHANNEL_SEL TLS_DMA_SEL_UART_TX ||| TLS_DMA_FLAGS_HARD_MODE);
      if dmaCh =? 0xFF then mret WM_FAILED
      else
        dma_wr CHNL_SEL uart_no ;;
        at_port uart_no (upd_reg UR_DMAC (fun v => v &&& Z.lnot 0x01)) ;;
        at_port uart_no (set_prt (set_tx_sent_callback cmpl_callback)) ;;
        tls_dma_irq_register dmaCh (Some Uart_dma_write_complete) (dmaCh ||| (uart_no ≪ 8)) TLS_DMA_IRQ_TRANSFER_DONE ;;
        at_port uart_no (set_prt (set_tx_dma_on true)) ;;
        at_port uart_no (upd_reg UR_DMAC (fun v => v ||| 0x01)) ;;
        _ ← tls_dma_start dmaCh (Some (Desc TLS_DMA_DESC_VALID (TLS_DMA_DESC_CTRL_SRC_ADD_INC ||| (writesize ≪ 7)) buf (u32 (regs_at q + UR_TXW_OFFSET)))) 0;
        mret WM_SUCCESS.
End uart_dma.

Section transfer.
Context {E U W D : Type} `{Host E} `{UartRegsLaws U} `{UartClient W} `{UartMem} `{DmaLaws D}.
Implicit Types s : dma D dma_fn (board E U W).

(** Port [no] is [p], and the client's state is [w]. *)
Definition port_is (no : Z) (p : port) (w : W) s : Prop :=
  0 <= no /\ (exists d, uart_port (rest s) !! Z.to_nat no = Some (p, d)) /\ b_world (rest s) = w.

(** Only the rest of the system has changed. *)
Definition same_dma s s' : Prop :=
  dma_used_bit s' = dma_used_bit s /\ channels s' = channels s /\ dma_context s' = dma_context s /\ len s' = len s /\
  ctl s' = ctl s /\ dma_clock s' = dma_clock s /\ dma_irqs s' = dma_irqs s.

Lemma pool_of_same u s s' : pool_of u s -> same_dma s s' -> pool_of u s'.
Proof using. intros [? ? ? ? ?] (E1 & E2 & _ & _ & _ & E6 & _). split; by rewrite ?E1, ?E2, ?E6. Qed.

Lemma at_port_spec {A} no p w (m : M (uart E U W) A) (R : A -> port -> W -> Prop) s (Q : A -> dma D dma_fn (board E U W) -> Prop) :
  port_is no p w s -> (forall x, prt x = p -> world x = w -> wp m x (fun a x' => R a (prt x') (world x'))) ->
  (forall a p' w' s', R a p' w' -> port_is no p' w' s' -> same_dma s s' -> Q a s') -> wp (at_port no m) s Q.
Proof using.
  intros (Hno & [d Hd] & Hw) Hm HQ. apply wp_zoom. unfold on_port, port_at. rewrite (proj2 (Z.leb_le _ _)), Hd by done. cbn [mbind option_bind].
  specialize (Hm (view (p, d) (rest s)) eq_refl Hw). unfold wp in Hm. destruct (m (view (p, d) (rest s))) as [[a x]|]; [|done].
  apply (HQ a (prt x) (world x)); [done| |by repeat split]. split; [done|]. split; [|done]. exists (dev x). cbn.
  apply list_lookup_insert_eq. by eapply lookup_lt_Some.
Qed.

Lemma at_set no p w f s (Q : unit -> dma D dma_fn (board E U W) -> Prop) :
  port_is no p w s -> (forall s', port_is no (f p) w s' -> same_dma s s' -> Q tt s') -> wp (at_port no (set_prt f)) s Q.
Proof using.
  intros Hp HQ. apply (at_port_spec no p w _ (fun _ p' w' => p' = f p /\ w' = w)); [done| |].
  - intros x Hx1 Hx2. apply wp_modify. cbn. by rewrite Hx1.
  - intros [] p' w' s' [-> ->]. apply HQ.
Qed.
Lemma at_get no p w s (Q : port -> dma D dma_fn (board E U W) -> Prop) :
  port_is no p w s -> (forall s', port_is no p w s' -> same_dma s s' -> Q p s') -> wp (at_port no (gets prt)) s Q.
Proof using.
  intros Hp HQ. apply (at_port_spec no p w _ (fun a p' w' => a = p /\ p' = p /\ w' = w)); [done| |].
  - intros x Hx1 Hx2. by apply wp_gets.
  - intros a p' w' s' (-> & -> & ->). apply HQ.
Qed.
Lemma at_reg no p w r f s (Q : unit -> dma D dma_fn (board E U W) -> Prop) :
  port_is no p w s -> (forall s', port_is no p w s' -> same_dma s s' -> Q tt s') -> wp (at_port no (upd_reg r f)) s Q.
Proof using H1.
  intros Hp HQ. apply (at_port_spec no p w _ (fun _ p' w' => p' = p /\ w' = w)); [done| |].
  - intros x Hx1 Hx2. by apply wp_bind, rd_spec, wp_modify.
  - intros [] p' w' s' [-> ->]. apply HQ.
Qed.
Lemma at_world no p w f s (Q : unit -> dma D dma_fn (board E U W) -> Prop) :
  port_is no p w s -> (forall s', port_is no p (f w) s' -> same_dma s s' -> Q tt s') -> wp (at_port no (on_world f)) s Q.
Proof using.
  intros Hp HQ. apply (at_port_spec no p w _ (fun _ p' w' => p' = p /\ w' = f w)); [done| |].
  - intros x Hx1 Hx2. apply wp_modify. cbn. by rewrite Hx2.
  - intros [] p' w' s' [-> ->]. apply HQ.
Qed.

(** The argument of the callback and what it is taken apart to. *)
Lemma callback_arg_parts ch no : 0 <= ch < 8 -> 0 <= no < 6 ->
  (ch ||| (no ≪ 8)) &&& 0xFF = ch /\ u16 (((ch ||| (no ≪ 8)) &&& 0x00FFFF00) ≫ 8) = no.
Proof using.
  intros Hch Hno. assert (Hall : Forall (fun ch => Forall (fun no => (ch ||| (no ≪ 8)) &&& 0xFF = ch /\ u16 (((ch ||| (no ≪ 8)) &&& 0x00FFFF00) ≫ 8) = no)
    (seqZ 0 6)) (seqZ 0 8)) by (apply (bool_decide_unpack _); vm_compute; exact I).
  rewrite Forall_forall in Hall. specialize (Hall ch ltac:(apply elem_of_seqZ; lia)). rewrite Forall_forall in Hall.
  apply Hall, elem_of_seqZ. lia.
Qed.

(** ** The transfer *)

Lemma same_dma_trans s1 s2 s3 : same_dma s1 s2 -> same_dma s2 s3 -> same_dma s1 s3.
Proof using. intros (E1 & E2 & E3 & E4 & E5 & E6 & E7) (F1 & F2 & F3 & F4 & F5 & F6 & F7). repeat split; congruence. Qed.

(** What the interrupt needs to find: the registration of channel [i]. *)
Definition registered (i : nat) (no : Z) s : Prop :=
  exists c, dma_context s !! i = Some c /\ ctx_flags c = TLS_DMA_IRQ_TRANSFER_DONE /\
    transfer_done_pf c = Some Uart_dma_write_complete /\ transfer_done_priv c = Z.of_nat i ||| (no ≪ 8).

(** The interrupt register [src] shows that the transfer of channel [i] is
    done and, for a channel of the shared handler, nothing of the channels it
    looks at before; other channels may show what they like. *)
Definition shows_done (i : nat) (src : Z) : Prop :=
  src &&& (TLS_DMA_IRQ_TRANSFER_DONE ≪ (Z.of_nat i * 2)) <> 0 /\
  forall j, 4 <= j < Z.of_nat i -> src &&& (TLS_DMA_IRQ_BOTH_DONE ≪ (j * 2)) = 0.

Lemma first_pending_at n ch i src :
  ch <= i -> i < ch + Z.of_nat n -> (forall j, ch <= j < i -> src &&& (TLS_DMA_IRQ_BOTH_DONE ≪ (j * 2)) = 0) ->
  src &&& (TLS_DMA_IRQ_BOTH_DONE ≪ (i * 2)) <> 0 -> first_pending n ch src = i.
Proof using.
  revert ch. induction n as [|n IH]; intros ch Hch Hin Hbefore Hi; [lia|]. cbn [first_pending].
  destruct (decide (ch = i)) as [->|Hne].
  - by rewrite (proj2 (Z.eqb_neq _ _) Hi).
  - rewrite Hbefore by lia. apply IH; [lia|lia| |done]. intros j Hj. apply Hbefore. lia.
Qed.

(** A done transfer is something pending. *)
Lemma transfer_pending src i : 0 <= i -> src &&& (TLS_DMA_IRQ_TRANSFER_DONE ≪ (i * 2)) <> 0 -> src &&& (TLS_DMA_IRQ_BOTH_DONE ≪ (i * 2)) <> 0.
Proof using.
  intros Hi Hs Hb. apply Hs. replace (TLS_DMA_IRQ_TRANSFER_DONE ≪ (i * 2)) with ((TLS_DMA_IRQ_BOTH_DONE ≪ (i * 2)) &&& (TLS_DMA_IRQ_TRANSFER_DONE ≪ (i * 2))).
  - by rewrite Z.land_assoc, Hb.
  - by rewrite <- Z.shiftl_land.
Qed.

Lemma shown_channel i src : (i < 8)%nat -> shows_done i src ->
  (if 3 <? u8 (Z.min 4 (Z.of_nat i)) then first_pending 4 4 src else u8 (Z.min 4 (Z.of_nat i))) = Z.of_nat i.
Proof using.
  intros Hi [Ht Hb]. rewrite wrap_id by lia. destruct (Z.ltb_spec 3 (Z.min 4 (Z.of_nat i))); [|lia].
  apply first_pending_at; [lia|lia|exact Hb|]. apply transfer_pending; [lia|exact Ht].
Qed.

Lemma transfer_complete polls u i no p w s :
  pool_of u s -> (off_wait <= polls)%nat -> (i < 8)%nat -> 0 <= no < 6 -> registered i no s -> port_is no p w s ->
  shows_done i (fst (dma_read INT_SRC (ctl s))) ->
  fst (dma_read (DMA_CTRL (Z.of_nat i)) (snd (dma_read INT_SRC (ctl s)))) &&& 0x01 = 0 ->
  wp (dma_irq_proc (run_dma polls) polls (Z.min 4 (Z.of_nat i))) s (fun _ s' =>
    pool_of (<[i := false]> u) s' /\
    port_is no (set_tx_dma_on false p) (if tx_sent_callback p =? 0 then w else tx_called (tx_sent_callback p) no w) s').
Proof using H1 H4.
  intros Hpool Hpolls Hi Hno (c & Hc & Hcf & Hct & Hcp) Hport Hsrc Hctl. apply wp_bind, dma_rd_spec.
  set (src := fst (dma_read INT_SRC (ctl s))) in *. pose proof (shown_channel i src Hi Hsrc) as Hch. destruct Hsrc as [Htransfer _].
  rewrite Hch. cbv zeta. rewrite (proj2 (Z.eqb_neq (Z.of_nat i) 8)) by lia. set (s1 := with_ctl _ s). apply wp_bind, wp_bind, dma_rd_spec.
  change (ctl s1) with (snd (dma_read INT_SRC (ctl s))). rewrite Hctl. apply wp_ret. set (s2 := with_ctl _ s1).
  apply wp_bind, wp_bind, wp_gets, (wp_must _ c).
  { rewrite (proj2 (Z.leb_le _ _)), Nat2Z.id by lia. exact Hc. }
  cbv beta zeta. rewrite Hcf, (proj2 (Z.eqb_neq _ _) Htransfer). change (TLS_DMA_IRQ_TRANSFER_DONE =? TLS_DMA_IRQ_BOTH_DONE) with false.
  change (TLS_DMA_IRQ_TRANSFER_DONE =? TLS_DMA_IRQ_BURST_DONE) with false. rewrite !andb_false_r.
  change (TLS_DMA_IRQ_TRANSFER_DONE =? TLS_DMA_IRQ_TRANSFER_DONE) with true. cbn [negb andb].
  apply wp_bind, wp_modify. rewrite Hct, Hcp. cbn [call_done run_dma]. unfold tls_uart_dma_write_complte_callback.
  destruct (callback_arg_parts (Z.of_nat i) no ltac:(lia) Hno) as [-> ->]. set (s3 := Dma _ _ _ _ _ _ _ _).
  assert (Hpool3 : pool_of u s3) by (destruct Hpool; by split). assert (Hport3 : port_is no p w s3) by exact Hport.
  apply wp_bind, (dma_free_spec u); [exact Hpool3|exact Hpolls|lia|]. rewrite Nat2Z.id. intros s4 Hpool4 Hrest4 _.
  assert (Hport4 : port_is no p w s4) by (unfold port_is in *; by rewrite Hrest4).
  apply wp_bind, (at_set no p w _ s4); [done|]. intros s5 Hport5 Hs5. apply wp_bind, (at_get no (set_tx_dma_on false p) w s5); [done|].
  intros s6 Hport6 Hs6. pose proof (pool_of_same _ _ _ (pool_of_same _ _ _ Hpool4 Hs5) Hs6) as Hpool6.
  change (tx_sent_callback (set_tx_dma_on false p)) with (tx_sent_callback p). destruct (tx_sent_callback p =? 0); cbn [negb].
  - by apply wp_ret.
  - apply (at_world no (set_tx_dma_on false p) w _ s6); [done|]. intros s7 Hport7 Hs7. split; [by eapply pool_of_same|done].
Qed.

(** The registration, and the start of the transfer. *)
Lemma irq_register_spec u i f arg fl s (Q : unit -> dma D dma_fn (board E U W) -> Prop) :
  pool_of u s -> (i < 8)%nat -> length (dma_context s) = 8%nat ->
  (forall s', pool_of u s' -> rest s' = rest s ->
    (exists c, dma_context s' !! i = Some c /\ ctx_flags c = fl /\
      (fl = TLS_DMA_IRQ_TRANSFER_DONE -> transfer_done_pf c = f /\ transfer_done_priv c = arg)) -> Q tt s') ->
  wp (tls_dma_irq_register (Z.of_nat i) f arg fl) s Q.
Proof using.
  intros Hp Hi Hl HQ. destruct (lookup_lt_is_Some_2 (dma_context s) i ltac:(lia)) as [c Hc].
  apply wp_bind, dma_upd_spec. intros d. apply wp_bind, wp_bind, wp_gets, (wp_must _ c).
  { rewrite (proj2 (Z.leb_le _ _)), Nat2Z.id by lia. exact Hc. }
  cbv zeta. apply wp_bind, wp_modify, wp_modify, HQ; [destruct Hp; by split|done|]. cbn. rewrite Nat2Z.id.
  eexists. split; [apply list_lookup_insert_eq; lia|]. split; [done|]. by intros ->.
Qed.

Lemma dma_start_spec u i desc reload s (Q : Z -> dma D dma_fn (board E U W) -> Prop) :
  pool_of u s -> u !! i = Some true -> (forall s', pool_of u s' -> rest s' = rest s -> dma_context s' = dma_context s -> Q 0 s') ->
  wp (tls_dma_start (Z.of_nat i) (Some desc) reload) s Q.
Proof using.
  intros Hp Hi HQ. unfold tls_dma_start. rewrite bool_decide_true by by eexists. rewrite andb_false_r.
  assert (Hused : u16 (if dma_used_bit s &&& (1 ≪ Z.of_nat i) =? 0 then dma_used_bit s ||| (1 ≪ Z.of_nat i) else dma_used_bit s) = dma_used_bit s).
  { pose proof (lookup_lt_Some _ _ _ Hi) as Hi8. rewrite (po_len _ _ Hp) in Hi8. pose proof (po_bits _ _ Hp i Hi8) as Hb. rewrite Hi in Hb.
    destruct (Z.eqb_spec (dma_used_bit s &&& (1 ≪ Z.of_nat i)) 0) as [E0|]; [|apply wrap_id; pose proof (po_used _ _ Hp); lia].
    apply (f_equal (fun x => Z.testbit x (Z.of_nat i))) in E0. rewrite Z.land_spec, Z.shiftl_1_l, Z.pow2_bits_true, Z.bits_0, andb_true_r in E0 by lia. congruence. }
  apply wp_bind, wp_modify. rewrite Hused. apply wp_bind, (wp_must _ desc); [done|]. do 3 (apply wp_bind, wp_modify). apply wp_bind, dma_upd_spec. intros d.
  apply wp_ret, HQ; [destruct Hp; by split|done|done].
Qed.

Lemma dma_write_spec u i buf writesize cmpl no p w s :
  pool_of u s -> lowest_free u = Some i -> length (dma_context s) = 8%nat -> port_is no p w s ->
  buf <> 0 -> 1 <= writesize < 4096 -> tx_dma_on p = false ->
  wp (tls_uart_dma_write buf writesize cmpl no) s (fun r s' => r = WM_SUCCESS /\ pool_of (<[i := true]> u) s' /\ registered i no s' /\
    port_is no (set_tx_dma_on true (set_tx_sent_callback cmpl p)) w s').
Proof using H1.
  intros Hpool Hfree Hl Hport Hbuf Hws Hoff. pose proof (po_len _ _ Hpool) as Hlen. pose proof (lowest_free_Some _ _ Hfree) as [Hi _]. pose proof (lookup_lt_Some _ _ _ Hi) as Hi8.
  rewrite Hlen in Hi8. unfold tls_uart_dma_write.
  rewrite (proj2 (Z.eqb_neq _ _)), (proj2 (Z.ltb_ge _ _)), (proj2 (Z.leb_gt _ _)) by (done || lia). cbn [orb].
  apply wp_bind, (at_get no p w s); [done|]. intros s1 Hport1 Hs1. rewrite Hoff. apply wp_bind, wp_bind, (request_pick_spec u); [by eapply pool_of_same|lia|].
  assert (Hpick : picked 0xFF u = Z.of_nat i).
  { unfold picked, is_free. rewrite bool_decide_false, andb_false_r, Hfree; [done|]. rewrite lookup_ge_None_2 by (rewrite Hlen; vm_compute; lia). done. }
  rewrite Hpick. apply (request_take_spec u); [by eapply pool_of_same|vm_compute; split; congruence|right; lia|]. rewrite Nat2Z.id, (proj2 (Z.eqb_neq _ _)) by lia.
  intros s2 Hpool2 Hrest2 Hctx2. assert (Hport2 : port_is no p w s2) by (unfold port_is in *; by rewrite Hrest2).
  apply wp_bind, wp_modify, wp_bind. set (s3 := Dma _ _ _ _ _ _ _ _).
  assert (Hpool3 : pool_of (<[i := true]> u) s3) by (destruct Hpool2; by split). assert (Hport3 : port_is no p w s3) by exact Hport2.
  apply (at_reg no p w _ _ s3); [done|]. intros s4 Hport4 Hs4. apply wp_bind, (at_set no p w _ s4); [done|]. intros s5 Hport5 Hs5.
  pose proof (same_dma_trans _ _ _ Hs4 Hs5) as Hs45. assert (Hl5 : length (dma_context s5) = 8%nat).
  { destruct Hs45 as (_ & _ & -> & _). destruct Hs1 as (_ & _ & Hc1 & _). change (dma_context s3) with (dma_context s2). by rewrite Hctx2, Hc1. }
  apply wp_bind, (irq_register_spec (<[i := true]> u)); [by eapply pool_of_same|done|done|]. intros s6 Hpool6 Hrest6 (c & Hc6 & Hcf & Hct). destruct (Hct eq_refl) as [Hct1 Hct2].
  assert (Hport6 : port_is no (set_tx_sent_callback cmpl p) w s6) by (unfold port_is in *; by rewrite Hrest6).
  apply wp_bind, (at_set no (set_tx_sent_callback cmpl p) w _ s6); [done|]. intros s7 Hport7 Hs7.
  apply wp_bind, (at_reg no (set_tx_dma_on true (set_tx_sent_callback cmpl p)) w _ _ s7); [done|]. intros s8 Hport8 Hs8. pose proof (same_dma_trans _ _ _ Hs7 Hs8) as Hs78.
  apply wp_bind, (dma_start_spec (<[i := true]> u)); [by eapply pool_of_same|apply list_lookup_insert_eq; lia|].
  intros s9 Hpool9 Hrest9 Hctx9. apply wp_ret. split; [done|]. split; [done|]. split; [|unfold port_is in *; by rewrite Hrest9].
  exists c. destruct Hs78 as (_ & _ & Hc78 & _). rewrite Hctx9, Hc78. done.
Qed.

(** C34. A transfer by DMA on port 1, the only one that supports it according
    to the source (which refuses no other): as long as a channel is free and
    the port is not transferring already, [tls_uart_dma_write] succeeds and
    takes the lowest free one; when the controller then shows that this
    channel's transfer is done - whatever other channels show, except those
    the handler that channels 4 to 7 share looks at before - and that the
    channel does not reload itself, the interrupt handler gives the channel
    back, the port is ready for the next transfer, and the client's function
    has been called once.  (What other channels had pending is cleared on the
    way: [dma_free_clears_all].) *)
Theorem uart_dma_transfer u i buf writesize cmpl p w f polls s :
  pool_of u s -> lowest_free u = Some i -> length (dma_context s) = 8%nat -> port_is TLS_UART_1 p w s -> tx_dma_on p = false ->
  buf <> 0 -> 1 <= writesize < 4096 -> (off_wait <= polls)%nat ->
  (forall d, shows_done i (fst (dma_read INT_SRC (f d)))) ->
  (forall d, fst (dma_read (DMA_CTRL (Z.of_nat i)) (snd (dma_read INT_SRC (f d)))) &&& 0x01 = 0) ->
  wp (r ← tls_uart_dma_write buf writesize cmpl TLS_UART_1; set_controller f ;; dma_irq_proc (run_dma polls) polls (Z.min 4 (Z.of_nat i)) ;; mret r) s (fun r s' =>
    r = WM_SUCCESS /\ pool_of u s' /\
    port_is TLS_UART_1 (set_tx_dma_on false (set_tx_sent_callback cmpl p)) (if cmpl =? 0 then w else tx_called cmpl TLS_UART_1 w) s').
Proof.
  intros Hpool Hfree Hl Hport Hoff Hbuf Hws Hpolls Hsrc Hctl. pose proof (lowest_free_Some _ _ Hfree) as [Hi _].
  pose proof (lookup_lt_Some _ _ _ Hi) as Hi8. rewrite (po_len _ _ Hpool) in Hi8.
  apply wp_bind. eapply wp_mono; [by apply (dma_write_spec u i buf writesize cmpl TLS_UART_1 p w s)|]. cbv beta. intros r s1 (-> & Hpool1 & Hreg & Hport1).
  apply wp_bind, wp_modify, wp_bind. set (s2 := Dma _ _ _ _ _ _ _ _).
  eapply wp_mono; [apply (transfer_complete polls (<[i := true]> u) i TLS_UART_1 (set_tx_dma_on true (set_tx_sent_callback cmpl p)) w s2)|].
  - destruct Hpool1. by split.
  - done.
  - done.
  - by vm_compute.
  - exact Hreg.
  - exact Hport1.
  - apply Hsrc.
  - apply Hctl.
  - cbv beta. intros _ s3 [Hpool3 Hport3]. apply wp_ret. split; [done|]. split; [|exact Hport3].
    by rewrite list_insert_insert_eq, list_insert_id in Hpool3.
Qed.
End transfer.
