(* ===== verification/UartMore.v ===== *)
(** * The other operations of a UART port

    How much room is left for sending, bytes put back into the ring, a look
    at how much can be read, flow control, and how long a DMA transfer is
    waited for. *)
From S2P Require Import Prelude CMonad Keeps DlList HostEnv Uart UartRing UartTx UartRx UartIrq UartRead UartProps Dma DmaProps.

Section more.
Context {E D W : Type} `{HostLaws E} `{!HostBlocks E} `{UartRegsLaws D} `{UartClient W} `{!UartMem} `{!UartMemLaws E}.
Implicit Types s : uart E D W.

(** ** Room for sending *)

Definition total_len (q : list (Z * tx_msg)) : Z := fold_left (fun n x => u16 (n + buflen (snd x))) q 0.

Lemma load_next x y s (Q : DlList.node -> uart E D W -> Prop) :
  DlList.linked (lnk s) x y -> (forall n, DlList.next n = y -> Q n s) -> wp (on_lnk (DlList.load x)) s Q.
Proof using.
  intros [(n & Hn & Hx)%DlList.nxt_Some _] HQ. apply on_lnk_spec. eapply wp_eq; [unfold DlList.load; by rewrite Hn|]. destruct s. by apply HQ.
Qed.

Lemma remain_loop h q1 q2 n s :
  DlList.dll (lnk s) h (fst <$> (q1 ++ q2)) -> Forall (fun x => msgs s !! fst x = Some (snd x)) q2 -> (length q2 < n)%nat ->
  wp (mloop n (fun '(item, buf_len) =>
    if item =? h then mret (inr buf_len)
    else
      m ← the_msg item;
      nd ← on_lnk (DlList.load item);
      mret (inl (DlList.next nd, u16 (buf_len + buflen m)))) (hd h (fst <$> q2), total_len q1)) s
    (fun r s' => s' = s /\ r = total_len (q1 ++ q2)).
Proof using.
  revert q1 n. induction q2 as [|x q2 IH]; intros q1 [|n] Hd Hm Hn; [cbn in Hn; lia| |cbn in Hn; lia|]; cbn [mloop fmap list_fmap hd]; apply wp_bind.
  - rewrite Z.eqb_refl. apply wp_ret, wp_ret. by rewrite app_nil_r.
  - pose proof Hd as [Hnd _]. rewrite fmap_app, fmap_cons in Hnd. apply NoDup_cons in Hnd as [Hh _].
    rewrite (proj2 (Z.eqb_neq _ _)) by (intros Ex; apply Hh; rewrite <- Ex; apply elem_of_app; right; left).
    apply Forall_cons in Hm as [Hx Hm]. apply wp_bind, (the_msg_spec _ (snd x)); [done|].
    pose proof Hd as Hr. rewrite fmap_app, fmap_cons in Hr. apply DlList.dll_rotate in Hr.
    apply wp_bind, (load_next _ _ _ _ (DlList.dll_first _ _ _ Hr)). intros nd Hnd. apply wp_ret. rewrite Hnd.
    replace (hd (fst x) ((fst <$> q2) ++ h :: (fst <$> q1))) with (hd h (fst <$> q2)) by by destruct q2.
    replace (u16 (total_len q1 + buflen (snd x))) with (total_len (q1 ++ [x])) by (unfold total_len; by rewrite fold_left_app).
    replace (q1 ++ x :: q2) with ((q1 ++ [x]) ++ q2) in * by by rewrite <- app_assoc.
    apply IH; [done|done|cbn in Hn; lia].
Qed.

(** The length is that of whole messages, also of those sent in part, and it
    is added up in 16 bits. *)
Lemma remain_len_spec base q s :
  sends base q s -> wp tls_uart_tx_remain_len s (fun r s' => s' = s /\ r = 512 - total_len q).
Proof.
  intros [Hl _ _ _]. pose proof (ls_pend _ _ _ _ Hl) as Hd. pose proof (ls_msgs _ _ _ _ Hl) as Hm. rewrite app_nil_r in Hm.
  unfold tls_uart_tx_remain_len. apply wp_bind, wp_gets, wp_bind, wp_gets.
  apply wp_bind, (load_next _ _ _ _ (DlList.dll_first _ _ _ Hd)). intros n0 Hn0. rewrite Hn0. apply wp_bind.
  eapply wp_mono; [apply (remain_loop _ [] q); [exact Hd| |]|].
  - eapply Forall_impl; [exact Hm|]. by intros x [].
  - pose proof (dll_size _ _ _ Hd) as Hsz. by rewrite length_fmap in Hsz.
  - cbv beta. intros r s' [-> ->]. by apply wp_ret.
Qed.

(** ** The ring *)

Lemma try_read_spec n s : wp (tls_uart_try_read n) s (fun r s' => s' = s /\ r = if n <=? zlen (content (recv (prt s))) then n else 0).
Proof using. apply wp_bind, wp_gets, wp_ret. by rewrite CIRC_CNT_mod, length_content. Qed.

(** Bytes that fit are appended; otherwise the ring is no longer a queue. *)
Lemma push_spec bs s :
  ring_ok (recv (prt s)) -> bytes_ok bs ->
  wp (tls_uart_push bs) s (fun _ s' => s' = with_prt (set_recv (stores bs (recv (prt s))) (prt s)) s /\
    (zlen (content (recv (prt s))) + zlen bs <= 511 -> content (recv (prt s')) = content (recv (prt s)) ++ bs)).
Proof using.
  intros Hr Hb. apply wp_mono with (Q := fun _ s' => s' = with_prt (set_recv (stores bs (recv (prt s))) (prt s)) s).
  2: { intros _ s' ->. split; [done|]. intros Hroom. by apply stores_content. }
  revert s Hr. induction Hb as [|b bs Hb Hbs IH]; intros s Hr; cbn [tls_uart_push].
  - apply wp_ret. destruct s as [? ? ? p ? ?]. by destruct p.
  - apply wp_bind, put_char_spec; [done|]. eapply wp_mono; [apply IH; by apply stored_ok|]. cbv beta. by intros _ s' ->.
Qed.

(** ** Flow control *)

(** Switching flow control off while the other side has stopped us starts
    sending again. *)
Lemma set_fc_status_works base q status s :
  works base q s -> wp (tls_uart_set_fc_status status) s (fun _ s' => exists k q', works base q' s' /\
    tx_log (dev s') = tx_log (dev s) ++ k /\ unsent q = k ++ unsent q' /\ rx_log (dev s') = rx_log (dev s)).
Proof.
  intros [Hr Hs]. apply wp_bind, wp_modify, wp_bind. set (s1 := Uart _ _ _ _ _ _). assert (Hs1 : sends base q s1) by by eapply sends_same.
  assert (Hfc : wp (tls_uart_set_flow_ctrl status) s1 (fun _ s' => prt s' = prt s1 /\ tx_eff base q [] q s1 s')).
  { unfold tls_uart_set_flow_ctrl. assert (Hwr : forall v, tx_eff base q [] q s1 (with_dev (reg_write UR_FC v (dev s1)) s1)).
    { intros v. apply tx_eff_refl; cbn; [|by apply write_tx_log|apply write_rx_log|done|done]. eapply sends_same; [exact Hs1|done..| |done|done|done]. by apply write_tx_cnt. }
    assert (Hsame : tx_eff base q [] q s1 s1) by by apply tx_eff_refl.
    destruct (status =? _); [apply wp_bind, wp_modify, wp_ret; split; [done|apply Hwr]|]. destruct (status =? _); [|by apply wp_ret].
    apply wp_bind, wp_gets, wp_bind. destruct (_ =? _); [apply wp_modify, wp_ret; split; [done|apply Hwr]|by apply wp_ret, wp_ret]. }
  eapply wp_mono; [exact Hfc|]. cbv beta. intros _ s2 [Hp2 He2]. apply wp_bind, wp_gets.
  assert (Hdone : forall k q' s', tx_eff base q k q' s1 s' -> exists k q', works base q' s' /\
    tx_log (dev s') = tx_log (dev s) ++ k /\ unsent q = k ++ unsent q' /\ rx_log (dev s') = rx_log (dev s)).
  { intros k q' s' (Hs' & Ht & Hu & Hrx & Hrc & _). exists k, q'. split; [split; [by rewrite Hrc|done]|]. done. }
  destruct (_ && _); [|by apply wp_ret, (Hdone [] q)]. apply wp_bind, (upd_reg_eff base q); [apply He2|done|done|]. intros d He3 _.
  apply wp_bind. eapply wp_mono; [apply (tx_chars_eff base q), He3|]. cbv beta. intros _ s4 (k & q' & He4 & _). apply wp_modify.
  set (s5 := Uart _ _ _ _ _ _). assert (Hs5 : sends base q' s5) by (eapply (sends_same base q' s4); [apply He4|done..]).
  assert (He5 : tx_eff base q' [] q' s4 s5) by by apply tx_eff_refl.
  exact (Hdone _ _ _ (tx_eff_trans _ _ _ _ _ _ _ _ _ He2 (tx_eff_trans _ _ _ _ _ _ _ _ _ He3 (tx_eff_trans _ _ _ _ _ _ _ _ _ He4 He5)))).
Qed.
End more.

(** ** Waiting for a transfer *)

Lemma dma_wait_returns {D F W} `{DmaRegs D} ch (s : dma D F W) :
  wp (tls_dma_wait_complt ch) s (fun r s' => (r = 0 \/ r = -1) /\ s' = with_ctl (ctl s') s).
Proof.
  apply (wp_loop (fun t s' => 0 <= t <= 500 /\ s' = with_ctl (ctl s') s) (fun t => Z.to_nat (501 - t))); [cbn; lia|split; [lia|by destruct s]|].
  intros t s1 [Ht Hs1]. apply wp_bind, dma_rd_spec. destruct (_ =? 0).
  - apply wp_ret. split; [by left|]. rewrite Hs1. done.
  - apply wp_bind, wp_modify. destruct (Z.ltb_spec 500 (t + 1)).
    + apply wp_ret. split; [by right|]. rewrite Hs1. done.
    + apply wp_ret. split; [lia|]. split; [lia|]. rewrite Hs1. done.
Qed.
