(* ===== verification/DmaWitness.v ===== *)
(** * The DMA driver and its client at concrete inputs *)
From S2P Require Import Prelude CMonad Keeps DlList HostEnv Uart UartRing UartTx UartRx UartIrq UartRead UartProps UartRecv UartInit UartBoard UartWitness Dma DmaProps UartDma.
Import BumpHost SimUart.

(** A controller that remembers which channels are on and what is pending. *)
Module SimDma.
Record simd := Simd { dpend : Z; don : Z }.

#[global] Instance simd_regs : DmaRegs simd := {
  dma_read r d := match r with
    | INT_SRC => (u32 (dpend d), d)
    | CHNL_CTRL ch => (if Z.testbit (don d) ch then 1 else 0, d)
    | _ => (0, d)
    end;
  dma_write r v d := match r with
    | INT_SRC => Simd (u32 (dpend d) &&& Z.lnot v) (don d)
    | CHNL_CTRL ch => if v &&& DMA_CHNL_CTRL_CHNL_OFF =? 0 then Simd (dpend d) (don d ||| (v &&& 1) ≪ ch) else Simd (dpend d) (Z.clearbit (don d) ch)
    | _ => d
    end;
  dma_tick d := d
}.

#[global] Program Instance simd_laws : DmaLaws simd := {| pend d := u32 (dpend d); off_wait := 1 |}.
Next Obligation. done. Qed.
Next Obligation.
  intros v d i Hv. cbn. assert (Hw : 0 <= u32 (dpend d) < 2 ^ 32) by (unfold wrap; by apply Z.mod_pos_bound).
  pose proof (land_bounds_l 32 (u32 (dpend d)) (Z.lnot v) ltac:(lia) Hw).
  rewrite wrap_id by lia. rewrite Z.land_spec. destruct (Z.lt_ge_cases i 0); [by rewrite Z.testbit_neg_r in Hv|]. by rewrite Z.lnot_spec, Hv, andb_false_r by lia.
Qed.
Next Obligation. intros [] d i; cbn; done. Qed.
Next Obligation. intros [] v d i Hr; cbn; try done. by destruct (_ =? 0). Qed.
Next Obligation. intros d. unfold wrap. by apply Z.mod_pos_bound. Qed.
Next Obligation.
  intros ch v d Hv. exists O. split; [lia|]. cbn. rewrite (proj2 (Z.eqb_neq _ _)) by done. cbn.
  destruct (Z.lt_ge_cases ch 0); [by rewrite Z.testbit_neg_r|]. by rewrite Z.clearbit_eq by lia.
Qed.
End SimDma.
Import SimDma.

(** Channel 0 is another driver's. *)
Definition no_context : dma_irq_context dma_fn := Ctx 0 None 0 None 0.
Definition sample_pool : list bool := true :: replicate 7 false.
Definition sample_dma {W} (w : W) : dma simd dma_fn W :=
  Dma 1 (0x85 :: replicate 7 0) (replicate 8 no_context) (replicate 8 0) (Simd 0 1) true {[4]} w.

Lemma sample_pool_of {W} (w : W) : pool_of sample_pool (sample_dma w).
Proof.
  split; [reflexivity|reflexivity|cbn; lia| |reflexivity]. intros i Hi. do 8 (destruct i as [|i]; [reflexivity|]). lia.
Qed.

(** 3 is free, 0 is not, 3 comes back, nothing is left for the ninth. *)
Definition sample_ops : list pool_op :=
  [Request 3 5; Request 0 9; Release 3; Request 255 5; Request 255 5; Request 255 5; Request 255 5; Request 255 5; Request 255 5; Request 255 5].

Lemma dma_channels_are_a_pool_witness :
  fst (pool_run sample_ops sample_pool) = [3; 1; 0; 2; 3; 4; 5; 6; 7; 255] /\
  wp (code_run 1 sample_ops) (sample_dma tt) (fun rs s' => rs = fst (pool_run sample_ops sample_pool) /\ pool_of (snd (pool_run sample_ops sample_pool)) s').
Proof.
  split; [vm_compute; reflexivity|]. apply (dma_channels_are_a_pool sample_pool 1 sample_ops (sample_dma tt)).
  - apply sample_pool_of.
  - repeat constructor; vm_compute; congruence.
  - cbn. lia.
Defined.

(** Port 1 and channel 1: its transfer is done, and channels 0 and 5 show
    something too. *)
Definition channel_done (d : simd) : simd := Simd ((TLS_DMA_IRQ_TRANSFER_DONE ≪ 2) ||| TLS_DMA_IRQ_BURST_DONE ||| (TLS_DMA_IRQ_BOTH_DONE ≪ 10)) 1.

Lemma uart_dma_transfer_witness :
  wp (r ← tls_uart_dma_write 0x20004000 100 7 TLS_UART_1; set_controller channel_done ;; dma_irq_proc (run_dma 1) 1 1 ;; mret r) (sample_dma sample_board) (fun r s' =>
    r = WM_SUCCESS /\ pool_of sample_pool s' /\
    port_is TLS_UART_1 (set_tx_dma_on false (set_tx_sent_callback 7 (sample_port 1 0 400 0 the_ring))) (if 7 =? 0 then 0 else tx_called 7 TLS_UART_1 0) s').
Proof.
  apply (uart_dma_transfer sample_pool 1 0x20004000 100 7 (sample_port 1 0 400 0 the_ring) 0 channel_done 1 (sample_dma sample_board)).
  - apply sample_pool_of.
  - vm_compute. reflexivity.
  - reflexivity.
  - split; [by vm_compute|]. split; [by eexists|reflexivity].
  - reflexivity.
  - congruence.
  - lia.
  - cbn. lia.
  - intros d. split; [by vm_compute|]. intros j Hj. lia.
  - intros d. reflexivity.
Defined.
